(* ===== verification/_CoqProject ===== *)
-Q . S2P
Prelude.v
CString.v
Riscv.v
Spinlock.v
Locks.v
Stops.v
Dll.v
Bio.v
BioView.v
Block.v
Log.v
Kmem.v
Lru.v
Vm.v
Pagetable.v
UserMem.v
Paging.v
Fs.v
FsPath.v
Trap.v
TrapSpec.v
Boot.v
Proc.v
ProcSpec.v
Sleep.v
Pipe.v
PipeFifo.v
Ring.v
Uart.v
Console.v
ConsoleSpec.v
Virtio.v
VirtioDesc.v
VirtioSpec.v
Umalloc.v
UmallocSpec.v
Grep.v
Printf.v
PrintfSpec.v
Shell.v
ShellSpec.v
ShellRun.v
FsDisk.v
FsBlocks.v
FsInode.v
FsFile.v
FsWrite.v
FsReal.v
FsCrash.v
FsSpec.v
File.v
Args.v
SysFile.v
SysRefs.v
Syscall.v
SysCalls.v
SysToy.v
Exec.v
ExecSpec.v
