(* ===== verification/Prelude.v ===== *)
(** * xv6-riscv with page swapping: a verification development

    The program is the teaching kernel xv6 for RISC-V ([src/xv6-riscv]), extended with
    demand swapping of user pages: an LRU list of user pages, a clock algorithm that
    chooses a victim, eviction to a swap area of the disk, and page-in on a fault.  This
    library translates the C code of the kernel into Rocq, file by file, and proves what
    the parts promise each other.

    ** How the code is translated

    A routine that runs on a state [S] and returns an [A] has type [M S A]
    ([Prelude.v]): it returns, panics with the message of the C code, waits (a lock held
    elsewhere, [sleep]), does something undefined (null pointer, index out of range), or
    runs out of the fuel of the model's loops.  A C loop is [loop] or [for_], with fuel
    that the theorems show to be enough: total-correctness triples [wp m Q s] say that [m]
    returns.  Where the layers below may panic or sleep (a page-table walk of a bad address, an
    empty pipe), [goes m Q s] of [Stops.v] says that [m] returns with [Q] or stops in one of the
    ways these layers are allowed to.  Integers are [Z] with their wrap-around written out ([u32], [u64], [i32],
    ...); structs are records; C arrays are lists or finite maps; pointers are table indices or
    addresses with 0 or [None] for null; memory is a map of bytes.  A component calls
    another one through a class of operations (its environment); a second class states
    what these operations promise, and the theorems are proved against it.

    ** Files, in order

    - [Prelude]: outcomes, the monad, loops, machine integers, [wp], automation.
    - [CString]: [string.c] and the string routines of [user/ulib.c] over any byte memory.
    - [Riscv]: constants and page-table entries of [riscv.h], [memlayout.h], [param.h].
    - [Spinlock]: [spinlock.c]: module [Spin] is the code, [Lk] its abstraction to the set of
      held locks with a refinement theorem, [Contend] interleaved harts.
    - [Locks]: [acquire]/[release] as other components use them, and [sleeplock.c].
    - [Stops]: correctness of code on top of layers that may panic or sleep.
    - [Dll]: doubly linked lists, shared by the buffer cache and the page list.
    - [Bio], [BioView]: [bio.c], and the cache as its clients see it.
    - [Block], [Log]: fields of disk blocks; [log.c], commits, recovery and crashes.
    - [Kmem], [Lru]: the page allocator [kalloc.c], the page list and swap slots of [vm.c].
    - [Vm], [Pagetable], [UserMem], [Paging]: [vm.c], [kalloc], [swapread]/[swapwrite]; three-level
      page tables as trees; copying to and from user memory; mapping and eviction together.
    - [Fs], [FsPath], [FsDisk], [FsBlocks], [FsInode], [FsFile], [FsWrite]: [fs.c]; path names; the
      interface of the layers below; the free-block bitmap, inodes, a file's blocks and bytes.
    - [FsReal], [FsCrash], [FsSpec]: that interface implemented by the buffer cache and the log; a
      file write and a crash; the file system's properties.
    - [Trap], [TrapSpec]: [trap.c] with the supervisor registers, and what it does to the process.
    - [Boot]: [start.c], [main.c], [plic.c], with the harts interleaved.
    - [Proc], [ProcSpec], [Sleep]: [proc.c]; what [sleep], [wakeup] and [wait] do; sleepers and
      a waker interleaved.
    - [Pipe], [PipeFifo]: [pipe.c], and a pipe as a bounded queue.
    - [Ring], [Uart], [Console], [ConsoleSpec]: ring buffers with wrapping counters; [uart.c],
      [console.c], and the line editor and transmit queue they implement.
    - [Virtio], [VirtioDesc], [VirtioSpec]: [virtio_disk.c]; descriptors; the driver against a
      device that follows the virtio protocol.
    - [File], [Args], [SysFile], [Syscall]: [file.c], [syscall.c], [sysfile.c], [sysproc.c].
    - [SysRefs], [SysCalls], [SysToy]: references, locks and transactions across the file system
      calls, and a small instance of the layers below.
    - [Exec], [ExecSpec]: [exec.c], and what it does to the process and its page tables.
    - [Umalloc], [UmallocSpec]: [user/umalloc.c] over the headers in memory.
    - [Grep]: [user/grep.c], the meaning of patterns and the filter.
    - [Printf], [PrintfSpec]: [kernel/printf.c] and [user/printf.c].
    - [Shell], [ShellSpec], [ShellRun]: the parser of [user/sh.c]; lines and commands; [runcmd] and
      [main] as trees of system calls, run by interleaved processes.

    ** What the theorems show

    Crash safety: a file write through the real buffer cache and log is on disk wholly or not at
    all after a crash at any point of its commit ([FsCrash.crash_safe_write], on
    [Log.commit_atomic]); reservations keep the log from overflowing, on a disk whose log
    holds LOGSIZE blocks ([Log.log_has_room], runs of [begin_op], [log_write] and [end_op]).
    Files: what is written is read back ([FsSpec.write_read]); blocks are handed out and given back
    ([FsSpec.balloc_bfree]); path elements ([FsPath.skipelem_spec], for paths
    shorter than 2^31, where the C [int len] does not wrap).
    Memory: page tables map exactly what was asked for and are taken down again
    ([Paging.map_translate_unmap]), user copies round-trip ([UserMem.copyout_copyin]), the
    page allocator starts with every page once ([Kmem.kinit_spec]); the user allocator's blocks are
    disjoint and its free list joined ([UmallocSpec.malloc_spec], [UmallocSpec.free_spec]).
    Devices: what the disk driver's callers see (requests with block and direction, the buffers at
    the return) is a run of asynchronous block transfers ([VirtioSpec.virtio_refines],
    [virtio_progress], [virtio_loops_end]); the console's line editing, reading and transmit queue
    ([ConsoleSpec.consoleintr_edits], [consoleread_lines], [uart_tx_fifo]); traps
    ([TrapSpec.usertrap_resumes], [kerneltrap_transparent], [usertrap_kills]); the boot of all harts
    ([Boot.boot_ready]).
    Concurrency: mutual exclusion ([Spinlock.Contend.mutual_exclusion]), no lost wakeup
    ([Sleep.no_lost_wakeup]), pipes as queues under any interleaving ([PipeFifo.pipe_fifo]).
    Processes and calls: [wait] for every address, the failing copy of the status included
    ([ProcSpec.wait_spec]); [exec] ([ExecSpec.exec_spec]) and every file system call, which returns,
    unless a layer below panics or sleeps, with transactions, locks and references balanced on all
    paths ([SysCalls.file_calls_balanced]).
    User programs: the shell's parser ends on every line and reads printed commands back
    ([ShellSpec.parsecmd_ends_on_every_line], [parsecmd_show]); its processes start exactly the
    programs of the lines with the right descriptors, wait for the children they should, and do not
    hang although readers of a pipe wait for its writing ends to be closed
    ([ShellRun.runcmd_wiring], [shell_session]); [grep] matches and filters
    ([Grep.match_spec], [grep_filters]); printed numbers read back
    ([PrintfSpec.printint_roundtrip]).
    Defects: where the code does not do what it means to, a theorem or lemma states what it does
    instead ([Lru.lru_remove_last_leaks], [Lru.lru_remove_middle_breaks],
    [Lru.second_chance_loses_vaddr], [Paging.evict_slot_mismatch], [Paging.swapwrite_panics],
    [TrapSpec.page_in_panics], [TrapSpec.fault_above_maxva_panics], [UserMem.copyin_panics],
    [UmallocSpec.malloc_huge], [PrintfSpec.printf_u_overflows], [PrintfSpec.user_long_truncated]).

    ** Bounds and fuel

    Loops over a table have the table's size as fuel, loops over a byte range its length,
    loops over pages the number of pages plus two.  [skip_while], [strlen] and the routines of
    [user/ulib.c] have no bound in the code: their fuel is an argument, and theorems say which
    is enough.  [kalloc] calls itself through eviction: its fuel counts the nesting.
    The shell's parser has four times the line's length plus four for its nested calls, and the
    line's length plus one for each of its loops; its [main] one prompt for each character of the input and one
    more: in each case a theorem shows that it is enough.

    ** Not modelled

    The assembly files ([entry.S], [kernelvec.S], [swtch.S], [trampoline.S], [initcode.S]); the
    registers behind [plic_claim] and [plic_complete], which are operations of the trap handler's
    interface; printing of messages where only the outcome matters ([procdump],
    [print_swap_stats]); and the user programs other than [sh], [grep], [umalloc], [printf]
    and the string library: they are short clients of the system calls, or tests. *)

From Stdlib Require Import ZArith Lia.
From stdpp Require Import base numbers list strings gmap.

#[global] Open Scope Z_scope.

(** ** Outcomes of kernel code

    A kernel routine runs on a state [S].  It either returns, or stops the
    machine with [panic()], or waits for another agent (a spin lock held
    elsewhere, [sleep()]), or does something C leaves undefined (an access
    outside an array, a null pointer), or exceeds the fuel given to the model's
    loops. *)

Inductive outcome (S A : Type) : Type :=
| Ret (a : A) (s : S)
| Panic (msg : string) (s : S)
| Block (s : S)
| Undef
| NoFuel.
Arguments Ret {S A} a s.
Arguments Panic {S A} msg s.
Arguments Block {S A} s.
Arguments Undef {S A}.
Arguments NoFuel {S A}.

Definition M (S A : Type) : Type := S -> outcome S A.

#[export] Instance M_ret S : MRet (M S) := fun A a s => Ret a s.
#[export] Instance M_bind S : MBind (M S) := fun A B k m s =>
  match m s with
  | Ret a s' => k a s'
  | Panic e s' => Panic e s'
  | Block s' => Block s'
  | Undef => Undef
  | NoFuel => NoFuel
  end.

Definition panic {S A} (msg : string) : M S A := fun s => Panic msg s.
Definition block {S A} : M S A := fun s => Block s.
Definition undef {S A} : M S A := fun _ => Undef.
Definition nofuel {S A} : M S A := fun _ => NoFuel.
Definition gets {S A} (f : S -> A) : M S A := fun s => Ret (f s) s.
Definition modify {S} (f : S -> S) : M S unit := fun s => Ret tt (f s).
Definition mwhen {S} (b : bool) (m : M S unit) : M S unit :=
  if b then m else mret tt.

(** A value that C code assumes to be there: an element in range, a pointer that
    is not null. *)
Definition the {S A} (o : option A) : M S A :=
  match o with Some a => mret a | None => undef end.

(** Running a routine of a component inside a larger state: [get] selects the
    component's state and [put] stores it back. *)
Definition zoom {S T A} (get : S -> T) (put : T -> S -> S) (m : M T A) : M S A :=
  fun s =>
    match m (get s) with
    | Ret a t => Ret a (put t s)
    | Panic e t => Panic e (put t s)
    | Block t => Block (put t s)
    | Undef => Undef
    | NoFuel => NoFuel
    end.

(** A loop: the body maps the loop's variables to new values ([inl], go
    round again) or leaves the loop with a result ([inr]). *)
Fixpoint loop {S L A} (fuel : nat) (body : L -> M S (L + A)) (l : L) : M S A :=
  match fuel with
  | O => nofuel
  | Datatypes.S n =>
      r ← body l;
      match r with
      | inl l' => loop n body l'
      | inr a => mret a
      end
  end.

(** [for (i = start; ...; i += step) body] executed [n] times. *)
Fixpoint for_ {S} (n : nat) (i step : Z) (body : Z -> M S unit) : M S unit :=
  match n with
  | O => mret tt
  | Datatypes.S n' => body i;; for_ n' (i + step) step body
  end.

(** ** Machine integers *)

Definition u8 (x : Z) : Z := x mod 2 ^ 8.
Definition u16 (x : Z) : Z := x mod 2 ^ 16.
Definition u32 (x : Z) : Z := x mod 2 ^ 32.
Definition u64 (x : Z) : Z := x mod 2 ^ 64.
Definition i8 (x : Z) : Z := (x + 2 ^ 7) mod 2 ^ 8 - 2 ^ 7.
Definition i16 (x : Z) : Z := (x + 2 ^ 15) mod 2 ^ 16 - 2 ^ 15.
Definition i32 (x : Z) : Z := (x + 2 ^ 31) mod 2 ^ 32 - 2 ^ 31.
Definition i64 (x : Z) : Z := (x + 2 ^ 63) mod 2 ^ 64 - 2 ^ 63.

Lemma i32_id x : - 2 ^ 31 <= x < 2 ^ 31 -> i32 x = x.
Proof. intros. unfold i32. rewrite Z.mod_small; lia. Qed.

(** [x & flag] used as a condition. *)
Definition tst (x flag : Z) : bool := negb (Z.land x flag =? 0).

(** ** Total correctness

    [wp m Q s]: run from [s], [m] returns, and its result and final state
    satisfy [Q]. *)

Definition wp {S A} (m : M S A) (Q : A -> S -> Prop) (s : S) : Prop :=
  match m s with
  | Ret a s' => Q a s'
  | _ => False
  end.

Definition panics {S A} (m : M S A) (msg : string) (s : S) : Prop :=
  match m s with
  | Panic e _ => e = msg
  | _ => False
  end.

Section wp_rules.
Context {S : Type}.
Implicit Types s : S.

Lemma wp_ret {A} (a : A) (Q : A -> S -> Prop) s : Q a s -> wp (mret a) Q s.
Proof. done. Qed.

Lemma wp_gets {A} (f : S -> A) (Q : A -> S -> Prop) s :
  Q (f s) s -> wp (gets f) Q s.
Proof. done. Qed.

Lemma wp_modify (f : S -> S) (Q : unit -> S -> Prop) s :
  Q tt (f s) -> wp (modify f) Q s.
Proof. done. Qed.

Lemma wp_bind {A B} (m : M S A) (k : A -> M S B) (Q : B -> S -> Prop) s :
  wp m (fun a s' => wp (k a) Q s') s -> wp (m ≫= k) Q s.
Proof. unfold wp, mbind, M_bind. by destruct (m s). Qed.

Lemma wp_bind_inv {A B} (m : M S A) (k : A -> M S B) (Q : B -> S -> Prop) s :
  wp (m ≫= k) Q s -> wp m (fun a s' => wp (k a) Q s') s.
Proof. unfold wp, mbind, M_bind. by destruct (m s). Qed.

Lemma wp_mono {A} (m : M S A) (P Q : A -> S -> Prop) s :
  wp m P s -> (forall a s', P a s' -> Q a s') -> wp m Q s.
Proof. unfold wp. destruct (m s); auto. Qed.

Lemma wp_Ret {A} (m : M S A) (Q : A -> S -> Prop) s a s' :
  m s = Ret a s' -> Q a s' -> wp m Q s.
Proof. unfold wp. by intros ->. Qed.

Lemma wp_exists {A} (m : M S A) (Q : A -> S -> Prop) s :
  wp m Q s <-> exists a s', m s = Ret a s' /\ Q a s'.
Proof.
  unfold wp. split.
  - destruct (m s) as [a s'| | | |]; [|done..]. by exists a, s'.
  - by intros (a & s' & -> & ?).
Qed.

Lemma wp_when (b : bool) (m : M S unit) (Q : unit -> S -> Prop) s :
  (b = true -> wp m Q s) -> (b = false -> Q tt s) -> wp (mwhen b m) Q s.
Proof. destruct b; cbn; auto. Qed.

Lemma wp_the {A} (o : option A) a (Q : A -> S -> Prop) s : o = Some a -> Q a s -> wp (the o) Q s.
Proof. by intros ->. Qed.

Lemma bind_Ret {A B} (m : M S A) (k : A -> M S B) s a s' : m s = Ret a s' -> (m ≫= k) s = k a s'.
Proof. unfold mbind, M_bind. by intros ->. Qed.

Lemma panics_bind_l {A B} (m : M S A) (k : A -> M S B) e s :
  panics m e s -> panics (m ≫= k) e s.
Proof. unfold panics, mbind, M_bind. by destruct (m s). Qed.

Lemma panics_bind_r {A B} (m : M S A) (k : A -> M S B) e s :
  wp m (fun a s' => panics (k a) e s') s -> panics (m ≫= k) e s.
Proof. unfold wp, panics, mbind, M_bind. by destruct (m s). Qed.

(** A loop whose body keeps [I] and lowers the measure [mu] returns. *)
Lemma wp_loop {L A} (body : L -> M S (L + A)) (I : L -> S -> Prop)
    (mu : L -> S -> nat) (Q : A -> S -> Prop) :
  (forall l s, I l s ->
    wp (body l) (fun r s' =>
      match r with
      | inl l' => I l' s' /\ (mu l' s' < mu l s)%nat
      | inr a => Q a s'
      end) s) ->
  forall fuel l s, I l s -> (mu l s < fuel)%nat -> wp (loop fuel body l) Q s.
Proof.
  intros Hbody fuel. induction fuel as [|n IH]; intros l s HI Hmu; [lia|].
  cbn. apply wp_bind. eapply wp_mono; [by apply Hbody|].
  intros [l'|a] s' H; [|done]. destruct H as [HI' Hlt].
  apply IH; [done|lia].
Qed.

(** A counted loop: [I k] holds after [k] turns. *)
Lemma wp_for (body : Z -> M S unit) (I : Z -> S -> Prop) n i step s :
  I 0 s ->
  (forall k s', 0 <= k < Z.of_nat n -> I k s' ->
     wp (body (i + k * step)) (fun _ s'' => I (k + 1) s'') s') ->
  wp (for_ n i step body) (fun _ s' => I (Z.of_nat n) s') s.
Proof.
  intros H0 Hbody.
  cut (forall m k s', k + Z.of_nat m = Z.of_nat n -> 0 <= k -> I k s' ->
    wp (for_ m (i + k * step) step body) (fun _ s'' => I (Z.of_nat n) s'') s').
  { intros Hc. specialize (Hc n 0 s). rewrite Z.mul_0_l, Z.add_0_r in Hc. apply Hc; [lia..|done]. }
  induction m as [|m IH]; intros k s' Hk Hk0 HI; cbn [for_].
  - apply wp_ret. by replace (Z.of_nat n) with k by lia.
  - apply wp_bind. eapply wp_mono; [apply Hbody; [lia|done]|].
    intros u s'' HI'. cbn beta in *.
    replace (i + k * step + step) with (i + (k + 1) * step) by lia.
    apply IH; [lia|lia|done].
Qed.
End wp_rules.

Lemma wp_zoom {S T A} (get : S -> T) (put : T -> S -> S) (m : M T A)
    (Q : A -> S -> Prop) s :
  wp m (fun a t => Q a (put t s)) (get s) -> wp (zoom get put m) Q s.
Proof. unfold wp, zoom. by destruct (m (get s)). Qed.

(** ** Automation *)

Create HintDb xv6.

(** One step of a [wp] proof. *)
Ltac wp_step :=
  lazymatch goal with
  | |- wp (mbind _ _) _ _ => apply wp_bind
  | |- wp (mret _) _ _ => apply wp_ret
  | |- wp (gets _) _ _ => apply wp_gets
  | |- wp (modify _) _ _ => apply wp_modify
  | |- wp (mwhen _ _) _ _ => apply wp_when; intros ?
  | |- wp (zoom _ _ _) _ _ => apply wp_zoom
  | |- wp (if ?b then _ else _) _ _ => destruct b eqn:?
  end.
Ltac wp_steps := repeat (wp_step; cbn beta iota).

(** Boolean tests of the code turned into propositions. *)
Ltac to_prop :=
  repeat match goal with
  | H : (_ =? _) = true |- _ => apply Z.eqb_eq in H
  | H : (_ =? _) = false |- _ => apply Z.eqb_neq in H
  | H : (_ <? _) = true |- _ => apply Z.ltb_lt in H
  | H : (_ <? _) = false |- _ => apply Z.ltb_ge in H
  | H : (_ <=? _) = true |- _ => apply Z.leb_le in H
  | H : (_ <=? _) = false |- _ => apply Z.leb_gt in H
  | H : (_ && _) = true |- _ => apply andb_true_iff in H as [? ?]
  | H : (_ || _) = false |- _ => apply orb_false_iff in H as [? ?]
  | H : negb _ = true |- _ => apply negb_true_iff in H
  | H : negb _ = false |- _ => apply negb_false_iff in H
  end.

(** [lia] with quotients and remainders by constants. *)
Ltac dlia := Z.to_euclidean_division_equations; lia.
