(* ===== verification/CString.v ===== *)
(** * Byte memory and the string routines

    [kernel/string.c] and the string part of [user/ulib.c], written over an
    abstract byte-addressed memory (class [ByteMem]).  Addresses are integers, bytes are integers in
    [0, 256), and plain [char] is unsigned, as in the RISC-V ABI. *)

From Stdlib Require Import ZArith Lia.
From stdpp Require Import base numbers list gmap.
From S2P Require Import Prelude.

(** What the string routines rely on: a memory of bytes. *)
Class ByteMem (B : Type) := {
  rd8 : B -> Z -> Z;
  wr8 : B -> Z -> Z -> B;
  rd8_range : forall m a, 0 <= rd8 m a < 256;
  rd8_wr8_eq : forall m a v, rd8 (wr8 m a v) a = u8 v;
  rd8_wr8_ne : forall m a b v, a <> b -> rd8 (wr8 m a v) b = rd8 m b;
}.

Section string_c.
Context {B : Type} `{ByteMem B}.
Implicit Types m : B.

(** [kernel/string.c: memset] *)
Fixpoint memset_loop m (dst c i : Z) (n : nat) : B :=
  match n with
  | O => m
  | S n' => memset_loop (wr8 m (dst + i) c) dst c (i + 1) n'
  end.
Definition memset m (dst c n : Z) : B := memset_loop m dst c 0 (Z.to_nat (u32 n)).

(** [kernel/string.c: memcmp] *)
Fixpoint memcmp_loop m (s1 s2 : Z) (n : nat) : Z :=
  match n with
  | O => 0
  | S n' =>
      if negb (rd8 m s1 =? rd8 m s2) then rd8 m s1 - rd8 m s2
      else memcmp_loop m (s1 + 1) (s2 + 1) n'
  end.
Definition memcmp m (v1 v2 n : Z) : Z := memcmp_loop m v1 v2 (Z.to_nat (u32 n)).

(** [while(n-- > 0) *--d = *--s;] *)
Fixpoint copy_back m (d s : Z) (n : nat) : B :=
  match n with
  | O => m
  | S n' => copy_back (wr8 m (d - 1) (rd8 m (s - 1))) (d - 1) (s - 1) n'
  end.
(** [while(n-- > 0) *d++ = *s++;] *)
Fixpoint copy_forw m (d s : Z) (n : nat) : B :=
  match n with
  | O => m
  | S n' => copy_forw (wr8 m d (rd8 m s)) (d + 1) (s + 1) n'
  end.

(** [kernel/string.c: memmove] *)
Definition memmove m (dst src n : Z) : B :=
  let n := u32 n in
  if n =? 0 then m
  else if (src <? dst) && (dst <? src + n)
  then copy_back m (dst + n) (src + n) (Z.to_nat n)
  else copy_forw m dst src (Z.to_nat n).

(** [kernel/string.c: memcpy] *)
Definition memcpy m (dst src n : Z) : B := memmove m dst src n.

(** [kernel/string.c: strncmp] *)
Fixpoint strncmp_loop m (p q : Z) (n : nat) : Z :=
  match n with
  | O => 0
  | S n' =>
      if negb (rd8 m p =? 0) && (rd8 m p =? rd8 m q)
      then strncmp_loop m (p + 1) (q + 1) n'
      else rd8 m p - rd8 m q
  end.
Definition strncmp m (p q n : Z) : Z := strncmp_loop m p q (Z.to_nat (u32 n)).

(** [kernel/string.c: strncpy]; the first loop copies up to and including
    the NUL, the second one pads what is left of [n]. *)
Fixpoint strncpy_pad m (s : Z) (n : nat) : B :=
  match n with
  | O => m
  | S n' => strncpy_pad (wr8 m s 0) (s + 1) n'
  end.
Fixpoint strncpy_loop m (s t : Z) (n : nat) : B :=
  match n with
  | O => m
  | S n' =>
      let c := rd8 m t in
      let m' := wr8 m s c in
      if c =? 0 then strncpy_pad m' (s + 1) n'
      else strncpy_loop m' (s + 1) (t + 1) n'
  end.
Definition strncpy m (s t n : Z) : B := strncpy_loop m s t (Z.to_nat n).

(** [kernel/string.c: safestrcpy]; [n] counts the remaining room less one. *)
Fixpoint safestrcpy_loop m (s t : Z) (n : nat) : B :=
  match n with
  | O => wr8 m s 0
  | S n' =>
      let c := rd8 m t in
      let m' := wr8 m s c in
      if c =? 0 then wr8 m' (s + 1) 0
      else safestrcpy_loop m' (s + 1) (t + 1) n'
  end.
Definition safestrcpy m (s t n : Z) : B :=
  if n <=? 0 then m else safestrcpy_loop m s t (Z.to_nat (n - 1)).

(** [kernel/string.c: strlen] (also [user/ulib.c]); the scan for the NUL has
    no bound in the code, [fuel] bounds it here. *)
Fixpoint strlen_loop (fuel : nat) m (s n : Z) : option Z :=
  match fuel with
  | O => None
  | S f => if rd8 m (s + n) =? 0 then Some n else strlen_loop f m s (n + 1)
  end.
Definition strlen (fuel : nat) m (s : Z) : option Z := strlen_loop fuel m s 0.
End string_c.

Section ulib_c.
Context {B : Type} `{ByteMem B}.
Implicit Types m : B.

(** [user/ulib.c: strcpy] *)
Fixpoint ustrcpy (fuel : nat) m (s t : Z) : option B :=
  match fuel with
  | O => None
  | S f =>
      let c := rd8 m t in
      let m' := wr8 m s c in
      if c =? 0 then Some m' else ustrcpy f m' (s + 1) (t + 1)
  end.

(** [user/ulib.c: strcmp] *)
Fixpoint ustrcmp (fuel : nat) m (p q : Z) : option Z :=
  match fuel with
  | O => None
  | S f =>
      if negb (rd8 m p =? 0) && (rd8 m p =? rd8 m q)
      then ustrcmp f m (p + 1) (q + 1)
      else Some (rd8 m p - rd8 m q)
  end.

(** [user/ulib.c: strchr]; the null pointer is 0. *)
Fixpoint ustrchr (fuel : nat) m (s c : Z) : option Z :=
  match fuel with
  | O => None
  | S f =>
      if rd8 m s =? 0 then Some 0
      else if rd8 m s =? u8 c then Some s
      else ustrchr f m (s + 1) c
  end.

(** [user/ulib.c: atoi] on [int]. *)
Fixpoint uatoi_loop (fuel : nat) m (s n : Z) : option Z :=
  match fuel with
  | O => None
  | S f =>
      if (48 <=? rd8 m s) && (rd8 m s <=? 57)
      then uatoi_loop f m (s + 1) (i32 (i32 (n * 10) + rd8 m s - 48))
      else Some n
  end.
Definition uatoi (fuel : nat) m (s : Z) : option Z := uatoi_loop fuel m s 0.

(** [user/ulib.c: memmove]: the direction is chosen by comparing the
    pointers only. *)
Definition umemmove m (vdst vsrc n : Z) : B :=
  if vdst <? vsrc then copy_forw m vdst vsrc (Z.to_nat n)
  else copy_back m (vdst + Z.max 0 n) (vsrc + Z.max 0 n) (Z.to_nat n).
End ulib_c.

(** ** Lemmas *)

Section string_facts.
Context {B : Type} `{ByteMem B}.
Implicit Types m : B.

(** [n] bytes of [m] at [p]. *)
Definition bytes m (p : Z) (n : nat) : list Z :=
  (fun i => rd8 m (p + Z.of_nat i)) <$> seq 0 n.

(** A C string [bs] at [p]: its bytes are not NUL and a NUL follows. *)
Definition cstring m (p : Z) (bs : list Z) : Prop :=
  bytes m p (length bs) = bs /\ Forall (fun b => b <> 0) bs /\
  rd8 m (p + Z.of_nat (length bs)) = 0.

Lemma rd8_u8 m a : u8 (rd8 m a) = rd8 m a.
Proof. unfold u8. apply Z.mod_small. pose proof (rd8_range m a). lia. Qed.

Lemma rd8_wr8 m a v b :
  rd8 (wr8 m a v) b = if decide (a = b) then u8 v else rd8 m b.
Proof. case_decide; subst; [apply rd8_wr8_eq|by apply rd8_wr8_ne]. Qed.

Lemma rd8_memset_loop m dst c i n a :
  rd8 (memset_loop m dst c i n) a =
    if decide (dst + i <= a < dst + i + Z.of_nat n) then u8 c else rd8 m a.
Proof.
  revert m i. induction n as [|n IH]; intros m i; cbn [memset_loop].
  - case_decide; [lia|done].
  - rewrite IH, rd8_wr8. repeat case_decide; try done; lia.
Qed.

Lemma rd8_memset m dst c n a : 0 <= n < 2 ^ 32 ->
  rd8 (memset m dst c n) a =
    if decide (dst <= a < dst + n) then u8 c else rd8 m a.
Proof.
  intros Hn. unfold memset, u32. rewrite Z.mod_small by done.
  rewrite rd8_memset_loop. repeat case_decide; try done; lia.
Qed.

Lemma rd8_copy_forw m d s n a :
  d <= s \/ s + Z.of_nat n <= d ->
  rd8 (copy_forw m d s n) a =
    if decide (d <= a < d + Z.of_nat n) then rd8 m (s + (a - d)) else rd8 m a.
Proof.
  revert m d s. induction n as [|n IH]; intros m d s Hds; cbn [copy_forw].
  - case_decide; [lia|done].
  - rewrite IH by lia. rewrite !rd8_wr8, rd8_u8.
    repeat case_decide; subst; try lia; f_equal; lia.
Qed.

Lemma rd8_copy_back m d s n a :
  s <= d \/ d <= s - Z.of_nat n ->
  rd8 (copy_back m d s n) a =
    if decide (d - Z.of_nat n <= a < d) then rd8 m (s + (a - d)) else rd8 m a.
Proof.
  revert m d s. induction n as [|n IH]; intros m d s Hds; cbn [copy_back].
  - case_decide; [lia|done].
  - rewrite IH by lia. rewrite !rd8_wr8, rd8_u8.
    repeat case_decide; subst; try lia; f_equal; lia.
Qed.

Lemma rd8_memmove m dst src n a : 0 <= n < 2 ^ 32 ->
  rd8 (memmove m dst src n) a =
    if decide (dst <= a < dst + n) then rd8 m (src + (a - dst)) else rd8 m a.
Proof.
  intros Hn. unfold memmove, u32. rewrite Z.mod_small by done.
  destruct (n =? 0) eqn:E0; to_prop.
  { subst. case_decide; [lia|done]. }
  destruct ((src <? dst) && (dst <? src + n)) eqn:E; to_prop.
  - rewrite rd8_copy_back by lia.
    repeat case_decide; try lia; try done; f_equal; lia.
  - apply andb_false_iff in E. rewrite rd8_copy_forw.
    + repeat case_decide; try lia; try done; f_equal; lia.
    + destruct E as [E|E]; to_prop; lia.
Qed.

Lemma umemmove_spec m dst src n a (Hn : 0 <= n) :
  rd8 (umemmove m dst src n) a =
    if decide (dst <= a < dst + n) then rd8 m (src + (a - dst)) else rd8 m a.
Proof.
  unfold umemmove. rewrite Z.max_r by done. destruct (dst <? src) eqn:E; to_prop.
  - rewrite rd8_copy_forw by lia.
    repeat case_decide; try lia; try done; f_equal; lia.
  - rewrite rd8_copy_back by lia.
    repeat case_decide; try lia; try done; f_equal; lia.
Qed.

Lemma bytes_S m p n : bytes m p (S n) = rd8 m p :: bytes m (p + 1) n.
Proof.
  unfold bytes. rewrite <- cons_seq. cbn. rewrite Z.add_0_r. f_equal.
  rewrite <- fmap_S_seq, <- list_fmap_compose.
  apply list_fmap_ext. intros i x _. cbn. f_equal. lia.
Qed.

Lemma length_bytes m p n : length (bytes m p n) = n.
Proof. unfold bytes. by rewrite length_fmap, length_seq. Qed.

Lemma bytes_ext m m' p p' n :
  (forall i, 0 <= i < Z.of_nat n -> rd8 m (p + i) = rd8 m' (p' + i)) ->
  bytes m p n = bytes m' p' n.
Proof.
  intros Hb. unfold bytes. apply list_fmap_ext. intros i x [Hx Hi]%lookup_seq.
  subst. apply Hb. lia.
Qed.

(** C34: [memmove] copies [n] bytes from [src] to [dst] as if through a
    temporary, whatever the overlap, and touches nothing else. *)
Theorem memmove_spec m dst src n (Hn : 0 <= n < 2 ^ 32) :
  bytes (memmove m dst src n) dst (Z.to_nat n) = bytes m src (Z.to_nat n) /\
  forall a, ~ (dst <= a < dst + n) -> rd8 (memmove m dst src n) a = rd8 m a.
Proof.
  split.
  - apply bytes_ext. intros i Hi. rewrite rd8_memmove by done. rewrite decide_True by lia. f_equal. lia.
  - intros a Ha. rewrite rd8_memmove by done. by rewrite decide_False.
Qed.

Lemma cstring_nil m p : rd8 m p = 0 -> cstring m p [].
Proof. intros Hp. split; [done|split; [done|]]. cbn. by rewrite Z.add_0_r. Qed.

Lemma cstring_cons m p b bs :
  cstring m p (b :: bs) <-> rd8 m p = b /\ b <> 0 /\ cstring m (p + 1) bs.
Proof.
  unfold cstring. cbn [length]. rewrite bytes_S.
  replace (p + Z.of_nat (S (length bs))) with (p + 1 + Z.of_nat (length bs)) by lia.
  rewrite Forall_cons. split.
  - intros (E & [? ?] & ?). injection E as E1 E2. repeat split; congruence.
  - intros (E1 & ? & E2 & ? & ?). repeat split; congruence.
Qed.

Lemma strlen_loop_spec m p bs fuel k :
  cstring m (p + k) bs -> (length bs < fuel)%nat ->
  strlen_loop fuel m p k = Some (k + Z.of_nat (length bs)).
Proof.
  revert k fuel. induction bs as [|b bs IH]; intros k fuel Hs Hf;
    (destruct fuel as [|fuel]; [cbn in Hf; lia|]); cbn [strlen_loop].
  - destruct Hs as (_ & _ & Hz). cbn in Hz. rewrite Z.add_0_r in Hz.
    rewrite Hz. cbn. f_equal. lia.
  - apply cstring_cons in Hs as (Hb & Hnz & Hs). rewrite Hb.
    destruct (b =? 0) eqn:E; to_prop; [done|].
    rewrite <- Z.add_assoc in Hs. cbn [length] in *.
    rewrite (IH (k + 1)); [f_equal; lia|done|lia].
Qed.

(** [strlen] returns the number of bytes before the NUL. *)
Lemma strlen_spec m p bs fuel :
  cstring m p bs -> (length bs < fuel)%nat ->
  strlen fuel m p = Some (Z.of_nat (length bs)).
Proof.
  intros Hs Hf. unfold strlen. rewrite (strlen_loop_spec m p bs); [done| |done].
  by rewrite Z.add_0_r.
Qed.

Lemma rd8_strncpy_pad m s n a :
  rd8 (strncpy_pad m s n) a =
    if decide (s <= a < s + Z.of_nat n) then 0 else rd8 m a.
Proof.
  revert m s. induction n as [|n IH]; intros m s; cbn [strncpy_pad].
  - case_decide; [lia|done].
  - rewrite IH, rd8_wr8. repeat case_decide; try done; lia.
Qed.

Lemma cstring_wr8 m p bs a v :
  cstring m p bs -> a < p \/ p + Z.of_nat (length bs) < a ->
  cstring (wr8 m a v) p bs.
Proof.
  intros (Hb & Hf & Hz) Ha. split; [|split; [done|]].
  - rewrite <- Hb at 2. apply bytes_ext. intros i Hi. apply rd8_wr8_ne. lia.
  - rewrite rd8_wr8_ne by lia. done.
Qed.

(** [strncpy] writes the first [n] bytes of the string, padded with NULs, when
    the destination does not overlap the string. *)
Lemma rd8_strncpy_loop m s t n bs a :
  cstring m t bs ->
  s + Z.of_nat n <= t \/ t + Z.of_nat (length bs) < s ->
  rd8 (strncpy_loop m s t n) a =
    if decide (s <= a < s + Z.of_nat n)
    then default 0 (bs !! Z.to_nat (a - s)) else rd8 m a.
Proof.
  revert m s t bs. induction n as [|n IH]; intros m s t bs Hs Hsep;
    cbn [strncpy_loop]; [case_decide; [lia|done]|].
  destruct bs as [|b bs].
  - destruct Hs as (_ & _ & Hz). cbn in Hz. rewrite Z.add_0_r in Hz. rewrite Hz.
    cbn -[Z.of_nat]. rewrite rd8_strncpy_pad, rd8_wr8.
    repeat case_decide; try done; lia.
  - apply cstring_cons in Hs as (Hb & Hnz & Hs). rewrite Hb.
    destruct (b =? 0) eqn:E; to_prop; [done|]. cbn [length] in Hsep.
    pose proof (rd8_range m t) as Hr. rewrite Hb in Hr.
    rewrite (IH _ _ _ bs); [|apply cstring_wr8; [done|lia]|lia].
    assert (u8 b = b) as Hu by (unfold u8; apply Z.mod_small; lia).
    rewrite rd8_wr8, Hu. repeat case_decide; try lia; try done.
    + replace (Z.to_nat (a - s)) with (S (Z.to_nat (a - (s + 1)))) by lia. done.
    + subst a. by rewrite Z.sub_diag.
Qed.

(** [strncmp] answers 0 exactly when the two strings agree on their first [n]
    bytes, the NUL included. *)
Lemma strncmp_loop_zero m p q n bs cs :
  cstring m p bs -> cstring m q cs ->
  strncmp_loop m p q n = 0 <-> take n bs = take n cs.
Proof.
  revert p q bs cs. induction n as [|n IH]; intros p q bs cs Hp Hq;
    cbn [strncmp_loop]; [done|].
  destruct bs as [|b bs], cs as [|c cs].
  - destruct Hp as (_ & _ & Hp), Hq as (_ & _ & Hq). cbn in Hp, Hq.
    rewrite Z.add_0_r in Hp, Hq. rewrite Hp, Hq. done.
  - destruct Hp as (_ & _ & Hp). cbn in Hp. rewrite Z.add_0_r in Hp.
    apply cstring_cons in Hq as (Hc & Hnz & _). rewrite Hp, Hc. cbn.
    split; [intros; exfalso; lia|done].
  - destruct Hq as (_ & _ & Hq). cbn in Hq. rewrite Z.add_0_r in Hq.
    apply cstring_cons in Hp as (Hc & Hnz & _). rewrite Hq, Hc.
    destruct (b =? 0) eqn:E; to_prop; [done|]. cbn.
    destruct (b =? 0) eqn:E'; to_prop; [done|]. split; [intros; exfalso; lia|done].
  - apply cstring_cons in Hp as (Hb & Hbz & Hp), Hq as (Hc & Hcz & Hq).
    rewrite Hb, Hc. destruct (b =? 0) eqn:E; to_prop; [done|]. cbn.
    destruct (b =? c) eqn:E'; to_prop.
    + subst. rewrite IH by done. split; congruence.
    + split; [intros; exfalso; lia|congruence].
Qed.

Lemma safestrcpy_loop_frame m s t n a :
  a < s \/ s + Z.of_nat n < a ->
  rd8 (safestrcpy_loop m s t n) a = rd8 m a.
Proof.
  revert m s t. induction n as [|n IH]; intros m s t Ha; cbn [safestrcpy_loop].
  - apply rd8_wr8_ne. lia.
  - destruct (rd8 m t =? 0).
    + rewrite !rd8_wr8_ne by lia. done.
    + rewrite IH by lia. apply rd8_wr8_ne. lia.
Qed.

Lemma safestrcpy_loop_cstring m s t n bs :
  cstring m t bs ->
  s + Z.of_nat n < t \/ t + Z.of_nat (length bs) < s ->
  cstring (safestrcpy_loop m s t n) s (take n bs).
Proof.
  revert m s t bs. induction n as [|n IH]; intros m s t bs Hs Hsep;
    cbn [safestrcpy_loop].
  - apply cstring_nil. apply rd8_wr8_eq.
  - destruct bs as [|b bs].
    + destruct Hs as (_ & _ & Hz). cbn in Hz. rewrite Z.add_0_r in Hz. rewrite Hz.
      cbn -[Z.of_nat]. apply cstring_nil. rewrite rd8_wr8_ne by lia. apply rd8_wr8_eq.
    + apply cstring_cons in Hs as (Hb & Hnz & Hs). rewrite Hb.
      destruct (b =? 0) eqn:E; to_prop; [done|]. cbn [length] in Hsep.
      pose proof (rd8_range m t) as Hr. rewrite Hb in Hr.
      cbn [take]. apply cstring_cons. split; [|split; [done|]].
      * rewrite safestrcpy_loop_frame by lia. rewrite rd8_wr8_eq.
        unfold u8. apply Z.mod_small. lia.
      * apply IH; [apply cstring_wr8; [done|]|]; lia.
Qed.

(** C35: [safestrcpy] NUL-terminates within its [n] bytes: the destination
    holds the first [n - 1] bytes of the source string, and no byte outside
    [s, s + n) changes. *)
Theorem safestrcpy_spec m s t n bs :
  0 < n -> cstring m t bs ->
  s + n <= t \/ t + Z.of_nat (length bs) < s ->
  cstring (safestrcpy m s t n) s (take (Z.to_nat (n - 1)) bs) /\
  (forall a, a < s \/ s + n <= a -> rd8 (safestrcpy m s t n) a = rd8 m a).
Proof.
  intros Hn Hs Hsep. unfold safestrcpy. destruct (n <=? 0) eqn:E; to_prop; [lia|].
  split.
  - apply safestrcpy_loop_cstring; [done|lia].
  - intros a Ha. apply safestrcpy_loop_frame. lia.
Qed.
End string_facts.

(** ** A concrete memory: finite maps, unwritten bytes are zero *)

#[export] #[refine] Instance gmap_ByteMem : ByteMem (gmap Z Z) := {
  rd8 := fun m a => u8 (default 0 (m !! a));
  wr8 := fun m a v => <[a := u8 v]> m;
}.
Proof.
  - intros m a. unfold u8. apply Z.mod_pos_bound. lia.
  - intros m a v. rewrite lookup_insert_eq. cbn. unfold u8. apply Z.mod_mod. lia.
  - intros m a b v Hne. by rewrite lookup_insert_ne.
Defined.

Definition mem_of_list (p : Z) (bs : list Z) : gmap Z Z :=
  list_to_map (imap (fun i b => (p + Z.of_nat i, b)) bs).

(** Overlapping regions: the string "abcd" moved one byte up. *)
Lemma memmove_spec_witness :
  bytes (memmove (mem_of_list 10 [97; 98; 99; 100]) 11 10 4) 11 4 = [97; 98; 99; 100].
Proof.
  pose proof (memmove_spec (mem_of_list 10 [97; 98; 99; 100]) 11 10 4 ltac:(lia)) as [H _].
  exact H.
Defined.

Lemma safestrcpy_spec_witness :
  cstring (safestrcpy (mem_of_list 10 [97; 98; 99; 0]) 20 10 3) 20 [97; 98].
Proof.
  apply (safestrcpy_spec (mem_of_list 10 [97; 98; 99; 0]) 20 10 3 [97; 98; 99]); [lia| |right; cbn; lia].
  split; [reflexivity|]. split; [repeat constructor; lia|reflexivity].
Defined.
