(* ===== verification/Riscv.v ===== *)
(** * The RISC-V machine as the kernel sees it

    Constants of [param.h], [memlayout.h], [riscv.h]; page-table entries and
    Sv39 indices; the 64-bit words of physical memory; the control and status
    registers behind the accessors of [riscv.h]. *)

From Stdlib Require Import ZArith Lia.
From stdpp Require Import base numbers list gmap.
From S2P Require Import Prelude CString.

(** ** [riscv.h], [memlayout.h], [param.h] *)

Definition PGSIZE : Z := 4096.
Definition PGSHIFT : Z := 12.

(** On [uint64]: [~(PGSIZE-1)] is the sign-extended [int] mask. *)
Definition PGROUNDUP (sz : Z) : Z := Z.land (u64 (sz + PGSIZE - 1)) (u64 (Z.lnot (PGSIZE - 1))).
Definition PGROUNDDOWN (a : Z) : Z := Z.land a (u64 (Z.lnot (PGSIZE - 1))).

Definition PTE_V : Z := Z.shiftl 1 0.
Definition PTE_R : Z := Z.shiftl 1 1.
Definition PTE_W : Z := Z.shiftl 1 2.
Definition PTE_X : Z := Z.shiftl 1 3.
Definition PTE_U : Z := Z.shiftl 1 4.
Definition PTE_A : Z := Z.shiftl 1 6.
Definition PTE_D : Z := Z.shiftl 1 7.
Definition PTE_SWAP : Z := Z.shiftl 1 8.

Definition PA2PTE (pa : Z) : Z := u64 (Z.shiftl (Z.shiftr pa 12) 10).
Definition PTE2PA (pte : Z) : Z := u64 (Z.shiftl (Z.shiftr pte 10) 12).
Definition PTE2PPN (pte : Z) : Z := Z.shiftr pte 10.
Definition PTE_FLAGS (pte : Z) : Z := Z.land pte 0x3FF.

Definition PXMASK : Z := 0x1FF.
Definition PXSHIFT (level : Z) : Z := PGSHIFT + 9 * level.
Definition PX (level va : Z) : Z := Z.land (Z.shiftr va (PXSHIFT level)) PXMASK.
Definition MAXVA : Z := Z.shiftl 1 (9 + 9 + 9 + 12 - 1).

Definition SATP_SV39 : Z := Z.shiftl 8 60.
Definition MAKE_SATP (pagetable : Z) : Z := Z.lor SATP_SV39 (Z.shiftr pagetable 12).

Definition UART0 : Z := 0x10000000.
Definition UART0_IRQ : Z := 10.
Definition VIRTIO0 : Z := 0x10001000.
Definition VIRTIO0_IRQ : Z := 1.
Definition PLIC : Z := 0x0c000000.
Definition KERNBASE : Z := 0x80000000.
Definition PHYSTOP : Z := KERNBASE + 32 * 1024 * 1024.
Definition TRAMPOLINE : Z := MAXVA - PGSIZE.
Definition KSTACK (p : Z) : Z := TRAMPOLINE - (p + 1) * 2 * PGSIZE.
Definition TRAPFRAME : Z := TRAMPOLINE - PGSIZE.

Definition NPROC : Z := 64.
Definition NCPU : Z := 8.
Definition NOFILE : Z := 16.
Definition NFILE : Z := 100.
Definition NINODE : Z := 50.
Definition NDEV : Z := 10.
Definition ROOTDEV : Z := 1.
Definition MAXARG : Z := 32.
Definition MAXOPBLOCKS : Z := 10.
Definition LOGSIZE : Z := MAXOPBLOCKS * 3.
Definition NBUF : Z := MAXOPBLOCKS * 3.
Definition FSSIZE : Z := 30000.
Definition MAXPATH : Z := 128.
Definition USERSTACK : Z := 1.
Definition SWAPBASE : Z := 2000.
Definition SWAPMAX : Z := 30000 - SWAPBASE.
Definition BSIZE : Z := 1024.

(** ** 64-bit words in physical memory (little endian) *)

Abbreviation memory := (gmap Z Z).

Fixpoint rdn (m : memory) (a : Z) (n : nat) : Z :=
  match n with
  | O => 0
  | S n' => rd8 m a + 256 * rdn m (a + 1) n'
  end.
Fixpoint wrn (m : memory) (a v : Z) (n : nat) : memory :=
  match n with
  | O => m
  | S n' => wrn (wr8 m a v) (a + 1) (v / 256) n'
  end.
Definition rd64 (m : memory) (a : Z) : Z := rdn m a 8.
Definition wr64 (m : memory) (a v : Z) : memory := wrn m a v 8.

Lemma rdn_range m a n : 0 <= rdn m a n < 256 ^ Z.of_nat n.
Proof.
  revert a. induction n as [|n IH]; intros a; [cbn; lia|].
  cbn [rdn]. rewrite Nat2Z.inj_succ, Z.pow_succ_r by lia.
  specialize (IH (a + 1)). pose proof (rd8_range m a). nia.
Qed.

Lemma rdn_ext m m' a n :
  (forall i, a <= i < a + Z.of_nat n -> rd8 m i = rd8 m' i) -> rdn m a n = rdn m' a n.
Proof.
  revert a. induction n as [|n IH]; intros a Hi; [done|].
  cbn [rdn]. rewrite (Hi a) by lia. rewrite (IH (a + 1)); [done|].
  intros i ?. apply Hi. lia.
Qed.

Lemma rd8_wrn_ne m a v n b :
  b < a \/ a + Z.of_nat n <= b -> rd8 (wrn m a v n) b = rd8 m b.
Proof.
  revert m a v. induction n as [|n IH]; intros m a v Hb; [done|].
  cbn [wrn]. rewrite IH by lia. apply rd8_wr8_ne. lia.
Qed.

Lemma rdn_wrn_eq m a v n : rdn (wrn m a v n) a n = v mod 256 ^ Z.of_nat n.
Proof.
  revert m a v. induction n as [|n IH]; intros m a v.
  - cbn. by rewrite Z.mod_1_r.
  - cbn [wrn rdn]. rewrite IH, rd8_wrn_ne by lia. rewrite rd8_wr8_eq.
    rewrite Nat2Z.inj_succ, Z.pow_succ_r by lia. unfold u8.
    change (2 ^ 8) with 256. rewrite Z.rem_mul_r by lia. done.
Qed.

Lemma rdn_wrn_ne m a v n b k :
  b + Z.of_nat k <= a \/ a + Z.of_nat n <= b -> rdn (wrn m a v n) b k = rdn m b k.
Proof. intros Hb. apply rdn_ext. intros i ?. apply rd8_wrn_ne. lia. Qed.

Lemma rd64_range m a : 0 <= rd64 m a < 2 ^ 64.
Proof. apply (rdn_range m a 8). Qed.

Lemma rd64_wr64_eq m a v : 0 <= v < 2 ^ 64 -> rd64 (wr64 m a v) a = v.
Proof.
  intros Hv. unfold rd64, wr64. rewrite rdn_wrn_eq. by apply Z.mod_small.
Qed.

Lemma rd64_wr64_ne m a v b : b + 8 <= a \/ a + 8 <= b -> rd64 (wr64 m a v) b = rd64 m b.
Proof. intros Hb. apply rdn_wrn_ne. lia. Qed.

Lemma rd8_wr64_ne m a v b : b < a \/ a + 8 <= b -> rd8 (wr64 m a v) b = rd8 m b.
Proof. intros Hb. apply rd8_wrn_ne. lia. Qed.

Lemma rd64_ext m m' a :
  (forall i, a <= i < a + 8 -> rd8 m i = rd8 m' i) -> rd64 m a = rd64 m' a.
Proof. intros Hi. apply rdn_ext. intros i ?. apply Hi. lia. Qed.

Lemma rd64_zero m a : (forall i, a <= i < a + 8 -> rd8 m i = 0) -> rd64 m a = 0.
Proof.
  intros Hi. unfold rd64. cut (forall n b, (forall i, b <= i < b + Z.of_nat n -> rd8 m i = 0) -> rdn m b n = 0).
  { intros Hc. apply Hc. intros i ?. apply Hi. lia. }
  induction n as [|n IH]; intros b Hb; [done|]. cbn [rdn]. rewrite (Hb b) by lia.
  rewrite IH; [done|]. intros i ?. apply Hb. lia.
Qed.

(** ** Page arithmetic *)

Lemma land_u64_mask a : 0 <= a < 2 ^ 64 ->
  Z.land a (u64 (Z.lnot (PGSIZE - 1))) = a - a mod 4096.
Proof.
  intros Ha. change (u64 (Z.lnot (PGSIZE - 1))) with (Z.shiftl (Z.ones 52) 12).
  replace (Z.land a (Z.shiftl (Z.ones 52) 12)) with (Z.shiftl (Z.shiftr a 12) 12).
  - rewrite Z.shiftl_mul_pow2, Z.shiftr_div_pow2 by lia. change (2 ^ 12) with 4096. dlia.
  - apply Z.bits_inj'. intros n Hn. rewrite Z.land_spec, !Z.shiftl_spec by lia.
    destruct (Z.ltb_spec n 12).
    + rewrite !(fun x => Z.testbit_neg_r x (n - 12)) by lia. by rewrite andb_false_r.
    + rewrite Z.shiftr_spec by lia. replace (n - 12 + 12) with n by lia.
      destruct (Z.ltb_spec n 64).
      * rewrite Z.ones_spec_low by lia. by rewrite andb_true_r.
      * rewrite (Z.bits_above_log2 a n); [done|lia|].
        destruct (decide (a = 0)) as [->|]; [cbn; lia|].
        apply Z.log2_lt_pow2; [lia|]. pose proof (Z.pow_le_mono_r 2 64 n). lia.
Qed.

Lemma PGROUNDDOWN_spec a : 0 <= a < 2 ^ 64 -> PGROUNDDOWN a = a - a mod 4096.
Proof. apply land_u64_mask. Qed.

Lemma PGROUNDUP_spec a : 0 <= a < 2 ^ 63 -> PGROUNDUP a = (a + 4095) / 4096 * 4096.
Proof.
  intros Ha. unfold PGROUNDUP.
  replace (u64 (a + PGSIZE - 1)) with (a + 4095)
    by (unfold u64, PGSIZE; rewrite Z.mod_small; lia).
  rewrite land_u64_mask by lia. dlia.
Qed.

Lemma PX_spec level va : 0 <= level ->
  PX level va = (va / 2 ^ (12 + 9 * level)) mod 512.
Proof.
  intros Hl. unfold PX, PXMASK, PXSHIFT, PGSHIFT. change 0x1FF with (Z.ones 9).
  rewrite Z.land_ones, Z.shiftr_div_pow2 by lia. done.
Qed.

Lemma PX_range level va : 0 <= level -> 0 <= PX level va < 512.
Proof. intros Hl. rewrite PX_spec by done. apply Z.mod_pos_bound. lia. Qed.

(** The three indices and the offset determine a virtual address. *)
Lemma PX_decompose va : 0 <= va < MAXVA ->
  va = PX 2 va * 2 ^ 30 + PX 1 va * 2 ^ 21 + PX 0 va * 2 ^ 12 + va mod 4096.
Proof.
  intros Hva. change MAXVA with (2 ^ 38) in Hva. rewrite !PX_spec by lia.
  change (12 + 9 * 2) with 30. change (12 + 9 * 1) with 21. change (12 + 9 * 0) with 12.
  change (2 ^ 30) with 1073741824. change (2 ^ 21) with 2097152.
  change (2 ^ 12) with 4096. change (2 ^ 38) with 274877906944 in Hva. dlia.
Qed.

Lemma PX_inj va va' :
  0 <= va < MAXVA -> 0 <= va' < MAXVA -> va mod 4096 = va' mod 4096 ->
  PX 2 va = PX 2 va' -> PX 1 va = PX 1 va' -> PX 0 va = PX 0 va' -> va = va'.
Proof.
  intros H1 H2 Hm E2 E1 E0. rewrite (PX_decompose va), (PX_decompose va') by done.
  by rewrite E2, E1, E0, Hm.
Qed.

(** A PTE made from a page-aligned physical address and low flag bits gives both
    back. *)
Lemma PA2PTE_spec pa : 0 <= pa < 2 ^ 56 -> PA2PTE pa = pa / 4096 * 1024.
Proof.
  intros Hpa. unfold PA2PTE, u64. rewrite Z.shiftl_mul_pow2, Z.shiftr_div_pow2 by lia.
  change (2 ^ 12) with 4096. change (2 ^ 10) with 1024. change (2 ^ 56) with 72057594037927936 in Hpa.
  rewrite Z.mod_small; [done|]. change (2 ^ 64) with 18446744073709551616. dlia.
Qed.

Lemma lor_low x f k : 0 <= k -> 0 <= f < 2 ^ k -> Z.lor (x * 2 ^ k) f = x * 2 ^ k + f.
Proof.
  intros Hk Hf. symmetry. rewrite <- Z.shiftl_mul_pow2 by done.
  rewrite <- Z.add_lor_land.
  replace (Z.land (Z.shiftl x k) f) with 0; [lia|].
  symmetry. apply Z.bits_inj'. intros n Hn. rewrite Z.land_spec, Z.bits_0.
  destruct (Z.ltb_spec n k).
  - by rewrite Z.shiftl_spec_low.
  - destruct (decide (f = 0)) as [->|]; [by rewrite Z.bits_0, andb_false_r|].
    rewrite (Z.bits_above_log2 f n); [by rewrite andb_false_r|lia|].
    apply Z.log2_lt_pow2; [lia|]. pose proof (Z.pow_le_mono_r 2 k n). lia.
Qed.

Lemma PTE2PA_spec pte : 0 <= pte < 2 ^ 54 -> PTE2PA pte = pte / 1024 * 4096.
Proof.
  intros Hp. unfold PTE2PA, u64. rewrite Z.shiftl_mul_pow2, Z.shiftr_div_pow2 by lia.
  change (2 ^ 12) with 4096. change (2 ^ 10) with 1024. change (2 ^ 54) with 18014398509481984 in Hp.
  rewrite Z.mod_small; [done|]. change (2 ^ 64) with 18446744073709551616. dlia.
Qed.

Lemma pte_lor pa f : 0 <= pa < 2 ^ 56 -> 0 <= f < 1024 ->
  Z.lor (PA2PTE pa) f = pa / 4096 * 1024 + f.
Proof.
  intros Hpa Hf. rewrite PA2PTE_spec by done. apply (lor_low _ f 10); lia.
Qed.

Lemma PTE2PA_PA2PTE pa f : 0 <= pa < 2 ^ 56 -> pa mod 4096 = 0 -> 0 <= f < 1024 ->
  PTE2PA (Z.lor (PA2PTE pa) f) = pa.
Proof.
  intros Hpa Hal Hf. rewrite pte_lor by done. 
  rewrite PTE2PA_spec; change (2 ^ 56) with 72057594037927936 in Hpa;
    change (2 ^ 54) with 18014398509481984; dlia.
Qed.

Lemma PTE_FLAGS_PA2PTE pa f : 0 <= pa < 2 ^ 56 -> 0 <= f < 1024 ->
  PTE_FLAGS (Z.lor (PA2PTE pa) f) = f.
Proof.
  intros Hpa Hf. rewrite pte_lor by done. unfold PTE_FLAGS. change 0x3FF with (Z.ones 10).
  rewrite Z.land_ones by lia. change (2 ^ 10) with 1024. dlia.
Qed.

Lemma land_small_flag x f k : 0 <= k -> 0 <= f < 2 ^ k -> Z.land x f = Z.land (x mod 2 ^ k) f.
Proof.
  intros Hk Hf. rewrite <- Z.land_ones by done.
  rewrite <- Z.land_assoc, (Z.land_comm (Z.ones k) f), Z.land_ones by done.
  by rewrite (Z.mod_small f).
Qed.

(** Testing a flag bit of a PTE only looks at the low ten bits. *)
Lemma tst_pte pa g f : 0 <= pa < 2 ^ 56 -> 0 <= g < 1024 -> 0 <= f < 1024 ->
  tst (Z.lor (PA2PTE pa) g) f = tst g f.
Proof.
  intros Hpa Hg Hf. unfold tst. do 2 f_equal. rewrite pte_lor by done.
  rewrite (land_small_flag _ f 10) by lia. f_equal. change (2 ^ 10) with 1024. dlia.
Qed.
