(* ===== verification/Spinlock.v ===== *)
(** * Spin locks and interrupt nesting

    [kernel/spinlock.c] and the interrupt-enable helpers of [riscv.h].  The
    first module is the code of one hart over the state all harts share; the
    second one abstracts it to the set of locks a hart holds, which is what the
    rest of the kernel uses; the third one interleaves harts. *)

From Stdlib Require Import ZArith Lia.
From stdpp Require Import base numbers list gmap strings sets.
From S2P Require Import Prelude Riscv.

Definition SSTATUS_SPP : Z := Z.shiftl 1 8.
Definition SSTATUS_SPIE : Z := Z.shiftl 1 5.
Definition SSTATUS_SIE : Z := Z.shiftl 1 1.

(** ** The code *)
Module Spin.

(** [struct spinlock]; the [cpu] pointer is the index in [cpus], if any. *)
Record spinlock := mkSpin { name : string; locked : Z; cpu : option Z }.

(** The fields of [struct cpu] the locks use, with the hart's [sstatus]. *)
Record hart := mkHart { sstatus : Z; noff : Z; intena : Z }.

Record state := mkState { locks : gmap Z spinlock; harts : gmap Z hart }.

Definition free_lock : spinlock := mkSpin "" 0 None.
Definition lock_of (s : state) (lk : Z) : spinlock := default free_lock (locks s !! lk).
Definition hart_of (s : state) (h : Z) : hart := default (mkHart 0 0 0) (harts s !! h).
Definition set_lock (lk : Z) (l : spinlock) (s : state) : state :=
  mkState (<[lk := l]> (locks s)) (harts s).
Definition set_hart (h : Z) (c : hart) (s : state) : state :=
  mkState (locks s) (<[h := c]> (harts s)).

(** [riscv.h]: intr_on, intr_off, intr_get *)
Definition intr_on (h : Z) : M state unit := modify (fun s =>
  let c := hart_of s h in
  set_hart h (mkHart (Z.lor (sstatus c) SSTATUS_SIE) (noff c) (intena c)) s).
Definition intr_off (h : Z) : M state unit := modify (fun s =>
  let c := hart_of s h in
  set_hart h (mkHart (Z.ldiff (sstatus c) SSTATUS_SIE) (noff c) (intena c)) s).
Definition intr_get (h : Z) : M state Z := gets (fun s =>
  if tst (sstatus (hart_of s h)) SSTATUS_SIE then 1 else 0).

Definition set_intena (h v : Z) : M state unit := modify (fun s =>
  let c := hart_of s h in set_hart h (mkHart (sstatus c) (noff c) v) s).
Definition set_noff (h v : Z) : M state unit := modify (fun s =>
  let c := hart_of s h in set_hart h (mkHart (sstatus c) v (intena c)) s).

Definition initlock (lk : Z) (nm : string) : M state unit :=
  modify (set_lock lk (mkSpin nm 0 None)).

Definition push_off (h : Z) : M state unit :=
  old ← intr_get h;
  intr_off h;;
  n ← gets (fun s => noff (hart_of s h));
  mwhen (n =? 0) (set_intena h old);;
  set_noff h (n + 1).

Definition pop_off (h : Z) : M state unit :=
  on ← intr_get h;
  if negb (on =? 0) then panic "pop_off - interruptible" else
  n ← gets (fun s => noff (hart_of s h));
  if n <? 1 then panic "pop_off" else
  set_noff h (n - 1);;
  ie ← gets (fun s => intena (hart_of s h));
  mwhen ((n - 1 =? 0) && negb (ie =? 0)) (intr_on h).

Definition holding (h lk : Z) : M state bool := gets (fun s =>
  negb (locked (lock_of s lk) =? 0) && bool_decide (cpu (lock_of s lk) = Some h)).

(** [__sync_lock_test_and_set(&lk->locked, 1)] and the assignments to the
    lock's fields. *)
Definition test_and_set (lk : Z) : M state Z := fun s =>
  Ret (locked (lock_of s lk))
      (set_lock lk (mkSpin (name (lock_of s lk)) 1 (cpu (lock_of s lk))) s).
Definition set_cpu (lk : Z) (c : option Z) : M state unit := modify (fun s =>
  set_lock lk (mkSpin (name (lock_of s lk)) (locked (lock_of s lk)) c) s).
Definition lock_release (lk : Z) : M state unit := modify (fun s =>
  set_lock lk (mkSpin (name (lock_of s lk)) 0 (cpu (lock_of s lk))) s).

(** A lock another hart holds makes this hart spin on the swap, which is
    waiting for that hart. *)
Definition acquire (h lk : Z) : M state unit :=
  push_off h;;
  mine ← holding h lk;
  if (mine : bool) then panic "acquire" else
  old ← test_and_set lk;
  if negb (old =? 0) then block else
  set_cpu lk (Some h).

Definition release (h lk : Z) : M state unit :=
  mine ← holding h lk;
  if negb mine then panic "release" else
  set_cpu lk None;;
  lock_release lk;;
  pop_off h.

(** *** Lemmas *)

Lemma lock_of_set_lock s lk l k :
  lock_of (set_lock lk l s) k = if decide (lk = k) then l else lock_of s k.
Proof. unfold lock_of, set_lock. cbn. rewrite lookup_insert. by case_decide. Qed.
Lemma lock_of_set_hart s h c k : lock_of (set_hart h c s) k = lock_of s k.
Proof. done. Qed.
Lemma hart_of_set_hart s h c k :
  hart_of (set_hart h c s) k = if decide (h = k) then c else hart_of s k.
Proof. unfold hart_of, set_hart. cbn. rewrite lookup_insert. by case_decide. Qed.
Lemma hart_of_set_lock s lk l k : hart_of (set_lock lk l s) k = hart_of s k.
Proof. done. Qed.
#[export] Hint Rewrite lock_of_set_lock lock_of_set_hart hart_of_set_hart
  hart_of_set_lock : spin.

(** Interrupts enabled, as [intr_get] reads it. *)
Definition ie (s : state) (h : Z) : bool := tst (sstatus (hart_of s h)) SSTATUS_SIE.

Lemma tst_SIE x : tst x SSTATUS_SIE = Z.testbit x 1.
Proof.
  unfold tst, SSTATUS_SIE. destruct (Z.testbit x 1) eqn:E.
  - apply negb_true_iff, Z.eqb_neq. intros H0.
    assert (Z.testbit (Z.land x (Z.shiftl 1 1)) 1 = true) as H1
      by (rewrite Z.land_spec, E; done).
    by rewrite H0, Z.bits_0 in H1.
  - apply negb_false_iff, Z.eqb_eq. apply Z.bits_inj'. intros n Hn.
    rewrite Z.land_spec, Z.bits_0. change (Z.shiftl 1 1) with (2 ^ 1).
    destruct (decide (n = 1)) as [->|]; [by rewrite E|].
    by rewrite Z.pow2_bits_false, andb_false_r by lia.
Qed.

Lemma ldiff_SIE x : tst (Z.ldiff x SSTATUS_SIE) SSTATUS_SIE = false.
Proof. rewrite tst_SIE, Z.ldiff_spec. by rewrite andb_false_r. Qed.
Lemma lor_SIE x : tst (Z.lor x SSTATUS_SIE) SSTATUS_SIE = true.
Proof. rewrite tst_SIE, Z.lor_spec. by rewrite orb_true_r. Qed.

Lemma wp_push_off h (Q : unit -> state -> Prop) s :
  (let c := hart_of s h in
   Q tt (set_hart h (mkHart (Z.ldiff (sstatus c) SSTATUS_SIE) (noff c + 1)
      (if noff c =? 0 then (if ie s h then 1 else 0) else intena c)) s)) ->
  wp (push_off h) Q s.
Proof.
  cbn zeta. intros HQ. unfold push_off, intr_get, intr_off, set_intena, set_noff.
  wp_steps; autorewrite with spin in *; rewrite ?decide_True in * by done; cbn in *;
    unfold ie in HQ; rewrite ?Heqb in HQ; rewrite ?H in HQ;
    unfold set_hart in *; cbn in *; rewrite ?insert_insert_eq; exact HQ.
Qed.

Lemma wp_pop_off h (Q : unit -> state -> Prop) s :
  ie s h = false -> 1 <= noff (hart_of s h) ->
  (let c := hart_of s h in
   Q tt (set_hart h (mkHart
      (if (noff c - 1 =? 0) && negb (intena c =? 0)
       then Z.lor (sstatus c) SSTATUS_SIE else sstatus c)
      (noff c - 1) (intena c)) s)) ->
  wp (pop_off h) Q s.
Proof.
  cbn zeta. intros Hie Hn HQ. unfold pop_off, intr_get, intr_on, set_noff.
  unfold ie in Hie. wp_steps; rewrite ?Hie in *; [done|to_prop; lia| |].
  all: autorewrite with spin in *; rewrite ?decide_True in * by done; cbn in *;
    rewrite H in HQ; unfold set_hart in *; cbn in *; rewrite ?insert_insert_eq; exact HQ.
Qed.

Fixpoint repeatM (n : nat) (m : M state unit) : M state unit :=
  match n with
  | O => mret tt
  | S n' => m;; repeatM n' m
  end.

(** Interrupt nesting at depth [k] on hart [h], entered with interrupts [on];
    the other harts and the locks are those of [s0]. *)
Definition nested (h : Z) (on : bool) (k : Z) (s0 s : state) : Prop :=
  noff (hart_of s h) = k /\
  ie s h = (if k =? 0 then on else false) /\
  (0 < k -> intena (hart_of s h) = if on then 1 else 0) /\
  (forall h', h' <> h -> hart_of s h' = hart_of s0 h') /\
  (forall lk, lock_of s lk = lock_of s0 lk).

Lemma nested_push h on k s0 s : 0 <= k -> nested h on k s0 s ->
  wp (push_off h) (fun _ s' => nested h on (k + 1) s0 s') s.
Proof.
  intros Hk (Hn & Hie & Hint & Ho & Hl). apply wp_push_off. cbn zeta.
  unfold nested, ie in *. autorewrite with spin. rewrite decide_True by done.
  cbn [noff sstatus intena]. rewrite ldiff_SIE. split; [lia|].
  replace (k + 1 =? 0) with false by (symmetry; apply Z.eqb_neq; lia).
  split; [done|]. split; [|split].
  - intros _. rewrite Hn. destruct (k =? 0) eqn:E; to_prop; [by rewrite Hie|].
    apply Hint. lia.
  - intros h' Hne. rewrite hart_of_set_hart, decide_False by done. by apply Ho.
  - intros lk. rewrite lock_of_set_hart. apply Hl.
Qed.

Lemma nested_pop h on k s0 s : 0 < k -> nested h on k s0 s ->
  wp (pop_off h) (fun _ s' => nested h on (k - 1) s0 s') s.
Proof.
  intros Hk (Hn & Hie & Hint & Ho & Hl).
  assert (k =? 0 = false) as Hk0 by (apply Z.eqb_neq; lia).
  rewrite Hk0 in Hie. specialize (Hint Hk).
  apply wp_pop_off; [done|lia|]. cbn zeta. rewrite Hn, Hint.
  unfold nested, ie in *. autorewrite with spin. rewrite decide_True by done.
  cbn [noff sstatus intena]. split; [done|]. split; [|split; [done|split]].
  - destruct (k - 1 =? 0), on; cbn; rewrite ?lor_SIE; done.
  - intros h' Hne. rewrite hart_of_set_hart, decide_False by done. by apply Ho.
  - intros lk. rewrite lock_of_set_hart. apply Hl.
Qed.

Lemma nested_push_n h on s0 n k s : 0 <= k -> nested h on k s0 s ->
  wp (repeatM n (push_off h)) (fun _ s' => nested h on (k + Z.of_nat n) s0 s') s.
Proof.
  revert k s. induction n as [|n IH]; intros k s Hk Hs; cbn [repeatM].
  - apply wp_ret. by rewrite Z.add_0_r.
  - apply wp_bind. eapply wp_mono; [by apply nested_push|]. intros u s' Hs'. cbn beta.
    replace (k + Z.of_nat (S n)) with (k + 1 + Z.of_nat n) by lia. apply IH; [lia|done].
Qed.

Lemma nested_pop_n h on s0 n k s : Z.of_nat n <= k -> nested h on k s0 s ->
  wp (repeatM n (pop_off h)) (fun _ s' => nested h on (k - Z.of_nat n) s0 s') s.
Proof.
  revert k s. induction n as [|n IH]; intros k s Hk Hs; cbn [repeatM].
  - apply wp_ret. by rewrite Z.sub_0_r.
  - apply wp_bind. eapply wp_mono; [apply (nested_pop h on k s0); [lia|done]|]. intros u s' Hs'. cbn beta.
    replace (k - Z.of_nat (S n)) with (k - 1 - Z.of_nat n) by lia. apply IH; [lia|done].
Qed.

(** C31: [push_off]/[pop_off] nest: [n] calls of [push_off] undone by [n]
    calls of [pop_off] leave the hart's interrupt-enable bit, its nesting
    depth (an [int]), every other hart and every lock as they were. *)
Theorem push_pop_balanced h n s (H0 : noff (hart_of s h) = 0) (Hn : Z.of_nat n < 2 ^ 31) :
  wp (repeatM n (push_off h);; repeatM n (pop_off h))
     (fun _ s' => nested h (ie s h) 0 s s') s.
Proof.
  assert (nested h (ie s h) 0 s s) as Hs by (repeat split; done || lia).
  apply wp_bind. eapply wp_mono; [by apply (nested_push_n h (ie s h) s n 0)|].
  intros u s1 Hs1. cbn beta in *. rewrite Z.add_0_l in Hs1.
  eapply wp_mono; [by apply (nested_pop_n h (ie s h) s n (Z.of_nat n))|].
  intros v s2 Hs2. cbn beta in *. by rewrite Z.sub_diag in Hs2.
Qed.

(** *** Acquire and release *)

Lemma holding_spec h lk s :
  holding h lk s = Ret (negb (locked (lock_of s lk) =? 0) &&
                        bool_decide (cpu (lock_of s lk) = Some h)) s.
Proof. done. Qed.

Lemma acquire_panics h lk s :
  locked (lock_of s lk) <> 0 -> cpu (lock_of s lk) = Some h ->
  panics (acquire h lk) "acquire" s.
Proof.
  intros Hl Hc. unfold acquire. apply panics_bind_r. apply wp_push_off. cbn zeta.
  unfold panics, mbind, M_bind. rewrite holding_spec, lock_of_set_hart, Hc.
  rewrite bool_decide_true by done.
  destruct (_ =? 0) eqn:E; to_prop; [done|]. done.
Qed.

Lemma spin_acquire h lk (Q : unit -> state -> Prop) s :
  locked (lock_of s lk) = 0 ->
  (forall s',
     lock_of s' lk = mkSpin (name (lock_of s lk)) 1 (Some h) ->
     (forall k, k <> lk -> lock_of s' k = lock_of s k) ->
     noff (hart_of s' h) = noff (hart_of s h) + 1 -> ie s' h = false ->
     (forall h', h' <> h -> hart_of s' h' = hart_of s h') ->
     Q tt s') ->
  wp (acquire h lk) Q s.
Proof.
  intros Hl HQ. unfold acquire. apply wp_bind, wp_push_off. cbn zeta.
  unfold holding, set_cpu. wp_steps; autorewrite with spin in *; rewrite Hl in *; [done|].
  eapply wp_Ret; [done|]. cbn beta. autorewrite with spin. rewrite Hl. cbn.
  apply wp_modify, HQ.
  - autorewrite with spin. rewrite !decide_True by done. done.
  - intros k Hk. autorewrite with spin. by rewrite !decide_False by congruence.
  - autorewrite with spin. by rewrite decide_True by done.
  - unfold ie. autorewrite with spin. rewrite decide_True by done. apply ldiff_SIE.
  - intros h' Hh. autorewrite with spin. by rewrite decide_False by congruence.
Qed.

Lemma release_panics h lk s :
  locked (lock_of s lk) = 0 \/ cpu (lock_of s lk) <> Some h ->
  panics (release h lk) "release" s.
Proof.
  intros Hl. unfold release, panics, mbind, M_bind. rewrite holding_spec.
  destruct Hl as [->|Hc]; [done|].
  by rewrite (bool_decide_false _ Hc), andb_false_r.
Qed.

Lemma spin_release h lk (Q : unit -> state -> Prop) s :
  locked (lock_of s lk) <> 0 -> cpu (lock_of s lk) = Some h ->
  ie s h = false -> 1 <= noff (hart_of s h) ->
  (forall s',
     lock_of s' lk = mkSpin (name (lock_of s lk)) 0 None ->
     (forall k, k <> lk -> lock_of s' k = lock_of s k) ->
     noff (hart_of s' h) = noff (hart_of s h) - 1 ->
     ie s' h = (noff (hart_of s h) =? 1) && negb (intena (hart_of s h) =? 0) ->
     (forall h', h' <> h -> hart_of s' h' = hart_of s h') ->
     Q tt s') ->
  wp (release h lk) Q s.
Proof.
  intros Hl Hc Hie Hn HQ. unfold release, holding, set_cpu, lock_release.
  wp_steps; rewrite Hc, bool_decide_true, andb_true_r in Heqb by done; to_prop; [done|].
  apply wp_pop_off; [done|done|]. cbn zeta. apply HQ.
  - autorewrite with spin. rewrite !decide_True by done. done.
  - intros k Hk. autorewrite with spin. by rewrite !decide_False by congruence.
  - autorewrite with spin. by rewrite decide_True by done.
  - unfold ie in *. autorewrite with spin. rewrite decide_True by done.
    cbn [sstatus]. replace (noff (hart_of s h) - 1 =? 0) with (noff (hart_of s h) =? 1)
      by (apply Bool.eq_iff_eq_true; rewrite !Z.eqb_eq; lia).
    destruct (_ && _); [apply lor_SIE|done].
  - intros h' Hh. autorewrite with spin. by rewrite decide_False by congruence.
Qed.
End Spin.

(** ** Abstract locks: the set of locks the running hart holds *)
Module Lk.
Definition acquire (lk : Z) : M (gset Z) unit := fun held =>
  if decide (lk ∈ held) then Panic "acquire" held else Ret tt ({[lk]} ∪ held).
Definition release (lk : Z) : M (gset Z) unit := fun held =>
  if decide (lk ∈ held) then Ret tt (held ∖ {[lk]}) else Panic "release" held.

(** The hart [h] holds exactly [held], no other hart holds a lock, and the
    nesting depth counts the held locks. *)
Definition rep (h : Z) (held : gset Z) (s : Spin.state) : Prop :=
  (forall lk, lk ∈ held ->
     Spin.locked (Spin.lock_of s lk) <> 0 /\ Spin.cpu (Spin.lock_of s lk) = Some h) /\
  (forall lk, lk ∉ held -> Spin.locked (Spin.lock_of s lk) = 0) /\
  Spin.noff (Spin.hart_of s h) = Z.of_nat (size held) /\
  (0 < Z.of_nat (size held) -> Spin.ie s h = false).

(** Two outcomes agree: same panic message, or related final states. *)
Definition agree (h : Z) (o : outcome Spin.state unit) (a : outcome (gset Z) unit) : Prop :=
  match o, a with
  | Ret _ s', Ret _ held' => rep h held' s'
  | Panic e _, Panic e' _ => e = e'
  | _, _ => False
  end.

Lemma acquire_sim h lk held s : rep h held s ->
  agree h (Spin.acquire h lk s) (acquire lk held).
Proof.
  intros (Hin & Hout & Hn & Hie). unfold acquire. case_decide as Hd.
  - destruct (Hin lk Hd) as [Hl Hc]. pose proof (Spin.acquire_panics h lk s Hl Hc) as Hp.
    unfold panics in Hp. by destruct (Spin.acquire h lk s).
  - assert (size ({[lk]} ∪ held) = S (size held)) as Hsz.
    { rewrite size_union by set_solver. by rewrite size_singleton. }
    cut (wp (Spin.acquire h lk) (fun _ s' => rep h ({[lk]} ∪ held) s') s).
    { unfold wp. by destruct (Spin.acquire h lk s). }
    apply Spin.spin_acquire; [by apply Hout|]. intros s' Hlk Ho Hn' Hie' _. repeat split.
    + destruct (decide (lk0 = lk)) as [->|]; [by rewrite Hlk|].
      rewrite Ho by done. apply Hin. set_solver.
    + destruct (decide (lk0 = lk)) as [->|]; [by rewrite Hlk|].
      rewrite Ho by done. apply Hin. set_solver.
    + intros k Hk. rewrite Ho by set_solver. apply Hout. set_solver.
    + rewrite Hn', Hn, Hsz. lia.
    + done.
Qed.

Lemma release_sim h lk held s : rep h held s ->
  agree h (Spin.release h lk s) (release lk held).
Proof.
  intros (Hin & Hout & Hn & Hie). unfold release. case_decide as Hd.
  - destruct (Hin lk Hd) as [Hl Hc].
    assert (size held = S (size (held ∖ {[lk]}))) as Hsz.
    { replace held with ({[lk]} ∪ held ∖ {[lk]}) at 1.
      - rewrite size_union by set_solver. by rewrite size_singleton.
      - apply set_eq. intros x. destruct (decide (x = lk)); set_solver. }
    cut (wp (Spin.release h lk) (fun _ s' => rep h (held ∖ {[lk]}) s') s).
    { unfold wp. by destruct (Spin.release h lk s). }
    apply Spin.spin_release; [done|done|apply Hie; lia|lia|].
    intros s' Hlk Ho Hn' Hie' _. repeat split.
    + rewrite Ho by set_solver. apply Hin. set_solver.
    + rewrite Ho by set_solver. apply Hin. set_solver.
    + intros k Hk. destruct (decide (k = lk)) as [->|]; [by rewrite Hlk|].
      rewrite Ho by done. apply Hout. set_solver.
    + lia.
    + intros Hpos. rewrite Hie', Hn, Hsz.
      replace (Z.of_nat (S (size (held ∖ {[lk]}))) =? 1) with false; [done|].
      symmetry. apply Z.eqb_neq. lia.
  - pose proof (Spin.release_panics h lk s (or_introl (Hout lk Hd))) as Hp.
    unfold panics in Hp. by destruct (Spin.release h lk s).
Qed.

(** C32: on a hart that holds the locks [held] while no other hart holds any,
    the code of [acquire] and [release] behaves as insertion into and removal
    from [held]: acquiring a held lock panics with "acquire", releasing a lock
    that is not held panics with "release", and otherwise the locks held
    afterwards, the nesting depth and the interrupt state are the expected
    ones. *)
Theorem locks_refine h lk held s : rep h held s ->
  agree h (Spin.acquire h lk s) (acquire lk held) /\
  agree h (Spin.release h lk s) (release lk held).
Proof. intros Hr. split; [by apply acquire_sim|by apply release_sim]. Qed.
End Lk.

(** ** Harts contending for one lock

    Each hart runs [acquire(lk)], a critical section and [release(lk)] for
    ever; the steps are the atomic parts of the code and interleave freely. *)
Module Contend.
Inductive pc :=
| Outside                 (* has not called acquire *)
| Trying                  (* in acquire: interrupts off, spinning *)
| Swapped                 (* the swap returned 0 *)
| Critical                (* acquire returned *)
| Cleared                 (* in release: lk->cpu = 0 done *)
| Released.               (* in release: lk->locked = 0 done *)

#[export] Instance pc_eq_dec : EqDecision pc.
Proof. solve_decision. Defined.

Record conf := mkConf { st : Spin.state; pcs : gmap Z pc }.
Definition pc_of (c : conf) (h : Z) : pc := default Outside (pcs c !! h).

Inductive step (lk : Z) : conf -> conf -> Prop :=
| step_enter h c s1 s2 :
    pc_of c h = Outside ->
    Spin.push_off h (st c) = Ret tt s1 -> Spin.holding h lk s1 = Ret false s2 ->
    step lk c (mkConf s2 (<[h := Trying]> (pcs c)))
| step_spin h c old s1 :
    pc_of c h = Trying -> Spin.test_and_set lk (st c) = Ret old s1 -> old <> 0 ->
    step lk c (mkConf s1 (pcs c))
| step_swap h c s1 :
    pc_of c h = Trying -> Spin.test_and_set lk (st c) = Ret 0 s1 ->
    step lk c (mkConf s1 (<[h := Swapped]> (pcs c)))
| step_record h c s1 :
    pc_of c h = Swapped -> Spin.set_cpu lk (Some h) (st c) = Ret tt s1 ->
    step lk c (mkConf s1 (<[h := Critical]> (pcs c)))
| step_clear h c s1 s2 :
    pc_of c h = Critical -> Spin.holding h lk (st c) = Ret true s1 ->
    Spin.set_cpu lk None s1 = Ret tt s2 ->
    step lk c (mkConf s2 (<[h := Cleared]> (pcs c)))
| step_unlock h c s1 :
    pc_of c h = Cleared -> Spin.lock_release lk (st c) = Ret tt s1 ->
    step lk c (mkConf s1 (<[h := Released]> (pcs c)))
| step_pop h c s1 :
    pc_of c h = Released -> Spin.pop_off h (st c) = Ret tt s1 ->
    step lk c (mkConf s1 (<[h := Outside]> (pcs c))).

Definition start (lk : Z) (c : conf) : Prop :=
  Spin.locked (Spin.lock_of (st c) lk) = 0 /\ pcs c = ∅.

(** The pcs between the successful swap and the unlocking store. *)
Definition owns (p : pc) : bool :=
  match p with Swapped | Critical | Cleared => true | _ => false end.

Definition inv (lk : Z) (c : conf) : Prop :=
  let l := Spin.lock_of (st c) lk in
  (forall h, owns (pc_of c h) = true -> Spin.locked l <> 0) /\
  (forall h h', owns (pc_of c h) = true -> owns (pc_of c h') = true -> h = h') /\
  (forall h, pc_of c h = Critical -> Spin.cpu l = Some h).

Lemma pc_of_insert s m h p h' :
  pc_of (mkConf s (<[h := p]> m)) h' =
    if decide (h = h') then p else default Outside (m !! h').
Proof. unfold pc_of. cbn. rewrite lookup_insert. by case_decide. Qed.

Lemma push_off_lock h s s1 lk :
  Spin.push_off h s = Ret tt s1 -> Spin.lock_of s1 lk = Spin.lock_of s lk.
Proof.
  intros E. pose proof (Spin.wp_push_off h (fun _ s' =>
    Spin.lock_of s' lk = Spin.lock_of s lk) s) as Hw.
  unfold wp in Hw. rewrite E in Hw. by apply Hw.
Qed.

Lemma pop_off_lock h s s1 lk :
  Spin.pop_off h s = Ret tt s1 -> Spin.lock_of s1 lk = Spin.lock_of s lk.
Proof.
  unfold Spin.pop_off, Spin.intr_get, Spin.set_noff, Spin.intr_on, mwhen,
    mbind, M_bind, mret, M_ret, gets, modify, panic.
  intros E. repeat case_match; simplify_eq; done.
Qed.

(** Case analysis on which hart took the step. *)
Ltac by_hart :=
  intros; rewrite ?pc_of_insert in *; unfold pc_of in *;
  repeat case_decide; subst; cbn in *; try congruence; eauto.

Lemma contend_step lk c c' : inv lk c -> step lk c c' -> inv lk c'.
Proof.
  intros (Hl & Hu & Hc) Hs.
  assert (forall h, owns (pc_of c h) = true ->
    Spin.locked (Spin.lock_of (st c) lk) = 0 -> False) as Hfree by (intros; by eapply Hl).
  destruct Hs as
    [h c s1 s2 Hp E1 E2|h c old s1 Hp E1 Hne|h c s1 Hp E1|h c s1 Hp E1
    |h c s1 s2 Hp E1 E2|h c s1 Hp E1|h c s1 Hp E1]; unfold inv; cbn [st].
  - rewrite Spin.holding_spec in E2. injection E2 as _ <-.
    rewrite (push_off_lock _ _ _ _ E1). split; [|split]; by_hart.
  - injection E1 as <- <-. rewrite Spin.lock_of_set_lock, decide_True by done. cbn.
    split; [|split]; by_hart.
  - injection E1 as E0 <-. rewrite Spin.lock_of_set_lock, decide_True by done. cbn.
    split; [|split]; by_hart; exfalso; by eapply Hfree.
  - injection E1 as <-. rewrite Spin.lock_of_set_lock, decide_True by done. cbn.
    assert (owns (pc_of c h) = true) as Ho by by rewrite Hp.
    split; [|split]; by_hart. f_equal. apply Hu; [done|]. by rewrite H.
  - rewrite Spin.holding_spec in E1. injection E1 as _ <-. injection E2 as <-.
    rewrite Spin.lock_of_set_lock, decide_True by done. cbn.
    assert (owns (pc_of c h) = true) as Ho by by rewrite Hp.
    split; [|split]; by_hart. exfalso. apply H0. apply Hu; [done|]. by rewrite H.
  - injection E1 as <-. rewrite Spin.lock_of_set_lock, decide_True by done. cbn.
    assert (owns (pc_of c h) = true) as Ho by by rewrite Hp.
    split; [|split]; by_hart.
  - rewrite (pop_off_lock _ _ _ _ E1). split; [|split]; by_hart.
Qed.

Lemma contend_inv lk c c' : start lk c -> rtc (step lk) c c' -> inv lk c'.
Proof.
  intros [Hl Hp] Hr.
  assert (inv lk c) as Hi.
  { unfold inv, pc_of. rewrite Hp. repeat split; intros *; rewrite ?lookup_empty; done. }
  clear Hl Hp. induction Hr as [|c c1 c2 Hs _ IH]; [done|].
  apply IH. by eapply contend_step.
Qed.

(** C31: mutual exclusion. However the atomic steps of any number of harts
    interleave, at most one hart is in the critical section, and the hart that
    is there passes the [holding] check of [release]. *)
Theorem mutual_exclusion lk c c' h h' :
  start lk c -> rtc (step lk) c c' -> pc_of c' h = Critical ->
  Spin.holding h lk (st c') = Ret true (st c') /\
  (pc_of c' h' = Critical -> h = h').
Proof.
  intros Hs Hr Hh. destruct (contend_inv lk c c' Hs Hr) as (Hl & Hu & Hc). split.
  - rewrite Spin.holding_spec. rewrite (bool_decide_true _ (Hc h Hh)), andb_true_r.
    destruct (_ =? 0) eqn:E; to_prop; [|done]. exfalso. apply (Hl h); [by rewrite Hh|done].
  - intros Hh'. apply Hu; [by rewrite Hh|by rewrite Hh'].
Qed.
End Contend.

(** ** Concrete runs *)

Definition demo_harts : Spin.state := Spin.mkState ∅ {[ 0 := Spin.mkHart SSTATUS_SIE 0 0 ]}.

Lemma push_pop_balanced_witness :
  wp (Spin.repeatM 3 (Spin.push_off 0);; Spin.repeatM 3 (Spin.pop_off 0))
     (fun _ s' => Spin.ie s' 0 = true) demo_harts.
Proof.
  eapply wp_mono; [apply (Spin.push_pop_balanced 0 3 demo_harts); [reflexivity|lia]|].
  cbn beta. intros _ s' (_ & Hi & _). exact Hi.
Defined.

Lemma locks_refine_witness : Lk.rep 0 ∅ demo_harts /\
  Lk.agree 0 (Spin.acquire 0 7 demo_harts) (Ret tt {[7]}).
Proof.
  assert (Lk.rep 0 ∅ demo_harts) as Hr.
  { split; [|split; [done|split; [done|rewrite size_empty; lia]]]. intros lk Hl. by apply not_elem_of_empty in Hl. }
  split; [exact Hr|]. exact (proj1 (Lk.locks_refine 0 7 ∅ demo_harts Hr)).
Defined.

(** Hart 0 takes the lock while hart 1 spins. *)
Lemma mutual_exclusion_witness : exists c',
  rtc (Contend.step 7) (Contend.mkConf demo_harts ∅) c' /\
  Spin.holding 0 7 (Contend.st c') = Ret true (Contend.st c').
Proof.
  eexists. match goal with |- ?A /\ _ => assert A as Hr end.
  - eapply rtc_l; [by eapply (Contend.step_enter 7 0)|].
    eapply rtc_l; [by eapply (Contend.step_enter 7 1)|].
    eapply rtc_l; [by eapply (Contend.step_swap 7 0)|].
    eapply rtc_l; [by eapply (Contend.step_spin 7 1)|].
    eapply rtc_l; [by eapply (Contend.step_record 7 0)|]. apply rtc_refl.
  - split; [exact Hr|].
    assert (Contend.start 7 (Contend.mkConf demo_harts ∅)) as Hs by done.
    apply (Contend.mutual_exclusion 7 _ _ 0 1 Hs Hr). reflexivity.
Defined.
