(* ===== verification/Locks.v ===== *)
(** * Locks as the kernel's other components use them

    A component's state provides the set of spin locks the running hart holds
    (class [HasLocks]) and calls [acquire]/[release]; [Spinlock.Lk.locks_refine]
    shows that this is what [spinlock.c] does.  Sleep locks ([sleeplock.c]) are
    built on them: the running process sleeps when the lock is taken. *)

From Stdlib Require Import ZArith Lia.
From stdpp Require Import base numbers list gmap strings sets.
From S2P Require Import Prelude Spinlock.

Class HasLocks (S : Type) := {
  held : S -> gset Z;
  set_held : gset Z -> S -> S;
  curpid : S -> Z;                       (* myproc()->pid *)
  held_set : forall x s, held (set_held x s) = x;
  set_held_held : forall s, set_held (held s) s = s;
  set_held_set : forall x y s, set_held x (set_held y s) = set_held x s;
}.

Definition acquire {S} `{HasLocks S} (lk : Z) : M S unit := zoom held set_held (Lk.acquire lk).
Definition release {S} `{HasLocks S} (lk : Z) : M S unit := zoom held set_held (Lk.release lk).

(** [initlock]: the lock starts free. *)
Definition initlock {S} `{HasLocks S} (lk : Z) : M S unit :=
  modify (fun s => set_held (held s ∖ {[lk]}) s).

(** [sleep(chan, lk)] gives the hart to another process: the routine waits. *)
Definition sleep {S A} (chan : Z) : M S A := block.
(** [wakeup(chan)] marks sleeping processes runnable; it changes the process
    table only ([Proc.v]). *)
Definition wakeup {S} (chan : Z) : M S unit := mret tt.

Section rules.
Context {S} `{HasLocks S}.
Implicit Types s : S.

Lemma wp_acquire lk (Q : unit -> S -> Prop) s :
  lk ∉ held s -> Q tt (set_held ({[lk]} ∪ held s) s) -> wp (acquire lk) Q s.
Proof.
  intros Hn HQ. unfold acquire. apply wp_zoom. unfold wp, Lk.acquire.
  by rewrite decide_False.
Qed.

Lemma wp_release lk (Q : unit -> S -> Prop) s :
  lk ∈ held s -> Q tt (set_held (held s ∖ {[lk]}) s) -> wp (release lk) Q s.
Proof.
  intros Hn HQ. unfold release. apply wp_zoom. unfold wp, Lk.release.
  by rewrite decide_True.
Qed.

Lemma acquire_held lk s : lk ∈ held s -> panics (acquire lk) "acquire" s.
Proof.
  intros Hh. unfold panics, acquire, zoom, Lk.acquire. by rewrite decide_True.
Qed.

(** Releasing the lock just acquired gives the locks held before. *)
Lemma held_acq_rel lk (x : gset Z) : lk ∉ x -> ({[lk]} ∪ x) ∖ {[lk]} = x.
Proof. set_solver. Qed.
End rules.

(** ** [sleeplock.c] *)

(** [struct sleeplock] without its debugging name; [lk] is the spin lock that
    protects it. *)
Record sleeplock := mkSleep { sl_locked : Z; sl_lk : Z; sl_pid : Z }.

Section sleeplock_c.
Context {S} `{HasLocks S} (get : S -> sleeplock) (put : sleeplock -> S -> S).

Definition initsleeplock (lk : Z) : M S unit := modify (put (mkSleep 0 lk 0)).

Definition acquiresleep : M S unit :=
  lk ← gets (fun s => sl_lk (get s));
  acquire lk;;
  l ← gets (fun s => sl_locked (get s));
  if negb (l =? 0) then sleep lk else
  modify (fun s => put (mkSleep 1 (sl_lk (get s)) (sl_pid (get s))) s);;
  modify (fun s => put (mkSleep (sl_locked (get s)) (sl_lk (get s)) (curpid s)) s);;
  release lk.

Definition releasesleep : M S unit :=
  lk ← gets (fun s => sl_lk (get s));
  acquire lk;;
  modify (fun s => put (mkSleep 0 (sl_lk (get s)) (sl_pid (get s))) s);;
  modify (fun s => put (mkSleep (sl_locked (get s)) (sl_lk (get s)) 0) s);;
  wakeup lk;;
  release lk.

Definition holdingsleep : M S bool :=
  lk ← gets (fun s => sl_lk (get s));
  acquire lk;;
  r ← gets (fun s => negb (sl_locked (get s) =? 0) && (sl_pid (get s) =? curpid s));
  release lk;;
  mret r.
End sleeplock_c.

(** A sleep lock inside a component's state. *)
Class SleepLens {S} `{HasLocks S} (get : S -> sleeplock) (put : sleeplock -> S -> S) := {
  sl_get_put : forall l s, get (put l s) = l;
  sl_put_put : forall l l' s, put l (put l' s) = put l s;
  sl_held_put : forall l s, held (put l s) = held s;
  sl_curpid_put : forall l s, curpid (put l s) = curpid s;
  sl_get_held : forall x s, get (set_held x s) = get s;
  sl_curpid_held : forall x s, curpid (set_held x s) = curpid s;
  sl_put_held : forall l x s, put l (set_held x s) = set_held x (put l s);
}.

Section sleeplock_rules.
Context {S} `{HasLocks S} (get : S -> sleeplock) (put : sleeplock -> S -> S).
Context `{!SleepLens get put}.
Implicit Types s : S.

Ltac sl_simpl :=
  rewrite ?sl_put_held, ?sl_get_put, ?sl_put_put, ?sl_curpid_held, ?sl_curpid_put,
    ?sl_get_held, ?sl_get_put, ?held_set, ?sl_held_put, ?set_held_set, ?sl_put_put.

Lemma wp_acquiresleep (Q : unit -> S -> Prop) s :
  sl_lk (get s) ∉ held s -> sl_locked (get s) = 0 ->
  Q tt (put (mkSleep 1 (sl_lk (get s)) (curpid s)) s) ->
  wp (acquiresleep get put) Q s.
Proof.
  intros Hn Hl HQ. unfold acquiresleep. wp_steps. apply wp_acquire; [done|].
  wp_steps; revert Heqb; sl_simpl; rewrite Hl; [done|]. intros _.
  apply wp_release; sl_simpl; [set_solver|]. cbn [sl_lk sl_locked sl_pid].
  rewrite held_acq_rel by done. rewrite <- (set_held_held (put _ s)) in HQ.
  by rewrite sl_held_put in HQ.
Qed.

Lemma wp_releasesleep (Q : unit -> S -> Prop) s :
  sl_lk (get s) ∉ held s ->
  Q tt (put (mkSleep 0 (sl_lk (get s)) 0) s) ->
  wp (releasesleep get put) Q s.
Proof.
  intros Hn HQ. unfold releasesleep, wakeup. wp_steps. apply wp_acquire; [done|].
  wp_steps. apply wp_release; sl_simpl; [set_solver|]. cbn [sl_lk sl_locked sl_pid].
  rewrite held_acq_rel by done. rewrite <- (set_held_held (put _ s)) in HQ.
  by rewrite sl_held_put in HQ.
Qed.

Lemma wp_holdingsleep (Q : bool -> S -> Prop) s :
  sl_lk (get s) ∉ held s ->
  Q (negb (sl_locked (get s) =? 0) && (sl_pid (get s) =? curpid s)) s ->
  wp (holdingsleep get) Q s.
Proof.
  intros Hn HQ. unfold holdingsleep. wp_steps. apply wp_acquire; [done|].
  wp_steps. apply wp_release; sl_simpl; [set_solver|]. wp_steps.
  rewrite held_acq_rel by done. by rewrite set_held_held.
Qed.
End sleeplock_rules.
