(* ===== verification/Stops.v ===== *)
(** * Correctness up to stops

    [wp] demands that a routine returns.  Code that runs on top of components which may stop the
    kernel or put the caller to sleep is described by [goes]: the routine returns with [Q], or it
    ends in one of the other ways the current [Stops] admits.  With nothing admitted [goes] is
    [wp]; with everything admitted it is partial correctness ([rets]). *)

From Stdlib Require Import ZArith Lia.
From stdpp Require Import base numbers list gmap strings sets.
From S2P Require Import Prelude Spinlock Locks.

(** The ends besides a return that are admitted. *)
Class Stops := {
  panic_ok : string -> Prop;             (* panic(msg) *)
  sleep_ok : Prop;                       (* the caller sleeps *)
  stuck_ok : Prop;                       (* undefined behaviour, fuel used up *)
}.

Definition goes {SP : Stops} {S A} (m : M S A) (Q : A -> S -> Prop) (s : S) : Prop :=
  match m s with
  | Ret a s' => Q a s'
  | Panic e _ => panic_ok e
  | Block _ => sleep_ok
  | Undef | NoFuel => stuck_ok
  end.

(** Nothing but returning. *)
Definition no_stops : Stops := {| panic_ok := fun _ => False; sleep_ok := False; stuck_ok := False |}.

Section rules.
Context {SP : Stops} {S : Type}.
Implicit Types s : S.

Lemma goes_wp {A} (m : M S A) (Q : A -> S -> Prop) s : wp m Q s -> goes m Q s.
Proof. unfold wp, goes. by destruct (m s). Qed.

(** A panic that is not admitted, an end by undefined behaviour that is not admitted: excluded. *)
Lemma goes_no_panic {A} (m : M S A) (Q : A -> S -> Prop) s msg : goes m Q s -> ~ panic_ok msg -> ~ panics m msg s.
Proof. unfold goes, panics. destruct (m s); intros H Hn E; try done. apply Hn. by rewrite <- E. Qed.

Lemma goes_mono {A} (m : M S A) (P Q : A -> S -> Prop) s :
  goes m P s -> (forall a s', P a s' -> Q a s') -> goes m Q s.
Proof. unfold goes. destruct (m s); auto. Qed.

Lemma goes_ret {A} (a : A) (Q : A -> S -> Prop) s : Q a s -> goes (mret a) Q s.
Proof. done. Qed.

Lemma goes_gets {A} (f : S -> A) (Q : A -> S -> Prop) s : Q (f s) s -> goes (gets f) Q s.
Proof. done. Qed.

Lemma goes_modify (f : S -> S) (Q : unit -> S -> Prop) s : Q tt (f s) -> goes (modify f) Q s.
Proof. done. Qed.

Lemma goes_bind {A B} (m : M S A) (k : A -> M S B) (Q : B -> S -> Prop) s :
  goes m (fun a s' => goes (k a) Q s') s -> goes (m ≫= k) Q s.
Proof. unfold goes, mbind, M_bind. by destruct (m s). Qed.

Lemma goes_bind_inv {A B} (m : M S A) (k : A -> M S B) (Q : B -> S -> Prop) s :
  goes (m ≫= k) Q s -> goes m (fun a s' => goes (k a) Q s') s.
Proof. unfold goes, mbind, M_bind. by destruct (m s). Qed.

Lemma goes_when (b : bool) (m : M S unit) (Q : unit -> S -> Prop) s :
  (b = true -> goes m Q s) -> (b = false -> Q tt s) -> goes (mwhen b m) Q s.
Proof. destruct b; cbn; auto. Qed.

Lemma goes_the {A} (o : option A) a (Q : A -> S -> Prop) s : o = Some a -> Q a s -> goes (the o) Q s.
Proof. by intros ->. Qed.

Lemma goes_loop {L A} (body : L -> M S (L + A)) (I : L -> S -> Prop)
    (mu : L -> S -> nat) (Q : A -> S -> Prop) :
  (forall l s, I l s -> goes (body l) (fun r s' =>
      match r with inl l' => I l' s' /\ (mu l' s' < mu l s)%nat | inr a => Q a s' end) s) ->
  forall fuel l s, I l s -> (mu l s < fuel)%nat -> goes (loop fuel body l) Q s.
Proof.
  intros Hbody fuel. induction fuel as [|n IH]; intros l s HI Hmu; [lia|]. cbn [loop].
  apply goes_bind. eapply goes_mono; [by apply Hbody|]. intros [l'|a] s' H; [|done].
  destruct H as [HI' Hlt]. apply IH; [done|lia].
Qed.

(** A counted loop whose body keeps [I]. *)
Lemma goes_for (body : Z -> M S unit) (I : S -> Prop) :
  (forall i s, I s -> goes (body i) (fun _ => I) s) -> forall n i step s, I s -> goes (for_ n i step body) (fun _ => I) s.
Proof.
  intros Hb. induction n as [|n IH]; intros i step s HI; cbn [for_]; [done|].
  apply goes_bind. eapply goes_mono; [by apply Hb|]. cbn beta. intros _ s'. apply IH.
Qed.

Lemma goes_acquire `{HasLocks S} lk (Q : unit -> S -> Prop) s :
  lk ∉ held s -> Q tt (set_held ({[lk]} ∪ held s) s) -> goes (acquire lk) Q s.
Proof. intros Hl HQ. apply goes_wp. by apply wp_acquire. Qed.

Lemma goes_release `{HasLocks S} lk (Q : unit -> S -> Prop) s :
  lk ∈ held s -> Q tt (set_held (held s ∖ {[lk]}) s) -> goes (release lk) Q s.
Proof. intros Hl HQ. apply goes_wp. by apply wp_release. Qed.
End rules.

Lemma goes_zoom {SP : Stops} {S T A} (get : S -> T) (put : T -> S -> S) (m : M T A)
    (Q : A -> S -> Prop) s :
  goes m (fun a t => Q a (put t s)) (get s) -> goes (zoom get put m) Q s.
Proof. unfold goes, zoom. by destruct (m (get s)). Qed.

(** Without stops, [goes] is [wp]. *)
Lemma goes_no_stops {S A} (m : M S A) (Q : A -> S -> Prop) s : goes (SP := no_stops) m Q s <-> wp m Q s.
Proof. unfold goes, wp. by destruct (m s). Qed.

(** ** Partial correctness *)

Definition any_stop : Stops := {| panic_ok := fun _ => True; sleep_ok := True; stuck_ok := True |}.

(** If [m] returns, then with [Q]. *)
Notation rets := (goes (SP := any_stop)).

Lemma rets_Ret {S A} (m : M S A) (Q : A -> S -> Prop) s a s' : rets m Q s -> m s = Ret a s' -> Q a s'.
Proof. unfold goes. intros H E. by rewrite E in H. Qed.

(** A routine run on a part of the state leaves whatever does not depend on that part. *)
Lemma rets_zoom {S T A} (get : S -> T) (put : T -> S -> S) (m : M T A) (P : S -> Prop) s :
  (forall t, P (put t s)) -> rets (zoom get put m) (fun _ => P) s.
Proof. intros HP. unfold goes, zoom. destruct (m (get s)); done || apply HP. Qed.
