(* ===== verification/Dll.v ===== *)
(** * Doubly linked lists

    Shared by the buffer cache ([bio.c]: a ring through [bcache.head]) and the
    page list ([vm.c]: a ring from [lru_head] to [lru_tail]).  The links are
    given by two functions; [chain l] says that consecutive nodes of [l] point
    at each other. *)

From Stdlib Require Import ZArith Lia.
From stdpp Require Import base numbers list gmap.
From S2P Require Import Prelude.

Section chain.
Implicit Types (nxt prv : Z -> option Z) (l : list Z).

Definition linked nxt prv (a b : Z) : Prop := nxt a = Some b /\ prv b = Some a.

Fixpoint chain nxt prv l : Prop :=
  match l with
  | a :: ((b :: _) as t) => linked nxt prv a b /\ chain nxt prv t
  | _ => True
  end.

Lemma chain_cons2 nxt prv a b l :
  chain nxt prv (a :: b :: l) <-> linked nxt prv a b /\ chain nxt prv (b :: l).
Proof. done. Qed.

Lemma chain_app nxt prv l1 x l2 :
  chain nxt prv (l1 ++ x :: l2) <->
  chain nxt prv (l1 ++ [x]) /\ chain nxt prv (x :: l2).
Proof.
  induction l1 as [|a l1 IH]; [cbn; tauto|].
  destruct l1 as [|b l1].
  - cbn [app]. rewrite !chain_cons2. cbn. tauto.
  - cbn [app] in *. rewrite !chain_cons2, IH. tauto.
Qed.

(** Links outside a chain may change: only the [next] of the nodes before the
    last one and the [prev] of the nodes after the first one matter. *)
Lemma chain_frame nxt prv nxt' prv' l :
  chain nxt prv l ->
  (forall x, x ∈ removelast l -> nxt' x = nxt x) ->
  (forall x, x ∈ tail l -> prv' x = prv x) ->
  chain nxt' prv' l.
Proof.
  induction l as [|a l IH]; [done|]. destruct l as [|b l]; [done|].
  rewrite !chain_cons2. intros [[Hn Hp] Hc] Hnx Hpr. split.
  - split; [rewrite Hnx|rewrite Hpr]; [done|cbn; set_solver|done|cbn; set_solver].
  - apply IH; [done| |].
    + intros x Hx. apply Hnx. change (removelast (a :: b :: l)) with (a :: removelast (b :: l)).
      set_solver.
    + intros x Hx. apply Hpr. cbn in *. set_solver.
Qed.

Lemma removelast_snoc l x : removelast (l ++ [x]) = l.
Proof. rewrite removelast_app by done. cbn. by rewrite app_nil_r. Qed.

Lemma chain_last_link nxt prv l a b :
  chain nxt prv (l ++ [a; b]) -> linked nxt prv a b.
Proof. rewrite chain_app, chain_cons2. tauto. Qed.

Lemma chain_prefix nxt prv l1 l2 : chain nxt prv (l1 ++ l2) -> chain nxt prv l1.
Proof.
  induction l1 as [|a l1 IH]; [done|]. destruct l1 as [|b l1]; [done|]. cbn [app] in *.
  rewrite !chain_cons2. intros [? ?]. auto.
Qed.

Lemma chain_mid nxt prv l1 a b l2 :
  chain nxt prv (l1 ++ a :: b :: l2) -> linked nxt prv a b.
Proof. rewrite chain_app, chain_cons2. tauto. Qed.
End chain.

(** Pointer assignment. *)
Definition fupd (f : Z -> option Z) (k : Z) (v : option Z) : Z -> option Z :=
  fun x => if decide (x = k) then v else f x.

Lemma fupd_eq f k v : fupd f k v k = v.
Proof. unfold fupd. by rewrite decide_True. Qed.
Lemma fupd_ne f k v x : x <> k -> fupd f k v x = f x.
Proof. intros. unfold fupd. by rewrite decide_False. Qed.

Section surgery.
Implicit Types (nxt prv : Z -> option Z) (A B l : list Z).

Lemma chain_ext nxt prv nxt' prv' l :
  chain nxt prv l -> (forall x, nxt' x = nxt x) -> (forall x, prv' x = prv x) ->
  chain nxt' prv' l.
Proof. intros Hc Hn Hp. by apply (chain_frame nxt prv). Qed.

Lemma chain_rev nxt prv l : chain nxt prv l -> chain prv nxt (reverse l).
Proof.
  induction l as [|a l IH]; [done|]. destruct l as [|b l]; [done|].
  rewrite chain_cons2. intros [[Hn Hp] Hc]. specialize (IH Hc).
  rewrite reverse_cons, reverse_cons. rewrite reverse_cons in IH.
  rewrite <- app_assoc. cbn [app]. apply chain_app. split; [exact IH|].
  split; [by split|done].
Qed.

(** [p->next = n; n->prev = p] takes [b] out of ... p, b, n ... *)
Lemma chain_unlink nxt prv A p b n B :
  chain nxt prv (A ++ p :: b :: n :: B) ->
  NoDup (removelast (A ++ p :: b :: n :: B)) -> NoDup (tail (A ++ p :: b :: n :: B)) ->
  chain (fupd nxt p (Some n)) (fupd prv n (Some p)) (A ++ p :: n :: B).
Proof.
  intros [HA (Hpb & Hbn & HB)]%chain_app Hn1 Hn2. apply chain_app. rewrite chain_cons2.
  rewrite removelast_app in Hn1 by done.
  change (removelast (p :: b :: n :: B)) with (p :: b :: removelast (n :: B)) in Hn1.
  apply NoDup_app in Hn1 as (_ & HpA & Hn1). apply NoDup_cons in Hn1 as [HpB _].
  assert (n ∉ tail (A ++ [p]) /\ n ∉ B) as [HnA HnB].
  { destruct A as [|a A]; cbn [app tail] in Hn2 |- *.
    - apply NoDup_cons in Hn2 as [_ Hn2]. apply NoDup_cons in Hn2 as [Hn2 _]. set_solver.
    - apply NoDup_app in Hn2 as (_ & H1 & H2). 
      apply NoDup_cons in H2 as [Hp H2]. apply NoDup_cons in H2 as [Hb H2].
      apply NoDup_cons in H2 as [H2 _]. split; [|done]. intros [Hin|Hin]%elem_of_app; [|set_solver].
      apply (H1 _ Hin). set_solver. }
  split; [|split].
  - apply (chain_frame nxt prv); [done| |].
    + intros x Hx. rewrite removelast_snoc in Hx. apply fupd_ne. intros ->.
      apply (HpA _ Hx). set_solver.
    + intros x Hx. apply fupd_ne. intros ->. done.
  - split; apply fupd_eq.
  - apply (chain_frame nxt prv); [done| |].
    + intros x Hx. apply fupd_ne. intros ->. set_solver.
    + intros x Hx. apply fupd_ne. intros ->. done.
Qed.

(** [b->next = n; b->prev = p; n->prev = b; p->next = b] puts a node [b]
    between [p] and [n]. *)
Lemma chain_insert nxt prv A p b n B :
  chain nxt prv (A ++ p :: n :: B) ->
  NoDup (removelast (A ++ p :: n :: B)) -> NoDup (tail (A ++ p :: n :: B)) ->
  b ∉ A ++ p :: n :: B ->
  chain (fupd (fupd nxt b (Some n)) p (Some b))
        (fupd (fupd prv b (Some p)) n (Some b)) (A ++ p :: b :: n :: B).
Proof.
  intros [HA (Hpn & HB)]%chain_app Hn1 Hn2 Hb. apply chain_app. rewrite !chain_cons2.
  rewrite removelast_app in Hn1 by done.
  change (removelast (p :: n :: B)) with (p :: removelast (n :: B)) in Hn1.
  apply NoDup_app in Hn1 as (_ & HpA & Hn1). apply NoDup_cons in Hn1 as [HpB _].
  assert (n ∉ tail (A ++ [p]) /\ n ∉ B) as [HnA HnB].
  { destruct A as [|a A]; cbn [app tail] in Hn2 |- *.
    - apply NoDup_cons in Hn2 as [Hn2 _]. set_solver.
    - apply NoDup_app in Hn2 as (_ & H1 & H2).
      apply NoDup_cons in H2 as [Hp H2]. apply NoDup_cons in H2 as [H2 _].
      split; [|done]. intros [Hin|Hin]%elem_of_app; [|set_solver].
      apply (H1 _ Hin). set_solver. }
  assert (b <> p /\ b <> n /\ b ∉ A /\ b ∉ B) as (Hbp & Hbn & HbA & HbB) by set_solver.
  split; [|split; [|split]].
  - apply (chain_frame nxt prv); [done| |].
    + intros x Hx. rewrite removelast_snoc in Hx. rewrite !fupd_ne; set_solver.
    + intros x Hx. assert (x ∈ A ++ [p]) by (destruct A; set_solver).
      rewrite !fupd_ne; set_solver.
  - split; [apply fupd_eq|]. rewrite fupd_ne by done. apply fupd_eq.
  - split; [rewrite fupd_ne by done; apply fupd_eq|]. apply fupd_eq.
  - apply (chain_frame nxt prv); [done| |].
    + intros x Hx. assert (x ∈ n :: B).
      { revert Hx. generalize (n :: B). intros l. induction l as [|y [|z l] IH]; set_solver. }
      rewrite !fupd_ne; set_solver.
    + intros x Hx. rewrite !fupd_ne; set_solver.
Qed.
End surgery.
