(* ===== verification/Bio.v ===== *)
(** * The buffer cache

    [kernel/bio.c] with [struct buf] of [buf.h].  Buffers are numbered 0 to
    NBUF-1 and the list head [bcache.head] is number NBUF.  The disk below it
    is a finite map from block numbers to blocks; like the virtio driver it
    ignores the device number.  Every block written to the disk is also
    appended to [writes], the history [Log.v] uses to reason about crashes. *)

From Stdlib Require Import ZArith Lia.
From stdpp Require Import base numbers list gmap strings sets.
From S2P Require Import Prelude Riscv Spinlock Locks Dll.

Definition block := list Z.
Definition zero_block : block := replicate (Z.to_nat BSIZE) 0.

(** [struct buf] *)
Record buf := mkBuf {
  valid : Z; disk : Z; dev : Z; blockno : Z; lock : sleeplock; refcnt : Z;
  prev : Z; next : Z; data : block }.

Definition HEAD : Z := NBUF.
Definition BCACHE_LOCK : Z := 100.
Definition BUF_LOCK (i : Z) : Z := 200 + i.

(** [bcache], zero-initialised as static storage is, and the disk. *)
Record bstate := mkBio {
  bufs : gmap Z buf; platter : gmap Z block; writes : list (Z * block);
  bheld : gset Z; bpid : Z }.

Definition buf0 : buf := mkBuf 0 0 0 0 (mkSleep 0 0 0) 0 0 0 zero_block.
Definition buf_of (s : bstate) (i : Z) : buf := default buf0 (bufs s !! i).
Definition set_buf (i : Z) (b : buf) (s : bstate) : bstate :=
  mkBio (<[i := b]> (bufs s)) (platter s) (writes s) (bheld s) (bpid s).

#[export] #[refine] Instance bstate_locks : HasLocks bstate := {
  held := bheld;
  set_held := fun x s => mkBio (bufs s) (platter s) (writes s) x (bpid s);
  curpid := bpid;
}.
Proof. all: by intros; try destruct s. Defined.

Definition upd (i : Z) (f : buf -> buf) : M bstate unit :=
  modify (fun s => set_buf i (f (buf_of s i)) s).
Definition set_prev v b := mkBuf (valid b) (disk b) (dev b) (blockno b) (lock b) (refcnt b) v (next b) (data b).
Definition set_next v b := mkBuf (valid b) (disk b) (dev b) (blockno b) (lock b) (refcnt b) (prev b) v (data b).
Definition set_lock v b := mkBuf (valid b) (disk b) (dev b) (blockno b) v (refcnt b) (prev b) (next b) (data b).
Definition set_refcnt v b := mkBuf (valid b) (disk b) (dev b) (blockno b) (lock b) v (prev b) (next b) (data b).
Definition set_valid v b := mkBuf v (disk b) (dev b) (blockno b) (lock b) (refcnt b) (prev b) (next b) (data b).
Definition set_dev v b := mkBuf (valid b) (disk b) v (blockno b) (lock b) (refcnt b) (prev b) (next b) (data b).
Definition set_blockno v b := mkBuf (valid b) (disk b) (dev b) v (lock b) (refcnt b) (prev b) (next b) (data b).
Definition set_data v b := mkBuf (valid b) (disk b) (dev b) (blockno b) (lock b) (refcnt b) (prev b) (next b) v.

Definition get_slock (i : Z) (s : bstate) : sleeplock := lock (buf_of s i).
Definition put_slock (i : Z) (l : sleeplock) (s : bstate) : bstate :=
  set_buf i (set_lock l (buf_of s i)) s.

Definition disk_block (s : bstate) (n : Z) : block := default zero_block (platter s !! n).

(** What the virtio driver does for [virtio_disk_rw(b, write)]: one block moves
    between the buffer and the disk. *)
Definition virtio_disk_rw (i : Z) (write : bool) : M bstate unit :=
  if write then
    modify (fun s => let b := buf_of s i in
      mkBio (bufs s) (<[blockno b := data b]> (platter s))
        (writes s ++ [(blockno b, data b)]) (bheld s) (bpid s))
  else
    modify (fun s => set_buf i (set_data (disk_block s (blockno (buf_of s i))) (buf_of s i)) s).

(** ** [bio.c] *)

Definition binit : M bstate unit :=
  initlock BCACHE_LOCK;;
  upd HEAD (set_prev HEAD);;
  upd HEAD (set_next HEAD);;
  for_ (Z.to_nat NBUF) 0 1 (fun b =>
    h ← gets (fun s => next (buf_of s HEAD));
    upd b (set_next h);;
    upd b (set_prev HEAD);;
    initsleeplock (put_slock b) (BUF_LOCK b);;
    upd h (set_prev b);;
    upd HEAD (set_next b)).

(** "Is the block already cached?"  The two scans of [bget] follow the list
    from the head; the list has NBUF buffers, so NBUF+1 turns reach the head
    again. *)
Definition bget_lookup (dv bno : Z) : M bstate (option Z) :=
  b0 ← gets (fun s => next (buf_of s HEAD));
  loop (S (Z.to_nat NBUF)) (fun b =>
    if b =? HEAD then mret (inr None) else
    bb ← gets (fun s => buf_of s b);
    if (dev bb =? dv) && (blockno bb =? bno) then
      upd b (set_refcnt (u32 (refcnt bb + 1)));;
      release BCACHE_LOCK;;
      acquiresleep (get_slock b) (put_slock b);;
      mret (inr (Some b))
    else mret (inl (next bb))) b0.

(** "Recycle the least recently used (LRU) unused buffer." *)
Definition bget_recycle (dv bno : Z) : M bstate Z :=
  b1 ← gets (fun s => prev (buf_of s HEAD));
  loop (S (Z.to_nat NBUF)) (fun b =>
    if b =? HEAD then panic "bget: no buffers" else
    bb ← gets (fun s => buf_of s b);
    if refcnt bb =? 0 then
      upd b (set_dev dv);;
      upd b (set_blockno bno);;
      upd b (set_valid 0);;
      upd b (set_refcnt 1);;
      release BCACHE_LOCK;;
      acquiresleep (get_slock b) (put_slock b);;
      mret (inr b)
    else mret (inl (prev bb))) b1.

Definition bget (dv bno : Z) : M bstate Z :=
  acquire BCACHE_LOCK;;
  hit ← bget_lookup dv bno;
  match hit with
  | Some b => mret b
  | None => bget_recycle dv bno
  end.

Definition bread (dv bno : Z) : M bstate Z :=
  b ← bget dv bno;
  v ← gets (fun s => valid (buf_of s b));
  mwhen (v =? 0) (virtio_disk_rw b false;; upd b (set_valid 1));;
  mret b.

Definition bwrite (b : Z) : M bstate unit :=
  h ← holdingsleep (get_slock b);
  if negb h then panic "bwrite" else virtio_disk_rw b true.

Definition brelse (b : Z) : M bstate unit :=
  h ← holdingsleep (get_slock b);
  if negb h then panic "brelse" else
  releasesleep (get_slock b) (put_slock b);;
  acquire BCACHE_LOCK;;
  r ← gets (fun s => refcnt (buf_of s b));
  upd b (set_refcnt (u32 (r - 1)));;
  r' ← gets (fun s => refcnt (buf_of s b));
  mwhen (r' =? 0) (
    n ← gets (fun s => next (buf_of s b));
    p ← gets (fun s => prev (buf_of s b));
    upd n (set_prev p);;
    n ← gets (fun s => next (buf_of s b));
    p ← gets (fun s => prev (buf_of s b));
    upd p (set_next n);;
    hn ← gets (fun s => next (buf_of s HEAD));
    upd b (set_next hn);;
    upd b (set_prev HEAD);;
    hn ← gets (fun s => next (buf_of s HEAD));
    upd hn (set_prev b);;
    upd HEAD (set_next b));;
  release BCACHE_LOCK.

Definition bpin (b : Z) : M bstate unit :=
  acquire BCACHE_LOCK;;
  upd b (fun x => set_refcnt (u32 (refcnt x + 1)) x);;
  release BCACHE_LOCK.

Definition bunpin (b : Z) : M bstate unit :=
  acquire BCACHE_LOCK;;
  upd b (fun x => set_refcnt (u32 (refcnt x - 1)) x);;
  release BCACHE_LOCK.

(** ** The ring of buffers *)

Definition bnext (s : bstate) (i : Z) : option Z := Some (next (buf_of s i)).
Definition bprev (s : bstate) (i : Z) : option Z := Some (prev (buf_of s i)).

(** [l] lists the buffers from the most to the least recently used one; no lock
    of the cache is held. *)
Record bio_wf (s : bstate) (l : list Z) : Prop := {
  wf_ring : chain (bnext s) (bprev s) (HEAD :: l ++ [HEAD]);
  wf_nodup : NoDup l;
  wf_ids : forall i, i ∈ l <-> 0 <= i < NBUF;
  wf_slk : forall i, i ∈ l -> sl_lk (lock (buf_of s i)) = BUF_LOCK i;
  wf_held : BCACHE_LOCK ∉ held s /\ forall i, i ∈ l -> BUF_LOCK i ∉ held s;
}.

Lemma buf_of_set s i b j :
  buf_of (set_buf i b s) j = if decide (i = j) then b else buf_of s j.
Proof. unfold buf_of, set_buf. cbn. rewrite lookup_insert. by case_decide. Qed.
Lemma buf_of_held x s j : buf_of (set_held x s) j = buf_of s j.
Proof. done. Qed.
Lemma held_set_buf i b s : held (set_buf i b s) = held s.
Proof. done. Qed.
Lemma set_buf_set i b b' s : set_buf i b (set_buf i b' s) = set_buf i b s.
Proof. unfold set_buf. cbn. by rewrite insert_insert_eq. Qed.
#[export] Hint Rewrite buf_of_set buf_of_held held_set_buf : bio.

#[export] Instance buf_SleepLens i : SleepLens (get_slock i) (put_slock i).
Proof.
  split; unfold get_slock, put_slock; intros; try done.
  - rewrite buf_of_set, decide_True by done. done.
  - rewrite buf_of_set, decide_True by done. by rewrite set_buf_set.
Qed.

Lemma wf_length s l : bio_wf s l -> length l = Z.to_nat NBUF.
Proof.
  intros Hwf. assert (l ≡ₚ seqZ 0 NBUF) as ->%Permutation_length.
  - apply NoDup_Permutation; [apply Hwf|apply NoDup_seqZ|].
    intros x. rewrite (wf_ids _ _ Hwf), elem_of_seqZ. lia.
  - by rewrite length_seqZ.
Qed.

Lemma wf_HEAD s l : bio_wf s l -> HEAD ∉ l.
Proof. intros Hwf. rewrite (wf_ids _ _ Hwf). unfold HEAD. lia. Qed.

(** Following the links [adv] from the first node of [r] visits [r] and then
    the head; [found] answers on the first node that satisfies [P]. *)
Lemma scan_spec {A} (P : buf -> bool) (found : Z -> M bstate A) (other : M bstate A)
    (adv : buf -> Z) (body : Z -> M bstate (Z + A)) s :
  (forall b s', body b s' =
     (if b =? HEAD then x ← other; mret (inr x) else
      bb ← gets (fun s => buf_of s b);
      if P bb then x ← found b; mret (inr x) else mret (inl (adv bb))) s') ->
  forall r fuel, (length r < fuel)%nat -> HEAD ∉ r ->
  (forall r1 a r2, r = r1 ++ a :: r2 -> adv (buf_of s a) = hd HEAD r2) ->
  loop fuel body (hd HEAD r) s =
    match list_find (fun i => P (buf_of s i) = true) r with
    | Some (_, b) => found b s
    | None => other s
    end.
Proof.
  intros Hb r. induction r as [|a r IH]; intros fuel Hf Hh Hadv;
    (destruct fuel as [|fuel]; [lia|]); cbn [loop hd list_find length] in *;
    unfold mbind at 1, M_bind at 1; rewrite Hb.
  - rewrite Z.eqb_refl. unfold mbind, M_bind, mret, M_ret. by destruct (other s).
  - destruct (a =? HEAD) eqn:E; to_prop; [set_solver|].
    unfold mbind, M_bind, gets. destruct (P (buf_of s a)) eqn:EP.
    + rewrite decide_True by done. unfold mret, M_ret. by destruct (found a s).
    + rewrite decide_False by congruence. unfold mret, M_ret.
      rewrite (Hadv [] a r) by done. rewrite IH; [|lia|set_solver|].
      * destruct (list_find _ r) as [[i b]|]; done.
      * intros r1 x r2 ->. by apply (Hadv (a :: r1)).
Qed.

Lemma chain_next s l r1 a r2 :
  chain (bnext s) (bprev s) (l ++ [HEAD]) -> l = r1 ++ a :: r2 ->
  next (buf_of s a) = hd HEAD r2.
Proof.
  intros Hc ->. rewrite <- app_assoc in Hc. cbn [app] in Hc. destruct r2 as [|b r2]; cbn [app] in Hc;
    apply chain_mid in Hc as [Hn _]; by injection Hn.
Qed.

(** The first scan: the buffer holding the block. *)
Definition bkey (dv bno : Z) (b : buf) : bool := (dev b =? dv) && (blockno b =? bno).
Definition cached (s : bstate) (l : list Z) (dv bno : Z) : option Z :=
  snd <$> list_find (fun i => bkey dv bno (buf_of s i) = true) l.
(** The second scan: the least recently used buffer nobody uses. *)
Definition lru_unused (s : bstate) (l : list Z) : option Z :=
  snd <$> list_find (fun i => (refcnt (buf_of s i) =? 0) = true) (reverse l).

(** What the code does to the buffer each scan chooses. *)
Definition bget_take (b : Z) : M bstate Z :=
  bb ← gets (fun s => buf_of s b);
  upd b (set_refcnt (u32 (refcnt bb + 1)));;
  release BCACHE_LOCK;;
  acquiresleep (get_slock b) (put_slock b);;
  mret b.
Definition bget_claim (dv bno b : Z) : M bstate Z :=
  upd b (set_dev dv);; upd b (set_blockno bno);;
  upd b (set_valid 0);; upd b (set_refcnt 1);;
  release BCACHE_LOCK;;
  acquiresleep (get_slock b) (put_slock b);;
  mret b.

Lemma bget_lookup_eq s l dv bno :
  chain (bnext s) (bprev s) (HEAD :: l ++ [HEAD]) -> HEAD ∉ l ->
  length l = Z.to_nat NBUF ->
  bget_lookup dv bno s =
    match cached s l dv bno with
    | Some b => (x ← bget_take b; mret (Some x)) s
    | None => Ret None s
    end.
Proof.
  intros Hring Hh Hlen. unfold bget_lookup. unfold mbind at 1, M_bind at 1, gets at 1.
  rewrite (chain_next s (HEAD :: l) [] HEAD l) by done.
  rewrite (scan_spec (bkey dv bno) (fun b => x ← bget_take b; mret (Some x)) (mret None) next).
  - unfold cached. by destruct (list_find _ l) as [[i b]|].
  - intros b s'. destruct (b =? HEAD); [done|]. unfold bget_take, mbind, M_bind, gets.
    fold (bkey dv bno (buf_of s' b)). destruct (bkey dv bno (buf_of s' b)); [|done].
    destruct (upd b _ s') as [a1 s2| | | |]; [|done..].
    destruct (release BCACHE_LOCK s2) as [a3 s3| | | |]; [|done..].
    by destruct (acquiresleep _ _ s3).
  - lia.
  - done.
  - intros r1 a r2 ->. apply (chain_next s (HEAD :: r1 ++ a :: r2) (HEAD :: r1)); done.
Qed.

Lemma bget_recycle_eq s l dv bno :
  chain (bnext s) (bprev s) (HEAD :: l ++ [HEAD]) -> HEAD ∉ l ->
  length l = Z.to_nat NBUF ->
  bget_recycle dv bno s =
    match lru_unused s l with
    | Some b => bget_claim dv bno b s
    | None => Panic "bget: no buffers" s
    end.
Proof.
  intros Hring Hh Hlen. apply chain_rev in Hring.
  rewrite reverse_cons, reverse_snoc in Hring. cbn [app] in Hring.
  assert (forall r1 a r2, HEAD :: reverse l = r1 ++ a :: r2 ->
    prev (buf_of s a) = hd HEAD r2) as Hadv.
  { intros r1 a r2 Hr. change (HEAD :: reverse l ++ [HEAD]) with ((HEAD :: reverse l) ++ [HEAD]) in Hring.
    rewrite Hr, <- app_assoc in Hring. cbn [app] in Hring.
    destruct r2 as [|c r2]; cbn [app] in Hring; apply chain_mid in Hring as [Hn _]; by injection Hn. }
  unfold bget_recycle. unfold mbind at 1, M_bind at 1, gets at 1.
  rewrite (Hadv [] HEAD (reverse l)) by done.
  rewrite (scan_spec (fun b => refcnt b =? 0) (bget_claim dv bno) (panic "bget: no buffers") prev).
  - unfold lru_unused. by destruct (list_find _ (reverse l)) as [[i b]|].
  - intros b s'. destruct (b =? HEAD); [done|]. unfold bget_claim, mbind, M_bind, gets.
    destruct (refcnt (buf_of s' b) =? 0); [|done]. unfold upd, modify.
    destruct (release BCACHE_LOCK _) as [a3 s3| | | |]; [|done..].
    by destruct (acquiresleep _ _ s3).
  - rewrite length_reverse. lia.
  - by rewrite elem_of_reverse.
  - intros r1 a r2 Hr. apply (Hadv (HEAD :: r1)). by rewrite Hr.
Qed.

Lemma bget_eq s l dv bno : bio_wf s l ->
  bget dv bno s =
    let s1 := set_held ({[BCACHE_LOCK]} ∪ held s) s in
    match cached s l dv bno with
    | Some b => bget_take b s1
    | None =>
        match lru_unused s l with
        | Some b => bget_claim dv bno b s1
        | None => Panic "bget: no buffers" s1
        end
    end.
Proof.
  intros Hwf. cbn zeta. set (s1 := set_held _ s).
  assert (acquire BCACHE_LOCK s = Ret tt s1) as Ha.
  { unfold acquire, zoom, Lk.acquire. rewrite decide_False; [done|apply Hwf]. }
  unfold bget. unfold mbind at 1, M_bind at 1. rewrite Ha. unfold mbind at 1, M_bind at 1.
  pose proof (wf_ring _ _ Hwf) as Hr. pose proof (wf_HEAD _ _ Hwf) as Hh.
  pose proof (wf_length _ _ Hwf) as Hlen.
  rewrite (bget_lookup_eq s1 l) by done.
  change (cached s1 l dv bno) with (cached s l dv bno).
  destruct (cached s l dv bno) as [b|].
  - unfold mbind, M_bind. by destruct (bget_take b s1).
  - cbn. by rewrite (bget_recycle_eq s1 l).
Qed.

(** ** Each operation on a well-formed cache *)

Definition locked_by (s : bstate) (b : Z) : Prop :=
  sl_locked (lock (buf_of s b)) <> 0 /\ sl_pid (lock (buf_of s b)) = curpid s.

Lemma wf_set_buf s l i b' : bio_wf s l ->
  next b' = next (buf_of s i) -> prev b' = prev (buf_of s i) ->
  sl_lk (lock b') = sl_lk (lock (buf_of s i)) ->
  bio_wf (set_buf i b' s) l.
Proof.
  intros Hwf Hn Hp Hs. destruct Hwf as [Hr Hd Hi Hk Hh]. split; try done.
  - eapply chain_ext; [done|..]; intros x; unfold bnext, bprev; rewrite buf_of_set;
      case_decide; subst; congruence.
  - intros j Hj. rewrite buf_of_set. case_decide; subst; [rewrite Hs|]; by apply Hk.
Qed.

Lemma held_dance (s : bstate) : BCACHE_LOCK ∉ held s ->
  set_held (({[BCACHE_LOCK]} ∪ held s) ∖ {[BCACHE_LOCK]}) s = s.
Proof. intros Hn. by rewrite held_acq_rel, set_held_held. Qed.

(** Taking the sleep lock of buffer [b] after setting its other fields. *)
Lemma wp_finish_bget s l b b' (Q : Z -> bstate -> Prop) :
  bio_wf s l -> b ∈ l -> lock b' = lock (buf_of s b) -> sl_locked (lock (buf_of s b)) = 0 ->
  Q b (set_buf b (set_lock (mkSleep 1 (BUF_LOCK b) (curpid s)) b') s) ->
  wp (release BCACHE_LOCK;; acquiresleep (get_slock b) (put_slock b);; mret b) Q
     (set_buf b b' (set_held ({[BCACHE_LOCK]} ∪ held s) s)).
Proof.
  intros Hwf Hb Hlk Hl HQ. apply wp_bind, wp_release; [cbn; set_solver|].
  change (set_held (held (set_buf b b' (set_held ({[BCACHE_LOCK]} ∪ held s) s)) ∖ {[BCACHE_LOCK]})
    (set_buf b b' (set_held ({[BCACHE_LOCK]} ∪ held s) s)))
    with (set_buf b b' (set_held (({[BCACHE_LOCK]} ∪ held s) ∖ {[BCACHE_LOCK]}) s)).
  rewrite held_dance by apply Hwf.
  assert (get_slock b (set_buf b b' s) = lock (buf_of s b)) as Hg.
  { unfold get_slock. by rewrite buf_of_set, decide_True. }
  apply wp_bind, (wp_acquiresleep _ _).
  - rewrite Hg, (wf_slk _ _ Hwf) by done. by apply Hwf.
  - by rewrite Hg.
  - apply wp_ret. rewrite Hg, (wf_slk _ _ Hwf) by done. unfold put_slock.
    rewrite buf_of_set, decide_True, set_buf_set by done. done.
Qed.

Lemma cached_Some s l dv bno b : cached s l dv bno = Some b ->
  b ∈ l /\ dev (buf_of s b) = dv /\ blockno (buf_of s b) = bno.
Proof.
  unfold cached. destruct (list_find _ l) as [[i x]|] eqn:E; cbn; [|done].
  intros [= ->]. apply list_find_Some in E as (Hl & Hk & _).
  unfold bkey in Hk. to_prop. split; [|done]. by eapply list_elem_of_lookup_2.
Qed.

Lemma cached_None s l dv bno b : cached s l dv bno = None -> b ∈ l ->
  ~ (dev (buf_of s b) = dv /\ blockno (buf_of s b) = bno).
Proof.
  unfold cached. destruct (list_find _ l) as [[i x]|] eqn:E; [done|]. intros _ Hb [Hd Hn].
  apply list_find_None in E. rewrite Forall_forall in E. apply (E b Hb).
  unfold bkey. by rewrite Hd, Hn, !Z.eqb_refl.
Qed.

Lemma lru_unused_Some s l b : lru_unused s l = Some b ->
  b ∈ l /\ refcnt (buf_of s b) = 0.
Proof.
  unfold lru_unused. destruct (list_find _ _) as [[i x]|] eqn:E; cbn; [|done].
  intros [= ->]. apply list_find_Some in E as (Hl & Hk & _). to_prop.
  split; [|done]. rewrite <- elem_of_reverse. by eapply list_elem_of_lookup_2.
Qed.

(** [bget] on a well-formed cache.  A cached block's buffer is returned
    with one more reference; otherwise the least recently used buffer without
    references is given to the block, invalid and with one reference; when every
    buffer is referenced the kernel panics.  The returned buffer is locked by the
    caller and the rest of the cache, the disk included, is as before. *)
Lemma bget_wp s l dv bno (Hwf : bio_wf s l) :
  match cached s l dv bno, lru_unused s l with
  | Some b, _ =>
      sl_locked (lock (buf_of s b)) = 0 ->
      wp (bget dv bno) (fun r s' => r = b /\ s' =
        set_buf b (set_lock (mkSleep 1 (BUF_LOCK b) (curpid s))
          (set_refcnt (u32 (refcnt (buf_of s b) + 1)) (buf_of s b))) s) s
  | None, Some b =>
      sl_locked (lock (buf_of s b)) = 0 ->
      wp (bget dv bno) (fun r s' => r = b /\ s' =
        set_buf b (set_lock (mkSleep 1 (BUF_LOCK b) (curpid s))
          (set_refcnt 1 (set_valid 0 (set_blockno bno (set_dev dv (buf_of s b)))))) s) s
  | None, None => panics (bget dv bno) "bget: no buffers" s
  end.
Proof.
  pose proof (bget_eq s l dv bno Hwf) as E. cbn zeta in E.
  destruct (cached s l dv bno) as [b|] eqn:Ec; [|destruct (lru_unused s l) as [b|] eqn:Eu].
  - intros Hl. unfold wp. rewrite E. apply (wp_exists (bget_take b)), wp_exists.
    apply cached_Some in Ec as (Hb & _). unfold bget_take. apply wp_bind, wp_gets.
    apply wp_bind, wp_modify. rewrite buf_of_held. by apply (wp_finish_bget s l).
  - intros Hl. unfold wp. rewrite E. apply (wp_exists (bget_claim dv bno b)), wp_exists.
    apply lru_unused_Some in Eu as (Hb & _). unfold bget_claim, upd.
    do 4 (apply wp_bind, wp_modify).
    repeat rewrite ?buf_of_set, ?decide_True, ?set_buf_set, ?buf_of_held by done.
    by apply (wp_finish_bget s l).
  - unfold panics. by rewrite E.
Qed.

(** *** [brelse] *)

(** What a buffer holds, without its place in the list. *)
Definition payload (b : buf) :=
  (valid b, disk b, dev b, blockno b, lock b, refcnt b, data b).

Definition to_front (b : Z) (l : list Z) : list Z := b :: filter (fun x => x <> b) l.

Lemma list_filter_all_id (P : Z -> Prop) `{!forall x, Decision (P x)} (l : list Z) :
  (forall x, x ∈ l -> P x) -> filter P l = l.
Proof.
  induction l as [|a l IH]; intros Hl; [done|].
  rewrite filter_cons_True by set_solver. f_equal. apply IH. set_solver.
Qed.

Lemma to_front_mid b l1 l2 : NoDup (l1 ++ b :: l2) -> to_front b (l1 ++ b :: l2) = b :: l1 ++ l2.
Proof.
  intros Hd. unfold to_front. f_equal. rewrite filter_app, filter_cons_False by naive_solver.
  apply NoDup_app in Hd as (_ & H1 & H2). apply NoDup_cons in H2 as [H2 _].
  rewrite !list_filter_all_id; [done|..]; set_solver.
Qed.

(** The pointer surgery of [brelse] on the ring. *)
Definition unlink_to_front (b : Z) : M bstate unit :=
  n ← gets (fun s => next (buf_of s b));
  p ← gets (fun s => prev (buf_of s b));
  upd n (set_prev p);;
  n ← gets (fun s => next (buf_of s b));
  p ← gets (fun s => prev (buf_of s b));
  upd p (set_next n);;
  hn ← gets (fun s => next (buf_of s HEAD));
  upd b (set_next hn);;
  upd b (set_prev HEAD);;
  hn ← gets (fun s => next (buf_of s HEAD));
  upd hn (set_prev b);;
  upd HEAD (set_next b).

Lemma bnext_set_next i v s x :
  bnext (set_buf i (set_next v (buf_of s i)) s) x = fupd (bnext s) i (Some v) x.
Proof. unfold bnext, fupd. rewrite buf_of_set. repeat case_decide; subst; done. Qed.
Lemma bprev_set_next i v s x : bprev (set_buf i (set_next v (buf_of s i)) s) x = bprev s x.
Proof. unfold bprev. rewrite buf_of_set. case_decide; by subst. Qed.
Lemma bnext_set_prev i v s x : bnext (set_buf i (set_prev v (buf_of s i)) s) x = bnext s x.
Proof. unfold bnext. rewrite buf_of_set. case_decide; by subst. Qed.
Lemma bprev_set_prev i v s x :
  bprev (set_buf i (set_prev v (buf_of s i)) s) x = fupd (bprev s) i (Some v) x.
Proof. unfold bprev, fupd. rewrite buf_of_set. repeat case_decide; subst; done. Qed.
Lemma payload_set_next i v s x :
  payload (buf_of (set_buf i (set_next v (buf_of s i)) s) x) = payload (buf_of s x).
Proof. rewrite buf_of_set. case_decide; by subst. Qed.
Lemma payload_set_prev i v s x :
  payload (buf_of (set_buf i (set_prev v (buf_of s i)) s) x) = payload (buf_of s x).
Proof. rewrite buf_of_set. case_decide; by subst. Qed.

(** Everything but the links is as in [s]. *)
Definition same_but_links (s s' : bstate) : Prop :=
  (forall x, payload (buf_of s' x) = payload (buf_of s x)) /\
  platter s' = platter s /\ writes s' = writes s /\ held s' = held s /\ curpid s' = curpid s.

Lemma bnext_inv s x y : bnext s x = Some y -> next (buf_of s x) = y.
Proof. unfold bnext. congruence. Qed.
Lemma bprev_inv s x y : bprev s x = Some y -> prev (buf_of s x) = y.
Proof. unfold bprev. congruence. Qed.

(** The links after the surgery, in terms of the links before. *)
Lemma unlink_links b p n s (Q : unit -> bstate -> Prop) :
  bnext s b = Some n -> bprev s b = Some p -> b <> n -> b <> p -> b <> HEAD ->
  let nx := fupd (bnext s) p (Some n) in
  let pv := fupd (bprev s) n (Some p) in
  (forall s' hn, nx HEAD = Some hn ->
     (forall x, bnext s' x = fupd (fupd nx b (Some hn)) HEAD (Some b) x) ->
     (forall x, bprev s' x = fupd (fupd pv b (Some HEAD)) hn (Some b) x) ->
     same_but_links s s' -> Q tt s') ->
  wp (unlink_to_front b) Q s.
Proof.
  intros Hn Hp Hbn Hbp Hbh nx pv HQ. unfold unlink_to_front, upd.
  wp_steps. set (s1 := set_buf _ _ s).
  assert (next (buf_of s b) = n) as E1 by by apply bnext_inv.
  assert (prev (buf_of s b) = p) as E2 by by apply bprev_inv.
  assert (next (buf_of s1 b) = n) as E3 by (apply bnext_inv; unfold s1; by rewrite bnext_set_prev).
  assert (prev (buf_of s1 b) = p) as E4.
  { apply bprev_inv. unfold s1. rewrite bprev_set_prev, E1, fupd_ne; congruence. }
  set (s2 := set_buf (prev (buf_of s1 b)) _ s1).
  set (s4 := set_buf b (set_prev HEAD _) (set_buf b _ s2)).
  set (hn := next (buf_of s2 HEAD)).
  assert (next (buf_of s4 HEAD) = hn) as E5.
  { apply bnext_inv. unfold s4. rewrite bnext_set_prev, bnext_set_next, fupd_ne by congruence. done. }
  set (s5 := set_buf (next (buf_of s4 HEAD)) _ s4).
  assert (forall x, bnext s2 x = nx x) as Hnx.
  { intros x. unfold s2. rewrite bnext_set_next, E3, E4. unfold nx, fupd.
    case_decide; [done|]. unfold s1. by rewrite bnext_set_prev. }
  assert (forall x, bprev s2 x = pv x) as Hpv.
  { intros x. unfold s2. rewrite bprev_set_next. unfold s1. rewrite bprev_set_prev, E1, E2. done. }
  apply (HQ _ hn).
  - by rewrite <- Hnx.
  - intros x. rewrite bnext_set_next. unfold fupd at 1 2. case_decide; [done|].
    unfold s5. rewrite bnext_set_prev. unfold s4. rewrite bnext_set_prev, bnext_set_next.
    unfold fupd. case_decide; [done|]. apply Hnx.
  - intros x. rewrite bprev_set_next. unfold s5. rewrite bprev_set_prev, E5.
    unfold fupd at 1 2. case_decide; [done|]. unfold s4. rewrite bprev_set_prev.
    unfold fupd. case_decide; [done|]. rewrite bprev_set_next. apply Hpv.
  - split; [|done]. intros x. unfold s5, s4, s2, s1.
    rewrite ?payload_set_next, ?payload_set_prev, ?payload_set_next, ?payload_set_prev,
      ?payload_set_next, ?payload_set_prev. done.
Qed.

Lemma snoc_split (l : list Z) a : exists A p, a :: l = A ++ [p].
Proof.
  destruct (exists_last (l := a :: l)) as (A & p & E); [done|]. by exists A, p.
Qed.

Lemma ring_to_front s l1 b l2 (Q : unit -> bstate -> Prop) :
  chain (bnext s) (bprev s) (HEAD :: (l1 ++ b :: l2) ++ [HEAD]) ->
  NoDup (l1 ++ b :: l2) -> HEAD ∉ l1 ++ b :: l2 ->
  (forall s', chain (bnext s') (bprev s') (HEAD :: (b :: l1 ++ l2) ++ [HEAD]) ->
     same_but_links s s' -> Q tt s') ->
  wp (unlink_to_front b) Q s.
Proof.
  intros Hr Hd Hh HQ.
  destruct (snoc_split l1 HEAD) as (A & p & HA).
  assert (exists n B, l2 ++ [HEAD] = n :: B) as (n & B & HB)
    by (destruct l2; cbn; eauto).
  assert (HEAD :: (l1 ++ b :: l2) ++ [HEAD] = A ++ p :: b :: n :: B) as EL.
  { rewrite <- app_assoc. cbn [app]. rewrite HB, app_comm_cons, HA, <- app_assoc. done. }
  assert (HEAD :: (l1 ++ l2) ++ [HEAD] = A ++ p :: n :: B) as EL'.
  { rewrite <- app_assoc, HB, app_comm_cons, HA, <- app_assoc. done. }
  assert (NoDup (removelast (HEAD :: (l1 ++ b :: l2) ++ [HEAD]))) as N1.
  { rewrite app_comm_cons, removelast_snoc. by constructor. }
  assert (NoDup (tail (HEAD :: (l1 ++ b :: l2) ++ [HEAD]))) as N2.
  { cbn [tail]. rewrite Permutation_app_comm. by constructor. }
  assert (NoDup (l1 ++ l2) /\ b ∉ l1 ++ l2) as [Hd' Hb].
  { rewrite <- Permutation_middle in Hd. apply NoDup_cons in Hd. tauto. }
  pose proof Hr as Hr'. rewrite EL in Hr, N1, N2.
  pose proof (chain_unlink _ _ _ _ _ _ _ Hr N1 N2) as Hu. rewrite <- EL' in Hu.
  assert (linked (bnext s) (bprev s) p b /\ linked (bnext s) (bprev s) b n) as [[Hpb1 Hpb2] [Hbn1 _]].
  { apply chain_app in Hr as [_ (Hl1 & Hl2 & _)]. done. }
  assert (b <> HEAD) by set_solver.
  assert (b <> n) by (intros <-; assert (b ∈ l2 ++ [HEAD]) by (rewrite HB; set_solver); set_solver).
  assert (b <> p) by (intros <-; assert (b ∈ HEAD :: l1) by (rewrite HA; set_solver); set_solver).
  apply (unlink_links b p n); try done. intros s' hn Hhn Hnx Hpv Hsame.
  apply HQ; [|done]. cbn [app].
  assert (exists C, (l1 ++ l2) ++ [HEAD] = hn :: C) as [C HC].
  { destruct ((l1 ++ l2) ++ [HEAD]) as [|x C] eqn:E; [by destruct (l1 ++ l2)|].
    exists C. f_equal. destruct Hu as [[Hx _] _]. congruence. }
  rewrite HC in Hu |- *.
  eapply chain_ext; [apply (chain_insert _ _ [] HEAD b hn C Hu)|done|done].
  - change ([] ++ HEAD :: hn :: C) with (HEAD :: hn :: C).
    rewrite <- HC, app_comm_cons, removelast_snoc. constructor; [set_solver|done].
  - cbn [app tail]. rewrite <- HC, Permutation_app_comm. constructor; [set_solver|done].
  - cbn [app]. rewrite <- HC. set_solver.
Qed.

(** A permuted ring over the same buffers is well formed. *)
Lemma wf_from s l s' l' : bio_wf s l -> l' ≡ₚ l ->
  chain (bnext s') (bprev s') (HEAD :: l' ++ [HEAD]) ->
  (forall i, i ∈ l -> sl_lk (lock (buf_of s' i)) = sl_lk (lock (buf_of s i))) ->
  held s' = held s -> bio_wf s' l'.
Proof.
  intros [W1 W2 W3 W4 W5] Hp Hc Hk Hh. split; [done|by rewrite Hp| | |].
  - intros i. by rewrite Hp.
  - intros i Hi. rewrite Hp in Hi. rewrite Hk by done. by apply W4.
  - rewrite Hh. split; [apply W5|]. intros i Hi. rewrite Hp in Hi. by apply W5.
Qed.

(** The part of [brelse] under [bcache.lock], once the count is [r]. *)
Lemma brelse_tail s l b r b' : bio_wf s l -> b ∈ l ->
  next b' = next (buf_of s b) -> prev b' = prev (buf_of s b) ->
  sl_lk (lock b') = sl_lk (lock (buf_of s b)) ->
  wp (mwhen (r =? 0) (unlink_to_front b);; release BCACHE_LOCK)
    (fun _ s' =>
      bio_wf s' (if r =? 0 then to_front b l else l) /\
      (forall i, payload (buf_of s' i) = payload (if decide (i = b) then b' else buf_of s i)) /\
      platter s' = platter s /\ writes s' = writes s /\ held s' = held s /\
      curpid s' = curpid s)
    (set_buf b b' (set_held ({[BCACHE_LOCK]} ∪ held s) s)).
Proof.
  intros Hwf Hb Hn Hp Hk. set (s2 := set_buf b b' _).
  assert (forall i, buf_of s2 i = if decide (i = b) then b' else buf_of s i) as Hs2.
  { intros i. unfold s2. rewrite buf_of_set. repeat case_decide; subst; done. }
  assert (bio_wf (set_buf b b' s) l) as Hwf2 by by apply wf_set_buf.
  assert (forall i, sl_lk (lock (buf_of s2 i)) = sl_lk (lock (buf_of s i))) as Hslk.
  { intros i. rewrite Hs2. case_decide; congruence. }
  apply wp_bind, wp_when; intros Hr; rewrite Hr.
  - apply list_elem_of_split in Hb as (l1 & l2 & ->).
    rewrite to_front_mid by apply Hwf.
    apply (ring_to_front s2 l1 b l2); [apply Hwf2|apply Hwf|by eapply wf_HEAD|].
    intros s3 Hring (Hpay & Hpl & Hwr & Hhe & Hcp).
    apply wp_release; [rewrite Hhe; cbn; set_solver|].
    assert (held s3 ∖ {[BCACHE_LOCK]} = held s) as Hh
      by (rewrite Hhe; apply held_acq_rel, Hwf).
    split; [|repeat split; try done].
    + eapply wf_from; [exact Hwf|apply Permutation_middle|done| |done].
      intros i _. rewrite buf_of_held. specialize (Hpay i).
      injection Hpay as _ _ _ _ Hlk _ _. rewrite Hlk. apply Hslk.
    + intros i. rewrite buf_of_held, Hpay. by rewrite Hs2.
  - apply wp_release; [cbn; set_solver|].
    assert (held s2 ∖ {[BCACHE_LOCK]} = held s) as Hh by apply held_acq_rel, Hwf.
    split; [|repeat split; try done].
    + eapply wf_from; [exact Hwf|done|apply Hwf2| |done]. intros i _. apply Hslk.
    + intros i. rewrite buf_of_held. by rewrite Hs2.
Qed.

(** [brelse] by the holder of the buffer.  The lock is released and the
    reference dropped; when it was the last reference the buffer becomes the most
    recently used one and the other buffers keep their order; otherwise the order
    is unchanged.  The doubly linked list stays well formed and nothing else of
    the cache or the disk changes. *)
Lemma brelse_wp s l b :
  bio_wf s l -> b ∈ l -> locked_by s b ->
  wp (brelse b) (fun _ s' =>
    let r := u32 (refcnt (buf_of s b) - 1) in
    bio_wf s' (if r =? 0 then to_front b l else l) /\
    (forall i, payload (buf_of s' i) = payload (if decide (i = b)
       then set_refcnt r (set_lock (mkSleep 0 (BUF_LOCK b) 0) (buf_of s b))
       else buf_of s i)) /\
    platter s' = platter s /\ writes s' = writes s /\ held s' = held s /\
    curpid s' = curpid s) s.
Proof.
  intros Hwf Hb [Hl Hp]. unfold brelse. cbn zeta.
  assert (sl_lk (lock (buf_of s b)) = BUF_LOCK b) as Hk by by apply Hwf.
  assert (BUF_LOCK b ∉ held s) as Hnh by by apply Hwf.
  apply wp_bind, (wp_holdingsleep _ (put_slock b)); unfold get_slock; [by rewrite Hk|].
  apply Z.eqb_neq in Hl. rewrite Hp, Z.eqb_refl, Hl. cbn [negb andb].
  apply wp_bind, (wp_releasesleep _ _); unfold get_slock, put_slock; rewrite Hk; [done|].
  apply wp_bind, wp_acquire; [apply Hwf|]. unfold upd. apply wp_bind, wp_gets.
  rewrite buf_of_held, buf_of_set, decide_True by done. cbn [refcnt set_lock].
  set (r := u32 _). apply wp_bind, wp_modify.
  rewrite buf_of_held, buf_of_set, decide_True by done. apply wp_bind, wp_gets.
  rewrite buf_of_set, decide_True by done. cbn [refcnt set_refcnt].
  set (b2 := set_refcnt r _).
  change (set_buf b b2 (set_held _ _)) with
    (set_buf b b2 (set_buf b (set_lock (mkSleep 0 (BUF_LOCK b) 0) (buf_of s b))
       (set_held ({[BCACHE_LOCK]} ∪ held s) s))).
  rewrite set_buf_set. by apply (brelse_tail s l b r b2).
Qed.

(** *** [binit] *)

(** The zeroed memory the kernel starts with, and a disk. *)
Definition boot (d : gmap Z block) (pid : Z) : bstate := mkBio ∅ d [] ∅ pid.

(** The ring after [k] turns of the loop of [binit]. *)
Record binit_inv (d : gmap Z block) (pid k : Z) (s : bstate) : Prop := {
  bi_ring : chain (bnext s) (bprev s) (HEAD :: reverse (seqZ 0 k) ++ [HEAD]);
  bi_done : forall i, 0 <= i < k -> payload (buf_of s i) =
    (0, 0, 0, 0, mkSleep 0 (BUF_LOCK i) 0, 0, zero_block);
  bi_todo : forall i, k <= i < NBUF -> payload (buf_of s i) = payload buf0;
  bi_rest : platter s = d /\ writes s = [] /\ held s = ∅ /\ curpid s = pid;
}.

Lemma payload_sl i l s x :
  payload (buf_of (put_slock i l s) x) =
    payload (if decide (x = i) then set_lock l (buf_of s x) else buf_of s x).
Proof. unfold put_slock. rewrite buf_of_set. repeat case_decide; subst; done. Qed.
Lemma payload_set_lock l b b' :
  payload b = payload b' -> payload (set_lock l b) = payload (set_lock l b').
Proof. intros E. injection E as E1 E2 E3 E4 E5 E6 E7. unfold payload. cbn. congruence. Qed.
Lemma bnext_sl i l s x : bnext (put_slock i l s) x = bnext s x.
Proof. unfold bnext, put_slock. rewrite buf_of_set. case_decide; by subst. Qed.
Lemma bprev_sl i l s x : bprev (put_slock i l s) x = bprev s x.
Proof. unfold bprev, put_slock. rewrite buf_of_set. case_decide; by subst. Qed.
#[export] Hint Rewrite bnext_set_next bprev_set_next bnext_set_prev bprev_set_prev
  payload_set_next payload_set_prev bnext_sl bprev_sl payload_sl : biolinks.

Lemma binit_step d pid k s : 0 <= k < NBUF -> binit_inv d pid k s ->
  wp (h ← gets (fun s => next (buf_of s HEAD));
      upd k (set_next h);;
      upd k (set_prev HEAD);;
      initsleeplock (put_slock k) (BUF_LOCK k);;
      upd h (set_prev k);;
      upd HEAD (set_next k)) (fun _ s' => binit_inv d pid (k + 1) s') s.
Proof.
  intros Hk [Hr Hd Ht Hs]. unfold upd, initsleeplock. wp_steps.
  set (h := next (buf_of s HEAD)).
  assert (bnext s HEAD = Some h) as Hh by done.
  assert (k <> HEAD) as HkH by (unfold HEAD; lia).
  assert (reverse (seqZ 0 (k + 1)) = k :: reverse (seqZ 0 k)) as Hrev.
  { replace (seqZ 0 (k + 1)) with (seqZ 0 k ++ [k]); [by rewrite reverse_snoc|].
    rewrite seqZ_app by lia. rewrite Z.add_0_l. done. }
  assert (HEAD ∉ reverse (seqZ 0 k) /\ k ∉ reverse (seqZ 0 k)) as [HH Hkk].
  { rewrite !elem_of_reverse, !elem_of_seqZ. unfold HEAD. lia. }
  assert (NoDup (reverse (seqZ 0 k))) as Hnd.
  { rewrite reverse_Permutation. apply NoDup_seqZ. }
  assert (exists C, reverse (seqZ 0 k) ++ [HEAD] = h :: C) as [C HC].
  { destruct (reverse (seqZ 0 k) ++ [HEAD]) as [|x C] eqn:E; [by destruct (reverse _)|].
    exists C. f_equal. destruct Hr as [[Hx _] _]. congruence. }
  split; [| | |done].
  - rewrite Hrev. cbn [app]. rewrite HC in Hr |- *.
    eapply chain_ext; [apply (chain_insert _ _ [] HEAD k h C Hr)|..].
    + change ([] ++ HEAD :: h :: C) with (HEAD :: h :: C).
      rewrite <- HC, app_comm_cons, removelast_snoc. by constructor.
    + cbn [app tail]. rewrite <- HC, Permutation_app_comm. by constructor.
    + cbn [app]. rewrite <- HC. set_solver.
    + intros x. autorewrite with biolinks. unfold fupd.
      repeat (autorewrite with biolinks; case_decide; try done).
    + intros x. autorewrite with biolinks. unfold fupd. case_decide; [done|].
      autorewrite with biolinks. unfold fupd. case_decide; [done|].
      by autorewrite with biolinks.
  - intros i Hi. autorewrite with biolinks. case_decide; subst.
    + rewrite (payload_set_lock _ _ buf0); [done|]. autorewrite with biolinks.
      apply Ht. lia.
    + autorewrite with biolinks. apply Hd. lia.
  - intros i Hi. autorewrite with biolinks. rewrite decide_False by lia.
    autorewrite with biolinks. apply Ht. lia.
Qed.

(** [binit] builds the ring of all NBUF buffers: they are unlocked and
    unreferenced, and the last one initialised is the most recently used. *)
Lemma binit_wp d pid :
  wp binit (fun _ s' => bio_wf s' (reverse (seqZ 0 NBUF)) /\
    (platter s' = d /\ writes s' = [] /\ held s' = ∅ /\ curpid s' = pid) /\
    forall i, 0 <= i < NBUF ->
      payload (buf_of s' i) = (0, 0, 0, 0, mkSleep 0 (BUF_LOCK i) 0, 0, zero_block))
    (boot d pid).
Proof.
  unfold binit. unfold upd at 1 2. apply wp_bind, wp_modify.
  do 2 apply wp_bind, wp_modify. set (s0 := set_buf HEAD _ _).
  assert (binit_inv d pid 0 s0) as H0.
  { split; [by split; [split|]|lia| |done]. intros i Hi. unfold s0.
    rewrite buf_of_set, decide_False by (unfold HEAD; lia).
    rewrite buf_of_set, decide_False by (unfold HEAD; lia). done. }
  eapply wp_mono; [apply (wp_for _ (binit_inv d pid)); [exact H0|]|].
  - intros k s' Hk Hi. rewrite Z.add_0_l, Z.mul_1_r.
    apply binit_step; [|done]. unfold NBUF, MAXOPBLOCKS in *. lia.
  - intros u s'. rewrite Z2Nat.id by done. intros [Hr Hd _ (Hp & Hw & Hh & Hc)].
    split; [|by split]. split; [done| | | |by rewrite Hh; set_solver].
    + rewrite reverse_Permutation. apply NoDup_seqZ.
    + intros i. rewrite elem_of_reverse, elem_of_seqZ. lia.
    + intros i. rewrite elem_of_reverse, elem_of_seqZ. intros Hi.
      specialize (Hd i ltac:(lia)). injection Hd as _ _ _ _ Hl _ _. by rewrite Hl.
Qed.

(** ** What the cache promises to its clients

    Blocks are named by (device, block number).  Device 0 is left out: the
    zeroed buffers all claim block (0, 0), so the cache guarantees one buffer per
    block only for the other devices. *)

Record bio_ok (s : bstate) (l : list Z) : Prop := {
  ok_wf : bio_wf s l;
  ok_uniq : forall i j, i ∈ l -> j ∈ l -> dev (buf_of s i) <> 0 ->
    dev (buf_of s i) = dev (buf_of s j) -> blockno (buf_of s i) = blockno (buf_of s j) -> i = j;
  ok_clean : forall i, i ∈ l -> refcnt (buf_of s i) = 0 ->
    sl_locked (lock (buf_of s i)) = 0 /\
    (valid (buf_of s i) <> 0 -> data (buf_of s i) = disk_block s (blockno (buf_of s i)));
  ok_range : forall i, i ∈ l -> 0 <= refcnt (buf_of s i);
}.

(** The block as the kernel sees it: the cached copy, or the disk. *)
Definition content (s : bstate) (l : list Z) (dv bno : Z) : block :=
  match cached s l dv bno with
  | Some b => if valid (buf_of s b) =? 0 then disk_block s bno else data (buf_of s b)
  | None => disk_block s bno
  end.
Definition refs (s : bstate) (l : list Z) (dv bno : Z) : Z :=
  from_option (fun b => refcnt (buf_of s b)) 0 (cached s l dv bno).
Definition idle (s : bstate) (l : list Z) (dv bno : Z) : Prop :=
  forall b, cached s l dv bno = Some b -> sl_locked (lock (buf_of s b)) = 0.
(** [b] is the locked, valid buffer of a block. *)
Definition holds (s : bstate) (l : list Z) (b dv bno : Z) : Prop :=
  cached s l dv bno = Some b /\ locked_by s b /\ valid (buf_of s b) <> 0.

Lemma cached_iff s l dv bno b : bio_ok s l -> dv <> 0 ->
  cached s l dv bno = Some b <->
  b ∈ l /\ dev (buf_of s b) = dv /\ blockno (buf_of s b) = bno.
Proof.
  intros Hok Hdv. split; [apply cached_Some|]. intros (Hb & Hd & Hn).
  destruct (cached s l dv bno) as [c|] eqn:E.
  - apply cached_Some in E as (Hc & Hd' & Hn'). f_equal.
    apply (ok_uniq _ _ Hok); congruence.
  - exfalso. by apply (cached_None _ _ _ _ b E Hb).
Qed.

(** Changing the fields of one buffer that are not its name or its links. *)
Definition same_place (b b' : buf) : Prop :=
  next b' = next b /\ prev b' = prev b /\ sl_lk (lock b') = sl_lk (lock b).

Lemma cached_set_same s l i b' dv bno :
  dev b' = dev (buf_of s i) -> blockno b' = blockno (buf_of s i) ->
  cached (set_buf i b' s) l dv bno = cached s l dv bno.
Proof.
  intros Hd Hn. unfold cached. f_equal. induction l as [|a l IH]; [done|]. cbn.
  assert (bkey dv bno (buf_of (set_buf i b' s) a) = bkey dv bno (buf_of s a)) as E.
  { rewrite buf_of_set. case_decide; [|done]. subst. unfold bkey. by rewrite Hd, Hn. }
  rewrite E. by rewrite IH.
Qed.

Lemma ok_set_same s l i b' : bio_ok s l -> i ∈ l -> same_place (buf_of s i) b' ->
  dev b' = dev (buf_of s i) -> blockno b' = blockno (buf_of s i) ->
  0 < refcnt b' -> bio_ok (set_buf i b' s) l.
Proof.
  intros [Hwf Hu Hc Hg] Hi (Hnx & Hpv & Hlk) Hd Hn Hr. split.
  - by apply wf_set_buf.
  - intros x y Hx Hy. rewrite !buf_of_set. repeat case_decide; subst; rewrite ?Hd, ?Hn; auto.
  - intros x Hx. rewrite buf_of_set. case_decide; subst; [lia|]. apply (Hc x Hx).
  - intros x Hx. rewrite buf_of_set. case_decide; subst; [lia|]. by apply Hg.
Qed.

(** Taking over an unreferenced buffer for a block that is not cached. *)
Lemma ok_claim s l i b' dv bno : bio_ok s l -> i ∈ l -> cached s l dv bno = None ->
  same_place (buf_of s i) b' -> dev b' = dv -> blockno b' = bno -> dv <> 0 ->
  0 < refcnt b' -> bio_ok (set_buf i b' s) l.
Proof.
  intros [Hwf Hu Hc Hg] Hi Hnone (Hnx & Hpv & Hlk) Hd Hn Hdv Hr. split.
  - by apply wf_set_buf.
  - intros x y Hx Hy. rewrite !buf_of_set.
    pose proof (cached_None _ _ _ _ x Hnone Hx) as Nx.
    pose proof (cached_None _ _ _ _ y Hnone Hy) as Ny.
    repeat case_decide; subst; auto; intros ? E1 E2; exfalso;
      first [apply Nx; split; congruence|apply Ny; split; congruence].
  - intros x Hx. rewrite buf_of_set. case_decide; subst; [lia|]. apply (Hc x Hx).
  - intros x Hx. rewrite buf_of_set. case_decide; subst; [lia|]. by apply Hg.
Qed.

(** The blocks of [s'] as its clients see them are those of [s], and the free
    buffers are at least as many, less [k]. *)
Definition nfree (s : bstate) (l : list Z) : nat :=
  length (filter (fun i => refcnt (buf_of s i) = 0) l).

Lemma nfree_unused s l : (0 < nfree s l)%nat -> is_Some (lru_unused s l).
Proof.
  unfold nfree, lru_unused. intros Hn. apply fmap_is_Some.
  destruct (list_find _ _) eqn:E; [done|]. apply list_find_None in E.
  rewrite Forall_forall in E. exfalso.
  destruct (filter _ l) as [|x r] eqn:Ef; [cbn in Hn; lia|].
  assert (x ∈ filter (fun i => refcnt (buf_of s i) = 0) l) as Hx by (rewrite Ef; set_solver).
  apply list_elem_of_filter in Hx as [Hx Hl]. apply (E x); [by rewrite elem_of_reverse|].
  by apply Z.eqb_eq.
Qed.

Lemma nfree_set s l i b' : NoDup l -> i ∈ l ->
  (nfree (set_buf i b' s) l + (if decide (refcnt (buf_of s i) = 0%Z) then 1 else 0) =
   nfree s l + (if decide (refcnt b' = 0%Z) then 1 else 0))%nat.
Proof.
  unfold nfree. induction l as [|a l IH]; intros Hd Hi; [set_solver|].
  apply NoDup_cons in Hd as [Ha Hd]. rewrite !filter_cons.
  destruct (decide (a = i)) as [->|Hne].
  - rewrite !buf_of_set, !(decide_True _ _ (eq_refl i)).
    assert (filter (fun j => refcnt (buf_of (set_buf i b' s) j) = 0) l =
            filter (fun j => refcnt (buf_of s j) = 0) l) as ->.
    { clear IH Hd Hi. induction l as [|c l IH]; [done|]. rewrite !filter_cons.
      apply not_elem_of_cons in Ha as [Hic Ha].
      rewrite buf_of_set, (decide_False _ _ Hic), (IH Ha). done. }
    repeat case_decide; cbn [length]; lia.
  - rewrite !buf_of_set, (decide_False _ _ (not_eq_sym Hne)).
    specialize (IH Hd ltac:(set_solver)). repeat case_decide; cbn [length]; lia.
Qed.

(** The names in the cache after one buffer changed. *)
Lemma cached_self s l i b' : bio_ok (set_buf i b' s) l -> i ∈ l -> dev b' <> 0 ->
  cached (set_buf i b' s) l (dev b') (blockno b') = Some i.
Proof.
  intros Hok Hi Hd. apply cached_iff; [done..|]. by rewrite buf_of_set, decide_True.
Qed.

Lemma cached_other s l i b' dv bno : bio_ok s l -> bio_ok (set_buf i b' s) l -> dv <> 0 ->
  i ∈ l -> ~ (dev b' = dv /\ blockno b' = bno) ->
  cached (set_buf i b' s) l dv bno =
    match cached s l dv bno with
    | Some c => if decide (c = i) then None else Some c
    | None => None
    end.
Proof.
  intros Hok Hok' Hdv Hi Hne.
  destruct (cached (set_buf i b' s) l dv bno) as [c|] eqn:E.
  - apply (cached_iff _ _ _ _ _ Hok' Hdv) in E as (Hc & Hcd & Hcn).
    rewrite buf_of_set in Hcd, Hcn. case_decide as Hic; [tauto|].
    rewrite (proj2 (cached_iff s l dv bno c Hok Hdv)) by done.
    rewrite decide_False by congruence. done.
  - destruct (cached s l dv bno) as [c|] eqn:E'; [|done]. case_decide as Hci; [done|].
    apply (cached_iff _ _ _ _ _ Hok Hdv) in E' as (Hc & Hcd & Hcn).
    exfalso. apply (cached_None _ _ _ _ c E Hc).
    by rewrite buf_of_set, decide_False.
Qed.

(** What one operation on block (dv, bno) does to the clients' view: the other
    blocks keep their content, references and holders. *)
Record others_same (dv bno : Z) (s s' : bstate) (l l' : list Z) : Prop := {
  os_content : forall dv' bno', dv' <> 0 -> ~ (dv' = dv /\ bno' = bno) ->
    content s' l' dv' bno' = content s l dv' bno';
  os_refs : forall dv' bno', dv' <> 0 -> ~ (dv' = dv /\ bno' = bno) ->
    refs s' l' dv' bno' = refs s l dv' bno';
  os_idle : forall dv' bno', dv' <> 0 -> ~ (dv' = dv /\ bno' = bno) ->
    idle s l dv' bno' -> idle s' l' dv' bno';
  os_holds : forall c dv' bno', dv' <> 0 -> ~ (dv' = dv /\ bno' = bno) ->
    holds s l c dv' bno' -> 0 < refs s l dv' bno' -> holds s' l' c dv' bno';
}.

Lemma set_buf_others s l i b' : bio_ok s l -> bio_ok (set_buf i b' s) l -> i ∈ l ->
  (dev b' = dev (buf_of s i) /\ blockno b' = blockno (buf_of s i)) \/
  refcnt (buf_of s i) = 0 ->
  others_same (dev b') (blockno b') s (set_buf i b' s) l l.
Proof.
  intros Hok Hok' Hi Hcase.
  assert (forall dv bno, dv <> 0 -> ~ (dv = dev b' /\ bno = blockno b') ->
    cached (set_buf i b' s) l dv bno = cached s l dv bno /\ cached s l dv bno <> Some i \/
    cached (set_buf i b' s) l dv bno = None /\ cached s l dv bno = Some i /\
      refcnt (buf_of s i) = 0) as Hk.
  { intros dv bno Hdv Hne.
    rewrite (cached_other s l i b' dv bno) by naive_solver.
    destruct (cached s l dv bno) as [c|] eqn:E; [|left; done].
    case_decide as Hc; [|left; split; congruence]. subst c. right.
    apply cached_Some in E as (_ & Hd & Hn). split; [done|]. split; [done|].
    destruct Hcase as [[H1 H2]|]; [|done]. exfalso. apply Hne. split; congruence. }
  assert (forall dv bno c, dv <> 0 -> ~ (dv = dev b' /\ bno = blockno b') ->
    cached s l dv bno = Some c -> c <> i -> buf_of (set_buf i b' s) c = buf_of s c) as Hb.
  { intros dv bno c _ _ _ Hc. by rewrite buf_of_set, decide_False by congruence. }
  split; intros *.
  - intros Hdv Hne. unfold content. destruct (Hk _ _ Hdv Hne) as [[-> Hi']|(-> & E & Hr)].
    + destruct (cached s l dv' bno') as [c|] eqn:E; [|done].
      rewrite (Hb dv' bno') by naive_solver. done.
    + rewrite E. apply cached_Some in E as (_ & _ & Hn).
      destruct (ok_clean _ _ Hok i Hi Hr) as [_ Hcl]. rewrite <- Hn.
      destruct (_ =? 0) eqn:Ev; [done|]. to_prop. by rewrite Hcl.
  - intros Hdv Hne. unfold refs. destruct (Hk _ _ Hdv Hne) as [[-> Hi']|(-> & E & Hr)].
    + destruct (cached s l dv' bno') as [c|] eqn:E; [|done]. cbn.
      rewrite (Hb dv' bno') by naive_solver. done.
    + by rewrite E.
  - intros Hdv Hne Hid c. destruct (Hk _ _ Hdv Hne) as [[-> Hi']|(-> & E & Hr)]; [|done].
    intros Ec. rewrite (Hb dv' bno') by naive_solver. by apply Hid.
  - intros Hdv Hne (Hc & [Hl Hp] & Hv) Hpos.
    destruct (Hk _ _ Hdv Hne) as [[E Hi']|(E & E' & Hr)].
    + unfold holds, locked_by. rewrite E, (Hb dv' bno') by naive_solver. done.
    + exfalso. unfold refs in Hpos. rewrite E' in Hpos. cbn in Hpos. lia.
Qed.

Lemma others_same_trans dv bno s1 s2 s3 l1 l2 l3 :
  others_same dv bno s1 s2 l1 l2 -> others_same dv bno s2 s3 l2 l3 ->
  others_same dv bno s1 s3 l1 l3.
Proof.
  intros A B. split; intros.
  - rewrite (os_content _ _ _ _ _ _ B) by done. by apply (os_content _ _ _ _ _ _ A).
  - rewrite (os_refs _ _ _ _ _ _ B) by done. by apply (os_refs _ _ _ _ _ _ A).
  - apply (os_idle _ _ _ _ _ _ B); [done..|]. by apply (os_idle _ _ _ _ _ _ A).
  - apply (os_holds _ _ _ _ _ _ B); [done..|by apply (os_holds _ _ _ _ _ _ A)|].
    by rewrite (os_refs _ _ _ _ _ _ A).
Qed.

Definition frame (s s' : bstate) : Prop :=
  platter s' = platter s /\ writes s' = writes s /\ held s' = held s /\ curpid s' = curpid s.

(** A buffer either belongs to device [dv] or is as it was. *)
Definition same_devs (dv : Z) (s s' : bstate) (l : list Z) : Prop :=
  forall i, i ∈ l -> dev (buf_of s' i) = dv \/
    dev (buf_of s' i) = dev (buf_of s i) /\ valid (buf_of s' i) = valid (buf_of s i).

Lemma holds_elem s l b dv bno : holds s l b dv bno -> b ∈ l /\ dev (buf_of s b) = dv /\
  blockno (buf_of s b) = bno.
Proof. intros (Hc & _). by apply cached_Some in Hc. Qed.

Lemma holds_refs s l b dv bno : holds s l b dv bno -> refs s l dv bno = refcnt (buf_of s b).
Proof. intros (Hc & _). unfold refs. by rewrite Hc. Qed.

Lemma holds_content s l b dv bno : holds s l b dv bno -> content s l dv bno = data (buf_of s b).
Proof.
  intros (Hc & _ & Hv). unfold content. rewrite Hc. by apply Z.eqb_neq in Hv as ->.
Qed.

(** [bread] returns with buffer [b] of the block locked, [b'] its new value. *)
Lemma bread_finish s l b b' dv bno : bio_ok s l -> bio_ok (set_buf b b' s) l -> b ∈ l -> dv <> 0 ->
  dev b' = dv -> blockno b' = bno -> valid b' <> 0 -> data b' = content s l dv bno ->
  lock b' = mkSleep 1 (BUF_LOCK b) (curpid s) ->
  refcnt b' = refs s l dv bno + 1 -> 0 <= refs s l dv bno ->
  refcnt (buf_of s b) = refs s l dv bno ->
  (dev b' = dev (buf_of s b) /\ blockno b' = blockno (buf_of s b)) \/ refcnt (buf_of s b) = 0 ->
  let s' := set_buf b b' s in
  bio_ok s' l /\ holds s' l b dv bno /\ others_same dv bno s s' l l /\
  content s' l dv bno = content s l dv bno /\ refs s' l dv bno = refs s l dv bno + 1 /\
  same_devs dv s s' l /\ frame s s' /\
  (nfree s' l + (if decide (refs s l dv bno = 0%Z) then 1 else 0) = nfree s l)%nat.
Proof.
  intros Hok Hok' Hb Hdv Hd Hn Hv Hdata Hlk Hr Hr0 Hrb Hcase s'.
  assert (holds s' l b dv bno) as Hh.
  { split; [|split; [split|]].
    - unfold s'. rewrite <- Hd, <- Hn. apply cached_self; [done..|congruence].
    - unfold s'. rewrite buf_of_set, decide_True, Hlk by done. done.
    - unfold s'. rewrite buf_of_set, decide_True, Hlk by done. done.
    - unfold s'. by rewrite buf_of_set, decide_True. }
  assert (buf_of s' b = b') as Hbb by (unfold s'; by rewrite buf_of_set, decide_True).
  split; [done|]. split; [done|]. split; [rewrite <- Hd, <- Hn; by apply set_buf_others|].
  rewrite (holds_content _ _ _ _ _ Hh), (holds_refs _ _ _ _ _ Hh), Hbb.
  split; [done|]. split; [done|].
  split; [intros i Hi; unfold s'; rewrite buf_of_set; case_decide; auto|]. split; [done|].
  pose proof (nfree_set s l b b' (wf_nodup _ _ (ok_wf _ _ Hok)) Hb) as Hf.
  fold s' in Hf. rewrite Hrb in Hf. repeat case_decide; lia.
Qed.

(** [bread] returns the block's current content in a valid buffer locked by
    the caller, keeps every other block's content, references and holders, and
    does not write the disk; it cannot fail when the block is referenced or a
    buffer is unreferenced. *)
Lemma bread_wp s l dv bno :
  bio_ok s l -> dv <> 0 -> idle s l dv bno ->
  0 < refs s l dv bno \/ (0 < nfree s l)%nat -> refs s l dv bno + 1 < 2 ^ 32 ->
  wp (bread dv bno) (fun b s' =>
    bio_ok s' l /\ holds s' l b dv bno /\ others_same dv bno s s' l l /\
    content s' l dv bno = content s l dv bno /\ refs s' l dv bno = refs s l dv bno + 1 /\
    same_devs dv s s' l /\ frame s s' /\
    (nfree s' l + (if decide (refs s l dv bno = 0%Z) then 1 else 0) = nfree s l)%nat) s.
Proof.
  intros Hok Hdv Hidle Hroom Hmax. pose proof (ok_wf _ _ Hok) as Hwf.
  pose proof (bget_wp s l dv bno Hwf) as Hg. unfold bread. apply wp_bind.
  destruct (cached s l dv bno) as [b|] eqn:Ec.
  - pose proof (cached_Some _ _ _ _ _ Ec) as (Hb & Hd & Hn).
    assert (refs s l dv bno = refcnt (buf_of s b)) as Hr by (unfold refs; by rewrite Ec).
    pose proof (ok_range _ _ Hok b Hb) as Hr0.
    eapply wp_mono; [by apply Hg, Hidle|]. intros ? ? [-> ->]. apply wp_bind, wp_gets.
    rewrite buf_of_set, decide_True by done. cbn [valid set_lock set_refcnt].
    assert (u32 (refcnt (buf_of s b) + 1) = refs s l dv bno + 1) as ->.
    { rewrite Hr in *. unfold u32. apply Z.mod_small. lia. }
    apply wp_bind, wp_when; intros Hv; to_prop.
    + unfold virtio_disk_rw, upd. wp_steps.
      repeat rewrite ?buf_of_set, ?(decide_True _ _ (eq_refl b)), ?set_buf_set.
      apply bread_finish; try done; try (cbn; lia).
      * apply ok_set_same; try done; cbn; [|lia].
        split; [done|]. split; [done|]. cbn. by rewrite (wf_slk _ _ Hwf).
      * unfold content. rewrite Ec, Hv. cbn. by rewrite Hn.
    + apply wp_ret. apply bread_finish; try done; try (cbn; lia).
      * apply ok_set_same; try done; cbn; [|lia].
        split; [done|]. split; [done|]. cbn. by rewrite (wf_slk _ _ Hwf).
      * unfold content. rewrite Ec. by apply Z.eqb_neq in Hv as ->.
  - assert (refs s l dv bno = 0) as Hr by (unfold refs; by rewrite Ec).
    destruct Hroom as [?|Hroom]; [lia|].
    destruct (nfree_unused s l Hroom) as [b Eu]. rewrite Eu in Hg.
    pose proof (lru_unused_Some _ _ _ Eu) as [Hb Hb0].
    eapply wp_mono; [by apply Hg, (ok_clean _ _ Hok)|]. intros ? ? [-> ->].
    apply wp_bind, wp_gets. rewrite buf_of_set, decide_True by done.
    cbn [valid set_lock set_refcnt set_valid]. unfold virtio_disk_rw, upd, mwhen. cbn [Z.eqb].
    wp_steps. repeat rewrite ?buf_of_set, ?(decide_True _ _ (eq_refl b)), ?set_buf_set.
    apply bread_finish; try done; try (cbn; lia).
    + eapply ok_claim; try done. split; [done|]. split; [done|]. cbn.
      by rewrite (wf_slk _ _ Hwf).
    + unfold content. by rewrite Ec.
Qed.
