(* ===== verification/BioView.v ===== *)
(** * The buffer cache as its clients see it

    [kernel/log.c] and [kernel/fs.c] use one device.  For that device the cache
    of [Bio.v] implements an abstract cache ([view]): a content and a reference
    count for every block, the buffers the running process holds, the number of
    unreferenced buffers, and the disk.  Each operation of [bio.c] is given its
    meaning on views; clients reason with these rules only. *)

From Stdlib Require Import ZArith Lia.
From stdpp Require Import base numbers list gmap strings sets.
From S2P Require Import Prelude Riscv Spinlock Locks Dll Bio.

(** Updating a function at one block. *)
Definition upd_at {A} (f : Z -> A) (k : Z) (v : A) : Z -> A :=
  fun x => if decide (x = k) then v else f x.
Lemma upd_at_eq {A} (f : Z -> A) k v : upd_at f k v k = v.
Proof. unfold upd_at. by rewrite decide_True. Qed.
Lemma upd_at_ne {A} (f : Z -> A) k v x : x <> k -> upd_at f k v x = f x.
Proof. intros. unfold upd_at. by rewrite decide_False. Qed.
#[export] Hint Rewrite @upd_at_eq : xv6.
#[export] Hint Rewrite @upd_at_ne using (done || lia) : xv6.

Record view := View {
  vcont : Z -> block;         (* what a reader of the block sees *)
  vrefs : Z -> Z;             (* references to the block's buffer *)
  vlock : Z -> option Z;      (* the buffer, when the running process holds it *)
  vfree : nat;                (* buffers without references *)
  vdisk : gmap Z block;
  vwrites : list (Z * block); (* the blocks written to the disk, in order *)
  vheld : gset Z;
  vpid : Z }.

Definition dblock (d : gmap Z block) (n : Z) : block := default zero_block (d !! n).

(** The operations of [bio.c] on views. *)
Definition v_read (b bno : Z) (V : view) : view :=
  View (vcont V) (upd_at (vrefs V) bno (vrefs V bno + 1)) (upd_at (vlock V) bno (Some b))
    (if vrefs V bno =? 0 then pred (vfree V) else vfree V)
    (vdisk V) (vwrites V) (vheld V) (vpid V).
Definition v_relse (bno : Z) (V : view) : view :=
  View (vcont V) (upd_at (vrefs V) bno (vrefs V bno - 1)) (upd_at (vlock V) bno None)
    (if vrefs V bno =? 1 then S (vfree V) else vfree V)
    (vdisk V) (vwrites V) (vheld V) (vpid V).
(** [v_set] changes the content and the count of a block whose buffer is held. *)
Definition v_set (bno : Z) (d : block) (r : Z) (V : view) : view :=
  View (upd_at (vcont V) bno d) (upd_at (vrefs V) bno r) (vlock V) (vfree V)
    (vdisk V) (vwrites V) (vheld V) (vpid V).
Definition v_data (bno : Z) (d : block) (V : view) : view := v_set bno d (vrefs V bno) V.
Definition v_write (bno : Z) (V : view) : view :=
  View (vcont V) (vrefs V) (vlock V) (vfree V)
    (<[bno := vcont V bno]> (vdisk V)) (vwrites V ++ [(bno, vcont V bno)]) (vheld V) (vpid V).
Definition v_pin (bno k : Z) (V : view) : view := v_set bno (vcont V bno) (vrefs V bno + k) V.

(** The concrete cache [s] implements the view [V] of device [dv]. *)
Record reps (dv : Z) (s : bstate) (l : list Z) (V : view) : Prop := {
  rp_ok : bio_ok s l;
  rp_dev : dv <> 0 /\ forall i, i ∈ l -> valid (buf_of s i) <> 0 -> dev (buf_of s i) = dv;
  rp_cont : forall n, content s l dv n = vcont V n;
  rp_refs : forall n, refs s l dv n = vrefs V n;
  rp_lock : forall n, match vlock V n with
              | Some b => holds s l b dv n /\ 0 < vrefs V n
              | None => idle s l dv n end;
  rp_free : nfree s l = vfree V;
  rp_rest : platter s = vdisk V /\ writes s = vwrites V /\ held s = vheld V /\ curpid s = vpid V;
}.
Definition rep (dv : Z) (s : bstate) (V : view) : Prop := exists l, reps dv s l V.

Lemma others_reps dv bno s s' l V V' : reps dv s l V -> bio_ok s' l ->
  others_same dv bno s s' l l ->
  (forall i, i ∈ l -> valid (buf_of s' i) <> 0 -> dev (buf_of s' i) = dv) ->
  (forall n, n <> bno -> vcont V' n = vcont V n /\ vrefs V' n = vrefs V n /\ vlock V' n = vlock V n) ->
  content s' l dv bno = vcont V' bno -> refs s' l dv bno = vrefs V' bno ->
  match vlock V' bno with
  | Some b => holds s' l b dv bno /\ 0 < vrefs V' bno
  | None => idle s' l dv bno end ->
  nfree s' l = vfree V' ->
  platter s' = vdisk V' /\ writes s' = vwrites V' /\ held s' = vheld V' /\ curpid s' = vpid V' ->
  reps dv s' l V'.
Proof.
  intros R Hok Hos Hdev Hoth Hc Hr Hl Hf Hrest. destruct (rp_dev _ _ _ _ R) as [Hdv _].
  split; try done.
  - intros n. destruct (decide (n = bno)) as [->|Hn]; [done|].
    rewrite (os_content _ _ _ _ _ _ Hos) by naive_solver. rewrite (rp_cont _ _ _ _ R).
    symmetry. by apply Hoth.
  - intros n. destruct (decide (n = bno)) as [->|Hn]; [done|].
    rewrite (os_refs _ _ _ _ _ _ Hos) by naive_solver. rewrite (rp_refs _ _ _ _ R).
    symmetry. by apply Hoth.
  - intros n. destruct (decide (n = bno)) as [->|Hn]; [done|].
    destruct (Hoth n Hn) as (_ & E1 & ->). pose proof (rp_lock _ _ _ _ R n) as HL.
    destruct (vlock V n) as [c|].
    + destruct HL as [HL H0]. split; [|by rewrite E1].
      apply (os_holds _ _ _ _ _ _ Hos); [done|naive_solver|done|]. by rewrite (rp_refs _ _ _ _ R).
    + apply (os_idle _ _ _ _ _ _ Hos); [done|naive_solver|done].
Qed.

(** The buffer a process holds for a block. *)
Lemma rep_buf dv s V bno b : rep dv s V -> vlock V bno = Some b ->
  data (buf_of s b) = vcont V bno /\ blockno (buf_of s b) = bno /\ dev (buf_of s b) = dv.
Proof.
  intros [l R] Hl. pose proof (rp_lock _ _ _ _ R bno) as HL. rewrite Hl in HL.
  destruct HL as [HL _]. rewrite <- (rp_cont _ _ _ _ R), (holds_content _ _ _ _ _ HL).
  apply holds_elem in HL. tauto.
Qed.

Lemma reps_set dv s l V bno b b' : reps dv s l V -> vlock V bno = Some b ->
  same_place (buf_of s b) b' -> dev b' = dev (buf_of s b) ->
  blockno b' = blockno (buf_of s b) -> valid b' = valid (buf_of s b) ->
  lock b' = lock (buf_of s b) -> 0 < refcnt b' ->
  reps dv (set_buf b b' s) l (v_set bno (data b') (refcnt b') V).
Proof.
  intros R Hl Hsp Hd Hn Hv Hk Hr. pose proof (rp_ok _ _ _ _ R) as Hok.
  pose proof (rp_dev _ _ _ _ R) as [Hdv Hone].
  pose proof (rp_lock _ _ _ _ R bno) as HL. rewrite Hl in HL. destruct HL as [HL Hpos].
  pose proof (holds_elem _ _ _ _ _ HL) as (Hb & Hbd & Hbn).
  assert (bio_ok (set_buf b b' s) l) as Hok' by by apply ok_set_same.
  assert (holds (set_buf b b' s) l b dv bno) as HL'.
  { destruct HL as (Hc & [H1 H2] & H3). unfold holds, locked_by.
    rewrite cached_set_same, buf_of_set, decide_True by done. rewrite Hk, Hv. done. }
  assert (0 < refcnt (buf_of s b)) as Hpos' by (by rewrite <- (holds_refs _ _ _ _ _ HL), (rp_refs _ _ _ _ R)).
  apply (others_reps dv bno s _ l V); cbn [vcont vrefs vlock vfree vdisk vwrites vheld vpid v_set]; try done.
  - rewrite <- Hbd, <- Hbn, <- Hd, <- Hn. apply set_buf_others; auto.
  - intros i Hi. rewrite buf_of_set. case_decide; [|by apply Hone]. subst. congruence.
  - intros n Hne. rewrite !upd_at_ne by done. done.
  - rewrite (holds_content _ _ _ _ _ HL'), buf_of_set, decide_True, upd_at_eq by done. done.
  - rewrite (holds_refs _ _ _ _ _ HL'), buf_of_set, decide_True, upd_at_eq by done. done.
  - rewrite Hl, upd_at_eq. done.
  - pose proof (nfree_set s l b b' (wf_nodup _ _ (ok_wf _ _ Hok)) Hb) as Hf.
    rewrite <- (rp_free _ _ _ _ R). rewrite !decide_False in Hf by lia. lia.
  - apply R.
Qed.

(** ** The operations *)

Lemma bread_ok dv s V bno : rep dv s V -> vlock V bno = None ->
  0 < vrefs V bno \/ (0 < vfree V)%nat -> vrefs V bno + 1 < 2 ^ 32 ->
  wp (bread dv bno) (fun b s' => rep dv s' (v_read b bno V)) s.
Proof.
  intros [l R] Hl Hroom Hmax. pose proof (rp_dev _ _ _ _ R) as [Hdv Hone].
  pose proof (rp_lock _ _ _ _ R bno) as Hid. rewrite Hl in Hid.
  assert (0 <= vrefs V bno) as H0.
  { rewrite <- (rp_refs _ _ _ _ R). unfold refs. destruct (cached s l dv bno) as [c|] eqn:E; [|done].
    apply cached_Some in E as [Hc _]. by apply (ok_range _ _ (rp_ok _ _ _ _ R)). }
  eapply wp_mono; [apply (bread_wp s l dv bno (rp_ok _ _ _ _ R) Hdv Hid);
    rewrite ?(rp_refs _ _ _ _ R), ?(rp_free _ _ _ _ R); done|].
  intros b s' (Hok & Hh & Hos & Hc & Hr & Hdev & (P1 & P2 & P3 & P4) & Hf). exists l.
  rewrite (rp_refs _ _ _ _ R) in Hr, Hf. rewrite (rp_free _ _ _ _ R) in Hf.
  apply (others_reps dv bno s s' l V); cbn [vcont vrefs vlock vfree vdisk vwrites vheld vpid v_read]; try done.
  - intros i Hi Hv. destruct (Hdev i Hi) as [?|[E1 E2]]; [done|]. rewrite E1. apply Hone; congruence.
  - intros n Hn. by rewrite !upd_at_ne.
  - by rewrite Hc, (rp_cont _ _ _ _ R).
  - by rewrite upd_at_eq.
  - rewrite !upd_at_eq. split; [done|lia].
  - destruct (_ =? 0) eqn:E; to_prop; repeat case_decide; lia.
  - rewrite P1, P2, P3, P4. apply R.
Qed.

Lemma data_ok dv s V bno b d : rep dv s V -> vlock V bno = Some b ->
  rep dv (set_buf b (set_data d (buf_of s b)) s) (v_data bno d V).
Proof.
  intros [l R] Hl. exists l. pose proof (rp_lock _ _ _ _ R bno) as HL. rewrite Hl in HL.
  destruct HL as [HL Hpos]. pose proof (holds_refs _ _ _ _ _ HL) as Hr. rewrite (rp_refs _ _ _ _ R) in Hr.
  unfold v_data. rewrite Hr. apply (reps_set dv s l V bno b (set_data d (buf_of s b))); try done. cbn. lia.
Qed.

Lemma locked_facts dv s l V bno b : reps dv s l V -> vlock V bno = Some b ->
  b ∈ l /\ locked_by s b /\ refcnt (buf_of s b) = vrefs V bno /\ 0 < vrefs V bno.
Proof.
  intros R Hl. pose proof (rp_lock _ _ _ _ R bno) as HL. rewrite Hl in HL. destruct HL as [HL Hpos].
  rewrite <- (rp_refs _ _ _ _ R) in *. rewrite (holds_refs _ _ _ _ _ HL) in Hpos |- *.
  split; [apply (holds_elem _ _ _ _ _ HL)|]. split; [apply HL|done].
Qed.

Lemma wp_held_check dv s l V bno b : reps dv s l V -> vlock V bno = Some b ->
  forall Q : bool -> bstate -> Prop, Q true s -> wp (holdingsleep (get_slock b)) Q s.
Proof.
  intros R Hl Q HQ. destruct (locked_facts _ _ _ _ _ _ R Hl) as (Hb & [H1 H2] & _).
  pose proof (ok_wf _ _ (rp_ok _ _ _ _ R)) as Hwf.
  apply (wp_holdingsleep _ (put_slock b)); unfold get_slock.
  - rewrite (wf_slk _ _ Hwf) by done. by apply Hwf.
  - apply Z.eqb_neq in H1. by rewrite H1, H2, Z.eqb_refl.
Qed.

(** Writing block [bno] of the only device keeps the unreferenced buffers equal
    to the disk. *)
Lemma bwrite_ok dv s V bno b : rep dv s V -> vlock V bno = Some b ->
  wp (bwrite b) (fun _ s' => rep dv s' (v_write bno V)) s.
Proof.
  intros [l R] Hl. unfold bwrite. apply wp_bind. eapply wp_held_check; [done..|]. cbn [negb].
  unfold virtio_disk_rw. apply wp_modify. exists l.
  destruct (rep_buf dv s V bno b) as (Hdt & Hbn & Hbd); [by exists l|done|].
  destruct (locked_facts _ _ _ _ _ _ R Hl) as (Hb & Hlb & Hrf & Hpos).
  pose proof (rp_lock _ _ _ _ R bno) as HL. rewrite Hl in HL. destruct HL as [HL _].
  destruct R as [[Hwf Hu Hc Hg] [Hdv Hone] Rc Rr Rl Rf (E1 & E2 & E3 & E4)].
  rewrite Hbn, Hdt. set (s' := mkBio _ _ _ _ _).
  assert (forall n, disk_block s' n = if decide (n = bno) then vcont V bno else disk_block s n) as Hdb.
  { intros n. unfold disk_block, s'. cbn [platter]. rewrite lookup_insert.
    repeat case_decide; subst; done. }
  split; cbn [vcont vrefs vlock vfree vdisk vwrites vheld vpid v_write]; try done.
  - split; [by destruct Hwf|done| |done]. intros i Hi Hr0. destruct (Hc i Hi Hr0) as [Hlk Hdt0].
    split; [done|]. intros Hv. change (buf_of s' i) with (buf_of s i) in *.
    rewrite Hdb. case_decide as E; [|by apply Hdt0]. exfalso.
    assert (i = b) as -> by (apply Hu; [done..|rewrite Hone by done; done|by rewrite Hone|congruence]).
    lia.
  - intros n. unfold content. change (cached s' l dv n) with (cached s l dv n).
    rewrite <- Rc. unfold content. destruct (cached s l dv n) as [c|] eqn:Ec.
    + change (buf_of s' c) with (buf_of s c). destruct (_ =? 0) eqn:Ev; [|done]. to_prop.
      rewrite Hdb. case_decide; [|done]. subst n. destruct HL as (Hcb & _ & Hvb). congruence.
    + rewrite Hdb. case_decide; [|done]. subst n. destruct HL as (Hcb & _). congruence.
  - cbn. by rewrite E1, E2.
Qed.

Lemma bpin_gen dv s V bno b k : rep dv s V -> vlock V bno = Some b ->
  0 < vrefs V bno + k < 2 ^ 32 ->
  wp (acquire BCACHE_LOCK;; upd b (fun x => set_refcnt (u32 (refcnt x + k)) x);; release BCACHE_LOCK)
    (fun _ s' => rep dv s' (v_pin bno k V)) s.
Proof.
  intros [l R] Hl Hk. destruct (locked_facts _ _ _ _ _ _ R Hl) as (Hb & _ & Hr & _).
  pose proof (ok_wf _ _ (rp_ok _ _ _ _ R)) as Hwf.
  apply wp_bind, wp_acquire; [apply Hwf|]. apply wp_bind, wp_modify.
  apply wp_release; [cbn; set_solver|]. rewrite buf_of_held. exists l.
  set (b' := set_refcnt _ _).
  change (reps dv (set_buf b b' (set_held (({[BCACHE_LOCK]} ∪ held s) ∖ {[BCACHE_LOCK]}) s)) l (v_pin bno k V)).
  rewrite held_dance by apply Hwf.
  assert (refcnt b' = vrefs V bno + k) as Hr'.
  { cbn. rewrite Hr. unfold u32. apply Z.mod_small. lia. }
  unfold v_pin. rewrite <- Hr'.
  destruct (rep_buf dv s V bno b) as (Hdt & _); [by exists l|done|]. rewrite <- Hdt.
  apply (reps_set dv s l V bno b b'); try done. lia.
Qed.

Lemma bpin_ok dv s V bno b : rep dv s V -> vlock V bno = Some b -> vrefs V bno + 1 < 2 ^ 32 ->
  wp (bpin b) (fun _ s' => rep dv s' (v_pin bno 1 V)) s.
Proof.
  intros R Hl Hk. apply bpin_gen; [done..|]. destruct R as [l R].
  destruct (locked_facts _ _ _ _ _ _ R Hl) as (_ & _ & _ & ?). lia.
Qed.

Lemma bunpin_ok dv s V bno b : rep dv s V -> vlock V bno = Some b -> 1 < vrefs V bno < 2 ^ 32 ->
  wp (bunpin b) (fun _ s' => rep dv s' (v_pin bno (-1) V)) s.
Proof. intros R Hl Hk. apply (bpin_gen dv s V bno b (-1)); [done..|lia]. Qed.

(** *** [brelse]: the buffer's fields change, then the order of the buffers. *)

Lemma payload_eq b b' : payload b' = payload b ->
  valid b' = valid b /\ dev b' = dev b /\ blockno b' = blockno b /\ lock b' = lock b /\
  refcnt b' = refcnt b /\ data b' = data b.
Proof. by intros [= -> _ -> -> -> -> ->]. Qed.

Lemma reps_reorder dv s l s' l' V : reps dv s l V -> bio_wf s' l' -> l' ≡ₚ l ->
  (forall i, payload (buf_of s' i) = payload (buf_of s i)) -> frame s s' -> reps dv s' l' V.
Proof.
  intros [Hok [Hdv Hone] Rc Rr Rl Rf (E1 & E2 & E3 & E4)] Hwf Hp Hpay (F1 & F2 & F3 & F4).
  assert (forall i, i ∈ l' <-> i ∈ l) as Hin by (intros i; by rewrite Hp).
  assert (forall n, disk_block s' n = disk_block s n) as Hdb by (intros n; unfold disk_block; by rewrite F1).
  assert (bio_ok s' l') as Hok'.
  { destruct Hok as [_ Hu Hc Hg]. split; [done|..].
    - intros i j Hi Hj. destruct (payload_eq _ _ (Hpay i)) as (_ & -> & -> & _).
      destruct (payload_eq _ _ (Hpay j)) as (_ & -> & -> & _). apply Hu; by apply Hin.
    - intros i Hi. destruct (payload_eq _ _ (Hpay i)) as (-> & _ & -> & -> & -> & ->).
      rewrite Hdb. apply Hc. by apply Hin.
    - intros i Hi. destruct (payload_eq _ _ (Hpay i)) as (_ & _ & _ & _ & -> & _). apply Hg. by apply Hin. }
  assert (forall n, cached s' l' dv n = cached s l dv n) as Hca.
  { intros n. apply option_eq. intros c. rewrite !cached_iff by done. rewrite Hin.
    by destruct (payload_eq _ _ (Hpay c)) as (_ & -> & -> & _). }
  split; try done.
  - split; [done|]. intros i Hi. destruct (payload_eq _ _ (Hpay i)) as (-> & -> & _). apply Hone. by apply Hin.
  - intros n. rewrite <- Rc. unfold content. rewrite Hca, Hdb. destruct (cached s l dv n) as [c|]; [|done].
    by destruct (payload_eq _ _ (Hpay c)) as (-> & _ & _ & _ & _ & ->).
  - intros n. rewrite <- Rr. unfold refs. rewrite Hca. destruct (cached s l dv n) as [c|]; [|done]. cbn.
    by destruct (payload_eq _ _ (Hpay c)) as (_ & _ & _ & _ & -> & _).
  - intros n. specialize (Rl n). destruct (vlock V n) as [c|].
    + unfold holds, locked_by in *. rewrite Hca, F4.
      by destruct (payload_eq _ _ (Hpay c)) as (-> & _ & _ & -> & _).
    + intros c. rewrite Hca. intros Hc. destruct (payload_eq _ _ (Hpay c)) as (_ & _ & _ & -> & _).
      by apply Rl.
  - rewrite <- Rf. unfold nfree. rewrite Hp. f_equal. clear -Hpay.
    induction l as [|a l IH]; [done|]. rewrite !filter_cons, IH.
    by destruct (payload_eq _ _ (Hpay a)) as (_ & _ & _ & _ & -> & _).
  - rewrite F1, F2, F3, F4. done.
Qed.

(** Letting go of a buffer; the last holder leaves it equal to the disk. *)
Lemma reps_unlock dv s l V bno b : reps dv s l V -> vlock V bno = Some b ->
  (vrefs V bno = 1 -> vcont V bno = dblock (vdisk V) bno) ->
  reps dv (set_buf b (set_refcnt (refcnt (buf_of s b) - 1)
             (set_lock (mkSleep 0 (BUF_LOCK b) 0) (buf_of s b))) s) l (v_relse bno V).
Proof.
  intros R Hl Hcl. set (b' := set_refcnt _ _).
  destruct (locked_facts _ _ _ _ _ _ R Hl) as (Hb & Hlb & Hrf & Hpos).
  pose proof (rp_ok _ _ _ _ R) as Hok. pose proof (ok_wf _ _ Hok) as Hwf.
  pose proof (rp_dev _ _ _ _ R) as [Hdv Hone].
  destruct (rep_buf dv s V bno b) as (Hdt & Hbn & Hbd); [by exists l|done|].
  pose proof (rp_lock _ _ _ _ R bno) as HL. rewrite Hl in HL. destruct HL as [HL _].
  assert (bio_ok (set_buf b b' s) l) as Hok'.
  { destruct Hok as [_ Hu Hc Hg]. split.
    - apply wf_set_buf; try done. cbn. by rewrite (wf_slk _ _ Hwf).
    - intros x y Hx Hy. rewrite !buf_of_set. repeat case_decide; subst; cbn; auto.
    - intros x Hx. rewrite buf_of_set. case_decide; [|apply (Hc x Hx)]. subst x. cbn.
      intros Hr. split; [done|]. intros _. rewrite Hdt, Hbn. unfold disk_block. cbn [platter set_buf].
      destruct (rp_rest _ _ _ _ R) as (-> & _). apply Hcl. lia.
    - intros x Hx. rewrite buf_of_set. case_decide; [cbn; lia|]. by apply Hg. }
  assert (cached (set_buf b b' s) l dv bno = Some b) as Hca
    by (rewrite cached_set_same by done; apply HL).
  apply (others_reps dv bno s _ l V); cbn [vcont vrefs vlock vfree vdisk vwrites vheld vpid v_relse]; try done.
  - rewrite <- Hbd, <- Hbn. apply (set_buf_others s l b b'); auto.
  - intros i Hi. rewrite buf_of_set. case_decide; [|by apply Hone]. by subst.
  - intros n Hn. by rewrite !upd_at_ne.
  - unfold content. rewrite Hca, buf_of_set, decide_True by done. cbn.
    destruct HL as (_ & _ & Hv). by apply Z.eqb_neq in Hv as ->.
  - unfold refs. rewrite Hca. cbn. rewrite buf_of_set, decide_True, upd_at_eq by done. cbn. by rewrite Hrf.
  - rewrite upd_at_eq. intros c. rewrite Hca. intros [= <-]. by rewrite buf_of_set, decide_True.
  - pose proof (nfree_set s l b b' (wf_nodup _ _ Hwf) Hb) as Hf. rewrite <- (rp_free _ _ _ _ R).
    cbn [refcnt set_refcnt b'] in Hf. rewrite Hrf in Hf.
    destruct (_ =? 1) eqn:E; to_prop; repeat case_decide; lia.
  - apply R.
Qed.

Lemma brelse_ok dv s V bno b : rep dv s V -> vlock V bno = Some b -> vrefs V bno < 2 ^ 32 ->
  (vrefs V bno = 1 -> vcont V bno = dblock (vdisk V) bno) ->
  wp (brelse b) (fun _ s' => rep dv s' (v_relse bno V)) s.
Proof.
  intros [l R] Hl Hmax Hcl. destruct (locked_facts _ _ _ _ _ _ R Hl) as (Hb & Hlb & Hrf & Hpos).
  pose proof (ok_wf _ _ (rp_ok _ _ _ _ R)) as Hwf.
  eapply wp_mono; [by apply (brelse_wp s l b)|]. cbn zeta.
  assert (u32 (refcnt (buf_of s b) - 1) = refcnt (buf_of s b) - 1) as ->.
  { rewrite Hrf. unfold u32. apply Z.mod_small. lia. }
  intros _ s' (Hwf' & Hpay & Hfr). set (l' := if _ =? 0 then _ else l) in *. exists l'.
  eapply reps_reorder; [by apply (reps_unlock dv s l V bno b)|done| |..|done].
  - unfold l'. destruct (_ =? 0); [|done]. apply list_elem_of_split in Hb as (l1 & l2 & ->).
    rewrite to_front_mid by apply Hwf. apply Permutation_middle.
  - intros i. rewrite Hpay, buf_of_set. repeat case_decide; subst; done.
Qed.

(** The cache after [binit]: nothing cached, all buffers free. *)
Definition v_boot (d : gmap Z block) (pid : Z) : view :=
  View (dblock d) (fun _ => 0) (fun _ => None) (Z.to_nat NBUF) d [] ∅ pid.

Lemma binit_ok dv d pid : dv <> 0 ->
  wp binit (fun _ s' => rep dv s' (v_boot d pid)) (boot d pid).
Proof.
  intros Hdv. eapply wp_mono; [apply binit_wp|]. cbn beta.
  intros _ s (Hwf & (P1 & P2 & P3 & P4) & Hpay). set (l := reverse (seqZ 0 NBUF)) in *.
  assert (forall i, i ∈ l -> payload (buf_of s i) =
    (0, 0, 0, 0, mkSleep 0 (BUF_LOCK i) 0, 0, zero_block)) as Hb.
  { intros i Hi. apply Hpay. by apply (wf_ids _ _ Hwf). }
  assert (forall i, i ∈ l -> valid (buf_of s i) = 0 /\ dev (buf_of s i) = 0 /\
    refcnt (buf_of s i) = 0 /\ sl_locked (lock (buf_of s i)) = 0) as Hf.
  { intros i Hi. by injection (Hb i Hi) as -> _ -> _ -> -> _. }
  assert (forall n, cached s l dv n = None) as Hca.
  { intros n. destruct (cached s l dv n) as [c|] eqn:E; [|done].
    apply cached_Some in E as (Hc & Hd & _). destruct (Hf c Hc) as (_ & Hd0 & _). congruence. }
  exists l. split; cbn [vcont vrefs vlock vfree vdisk vwrites vheld vpid v_boot]; try done.
  - split; [done|..].
    + intros i j Hi _. by destruct (Hf i Hi) as (_ & -> & _).
    + intros i Hi. by destruct (Hf i Hi) as (-> & _ & _ & ->).
    + intros i Hi. by destruct (Hf i Hi) as (_ & _ & -> & _).
  - split; [done|]. intros i Hi. destruct (Hf i Hi) as (-> & _). done.
  - intros n. unfold content. rewrite Hca. unfold disk_block. by rewrite P1.
  - intros n. unfold refs. by rewrite Hca.
  - intros n c. by rewrite Hca.
  - unfold nfree. rewrite list_filter_all_id; [by rewrite (wf_length _ _ Hwf)|].
    intros i Hi. by destruct (Hf i Hi) as (_ & _ & -> & _).
Qed.

(** ** Views that agree on every block are the same to a client *)

Record view_eq (V W : view) : Prop := {
  ve_cont : forall n, vcont V n = vcont W n;
  ve_refs : forall n, vrefs V n = vrefs W n;
  ve_lock : forall n, vlock V n = vlock W n;
  ve_rest : (vfree V, vdisk V, vwrites V, vheld V, vpid V) =
            (vfree W, vdisk W, vwrites W, vheld W, vpid W);
}.

#[export] Instance view_eq_equiv : Equivalence view_eq.
Proof.
  split.
  - by split.
  - intros V W [H1 H2 H3 H4]. split; by intros.
  - intros U V W [H1 H2 H3 H4] [H1' H2' H3' H4']. split; intros; etrans; eauto.
Qed.

#[export] Instance rep_proper dv s : Proper (view_eq ==> iff) (rep dv s).
Proof.
  assert (forall V W, view_eq V W -> rep dv s V -> rep dv s W) as H.
  { intros V W [H1 H2 H3 [= E1 E2 E3 E4 E5]] [l [R1 R2 R3 R4 R5 R6 R7]]. exists l.
    split; try done.
    - intros n. by rewrite <- H1.
    - intros n. by rewrite <- H2.
    - intros n. rewrite <- H3, <- H2. apply R5.
    - congruence.
    - by rewrite <- E2, <- E3, <- E4, <- E5. }
  intros V W E. split; apply H; [done|by symmetry].
Qed.

(** Reading and letting go of a block changes nothing. *)
Definition v_store (bno : Z) (d : block) (V : view) : view :=
  View (upd_at (vcont V) bno d) (vrefs V) (vlock V) (vfree V)
    (<[bno := d]> (vdisk V)) (vwrites V ++ [(bno, d)]) (vheld V) (vpid V).

Ltac view_eq_tac :=
  split; cbn; intros;
  repeat first
    [ progress rewrite ?upd_at_eq
    | match goal with |- context [upd_at _ ?k _ ?n] =>
        destruct (decide (n = k)) as [->|?]; [rewrite !(upd_at_eq _ k)|rewrite !(upd_at_ne _ k) by done] end ];
  try done; try lia; try congruence.

Lemma v_read_relse b bno V : vlock V bno = None ->
  (vrefs V bno = 0 -> (0 < vfree V)%nat) ->
  view_eq (v_relse bno (v_read b bno V)) V.
Proof.
  intros Hl Hf. view_eq_tac.
  destruct (vrefs V bno =? 0) eqn:E; to_prop.
  - rewrite E. cbn. specialize (Hf E). by rewrite Nat.succ_pred by lia.
  - destruct (_ =? 1) eqn:E'; to_prop; [lia|done].
Qed.

(** Other locks of the kernel may be taken and dropped around the cache. *)
Definition v_held (x : gset Z) (V : view) : view :=
  View (vcont V) (vrefs V) (vlock V) (vfree V) (vdisk V) (vwrites V) x (vpid V).
Definition bio_lock (k : Z) : Prop := k = BCACHE_LOCK \/ 200 <= k < 200 + NBUF.

Lemma rep_set_held dv s V x : rep dv s V -> (forall k, bio_lock k -> k ∉ x) ->
  rep dv (set_held x s) (v_held x V).
Proof.
  intros [l [Hok Hd Rc Rr Rl Rf (E1 & E2 & E3 & E4)]] Hx. exists l. split; try done.
  destruct Hok as [Hwf Hu Hc Hg]. split; try done. destruct Hwf as [W1 W2 W3 W4 W5].
  split; try done. split; [apply Hx; by left|]. intros i Hi. apply W3 in Hi. apply Hx. right.
  unfold BUF_LOCK. lia.
Qed.

Lemma rep_held_free dv s V k : rep dv s V -> bio_lock k -> k ∉ vheld V.
Proof.
  intros [l R] Hk. destruct (rp_rest _ _ _ _ R) as (_ & _ & <- & _).
  destruct (ok_wf _ _ (rp_ok _ _ _ _ R)) as [_ _ W3 _ [W5 W6]]. destruct Hk as [->|Hk]; [done|].
  specialize (W6 (k - 200)). unfold BUF_LOCK in W6. replace (200 + (k - 200)) with k in W6 by lia.
  apply W6, W3. lia.
Qed.
