(* ===== verification/Block.v ===== *)
(** * Integers and structures inside a disk block

    A block is the list of its bytes.  The kernel reads and writes little-endian
    fields of it through casts of [b->data] ([struct logheader], [struct
    superblock], [struct dinode], [struct dirent], arrays of block numbers) and
    moves byte ranges with [memmove]. *)

From Stdlib Require Import ZArith Lia.
From stdpp Require Import base numbers list.
From S2P Require Import Prelude.

Definition is_byte (x : Z) : Prop := 0 <= x < 256.

Fixpoint le_get (bs : list Z) : Z :=
  match bs with
  | [] => 0
  | x :: t => x + 256 * le_get t
  end.
Fixpoint le_put (n : nat) (v : Z) : list Z :=
  match n with
  | O => []
  | S k => v mod 256 :: le_put k (v / 256)
  end.

(** [n] bytes of [b] at offset [off], and replacing them. *)
Definition slice (b : list Z) (off n : Z) : list Z := take (Z.to_nat n) (drop (Z.to_nat off) b).
Definition splice (b : list Z) (off : Z) (bs : list Z) : list Z :=
  list_inserts (Z.to_nat off) bs b.

Definition rdu (n : nat) (off : Z) (b : list Z) : Z := le_get (slice b off (Z.of_nat n)).
Definition wru (n : nat) (off v : Z) (b : list Z) : list Z := splice b off (le_put n v).

Lemma length_le_put n v : length (le_put n v) = n.
Proof. revert v; induction n; intros; cbn; auto. Qed.

Lemma le_put_bytes n v : Forall is_byte (le_put n v).
Proof.
  revert v; induction n; intros; cbn; constructor; auto. unfold is_byte.
  apply Z.mod_pos_bound. lia.
Qed.

Lemma le_get_put n v : le_get (le_put n v) = v mod 2 ^ (8 * Z.of_nat n).
Proof.
  revert v; induction n as [|n IH]; intros v.
  - cbn [le_put le_get]. rewrite Z.mul_0_r, Z.pow_0_r, Z.mod_1_r. done.
  - cbn [le_put le_get]. rewrite IH.
    replace (8 * Z.of_nat (S n)) with (8 + 8 * Z.of_nat n) by lia.
    rewrite Z.pow_add_r by lia. rewrite Z.rem_mul_r by lia. done.
Qed.

Lemma le_get_range bs : Forall is_byte bs -> 0 <= le_get bs < 2 ^ (8 * Z.of_nat (length bs)).
Proof.
  induction 1 as [|x t Hx Ht IH]; cbn [le_get length]; [done|].
  replace (8 * Z.of_nat (S (length t))) with (8 + 8 * Z.of_nat (length t)) by lia.
  rewrite Z.pow_add_r by lia. change (2 ^ 8) with 256. unfold is_byte in Hx. lia.
Qed.

Lemma le_put_get bs : Forall is_byte bs -> le_put (length bs) (le_get bs) = bs.
Proof.
  induction 1 as [|x t Hx Ht IH]; cbn [le_get le_put length]; [done|]. unfold is_byte in Hx.
  rewrite (Z.mul_comm 256), Z_mod_plus_full, Z_div_plus_full, Z.div_small, Z.mod_small by lia.
  by rewrite Z.add_0_l, IH.
Qed.

Lemma length_splice b off bs : length (splice b off bs) = length b.
Proof. apply length_inserts. Qed.
Lemma length_wru n off v b : length (wru n off v b) = length b.
Proof. apply length_splice. Qed.

Lemma length_slice b off n : 0 <= off -> 0 <= n -> off + n <= Z.of_nat (length b) ->
  length (slice b off n) = Z.to_nat n.
Proof. intros. unfold slice. rewrite length_take, length_drop. lia. Qed.

Lemma lookup_slice b off n i : 0 <= off -> (i < Z.to_nat n)%nat ->
  slice b off n !! i = b !! (Z.to_nat off + i)%nat.
Proof. intros. unfold slice. rewrite lookup_take_lt by done. by rewrite lookup_drop. Qed.

Lemma lookup_splice_in b off bs i : 0 <= off -> off + Z.of_nat (length bs) <= Z.of_nat (length b) ->
  (Z.to_nat off <= i < Z.to_nat off + length bs)%nat -> splice b off bs !! i = bs !! (i - Z.to_nat off)%nat.
Proof. intros. unfold splice. apply list_lookup_inserts; lia. Qed.

Lemma lookup_splice_out b off bs i :
  (i < Z.to_nat off \/ Z.to_nat off + length bs <= i)%nat -> splice b off bs !! i = b !! i.
Proof.
  intros [?|?]; unfold splice; [by apply list_lookup_inserts_lt|by apply list_lookup_inserts_ge].
Qed.

Lemma slice_splice_eq b off bs n : 0 <= off -> n = Z.of_nat (length bs) ->
  off + n <= Z.of_nat (length b) -> slice (splice b off bs) off n = bs.
Proof.
  intros Ho -> Hb. apply list_eq. intros i. destruct (decide (i < length bs)%nat) as [Hi|Hi].
  - rewrite lookup_slice by lia. rewrite lookup_splice_in by lia. f_equal. lia.
  - rewrite (lookup_ge_None_2 bs) by lia. apply lookup_ge_None_2.
    rewrite length_slice; rewrite ?length_splice; lia.
Qed.

Lemma slice_splice_ne b off bs off' n : 0 <= off -> 0 <= off' ->
  off' + n <= off \/ off + Z.of_nat (length bs) <= off' ->
  slice (splice b off bs) off' n = slice b off' n.
Proof.
  intros Ho Ho' Hd. apply list_eq. intros i. destruct (decide (i < Z.to_nat n)%nat) as [Hi|Hi].
  - rewrite !lookup_slice by lia. apply lookup_splice_out. lia.
  - rewrite !(lookup_ge_None_2); [done|..]; unfold slice; rewrite length_take; lia.
Qed.

Lemma splice_bytes b off bs : Forall is_byte b -> Forall is_byte bs -> Forall is_byte (splice b off bs).
Proof.
  intros H1 H2. apply Forall_lookup. intros i x Hx.
  apply list_lookup_inserts_Some in Hx as [(_ & Hx)|(_ & _ & Hx)].
  - exact (Forall_lookup_1 _ _ _ _ H1 Hx).
  - exact (Forall_lookup_1 _ _ _ _ H2 Hx).
Qed.

Lemma slice_bytes b off n : Forall is_byte b -> Forall is_byte (slice b off n).
Proof. intros. unfold slice. by apply Forall_take, Forall_drop. Qed.

(** Reading back a field. *)
Lemma rdu_wru_eq n off v b : 0 <= off -> off + Z.of_nat n <= Z.of_nat (length b) ->
  rdu n off (wru n off v b) = v mod 2 ^ (8 * Z.of_nat n).
Proof.
  intros. unfold rdu, wru. rewrite slice_splice_eq; rewrite ?length_le_put; try lia. apply le_get_put.
Qed.

Lemma rdu_wru_ne n m off off' v b : 0 <= off -> 0 <= off' ->
  off' + Z.of_nat m <= off \/ off + Z.of_nat n <= off' ->
  rdu m off' (wru n off v b) = rdu m off' b.
Proof. intros. unfold rdu, wru. rewrite slice_splice_ne; rewrite ?length_le_put; done. Qed.

Lemma rdu_range n off b : 0 <= off -> Forall is_byte b -> off + Z.of_nat n <= Z.of_nat (length b) ->
  0 <= rdu n off b < 2 ^ (8 * Z.of_nat n).
Proof.
  intros Ho Hb Hl. unfold rdu.
  pose proof (le_get_range _ (slice_bytes b off (Z.of_nat n) Hb)) as H.
  rewrite length_slice in H by lia. by rewrite Z2Nat.id in H by lia.
Qed.

Lemma wru_bytes n off v b : Forall is_byte b -> Forall is_byte (wru n off v b).
Proof. intros. apply splice_bytes; [done|apply le_put_bytes]. Qed.

#[export] Hint Rewrite length_wru length_splice length_le_put : xv6.
#[export] Hint Resolve wru_bytes splice_bytes slice_bytes le_put_bytes : xv6.
