(* ===== verification/Log.v ===== *)
(** * The log

    [kernel/log.c]: group commit of the file system's block writes through a
    physical redo log.  The state is [struct log] and the buffer cache below it.
    [commit_atomic] shows that a crash at any point of a commit, followed by the
    recovery of [initlog], leaves all of the transaction on the disk or none of
    it; [Ops] shows that the reservations of [begin_op] keep the log from
    overflowing. *)

From Stdlib Require Import ZArith Lia.
From stdpp Require Import base numbers list gmap strings sets.
From S2P Require Import Prelude Riscv Spinlock Locks Stops Bio BioView Block.

(** [struct superblock] of [fs.h] *)
Record superblock := mkSb {
  magic : Z; sb_size : Z; nblocks : Z; ninodes : Z; nlog : Z; logstart : Z;
  inodestart : Z; bmapstart : Z }.

(** [struct log] with its [struct logheader]; the lock is [LOG_LOCK]. *)
Record logst := mkLog {
  start : Z; size : Z; outstanding : Z; committing : Z; ldev : Z;
  lh_n : Z; lh_block : list Z }.
Definition LOG_LOCK : Z := 300.

Record lstate := mkL { bio : bstate; log : logst }.

#[export] #[refine] Instance lstate_locks : HasLocks lstate := {
  held := fun s => held (bio s);
  set_held := fun x s => mkL (set_held x (bio s)) (log s);
  curpid := fun s => curpid (bio s);
}.
Proof. all: by intros; try destruct s as [[]]. Defined.

(** Running an operation of [bio.c]. *)
Definition onbio {A} (m : M bstate A) : M lstate A :=
  zoom bio (fun b s => mkL b (log s)) m.
Definition setlog (f : logst -> logst) : M lstate unit := modify (fun s => mkL (bio s) (f (log s))).

Definition set_n n l := mkLog (start l) (size l) (outstanding l) (committing l) (ldev l) n (lh_block l).
Definition set_block i v l :=
  mkLog (start l) (size l) (outstanding l) (committing l) (ldev l) (lh_n l) (<[Z.to_nat i := v]> (lh_block l)).
Definition set_outstanding v l :=
  mkLog (start l) (size l) v (committing l) (ldev l) (lh_n l) (lh_block l).
Definition set_committing v l :=
  mkLog (start l) (size l) (outstanding l) v (ldev l) (lh_n l) (lh_block l).

(** [log.lh.block[i]] *)
Definition lblock (i : Z) : M lstate Z :=
  o ← gets (fun s => lh_block (log s) !! Z.to_nat i); the o.
Definition bdata (b : Z) : M lstate block := gets (fun s => data (buf_of (bio s) b)).
Definition set_bdata (b : Z) (d : block) : M lstate unit := onbio (upd b (set_data d)).

(** ** [log.c] *)

Definition install_trans (recovering : bool) : M lstate unit :=
  n ← gets (fun s => lh_n (log s));
  for_ (Z.to_nat n) 0 1 (fun tail =>
    l ← gets log;
    lbuf ← onbio (bread (ldev l) (start l + tail + 1));
    bno ← lblock tail;
    dbuf ← onbio (bread (ldev l) bno);
    d ← bdata lbuf;
    set_bdata dbuf d;;
    onbio (bwrite dbuf);;
    mwhen (negb recovering) (onbio (bunpin dbuf));;
    onbio (brelse lbuf);;
    onbio (brelse dbuf)).

(** [struct logheader] in the header block: [n], then the block numbers. *)
Definition hd_n (d : block) : Z := i32 (rdu 4 0 d).
Definition hd_block (d : block) (i : Z) : Z := i32 (rdu 4 (4 + 4 * i) d).

Definition read_head : M lstate unit :=
  l ← gets log;
  b ← onbio (bread (ldev l) (start l));
  d ← bdata b;
  setlog (set_n (hd_n d));;
  for_ (Z.to_nat (hd_n d)) 0 1 (fun i =>
    len ← gets (fun s => Z.of_nat (length (lh_block (log s))));
    if i <? len then setlog (set_block i (hd_block d i)) else undef);;
  onbio (brelse b).

Definition write_head : M lstate unit :=
  l ← gets log;
  b ← onbio (bread (ldev l) (start l));
  d ← bdata b;
  set_bdata b (wru 4 0 (lh_n l) d);;
  for_ (Z.to_nat (lh_n l)) 0 1 (fun i =>
    d ← bdata b;
    bno ← lblock i;
    set_bdata b (wru 4 (4 + 4 * i) bno d));;
  onbio (bwrite b);;
  onbio (brelse b).

Definition recover_from_log : M lstate unit :=
  read_head;;
  install_trans true;;
  setlog (set_n 0);;
  write_head.

(** [sizeof(struct logheader)] *)
Definition sizeof_logheader : Z := 4 + 4 * LOGSIZE.

Definition initlog (dv : Z) (sb : superblock) : M lstate unit :=
  if BSIZE <=? sizeof_logheader then panic "initlog: too big logheader" else
  initlock LOG_LOCK;;
  setlog (fun l => mkLog (logstart sb) (nlog sb) (outstanding l) (committing l) dv (lh_n l) (lh_block l));;
  recover_from_log.

(** A process that has to wait sleeps with [log.lock] released, and tries again
    when it is woken. *)
Definition begin_op : M lstate unit :=
  acquire LOG_LOCK;;
  l ← gets log;
  if negb (committing l =? 0) then sleep LOG_LOCK
  else if LOGSIZE <? lh_n l + (outstanding l + 1) * MAXOPBLOCKS then sleep LOG_LOCK
  else
    setlog (set_outstanding (i32 (outstanding l + 1)));;
    release LOG_LOCK.

Definition write_log : M lstate unit :=
  n ← gets (fun s => lh_n (log s));
  for_ (Z.to_nat n) 0 1 (fun tail =>
    l ← gets log;
    to ← onbio (bread (ldev l) (start l + tail + 1));
    bno ← lblock tail;
    from ← onbio (bread (ldev l) bno);
    d ← bdata from;
    set_bdata to d;;
    onbio (bwrite to);;
    onbio (brelse from);;
    onbio (brelse to)).

Definition commit : M lstate unit :=
  n ← gets (fun s => lh_n (log s));
  mwhen (0 <? n) (
    write_log;;
    write_head;;
    install_trans false;;
    setlog (set_n 0);;
    write_head).

(** The first half of [end_op], up to the first [release], returns [do_commit]; the second half
    is the commit, during which other processes run. *)
Definition end_op_leave : M lstate bool :=
  acquire LOG_LOCK;;
  l ← gets log;
  setlog (set_outstanding (i32 (outstanding l - 1)));;
  l ← gets log;
  if negb (committing l =? 0) then panic "log.committing" else
  let do_commit := outstanding l =? 0 in
  (if do_commit then setlog (set_committing 1) else wakeup LOG_LOCK);;
  release LOG_LOCK;;
  mret do_commit.
Definition end_op_commit : M lstate unit :=
  commit;;
  acquire LOG_LOCK;;
  setlog (set_committing 0);;
  wakeup LOG_LOCK;;
  release LOG_LOCK.
Definition end_op : M lstate unit :=
  do_commit ← end_op_leave;
  mwhen do_commit end_op_commit.

(** The first index of the block among the logged ones, or [lh.n]. *)
Fixpoint find_logged (bno : Z) (bs : list Z) (n : nat) (i : Z) : Z :=
  match n, bs with
  | S k, x :: r => if x =? bno then i else find_logged bno r k (i + 1)
  | _, _ => i
  end.

Definition log_write (b : Z) : M lstate unit :=
  acquire LOG_LOCK;;
  l ← gets log;
  if (LOGSIZE <=? lh_n l) || (size l - 1 <=? lh_n l) then panic "too big a transaction" else
  if outstanding l <? 1 then panic "log_write outside of trans" else
  bno ← gets (fun s => blockno (buf_of (bio s) b));
  let i := find_logged bno (lh_block l) (Z.to_nat (lh_n l)) 0 in
  setlog (set_block i bno);;
  mwhen (i =? lh_n l) (
    onbio (bpin b);;
    setlog (set_n (i32 (lh_n l + 1))));;
  release LOG_LOCK.

(** ** Rules for code above the cache *)

(** The cache implements [V] for the log's device and [struct log] is [L]. *)
Definition lrep (s : lstate) (V : view) (L : logst) : Prop :=
  rep (ldev L) (bio s) V /\ log s = L.

Section rules.
Implicit Types (s : lstate) (V : view) (L : logst).

Lemma lrep_eq s V W L : lrep s V L -> view_eq V W -> lrep s W L.
Proof. intros [R E] HV. split; [by rewrite <- HV|done]. Qed.

Lemma wp_onbio {A} (m : M bstate A) V L s (P : A -> view -> Prop) (Q : A -> lstate -> Prop) :
  lrep s V L -> wp m (fun a b => exists V', rep (ldev L) b V' /\ P a V') (bio s) ->
  (forall a s' V', P a V' -> lrep s' V' L -> Q a s') -> wp (onbio m) Q s.
Proof.
  intros [R E] Hm HQ. apply wp_zoom. eapply wp_mono; [done|]. cbn.
  intros a b (V' & R' & HP). by apply (HQ a _ V').
Qed.

Lemma l_bread s V L n (Q : Z -> lstate -> Prop) : lrep s V L -> vlock V n = None ->
  0 < vrefs V n \/ (0 < vfree V)%nat -> vrefs V n + 1 < 2 ^ 32 ->
  (forall b s', lrep s' (v_read b n V) L -> Q b s') -> wp (onbio (bread (ldev L) n)) Q s.
Proof.
  intros R Hl Hr Hm HQ. eapply (wp_onbio _ V L s (fun b V' => V' = v_read b n V)); [done| |].
  - eapply wp_mono; [by apply bread_ok; [apply R|..]|]. cbn beta. eauto.
  - intros b s' V' -> R'. by apply HQ.
Qed.

Lemma l_bdata s V L n b (Q : block -> lstate -> Prop) : lrep s V L -> vlock V n = Some b ->
  Q (vcont V n) s -> wp (bdata b) Q s.
Proof. intros [R E] Hl HQ. apply wp_gets. destruct (rep_buf _ _ _ _ _ R Hl) as (-> & _). done. Qed.

Lemma l_set s V L n b d (Q : unit -> lstate -> Prop) : lrep s V L -> vlock V n = Some b ->
  (forall s', lrep s' (v_data n d V) L -> Q tt s') -> wp (set_bdata b d) Q s.
Proof.
  intros R Hl HQ. eapply (wp_onbio _ V L s (fun _ V' => V' = v_data n d V)); [done| |].
  - apply wp_modify. eexists. split; [|done]. by apply data_ok; [apply R|].
  - intros [] s' V' -> R'. by apply HQ.
Qed.

Lemma l_bwrite s V L n b (Q : unit -> lstate -> Prop) : lrep s V L -> vlock V n = Some b ->
  (forall s', lrep s' (v_write n V) L -> Q tt s') -> wp (onbio (bwrite b)) Q s.
Proof.
  intros R Hl HQ. eapply (wp_onbio _ V L s (fun _ V' => V' = v_write n V)); [done| |].
  - eapply wp_mono; [by apply bwrite_ok; [apply R|]|]. cbn beta. eauto.
  - intros [] s' V' -> R'. by apply HQ.
Qed.

Lemma l_brelse s V L n b (Q : unit -> lstate -> Prop) : lrep s V L -> vlock V n = Some b ->
  vrefs V n < 2 ^ 32 -> (vrefs V n = 1 -> vcont V n = dblock (vdisk V) n) ->
  (forall s', lrep s' (v_relse n V) L -> Q tt s') -> wp (onbio (brelse b)) Q s.
Proof.
  intros R Hl Hm Hc HQ. eapply (wp_onbio _ V L s (fun _ V' => V' = v_relse n V)); [done| |].
  - eapply wp_mono; [by apply brelse_ok; [apply R|..]|]. cbn beta. eauto.
  - intros [] s' V' -> R'. by apply HQ.
Qed.

Lemma l_bpin s V L n b (Q : unit -> lstate -> Prop) : lrep s V L -> vlock V n = Some b ->
  vrefs V n + 1 < 2 ^ 32 ->
  (forall s', lrep s' (v_pin n 1 V) L -> Q tt s') -> wp (onbio (bpin b)) Q s.
Proof.
  intros R Hl Hm HQ. eapply (wp_onbio _ V L s (fun _ V' => V' = v_pin n 1 V)); [done| |].
  - eapply wp_mono; [by apply bpin_ok; [apply R|..]|]. cbn beta. eauto.
  - intros [] s' V' -> R'. by apply HQ.
Qed.

Lemma l_bunpin s V L n b (Q : unit -> lstate -> Prop) : lrep s V L -> vlock V n = Some b ->
  1 < vrefs V n < 2 ^ 32 ->
  (forall s', lrep s' (v_pin n (-1) V) L -> Q tt s') -> wp (onbio (bunpin b)) Q s.
Proof.
  intros R Hl Hm HQ. eapply (wp_onbio _ V L s (fun _ V' => V' = v_pin n (-1) V)); [done| |].
  - eapply wp_mono; [by apply bunpin_ok; [apply R|..]|]. cbn beta. eauto.
  - intros [] s' V' -> R'. by apply HQ.
Qed.

Lemma l_getlog {A} (f : logst -> A) s V L (Q : A -> lstate -> Prop) : lrep s V L ->
  Q (f L) s -> wp (gets (fun s => f (log s))) Q s.
Proof. intros [R <-] HQ. by apply wp_gets. Qed.

Lemma l_setlog f s V L (Q : unit -> lstate -> Prop) : lrep s V L -> ldev (f L) = ldev L ->
  (forall s', lrep s' V (f L) -> Q tt s') -> wp (setlog f) Q s.
Proof. intros [R <-] Hd HQ. apply wp_modify, HQ. split; [|done]. cbn. by rewrite Hd. Qed.

Lemma l_lblock s V L i v (Q : Z -> lstate -> Prop) : lrep s V L ->
  lh_block L !! Z.to_nat i = Some v -> Q v s -> wp (lblock i) Q s.
Proof.
  intros R Hb HQ. unfold lblock. apply wp_bind.
  apply (l_getlog (fun l => lh_block l !! Z.to_nat i) s V L _ R). by eapply wp_the.
Qed.
End rules.

(** Looking up an updated view. *)
Ltac vs := cbn [vcont vrefs vlock vfree vdisk vwrites vheld vpid
  v_read v_relse v_set v_data v_write v_pin v_store];
  repeat match goal with
  | |- context [upd_at ?f ?k ?v ?k] => rewrite (upd_at_eq f k v)
  | |- context [upd_at ?f ?k ?v ?n] => rewrite (upd_at_ne f k v n) by (done || lia || congruence)
  end.

(** ** The header block *)

Fixpoint put_blocks (i : Z) (bs : list Z) (d : block) : block :=
  match bs with
  | [] => d
  | x :: r => put_blocks (i + 1) r (wru 4 (4 + 4 * i) x d)
  end.
Definition logged (L : logst) : list Z := take (Z.to_nat (lh_n L)) (lh_block L).
Definition header (L : logst) (d : block) : block := put_blocks 0 (logged L) (wru 4 0 (lh_n L) d).

Lemma put_blocks_snoc i bs x d :
  put_blocks i (bs ++ [x]) d = wru 4 (4 + 4 * (i + Z.of_nat (length bs))) x (put_blocks i bs d).
Proof.
  revert i d; induction bs as [|y bs IH]; intros i d; cbn [put_blocks app length].
  - do 2 f_equal. lia.
  - rewrite IH. do 2 f_equal. lia.
Qed.

Lemma length_put_blocks i bs d : length (put_blocks i bs d) = length d.
Proof.
  revert i d; induction bs as [|y bs IH]; intros i d; cbn [put_blocks]; [done|]. by rewrite IH, length_wru.
Qed.

Lemma rdu_put_blocks_lt i bs d off : 0 <= off -> off + 4 <= 4 + 4 * i -> 0 <= i ->
  rdu 4 off (put_blocks i bs d) = rdu 4 off d.
Proof.
  revert i d; induction bs as [|y bs IH]; intros i d H1 H2 H3; cbn [put_blocks]; [done|].
  rewrite IH by lia. apply rdu_wru_ne; lia.
Qed.

Lemma hd_put_blocks i bs d j x : 0 <= i -> bs !! j = Some x ->
  4 + 4 * (i + Z.of_nat (length bs)) <= Z.of_nat (length d) ->
  hd_block (put_blocks i bs d) (i + Z.of_nat j) = i32 x.
Proof.
  revert i d j; induction bs as [|y bs IH]; intros i d j Hi Hj Hd; [done|].
  cbn [put_blocks]. destruct j as [|j]; cbn in Hj.
  - injection Hj as ->. unfold hd_block. rewrite Z.add_0_r. cbn [length] in Hd.
    rewrite rdu_put_blocks_lt by lia. rewrite rdu_wru_eq by lia.
    change (2 ^ (8 * Z.of_nat 4)) with (2 ^ 32). unfold i32. by rewrite Zplus_mod_idemp_l.
  - replace (i + Z.of_nat (S j)) with ((i + 1) + Z.of_nat j) by lia.
    apply IH; [lia|done|]. rewrite length_wru. cbn [length] in Hd. lia.
Qed.

(** Reading back the header that was written. *)
Lemma header_n L d : 0 <= lh_n L <= LOGSIZE -> length d = Z.to_nat BSIZE ->
  hd_n (header L d) = lh_n L.
Proof.
  intros Hn Hd. unfold LOGSIZE, MAXOPBLOCKS in Hn. unfold hd_n, header.
  rewrite rdu_put_blocks_lt by lia. rewrite rdu_wru_eq by (rewrite ?Hd; unfold BSIZE; lia).
  change (2 ^ (8 * Z.of_nat 4)) with (2 ^ 32). rewrite Z.mod_small by lia. apply i32_id. lia.
Qed.

Lemma header_block L d i x : 0 <= lh_n L <= LOGSIZE -> length d = Z.to_nat BSIZE ->
  0 <= i -> logged L !! Z.to_nat i = Some x -> hd_block (header L d) i = i32 x.
Proof.
  intros Hn Hd Hi Hx. unfold header. unfold LOGSIZE, MAXOPBLOCKS in Hn.
  replace i with (0 + Z.of_nat (Z.to_nat i)) by lia.
  apply hd_put_blocks; [lia|done|]. rewrite length_wru, Hd. unfold logged, BSIZE.
  rewrite length_take. lia.
Qed.

Lemma write_head_ok s V L (Q : unit -> lstate -> Prop) : lrep s V L ->
  vlock V (start L) = None -> vrefs V (start L) = 0 -> (0 < vfree V)%nat ->
  0 <= lh_n L <= Z.of_nat (length (lh_block L)) ->
  (forall s', lrep s' (v_store (start L) (header L (vcont V (start L))) V) L -> Q tt s') ->
  wp write_head Q s.
Proof.
  intros R Hl Hr Hf Hn HQ. unfold write_head. apply wp_bind, (l_getlog id s V L); [done|]. cbn [id].
  apply wp_bind, (l_bread s V L); [done..|by right|by rewrite Hr|]. intros b s1 R1.
  apply wp_bind, (l_bdata _ _ _ (start L) _ _ R1); [by vs|]. vs.
  apply wp_bind, (l_set _ _ _ (start L) _ _ _ R1); [by vs|]. intros s2 R2.
  set (d0 := wru 4 0 (lh_n L) _) in *. set (V1 := v_read b (start L) V) in *.
  apply wp_bind. eapply wp_mono; [apply (wp_for _ (fun k s' =>
    lrep s' (v_data (start L) (put_blocks 0 (take (Z.to_nat k) (logged L)) d0) V1) L))|].
  - done.
  - intros k s' Hk R'. rewrite Z.add_0_l, Z.mul_1_r.
    destruct (lookup_lt_is_Some_2 (lh_block L) (Z.to_nat k)) as [x Hx]; [lia|].
    apply wp_bind, (l_bdata _ _ _ (start L) _ _ R'); [unfold V1; by vs|]. vs.
    apply wp_bind, (l_lblock _ _ L k x _ R' Hx).
    apply (l_set _ _ _ (start L) _ _ _ R'); [unfold V1; by vs|]. intros s'' R''.
    eapply lrep_eq; [done|]. rewrite Z2Nat.inj_add by lia. rewrite Nat.add_1_r.
    rewrite (take_S_r _ _ x) by (unfold logged; rewrite lookup_take_lt by lia; done).
    rewrite put_blocks_snoc. rewrite length_take_le by (unfold logged; rewrite length_take; lia).
    rewrite Z.add_0_l, Z2Nat.id by lia. view_eq_tac.
  - cbn beta. intros _ s3 R3. rewrite Z2Nat.id in R3 by lia.
    rewrite take_ge in R3 by (unfold logged; rewrite length_take; lia). fold (header L (vcont V (start L))) in R3.
    apply wp_bind, (l_bwrite _ _ _ (start L) _ _ R3); [unfold V1; by vs|]. intros s4 R4.
    apply (l_brelse _ _ _ (start L) _ _ R4); [unfold V1; vs..|].
    + done.
    + rewrite Hr. lia.
    + intros _. unfold dblock. by rewrite lookup_insert_eq.
    + intros s5 R5. apply HQ. eapply lrep_eq; [done|]. unfold V1. view_eq_tac.
      rewrite Hr. cbn. by rewrite Nat.succ_pred by lia.
Qed.

(** ** One turn of each loop *)

Lemma write_log_turn s V L tail x (Q : unit -> lstate -> Prop) : lrep s V L ->
  let lg := start L + tail + 1 in
  lh_block L !! Z.to_nat tail = Some x -> x <> lg ->
  vlock V lg = None -> vlock V x = None -> vrefs V lg = 0 -> (0 < vfree V)%nat ->
  0 < vrefs V x -> vrefs V x + 1 < 2 ^ 32 ->
  (forall s', lrep s' (v_store lg (vcont V x) V) L -> Q tt s') ->
  wp (l ← gets log;
      to ← onbio (bread (ldev l) (start l + tail + 1));
      bno ← lblock tail;
      from ← onbio (bread (ldev l) bno);
      d ← bdata from;
      set_bdata to d;;
      onbio (bwrite to);;
      onbio (brelse from);;
      onbio (brelse to)) Q s.
Proof.
  intros R lg Hx Hne Hl1 Hl2 Hr1 Hf Hr2 Hm HQ. apply wp_bind, (l_getlog id s V L); [done|]. cbn [id].
  fold lg. apply wp_bind, (l_bread s V L); [done..|by right|by rewrite Hr1|]. intros b s1 R1.
  apply wp_bind, (l_lblock _ _ L _ x _ R1 Hx).
  apply wp_bind, (l_bread _ _ L _ _ R1); vs; [done|by left|done|]. intros c s2 R2.
  apply wp_bind, (l_bdata _ _ _ x _ _ R2); vs; [done|].
  apply wp_bind, (l_set _ _ _ lg b _ _ R2); vs; [done|]. intros s3 R3.
  apply wp_bind, (l_bwrite _ _ _ lg b _ R3); vs; [done|]. intros s4 R4.
  apply wp_bind, (l_brelse _ _ _ x c _ R4); vs; [done|lia|lia|]. intros s5 R5.
  apply (l_brelse _ _ _ lg b _ R5); vs; [done|lia| |].
  { intros _. unfold dblock. by rewrite lookup_insert_eq. }
  intros s6 R6. apply HQ. eapply lrep_eq; [done|]. view_eq_tac.
  rewrite Hr1. cbn.
  destruct (vrefs V x =? 0) eqn:E; to_prop; [lia|].
  destruct (vrefs V x + 1 =? 1) eqn:E'; to_prop; [lia|]. by rewrite Nat.succ_pred by lia.
Qed.

(** A home block after its copy from the log: the pin is dropped. *)
Definition v_install (bno : Z) (d : block) (V : view) : view :=
  View (upd_at (vcont V) bno d) (upd_at (vrefs V) bno (vrefs V bno - 1)) (vlock V)
    (if vrefs V bno =? 1 then S (vfree V) else vfree V)
    (<[bno := d]> (vdisk V)) (vwrites V ++ [(bno, d)]) (vheld V) (vpid V).

Definition install_turn (recovering : bool) (tail : Z) : M lstate unit :=
  l ← gets log;
  lbuf ← onbio (bread (ldev l) (start l + tail + 1));
  bno ← lblock tail;
  dbuf ← onbio (bread (ldev l) bno);
  d ← bdata lbuf;
  set_bdata dbuf d;;
  onbio (bwrite dbuf);;
  mwhen (negb recovering) (onbio (bunpin dbuf));;
  onbio (brelse lbuf);;
  onbio (brelse dbuf).

Lemma install_turn_ok (rec : bool) s V L tail x (Q : unit -> lstate -> Prop) : lrep s V L ->
  let lg := start L + tail + 1 in
  lh_block L !! Z.to_nat tail = Some x -> x <> lg ->
  vlock V lg = None -> vlock V x = None -> vrefs V lg = 0 ->
  vcont V lg = dblock (vdisk V) lg ->
  (if rec then vrefs V x = 0 /\ (1 < vfree V)%nat
   else 0 < vrefs V x /\ vrefs V x + 1 < 2 ^ 32 /\ (0 < vfree V)%nat) ->
  (forall s', lrep s' (if rec then v_store x (vcont V lg) V else v_install x (vcont V lg) V) L -> Q tt s') ->
  wp (install_turn rec tail) Q s.
Proof.
  intros R lg Hx Hne Hl1 Hl2 Hr1 Hc Hrec HQ. unfold install_turn.
  assert (0 < vfree V)%nat as Hf by (destruct rec; lia).
  assert (0 <= vrefs V x /\ vrefs V x + 1 < 2 ^ 32) as Hm by (destruct rec; lia).
  apply wp_bind, (l_getlog id s V L); [done|]. cbn [id].
  fold lg. apply wp_bind, (l_bread s V L); [done..|by right|by rewrite Hr1|]. intros b s1 R1.
  apply wp_bind, (l_lblock _ _ L _ x _ R1 Hx).
  apply wp_bind, (l_bread _ _ L _ _ R1); vs; rewrite ?Hr1; [done|cbn; destruct rec; [right|left]; lia|lia|].
  intros c s2 R2.
  apply wp_bind, (l_bdata _ _ _ lg _ _ R2); vs; [done|].
  apply wp_bind, (l_set _ _ _ x c _ _ R2); vs; [done|]. intros s3 R3.
  apply wp_bind, (l_bwrite _ _ _ x c _ R3); vs; [done|]. intros s4 R4.
  apply wp_bind, wp_when; intros E; (destruct rec; [try done|try done]).
  - apply (l_bunpin _ _ _ x c _ R4); vs; [done|lia|]. intros s5 R5.
    apply wp_bind, (l_brelse _ _ _ lg b _ R5); vs; [done|lia| |].
    { intros _. unfold dblock in *. by rewrite lookup_insert_ne. }
    intros s6 R6. apply (l_brelse _ _ _ x c _ R6); vs; [done|lia| |].
    { intros _. unfold dblock. by rewrite lookup_insert_eq. }
    intros s7 R7. apply HQ. eapply lrep_eq; [done|]. view_eq_tac.
    rewrite Hr1. cbn.
    destruct (vrefs V x =? 0) eqn:E0; to_prop; [lia|].
    replace (vrefs V x + 1 + -1) with (vrefs V x) by lia.
    rewrite Nat.succ_pred by lia. done.
  - apply wp_bind, (l_brelse _ _ _ lg b _ R4); vs; [done|lia| |].
    { intros _. unfold dblock in *. by rewrite lookup_insert_ne. }
    intros s6 R6. apply (l_brelse _ _ _ x c _ R6); vs; [done|lia| |].
    { intros _. unfold dblock. by rewrite lookup_insert_eq. }
    intros s7 R7. apply HQ. eapply lrep_eq; [done|]. destruct Hrec as [Hrx Hfx]. view_eq_tac.
    rewrite Hr1, Hrx. change (0 + 1 =? 1) with true. cbn [Z.eqb]. by rewrite !Nat.succ_pred by lia.
Qed.

(** ** Sequences of block writes *)

Definition writes_of := list (Z * block).
Definition apply (ws : writes_of) (d : gmap Z block) : gmap Z block :=
  foldl (fun d w => <[w.1 := w.2]> d) d ws.
Definition store_all (ws : writes_of) (V : view) : view := foldl (fun V w => v_store w.1 w.2 V) V ws.
Definition install_all (ws : writes_of) (V : view) : view := foldl (fun V w => v_install w.1 w.2 V) V ws.

Arguments apply : simpl never.
Arguments store_all : simpl never.
Arguments install_all : simpl never.

Lemma apply_cons b x ws d : apply ((b, x) :: ws) d = apply ws (<[b := x]> d).
Proof. done. Qed.
Lemma store_all_cons b x ws V : store_all ((b, x) :: ws) V = store_all ws (v_store b x V).
Proof. done. Qed.
Lemma install_all_cons b x ws V : install_all ((b, x) :: ws) V = install_all ws (v_install b x V).
Proof. done. Qed.
Lemma apply_app ws ws' d : apply (ws ++ ws') d = apply ws' (apply ws d).
Proof. apply foldl_app. Qed.

Lemma apply_other ws d n : n ∉ ws.*1 -> dblock (apply ws d) n = dblock d n.
Proof.
  revert d; induction ws as [|[b x] ws IH]; intros d Hn; [done|]. cbn in Hn. rewrite ?apply_cons, ?store_all_cons, ?install_all_cons.
  rewrite IH by set_solver. unfold dblock. rewrite lookup_insert_ne by set_solver. done.
Qed.

Lemma apply_in ws d n x : NoDup ws.*1 -> (n, x) ∈ ws -> dblock (apply ws d) n = x.
Proof.
  revert d; induction ws as [|[b y] ws IH]; intros d Hd Hn; [set_solver|]. cbn in Hd. rewrite ?apply_cons, ?store_all_cons, ?install_all_cons.
  apply NoDup_cons in Hd as [Hb Hd]. apply elem_of_cons in Hn as [[= -> ->]|Hn].
  - rewrite apply_other by done. unfold dblock. by rewrite lookup_insert_eq.
  - by apply IH.
Qed.

Lemma store_all_snoc ws b x V : store_all (ws ++ [(b, x)]) V = v_store b x (store_all ws V).
Proof. unfold store_all. by rewrite foldl_app. Qed.
Lemma install_all_snoc ws b x V : install_all (ws ++ [(b, x)]) V = v_install b x (install_all ws V).
Proof. unfold install_all. by rewrite foldl_app. Qed.

Lemma store_all_keep ws V :
  vrefs (store_all ws V) = vrefs V /\ vlock (store_all ws V) = vlock V /\
  vfree (store_all ws V) = vfree V /\ vdisk (store_all ws V) = apply ws (vdisk V) /\
  vwrites (store_all ws V) = vwrites V ++ ws /\ vheld (store_all ws V) = vheld V /\
  vpid (store_all ws V) = vpid V.
Proof.
  revert V; induction ws as [|[b x] ws IH]; intros V; [cbn; by rewrite app_nil_r|].
  rewrite ?apply_cons, ?store_all_cons, ?install_all_cons.
  destruct (IH (v_store b x V)) as (H1 & H2 & H3 & H4 & H5 & H6 & H7). cbn in *.
  rewrite H1, H2, H3, H4, H5, H6, H7. by rewrite <- app_assoc.
Qed.

Lemma install_all_keep ws V :
  vlock (install_all ws V) = vlock V /\ (vfree V <= vfree (install_all ws V))%nat /\
  vdisk (install_all ws V) = apply ws (vdisk V) /\
  vwrites (install_all ws V) = vwrites V ++ ws /\
  (forall n, n ∉ ws.*1 -> vrefs (install_all ws V) n = vrefs V n) /\
  vheld (install_all ws V) = vheld V.
Proof.
  revert V; induction ws as [|[b x] ws IH]; intros V; [cbn; by rewrite app_nil_r|].
  rewrite ?apply_cons, ?store_all_cons, ?install_all_cons.
  destruct (IH (v_install b x V)) as (H1 & H2 & H3 & H4 & H5 & H6). cbn in *.
  rewrite H1, H3, H4, H6. rewrite <- app_assoc. split; [done|].
  split; [destruct (_ =? 1); lia|]. split; [done|]. split; [done|]. split; [|done].
  intros n Hn. rewrite H5 by set_solver. apply upd_at_ne. set_solver.
Qed.

Lemma cont_store_other ws V n : n ∉ ws.*1 -> vcont (store_all ws V) n = vcont V n.
Proof.
  revert V; induction ws as [|[b x] ws IH]; intros V Hn; [done|]. cbn in Hn. rewrite ?apply_cons, ?store_all_cons, ?install_all_cons.
  rewrite IH by set_solver. cbn. apply upd_at_ne. set_solver.
Qed.
Lemma cont_install_other ws V n : n ∉ ws.*1 -> vcont (install_all ws V) n = vcont V n.
Proof.
  revert V; induction ws as [|[b x] ws IH]; intros V Hn; [done|]. cbn in Hn. rewrite ?apply_cons, ?store_all_cons, ?install_all_cons.
  rewrite IH by set_solver. cbn. apply upd_at_ne. set_solver.
Qed.
Lemma cont_store_in ws V n x : NoDup ws.*1 -> (n, x) ∈ ws -> vcont (store_all ws V) n = x.
Proof.
  revert V; induction ws as [|[b y] ws IH]; intros V Hd Hn; [set_solver|]. cbn in Hd. rewrite ?apply_cons, ?store_all_cons, ?install_all_cons.
  apply NoDup_cons in Hd as [Hb Hd]. apply elem_of_cons in Hn as [[= -> ->]|Hn].
  - rewrite cont_store_other by done. cbn. apply upd_at_eq.
  - by apply IH.
Qed.
Lemma cont_install_in ws V n x : NoDup ws.*1 -> (n, x) ∈ ws -> vcont (install_all ws V) n = x.
Proof.
  revert V; induction ws as [|[b y] ws IH]; intros V Hd Hn; [set_solver|]. cbn in Hd. rewrite ?apply_cons, ?store_all_cons, ?install_all_cons.
  apply NoDup_cons in Hd as [Hb Hd]. apply elem_of_cons in Hn as [[= -> ->]|Hn].
  - rewrite cont_install_other by done. cbn. apply upd_at_eq.
  - by apply IH.
Qed.

Lemma elem_take_fst (ws : writes_of) k n : n ∈ (take k ws).*1 -> n ∈ ws.*1.
Proof.
  rewrite fmap_take. intros (i & Hi & _)%elem_of_take. by eapply list_elem_of_lookup_2.
Qed.

(** The writes of each phase of a commit. *)
Definition log_writes (L : logst) (f : Z -> block) : writes_of :=
  imap (fun i x => (start L + Z.of_nat i + 1, f x)) (logged L).
Definition home_writes (L : logst) (f : Z -> block) : writes_of :=
  (fun x => (x, f x)) <$> logged L.

Lemma length_logged L : 0 <= lh_n L <= Z.of_nat (length (lh_block L)) ->
  length (logged L) = Z.to_nat (lh_n L).
Proof. intros. unfold logged. rewrite length_take. lia. Qed.

Lemma log_writes_fst L f n : n ∈ (log_writes L f).*1 ->
  start L < n <= start L + Z.of_nat (length (logged L)).
Proof.
  unfold log_writes. rewrite list_elem_of_fmap. intros ([a x] & -> & Hx).
  apply elem_of_lookup_imap in Hx as (i & y & [= -> ->] & Hy).
  apply lookup_lt_Some in Hy. cbn. lia.
Qed.

Lemma home_writes_fst L f : (home_writes L f).*1 = logged L.
Proof.
  unfold home_writes. rewrite <- list_fmap_compose. rewrite <- (list_fmap_id (logged L)) at 2. done.
Qed.

Lemma log_writes_NoDup L f : NoDup (log_writes L f).*1.
Proof.
  unfold log_writes. rewrite fmap_imap. apply NoDup_alt. intros i j x.
  rewrite !list_lookup_imap. cbn. intros Hi Hj.
  apply fmap_Some in Hi as (? & _ & Hi). apply fmap_Some in Hj as (? & _ & Hj).
  cbn in Hi, Hj. lia.
Qed.

(** ** Committing *)

(** [bno] is the header or a block of the log. *)
Definition in_log (L : logst) (bno : Z) : Prop := start L <= bno <= start L + LOGSIZE.

(** A transaction ready to commit: its blocks are distinct, outside the log,
    pinned and not being used; nobody uses the log's own blocks; one buffer is
    free. *)
Record ready (V : view) (L : logst) : Prop := {
  rd_n : 0 <= lh_n L <= LOGSIZE /\ length (lh_block L) = Z.to_nat LOGSIZE;
  rd_nodup : NoDup (logged L);
  rd_home : forall x, x ∈ logged L ->
    ~ in_log L x /\ 0 <= x < 2 ^ 31 /\ vlock V x = None /\ 0 < vrefs V x /\ vrefs V x + 1 < 2 ^ 32;
  rd_log : forall x, in_log L x ->
    vlock V x = None /\ vrefs V x = 0 /\ vcont V x = dblock (vdisk V) x;
  rd_free : (0 < vfree V)%nat;
  rd_head : length (vcont V (start L)) = Z.to_nat BSIZE /\ hd_n (vcont V (start L)) = 0;
}.

Lemma ready_len V L : ready V L -> length (logged L) = Z.to_nat (lh_n L).
Proof. intros [[H1 H2] _ _ _ _ _]. apply length_logged. rewrite H2. unfold LOGSIZE, MAXOPBLOCKS in *. lia. Qed.

Lemma ready_block V L k : ready V L -> 0 <= k < lh_n L ->
  exists x, lh_block L !! Z.to_nat k = Some x /\ logged L !! Z.to_nat k = Some x /\ x ∈ logged L.
Proof.
  intros Hr Hk. pose proof (ready_len _ _ Hr) as Hlen.
  destruct (lookup_lt_is_Some_2 (logged L) (Z.to_nat k)) as [x Hx]; [lia|].
  exists x. split; [|split; [done|by eapply list_elem_of_lookup_2]].
  unfold logged in Hx. rewrite lookup_take_lt in Hx; [done|lia].
Qed.

Lemma take_imap_S {A B} (f : nat -> A -> B) l k x : l !! k = Some x ->
  take (S k) (imap f l) = take k (imap f l) ++ [f k x].
Proof. intros Hx. apply take_S_r. by rewrite list_lookup_imap, Hx. Qed.

Lemma write_log_ok s V L : lrep s V L -> ready V L ->
  wp write_log (fun _ s' => lrep s' (store_all (log_writes L (vcont V)) V) L) s.
Proof.
  intros R Hr. pose proof (ready_len _ _ Hr) as Hlen. destruct Hr as [[Hn Hb] Hnd Hh Hl Hf Hd] eqn:EHr.
  unfold write_log. apply wp_bind, (l_getlog lh_n s V L _ R).
  eapply wp_mono; [apply (wp_for _ (fun k s' =>
    lrep s' (store_all (take (Z.to_nat k) (log_writes L (vcont V))) V) L))|].
  - done.
  - intros k s' Hk R'. rewrite Z.add_0_l, Z.mul_1_r. rewrite Z2Nat.id in Hk by lia.
    destruct (ready_block V L k) as (x & Hx & Hx' & Hin); [done..|].
    destruct (Hh x Hin) as (Ho & _ & Hlx & Hrx & Hmx).
    destruct (store_all_keep (take (Z.to_nat k) (log_writes L (vcont V))) V)
      as (K1 & K2 & K3 & K4 & K5 & K6 & K7).
    assert (in_log L (start L + k + 1)) as Hlg by (unfold in_log; lia).
    destruct (Hl _ Hlg) as (L1 & L2 & L3).
    eapply (write_log_turn s' _ L k x _ R'); try done.
    + intros ->. done.
    + by rewrite K2.
    + by rewrite K2.
    + by rewrite K1.
    + by rewrite K3.
    + by rewrite K1.
    + by rewrite K1.
    + intros s'' R''. rewrite Z2Nat.inj_add by lia. rewrite Nat.add_1_r.
      unfold log_writes. rewrite (take_imap_S _ _ _ x Hx'), store_all_snoc.
      rewrite Z2Nat.id by lia. rewrite cont_store_other in R''; [done|].
      intros Hc. apply elem_take_fst, log_writes_fst in Hc. apply Ho. unfold in_log. lia.
  - cbn beta. intros _ s' R'. rewrite Z2Nat.id in R' by lia. rewrite take_ge in R'; [done|].
    unfold log_writes. rewrite length_imap. lia.
Qed.

(** The home writes as [install_trans] makes them: from the log blocks. *)
Definition inst_writes (L : logst) (f : Z -> block) : writes_of :=
  imap (fun i x => (x, f (start L + Z.of_nat i + 1))) (logged L).
Definition inst_all (rec : bool) (ws : writes_of) (V : view) : view :=
  if rec then store_all ws V else install_all ws V.

Lemma inst_writes_fst L f : (inst_writes L f).*1 = logged L.
Proof.
  unfold inst_writes. rewrite fmap_imap. apply list_eq. intros i. rewrite list_lookup_imap. cbn.
  by destruct (logged L !! i).
Qed.

Record installable (rec : bool) (V : view) (L : logst) : Prop := {
  in_n : 0 <= lh_n L <= LOGSIZE /\ length (lh_block L) = Z.to_nat LOGSIZE;
  in_home : forall x, x ∈ logged L -> ~ in_log L x /\ vlock V x = None /\
    if rec then vrefs V x = 0 else 0 < vrefs V x /\ vrefs V x + 1 < 2 ^ 32;
  in_nodup : rec = false -> NoDup (logged L);
  in_logb : forall x, in_log L x ->
    vlock V x = None /\ vrefs V x = 0 /\ vcont V x = dblock (vdisk V) x;
  in_free : if rec then (1 < vfree V)%nat else (0 < vfree V)%nat;
}.

Lemma inst_keep rec ws V : vlock (inst_all rec ws V) = vlock V /\
  (vfree V <= vfree (inst_all rec ws V))%nat /\ vdisk (inst_all rec ws V) = apply ws (vdisk V) /\
  vwrites (inst_all rec ws V) = vwrites V ++ ws /\
  (forall n, n ∉ ws.*1 \/ rec = true -> vrefs (inst_all rec ws V) n = vrefs V n) /\
  (forall n, n ∉ ws.*1 -> vcont (inst_all rec ws V) n = vcont V n) /\
  vheld (inst_all rec ws V) = vheld V.
Proof.
  destruct rec; cbn [inst_all].
  - destruct (store_all_keep ws V) as (K1 & K2 & K3 & K4 & K5 & K6 & K7). rewrite K1, K2, K3, K4, K5.
    repeat (split; [done|]). split; [apply cont_store_other|done].
  - destruct (install_all_keep ws V) as (K1 & K2 & K3 & K4 & K5 & K6). rewrite K1, K3, K4.
    repeat (split; [done|]). split; [naive_solver|]. split; [apply cont_install_other|done].
Qed.

Lemma install_trans_ok rec s V L : lrep s V L -> installable rec V L ->
  wp (install_trans rec) (fun _ s' => lrep s' (inst_all rec (inst_writes L (vcont V)) V) L) s.
Proof.
  intros R [[Hn Hb] Hh Hnd Hl Hf].
  assert (length (logged L) = Z.to_nat (lh_n L)) as Hlen
    by (apply length_logged; rewrite Hb; unfold LOGSIZE, MAXOPBLOCKS in *; lia).
  unfold install_trans. apply wp_bind, (l_getlog lh_n s V L _ R).
  change (wp (for_ (Z.to_nat (lh_n L)) 0 1 (install_turn rec))
    (fun _ s' => lrep s' (inst_all rec (inst_writes L (vcont V)) V) L) s).
  eapply wp_mono; [apply (wp_for _ (fun k s' =>
    lrep s' (inst_all rec (take (Z.to_nat k) (inst_writes L (vcont V))) V) L))|].
  - destruct rec; done.
  - intros k s' Hk R'. rewrite Z.add_0_l, Z.mul_1_r. rewrite Z2Nat.id in Hk by lia.
    destruct (lookup_lt_is_Some_2 (logged L) (Z.to_nat k)) as [x Hx]; [lia|].
    assert (x ∈ logged L) as Hin by by eapply list_elem_of_lookup_2.
    assert (lh_block L !! Z.to_nat k = Some x) as Hx'.
    { unfold logged in Hx. rewrite lookup_take_lt in Hx; [done|lia]. }
    destruct (Hh x Hin) as (Ho & Hlx & Hrx).
    set (ws := take (Z.to_nat k) (inst_writes L (vcont V))) in *.
    destruct (inst_keep rec ws V) as (K1 & K2 & K3 & K4 & K5 & K6 & _).
    assert (in_log L (start L + k + 1)) as Hlg by (unfold in_log; lia).
    destruct (Hl _ Hlg) as (L1 & L2 & L3).
    assert (forall n, n ∈ ws.*1 -> n ∈ logged L) as Hsub.
    { intros n Hc. apply elem_take_fst in Hc. by rewrite inst_writes_fst in Hc. }
    assert (start L + k + 1 ∉ ws.*1) as Hlgn.
    { intros Hc%Hsub. by apply (Hh _ Hc). }
    assert (rec = false -> x ∉ ws.*1) as Hxn.
    { intros E Hc. unfold ws in Hc. rewrite fmap_take, inst_writes_fst in Hc.
      apply elem_of_take in Hc as (j & Hj & Hjk).
      rewrite (NoDup_lookup _ _ _ _ (Hnd E) Hj Hx) in Hjk. lia. }
    eapply (install_turn_ok rec s' _ L k x _ R'); try done.
    + intros ->. done.
    + by rewrite K1.
    + by rewrite K1.
    + rewrite K5; [done|by left].
    + rewrite K6, K3 by done. rewrite apply_other by done. done.
    + destruct rec; rewrite K5 by auto; [split; [done|lia]|]. split; [lia|]. split; lia.
    + intros s'' R''. rewrite Z2Nat.inj_add by lia. rewrite Nat.add_1_r.
      unfold inst_writes at 1. rewrite (take_imap_S _ _ _ x Hx).
      fold (inst_writes L (vcont V)). fold ws. rewrite K6 in R'' by done.
      rewrite Z2Nat.id by lia.
      destruct rec; cbn [inst_all] in *; rewrite ?store_all_snoc, ?install_all_snoc; done.
  - cbn beta. intros _ s' R'. rewrite Z2Nat.id in R' by lia. rewrite take_ge in R'; [done|].
    unfold inst_writes. rewrite length_imap. lia.
Qed.

(** The blocks a commit writes, in order. *)
Definition head1 (V : view) (L : logst) : block := header L (vcont V (start L)).
Definition head0 (V : view) (L : logst) : block := header (set_n 0 L) (head1 V L).
Definition commit_writes (V : view) (L : logst) : writes_of :=
  log_writes L (vcont V) ++ (start L, head1 V L) ::
  home_writes L (vcont V) ++ [(start L, head0 V L)].

Lemma start_in_log L : in_log L (start L).
Proof. unfold in_log, LOGSIZE, MAXOPBLOCKS. lia. Qed.

Lemma ready_log_out V L n : ready V L -> n ∈ (log_writes L (vcont V)).*1 ->
  in_log L n /\ n <> start L.
Proof.
  intros Hr Hn. apply log_writes_fst in Hn. rewrite (ready_len _ _ Hr) in Hn.
  destruct Hr as [[? _] _ _ _ _ _]. unfold in_log. lia.
Qed.

Lemma inst_home L (f g : Z -> block) :
  (forall i x, logged L !! i = Some x -> f (start L + Z.of_nat i + 1) = g x) ->
  inst_writes L f = home_writes L g.
Proof.
  intros H. apply list_eq. intros i. unfold inst_writes, home_writes.
  rewrite list_lookup_imap, list_lookup_fmap. destruct (logged L !! i) as [x|] eqn:E; [|done].
  cbn. by rewrite (H i x E).
Qed.

Lemma log_writes_elem L (f : Z -> block) i x : logged L !! i = Some x ->
  (start L + Z.of_nat i + 1, f x) ∈ log_writes L f.
Proof.
  intros Hx. apply list_elem_of_lookup. exists i. unfold log_writes.
  by rewrite list_lookup_imap, Hx.
Qed.

(** The view once the header is on the disk. *)
Definition v_logged (V : view) (L : logst) : view :=
  v_store (start L) (head1 V L) (store_all (log_writes L (vcont V)) V).

Lemma logged_cont V L i x : logged L !! i = Some x ->
  vcont (v_logged V L) (start L + Z.of_nat i + 1) = vcont V x.
Proof.
  intros Hx. cbn. rewrite upd_at_ne by lia.
  apply cont_store_in; [apply log_writes_NoDup|by apply log_writes_elem].
Qed.

Lemma logged_installable V L : ready V L -> installable false (v_logged V L) L.
Proof.
  intros Hr. set (LW := log_writes L (vcont V)).
  destruct (store_all_keep LW V) as (K1 & K2 & K3 & K4 & K5 & K6 & K7).
  split; cbn [vlock vrefs vdisk vfree v_logged v_store]; fold LW.
  - apply Hr.
  - intros x Hx. destruct (rd_home _ _ Hr x Hx) as (? & _ & ? & ? & ?). rewrite K1, K2. done.
  - intros _. apply Hr.
  - intros x Hx. destruct (rd_log _ _ Hr _ Hx) as (X1 & X2 & X3). rewrite K1, K2.
    split; [done|]. split; [done|]. cbn [vcont v_logged v_store]; fold LW. unfold dblock. rewrite lookup_insert. unfold upd_at.
    repeat case_decide; try congruence; [done|]. rewrite K4. fold (dblock (apply LW (vdisk V)) x).
    destruct (decide (x ∈ LW.*1)) as [Hin|Hnin].
    + apply list_elem_of_fmap in Hin as ([a d] & -> & Hin). cbn.
      rewrite (cont_store_in LW V a d) by (done || apply log_writes_NoDup).
      by rewrite (apply_in LW _ a d) by (done || apply log_writes_NoDup).
    + rewrite cont_store_other by done. by rewrite apply_other.
  - rewrite K3. apply Hr.
Qed.

(** The log and the header are written first ... *)
Lemma commit_log_ok s V L : lrep s V L -> ready V L ->
  wp (write_log;; write_head) (fun _ s' => lrep s' (v_logged V L) L) s.
Proof.
  intros R Hr. apply wp_bind. eapply wp_mono; [by apply write_log_ok|]. cbn beta. intros _ s1 R1.
  set (LW := log_writes L (vcont V)) in *.
  destruct (store_all_keep LW V) as (K1 & K2 & K3 & K4 & K5 & K6 & K7).
  assert (vcont (store_all LW V) (start L) = vcont V (start L)) as HcS.
  { apply cont_store_other. intros []%(ready_log_out V L); done. }
  destruct (rd_log _ _ Hr _ (start_in_log L)) as (S1 & S2 & S3).
  destruct (rd_n _ _ Hr) as [Hn Hb].
  apply (write_head_ok s1 (store_all LW V) L); rewrite ?K1, ?K2, ?K3; try done.
  - apply Hr.
  - rewrite Hb. lia.
  - rewrite HcS. done.
Qed.

(** ... then the home blocks, and the header again. *)
Lemma commit_ok s V L : lrep s V L -> ready V L -> 0 < lh_n L ->
  wp commit (fun _ s' => exists V', lrep s' V' (set_n 0 L) /\
    vwrites V' = vwrites V ++ commit_writes V L /\
    vdisk V' = apply (commit_writes V L) (vdisk V) /\
    vlock V' = vlock V /\ vheld V' = vheld V /\
    (forall x, ~ in_log L x -> vcont V' x = vcont V x) /\
    (forall x, x ∉ logged L -> vrefs V' x = vrefs V x) /\ (vfree V <= vfree V')%nat) s.
Proof.
  intros R Hr Hpos. pose proof (start_in_log L) as Hst.
  unfold commit. apply wp_bind, (l_getlog lh_n s V L _ R).
  assert ((0 <? lh_n L) = true) as -> by (apply Z.ltb_lt; lia). cbn [mwhen].
  pose proof (commit_log_ok s V L R Hr) as HL. apply wp_bind_inv in HL.
  apply wp_bind. eapply wp_mono; [exact HL|]. cbn beta. intros _ s1 HL1.
  apply wp_bind. eapply wp_mono; [exact HL1|]. cbn beta. intros _ s2 R2. clear HL HL1 s1.
  apply wp_bind. eapply wp_mono; [by apply install_trans_ok, logged_installable|]. cbn beta. intros _ s3 R3.
  rewrite (inst_home L _ (vcont V) (logged_cont V L)) in R3.
  set (HW := home_writes L (vcont V)) in *.
  destruct (store_all_keep (log_writes L (vcont V)) V) as (K1 & K2 & K3 & K4 & K5 & K6 & K7).
  set (V2 := v_logged V L) in *.
  destruct (inst_keep false HW V2) as (M1 & M2 & M3 & M4 & M5 & M6 & M7). set (V3 := inst_all false HW V2) in *.
  assert (vfree V2 = vfree V) as KF by exact K3.
  assert (HW.*1 = logged L) as HWf by apply home_writes_fst.
  assert (forall x, in_log L x -> x ∉ HW.*1) as HWo.
  { intros x Hx. rewrite HWf. intros Hc. by destruct (rd_home _ _ Hr x Hc) as [Ho _]. }
  destruct (rd_log _ _ Hr _ Hst) as (S1 & S2 & S3).
  apply wp_bind, (l_setlog _ _ _ _ _ R3); [done|]. intros s4 R4.
  apply (write_head_ok s4 V3 (set_n 0 L) _ R4); cbn [start set_n lh_n lh_block].
  - rewrite M1. cbn. by rewrite K2.
  - rewrite M5 by (left; by apply HWo). cbn. by rewrite K1.
  - pose proof (rd_free _ _ Hr). lia.
  - lia.
  - rewrite M6 by (by apply HWo). cbn [vcont V2 v_logged v_store]. rewrite upd_at_eq.
    fold (head0 V L). intros s5 R5. eexists. split; [exact R5|]. cbn [vcont vrefs vlock vfree vdisk vwrites v_store].
    rewrite M1, M3, M4. cbn [vdisk vwrites vlock V2 v_logged v_store]. rewrite K2, K4, K5.
    unfold commit_writes. fold HW.
    split; [by rewrite <- !app_assoc|]. split; [by rewrite apply_app, apply_cons, apply_app|].
    split; [done|]. split; [by rewrite <- K6|]. split; [|split].
    + intros x Hx. rewrite upd_at_ne by congruence.
      destruct (decide (x ∈ HW.*1)) as [Hin|Hnin].
      * unfold V3. cbn [inst_all]. apply (cont_install_in HW V2 x); [rewrite HWf; apply Hr|].
        rewrite HWf in Hin. unfold HW, home_writes. apply list_elem_of_fmap. by exists x.
      * rewrite M6 by done. unfold V2. cbn [vcont v_logged v_store]. rewrite upd_at_ne by congruence.
        apply cont_store_other. intros [? _]%(ready_log_out V L); done.
    + intros x Hx. rewrite M5 by (left; by rewrite HWf). cbn. by rewrite K1.
    + lia.
Qed.

(** ** Recovery *)

Definition hd_blocks (h : block) (n : Z) : list Z := hd_block h <$> seqZ 0 n.
Definition rec_writes (st : Z) (d : gmap Z block) : writes_of :=
  let h := dblock d st in
  (fun i => (hd_block h i, dblock d (st + i + 1))) <$> seqZ 0 (hd_n h).

(** Nothing is in use and the cache agrees with the disk. *)
Definition cold (V : view) : Prop := (1 < vfree V)%nat /\
  forall n, vlock V n = None /\ vrefs V n = 0 /\ vcont V n = dblock (vdisk V) n.

Lemma seqZ_snoc k : 0 <= k -> seqZ 0 (k + 1) = seqZ 0 k ++ [k].
Proof. intros. rewrite seqZ_app by lia. by rewrite Z.add_0_l. Qed.

Lemma read_head_ok s V L : lrep s V L -> cold V -> length (lh_block L) = Z.to_nat LOGSIZE ->
  let h := vcont V (start L) in 0 <= hd_n h <= LOGSIZE ->
  wp read_head (fun _ s' => exists L', lrep s' V L' /\ start L' = start L /\
    ldev L' = ldev L /\ lh_n L' = hd_n h /\ length (lh_block L') = Z.to_nat LOGSIZE /\
    logged L' = hd_blocks h (hd_n h)) s.
Proof.
  intros R [Hf Hcold] Hlen h Hn. unfold read_head. apply wp_bind, (l_getlog id s V L _ R). cbn [id].
  destruct (Hcold (start L)) as (C1 & C2 & C3).
  apply wp_bind, (l_bread s V L _ _ R); [done|right; lia|lia|]. intros b s1 R1.
  apply wp_bind, (l_bdata _ _ _ (start L) _ _ R1); vs; [done|]. fold h.
  apply wp_bind, (l_setlog _ _ _ _ _ R1); [done|]. intros s2 R2.
  set (V1 := v_read b (start L) V) in *.
  apply wp_bind. eapply wp_mono; [apply (wp_for _ (fun k s' => exists L', lrep s' V1 L' /\
    start L' = start L /\ ldev L' = ldev L /\ lh_n L' = hd_n h /\
    length (lh_block L') = Z.to_nat LOGSIZE /\ take (Z.to_nat k) (lh_block L') = hd_blocks h k))|].
  - exists (set_n (hd_n h) L). done.
  - intros k s' Hk (L' & R' & E1 & E2 & E3 & E4 & E5). rewrite Z.add_0_l, Z.mul_1_r.
    apply wp_bind, (l_getlog (fun l => Z.of_nat (length (lh_block l))) _ _ _ _ R').
    assert ((k <? Z.of_nat (length (lh_block L'))) = true) as -> by (apply Z.ltb_lt; lia).
    apply (l_setlog _ _ _ _ _ R'); [done|]. intros s3 R3. exists (set_block k (hd_block h k) L').
    cbn [start ldev lh_n lh_block set_block]. rewrite length_insert.
    repeat (split; [done|]). rewrite Z2Nat.inj_add by lia. rewrite Nat.add_1_r.
    rewrite (take_S_r _ _ (hd_block h k)) by (rewrite list_lookup_insert_eq by lia; done).
    rewrite take_insert_ge by lia. unfold hd_blocks. rewrite seqZ_snoc, fmap_app by lia. by rewrite E5.
  - cbn beta. intros _ s3 (L' & R' & E1 & E2 & E3 & E4 & E5). rewrite Z2Nat.id in E5 by lia.
    apply (l_brelse _ _ _ (start L) b _ R'); unfold V1; vs; [done|lia|done|].
    intros s4 R4. exists L'. split; [|repeat (split; [done|]); unfold logged; by rewrite E3].
    eapply lrep_eq; [done|]. apply v_read_relse; [done|]. intros _. lia.
Qed.

Lemma recover_ok s V L : lrep s V L -> cold V -> length (lh_block L) = Z.to_nat LOGSIZE ->
  let h := dblock (vdisk V) (start L) in 0 <= hd_n h <= LOGSIZE -> length h = Z.to_nat BSIZE ->
  (forall i, 0 <= i < hd_n h -> ~ in_log L (hd_block h i)) ->
  wp recover_from_log (fun _ s' => exists V' L' h', lrep s' V' L' /\ lh_n L' = 0 /\
    start L' = start L /\ hd_n h' = 0 /\
    vdisk V' = apply (rec_writes (start L) (vdisk V) ++ [(start L, h')]) (vdisk V)) s.
Proof.
  intros R Hc Hlen h Hn Hh Ho. pose proof Hc as [Hf Hcold]. destruct (Hcold (start L)) as (C1 & C2 & C3).
  unfold recover_from_log.
  apply wp_bind. eapply wp_mono; [apply read_head_ok; try done; by rewrite C3|]. cbn beta.
  rewrite C3. fold h. intros _ s1 (L1 & R1 & E1 & E2 & E3 & E4 & E5).
  assert (forall x, x ∈ logged L1 -> ~ in_log L x) as Ho'.
  { intros x Hx. rewrite E5 in Hx. apply list_elem_of_fmap in Hx as (i & -> & Hi%elem_of_seqZ).
    apply Ho. lia. }
  assert (installable true V L1) as Hi.
  { split; try done; [by rewrite E3|]. intros x Hx. destruct (Hcold x) as (X1 & X2 & _). split; [|done].
    unfold in_log. rewrite E1. by apply Ho'. }
  apply wp_bind. eapply wp_mono; [by apply install_trans_ok|]. cbn beta. intros _ s2 R2.
  set (ws := inst_writes L1 (vcont V)) in *. cbn [inst_all] in R2.
  assert (ws = rec_writes (start L) (vdisk V)) as Hws.
  { unfold ws, inst_writes, rec_writes. fold h. rewrite E5, E1. apply list_eq. intros i.
    unfold hd_blocks. rewrite list_lookup_imap, !list_lookup_fmap.
    destruct (seqZ 0 (hd_n h) !! i) as [j|] eqn:E; cbn; [|done].
    apply lookup_seqZ in E as [-> _]. destruct (Hcold (start L + Z.of_nat i + 1)) as (_ & _ & ->).
    by rewrite Z.add_0_l. }
  destruct (store_all_keep ws V) as (K1 & K2 & K3 & K4 & K5 & K6 & K7).
  assert (vcont (store_all ws V) (start L) = h) as Hch.
  { rewrite cont_store_other by (unfold ws; rewrite inst_writes_fst; intros Hx;
      by apply (Ho' _ Hx), start_in_log). done. }
  apply wp_bind, (l_setlog _ _ _ _ _ R2); [done|]. intros s3 R3.
  apply (write_head_ok s3 _ (set_n 0 L1) _ R3); cbn [start set_n lh_n lh_block]; rewrite ?K1, ?K2, ?K3, ?E1; try done; [lia|lia|].
  intros s4 R4. eexists _, _, (header (set_n 0 L1) h). rewrite Hch in R4.
  split; [exact R4|]. split; [done|]. split; [done|]. split; [by apply (header_n (set_n 0 L1))|].
  cbn [vdisk v_store]. by rewrite K4, Hws, apply_app.
Qed.

(** The kernel's start: cold caches, zeroed [struct log], and the disk. *)
Definition log0 : logst := mkLog 0 0 0 0 0 0 (replicate (Z.to_nat LOGSIZE) 0).
Definition reboot (d : gmap Z block) (pid : Z) : lstate := mkL (Bio.boot d pid) log0.
Definition boot_log (dv : Z) (sb : superblock) : M lstate unit := onbio binit;; initlog dv sb.

Lemma boot_log_ok dv sb d pid : dv <> 0 ->
  let h := dblock d (logstart sb) in 0 <= hd_n h <= LOGSIZE -> length h = Z.to_nat BSIZE ->
  (forall i, 0 <= i < hd_n h -> ~ logstart sb <= hd_block h i <= logstart sb + LOGSIZE) ->
  wp (boot_log dv sb) (fun _ s' => lh_n (log s') = 0 /\ exists h', hd_n h' = 0 /\
    platter (bio s') = apply (rec_writes (logstart sb) d ++ [(logstart sb, h')]) d) (reboot d pid).
Proof.
  intros Hdv h Hn Hh Ho. unfold boot_log. apply wp_bind, wp_zoom.
  eapply wp_mono; [by apply (binit_ok dv)|]. cbn beta. intros _ b Rb.
  unfold initlog. change (BSIZE <=? sizeof_logheader) with false. cbn match.
  apply wp_bind, wp_modify, wp_bind, wp_modify. cbn [log bio reboot].
  set (L := mkLog _ _ _ _ _ _ _).
  assert (held b = ∅) as Hhb by (destruct Rb as [l Rb]; apply (rp_rest _ _ _ _ Rb)).
  set (s := mkL _ L).
  assert (lrep s (v_boot d pid) L) as R.
  { split; [|done]. assert (bio s = b) as ->; [|done].
    change (set_held (held b ∖ {[LOG_LOCK]}) b = b). 
    assert (held b ∖ {[LOG_LOCK]} = held b) as -> by (rewrite Hhb; set_solver).
    apply set_held_held. }
  eapply wp_mono; [apply (recover_ok s _ L R); try done|].
  - split; [|done]. cbn. unfold NBUF, MAXOPBLOCKS. lia.
  - cbn beta. intros _ s' (V' & L' & h' & [R' El] & E1 & E2 & E3 & E4).
    split; [by rewrite El|]. exists h'. split; [done|].
    destruct R' as [l R']. destruct (rp_rest _ _ _ _ R') as (-> & _). exact E4.
Qed.

(** ** Crashes *)

Definition old_block (V : view) (b : Z) : block := dblock (vdisk V) b.
Definition new_block (V : view) (L : logst) (b : Z) : block :=
  if decide (b ∈ logged L) then vcont V b else old_block V b.

(** What recovery needs of the disk [d], and what it makes of block [b]. *)
Definition recovers (L : logst) (d : gmap Z block) (f : Z -> block) : Prop :=
  let h := dblock d (start L) in
  0 <= hd_n h <= LOGSIZE /\ length h = Z.to_nat BSIZE /\
  (forall i, 0 <= i < hd_n h -> ~ in_log L (hd_block h i)) /\
  forall b h', ~ in_log L b -> dblock (apply (rec_writes (start L) d ++ [(start L, h')]) d) b = f b.

Lemma apply_head st h' ws d b : b <> st -> dblock (apply (ws ++ [(st, h')]) d) b = dblock (apply ws d) b.
Proof. intros. rewrite apply_app. rewrite (apply_other [_]); [done|]. cbn. set_solver. Qed.

(** A disk whose header says that nothing is committed. *)
Lemma recovers_empty L d f : hd_n (dblock d (start L)) = 0 ->
  length (dblock d (start L)) = Z.to_nat BSIZE ->
  (forall b, ~ in_log L b -> dblock d b = f b) -> recovers L d f.
Proof.
  intros Hn Hl Hf. split; [rewrite Hn; unfold LOGSIZE, MAXOPBLOCKS; lia|]. split; [done|].
  split; [intros i; rewrite Hn; lia|]. intros b h' Hb. pose proof (start_in_log L).
  rewrite apply_head by congruence. unfold rec_writes. rewrite Hn. by apply Hf.
Qed.

(** A disk whose log holds the committed blocks. *)
Lemma recovers_full V L d : ready V L -> dblock d (start L) = head1 V L ->
  (forall i x, logged L !! i = Some x -> dblock d (start L + Z.of_nat i + 1) = vcont V x) ->
  (forall b, ~ in_log L b -> b ∉ logged L -> dblock d b = old_block V b) ->
  recovers L d (new_block V L).
Proof.
  intros Hr Hh Hlog Hb. destruct (rd_n _ _ Hr) as [Hn _]. destruct (rd_head _ _ Hr) as [Hl _].
  pose proof (ready_len _ _ Hr) as Hlen.
  assert (hd_n (head1 V L) = lh_n L) as Hhn by by apply header_n.
  assert (forall i x, logged L !! i = Some x -> hd_block (head1 V L) (Z.of_nat i) = x) as Hhb.
  { intros i x Hx. unfold head1. rewrite (header_block L _ _ x); [|done..|lia|by rewrite Nat2Z.id].
    apply list_elem_of_lookup_2 in Hx. destruct (rd_home _ _ Hr x Hx) as (_ & ? & _). apply i32_id. lia. }
  assert (rec_writes (start L) d = home_writes L (vcont V)) as Hrw.
  { unfold rec_writes, home_writes. rewrite Hh, Hhn. apply list_eq. intros i. rewrite !list_lookup_fmap.
    destruct (logged L !! i) as [x|] eqn:E.
    - rewrite lookup_seqZ_lt by (apply lookup_lt_Some in E; lia). cbn.
      by rewrite Z.add_0_l, (Hhb i x E), (Hlog i x E).
    - rewrite lookup_seqZ_ge; [done|]. apply lookup_ge_None in E. lia. }
  unfold recovers. rewrite Hh, Hhn, Hrw. split; [done|]. split.
  { unfold head1, header. by rewrite length_put_blocks, length_wru. }
  split.
  - intros i Hi. destruct (lookup_lt_is_Some_2 (logged L) (Z.to_nat i)) as [x Hx]; [lia|].
    replace i with (Z.of_nat (Z.to_nat i)) by lia. rewrite (Hhb _ x Hx).
    apply list_elem_of_lookup_2 in Hx. by destruct (rd_home _ _ Hr x Hx).
  - intros b h' Ho. pose proof (start_in_log L). rewrite apply_head by congruence.
    unfold new_block. case_decide as Hin.
    + apply apply_in; [rewrite home_writes_fst; apply Hr|].
      apply list_elem_of_fmap. by exists b.
    + rewrite apply_other by (by rewrite home_writes_fst). by apply Hb.
Qed.

Section crash.
Context (V : view) (L : logst) (Hr : ready V L).
Let LW := log_writes L (vcont V).
Let HW := home_writes L (vcont V).

Lemma lw_out b : b ∈ LW.*1 -> in_log L b /\ b <> start L.
Proof using Hr. intros. by apply (ready_log_out V). Qed.
Lemma hw_out b : b ∈ HW.*1 -> b ∈ logged L /\ ~ in_log L b.
Proof using Hr.
  intros Hb. unfold HW in Hb. rewrite home_writes_fst in Hb. split; [done|].
  by destruct (rd_home _ _ Hr b Hb).
Qed.
Lemma length_head1 : length (head1 V L) = Z.to_nat BSIZE.
Proof using Hr. unfold head1, header. rewrite length_put_blocks, length_wru. apply Hr. Qed.

(** The header is not written yet. *)
Lemma crash_before k : recovers L (apply (take k LW) (vdisk V)) (old_block V).
Proof using Hr.
  set (d := apply _ _). destruct (rd_head _ _ Hr) as [Hhl Hh0].
  destruct (rd_log _ _ Hr _ (start_in_log L)) as (_ & _ & Hclean).
  assert (forall b, b ∉ LW.*1 -> dblock d b = old_block V b) as Hd.
  { intros b Hb. unfold d. rewrite apply_other; [done|]. intros ?%elem_take_fst. done. }
  assert (dblock d (start L) = vcont V (start L)) as Hs.
  { rewrite Hd by (intros []%lw_out; done). by rewrite Hclean. }
  apply recovers_empty; rewrite ?Hs; [done..|]. intros b Hb. apply Hd. intros []%lw_out; done.
Qed.

(** The disk when the header has just been written. *)
Let d1 := <[start L := head1 V L]> (apply LW (vdisk V)).

Lemma d1_home b : ~ in_log L b -> dblock d1 b = old_block V b.
Proof using Hr.
  intros Hb. pose proof (start_in_log L). unfold d1, dblock. rewrite lookup_insert_ne by congruence.
  apply (apply_other LW (vdisk V) b). intros []%lw_out; done.
Qed.

Lemma crash_installing k : recovers L (apply (take k HW) d1) (new_block V L).
Proof using Hr.
  apply recovers_full; [done|..].
  - rewrite apply_other; [unfold d1, dblock; by rewrite lookup_insert_eq|].
    intros [_ Hn]%elem_take_fst%hw_out. apply Hn, start_in_log.
  - intros i x Hx. rewrite apply_other.
    + unfold d1, dblock. rewrite lookup_insert_ne by lia.
      apply (apply_in LW (vdisk V)); [apply log_writes_NoDup|by apply log_writes_elem].
    + intros [_ Hn]%elem_take_fst%hw_out. apply Hn. destruct (rd_n _ _ Hr) as [? _].
      pose proof (ready_len _ _ Hr). apply lookup_lt_Some in Hx. unfold in_log. lia.
  - intros b Hb Hnl. rewrite apply_other; [by apply d1_home|]. intros []%elem_take_fst%hw_out; done.
Qed.

Lemma final_disk b : ~ in_log L b ->
  dblock (apply (HW ++ [(start L, head0 V L)]) d1) b = new_block V L b.
Proof using Hr.
  intros Hb. pose proof (start_in_log L). rewrite apply_head by congruence.
  unfold new_block. case_decide as Hin.
  - apply apply_in; [unfold HW; rewrite home_writes_fst; apply Hr|].
    apply list_elem_of_fmap. by exists b.
  - rewrite apply_other by (unfold HW; by rewrite home_writes_fst). by apply d1_home.
Qed.

Lemma crash_after : recovers L (apply (HW ++ [(start L, head0 V L)]) d1) (new_block V L).
Proof using Hr.
  pose proof (start_in_log L) as Hst. pose proof length_head1 as Hl1.
  assert (dblock (apply (HW ++ [(start L, head0 V L)]) d1) (start L) = head0 V L) as Hs.
  { rewrite apply_app, apply_cons. unfold dblock, apply at 1. cbn [foldl]. by rewrite lookup_insert_eq. }
  apply recovers_empty; rewrite ?Hs.
  - by apply (header_n (set_n 0 L)).
  - unfold head0, header. by rewrite length_put_blocks, length_wru.
  - apply final_disk.
Qed.

Lemma crash_recovers k : recovers L (apply (take k (commit_writes V L)) (vdisk V))
  (if decide (k <= Z.to_nat (lh_n L))%nat then old_block V else new_block V L).
Proof using Hr.
  pose proof (ready_len _ _ Hr) as Hlen.
  assert (length LW = Z.to_nat (lh_n L)) as HLW by (unfold LW, log_writes; by rewrite length_imap).
  unfold commit_writes. fold LW HW. case_decide as Hk.
  - rewrite take_app_le by lia. apply crash_before.
  - rewrite take_app_ge by lia. replace (k - length LW)%nat with (S (k - S (length LW))) by lia.
    cbn [take]. rewrite apply_app, apply_cons. fold d1.
    destruct (decide (k - S (length LW) <= length HW)%nat).
    + rewrite take_app_le by done. apply crash_installing.
    + rewrite take_ge; [apply crash_after|]. rewrite length_app. cbn. lia.
Qed.
End crash.

(** The machine stops after [k] block writes of a commit and starts again. *)
Lemma crash_boot V L sb pid k : ready V L -> ldev L <> 0 -> logstart sb = start L ->
  wp (boot_log (ldev L) sb) (fun _ s'' => lh_n (log s'') = 0 /\
      forall b, ~ in_log L b -> disk_block (bio s'') b =
        if decide (k <= Z.to_nat (lh_n L))%nat then old_block V b else new_block V L b)
    (reboot (apply (take k (commit_writes V L)) (vdisk V)) pid).
Proof.
  intros Hr Hdv Hsb. destruct (crash_recovers V L Hr k) as (H1 & H2 & H3 & H4).
  eapply wp_mono; [by apply boot_log_ok; rewrite ?Hsb|]. cbn beta.
  intros _ s'' (E0 & h' & _ & Ep). split; [done|]. intros b Hb. unfold disk_block. rewrite Ep, Hsb.
  fold (dblock (apply (rec_writes (start L) (apply (take k (commit_writes V L)) (vdisk V)) ++
    [(start L, h')]) (apply (take k (commit_writes V L)) (vdisk V))) b).
  rewrite H4 by done. by case_decide.
Qed.

(** C7: crash atomicity.  [commit] writes the transaction's blocks to the log,
    the header, the home locations and the cleared header; after it every home
    block has its new content on the disk.  If the machine stops after any [k] of
    these block writes, starting the kernel again ([binit] and [initlog]) leaves
    on the disk either the blocks as they were before the transaction, when the
    header was not written yet, or all of the transaction's blocks. *)
Theorem commit_atomic s V L sb pid : lrep s V L -> ready V L -> 0 < lh_n L ->
  logstart sb = start L ->
  wp commit (fun _ s' => exists W,
    writes (bio s') = writes (bio s) ++ W /\
    (forall b, ~ in_log L b -> disk_block (bio s') b = new_block V L b) /\
    lh_n (log s') = 0 /\
    forall k, wp (boot_log (ldev L) sb) (fun _ s'' => lh_n (log s'') = 0 /\
        forall b, ~ in_log L b -> disk_block (bio s'') b =
          if decide (k <= Z.to_nat (lh_n L))%nat then old_block V b else new_block V L b)
      (reboot (apply (take k W) (platter (bio s))) pid)) s.
Proof.
  intros R Hr Hpos Hsb. eapply wp_mono; [by apply commit_ok|]. cbn beta.
  intros _ s' (V' & R' & Hw & Hd & _). destruct R as [[l R] _]. destruct R' as [[l' R'] HL'].
  destruct (rp_rest _ _ _ _ R) as (P1 & P2 & _). destruct (rp_rest _ _ _ _ R') as (P1' & P2' & _).
  exists (commit_writes V L). split; [congruence|]. split; [|split].
  - intros b Hb. unfold disk_block. rewrite P1', Hd.
    rewrite <- (final_disk V L Hr b Hb). unfold commit_writes. by rewrite apply_app, apply_cons.
  - by rewrite HL'.
  - intros k. rewrite P1. apply crash_boot; [done|apply (rp_dev _ _ _ _ R)|done].
Qed.

(** ** [log_write], [begin_op] and [end_op] *)

Lemma l_acquire s V L k (Q : unit -> lstate -> Prop) : lrep s V L -> ~ bio_lock k ->
  k ∉ vheld V -> (forall s', lrep s' (v_held ({[k]} ∪ vheld V) V) L -> Q tt s') ->
  wp (acquire k) Q s.
Proof.
  intros [R E] Hk Hn HQ. assert (held (bio s) = vheld V) as Eh.
  { destruct R as [l R]. apply (rp_rest _ _ _ _ R). }
  apply wp_acquire; cbn [held lstate_locks]; rewrite Eh; [done|]. apply HQ. split; [|done].
  apply rep_set_held; [done|]. intros j Hj. pose proof (rep_held_free _ _ _ _ R Hj). set_solver.
Qed.

Lemma l_release s V L k (Q : unit -> lstate -> Prop) : lrep s V L -> k ∈ vheld V ->
  (forall s', lrep s' (v_held (vheld V ∖ {[k]}) V) L -> Q tt s') -> wp (release k) Q s.
Proof.
  intros [R E] Hn HQ. assert (held (bio s) = vheld V) as Eh.
  { destruct R as [l R]. apply (rp_rest _ _ _ _ R). }
  apply wp_release; cbn [held lstate_locks]; rewrite Eh; [done|]. apply HQ. split; [|done].
  apply rep_set_held; [done|]. intros j Hj. pose proof (rep_held_free _ _ _ _ R Hj). set_solver.
Qed.

Lemma log_lock_other : ~ bio_lock LOG_LOCK.
Proof. unfold bio_lock, LOG_LOCK, BCACHE_LOCK, NBUF, MAXOPBLOCKS. lia. Qed.

(** The view after an [acquire]/[release] pair. *)
Lemma v_held_back V x k : k ∉ vheld V ->
  view_eq (v_held (({[k]} ∪ vheld V) ∖ {[k]}) (v_held x V)) V.
Proof. intros Hk. rewrite held_acq_rel by done. by split. Qed.

Definition add_block (bno : Z) (L : logst) : logst :=
  if decide (bno ∈ logged L) then L else set_n (lh_n L + 1) (set_block (lh_n L) bno L).

Lemma find_logged_spec bno bs n i : (n <= length bs)%nat ->
  let r := find_logged bno bs n i in
  if decide (bno ∈ take n bs) then bs !! Z.to_nat (r - i) = Some bno /\ i <= r < i + Z.of_nat n
  else r = i + Z.of_nat n.
Proof.
  revert n i; induction bs as [|x bs IH]; intros [|n] i Hn; cbn [find_logged take length] in *;
    try (rewrite decide_False by set_solver; lia).
  destruct (x =? bno) eqn:E; to_prop.
  - subst. rewrite decide_True by set_solver. rewrite Z.sub_diag. split; [done|lia].
  - specialize (IH n (i + 1) ltac:(lia)). cbn zeta in IH. case_decide as Hin.
    + rewrite decide_True by set_solver. destruct IH as [IH1 IH2]. split; [|lia].
      replace (Z.to_nat (find_logged bno bs n (i + 1) - i))
        with (S (Z.to_nat (find_logged bno bs n (i + 1) - (i + 1)))) by lia. done.
    + rewrite decide_False by set_solver. lia.
Qed.

(** What [log_write] does within its limits: the block joins the transaction
    once, and is pinned when it joins. *)
Lemma log_write_ok s V L n b : lrep s V L -> vlock V n = Some b -> LOG_LOCK ∉ vheld V ->
  0 <= lh_n L < LOGSIZE -> lh_n L < size L - 1 -> length (lh_block L) = Z.to_nat LOGSIZE ->
  1 <= outstanding L -> vrefs V n + 1 < 2 ^ 32 ->
  wp (log_write b) (fun _ s' =>
    lrep s' (if decide (n ∈ logged L) then V else v_pin n 1 V) (add_block n L)) s.
Proof.
  intros R Hl Hh Hn Hs Hlen Ho Hm. unfold log_write.
  apply wp_bind, (l_acquire s V L); [done|apply log_lock_other|done|]. intros s1 R1.
  apply wp_bind, (l_getlog id _ _ L _ R1). cbn [id].
  assert ((LOGSIZE <=? lh_n L) || (size L - 1 <=? lh_n L) = false) as ->
    by (apply orb_false_iff; rewrite !Z.leb_gt; lia).
  assert ((outstanding L <? 1) = false) as -> by (apply Z.ltb_ge; lia).
  apply wp_bind, wp_gets. destruct (rep_buf _ _ _ n b (proj1 R1) Hl) as (_ & -> & _).
  assert (Z.to_nat (lh_n L) <= length (lh_block L))%nat as Hle by lia.
  pose proof (find_logged_spec n (lh_block L) (Z.to_nat (lh_n L)) 0 Hle) as Hi. cbn zeta in Hi.
  set (i := find_logged _ _ _ _) in *. fold (logged L) in Hi.
  apply wp_bind, (l_setlog _ _ _ _ _ R1); [done|]. intros s2 R2.
  unfold add_block. case_decide as Hin.
  - destruct Hi as [Hi1 Hi2]. assert ((i =? lh_n L) = false) as -> by (apply Z.eqb_neq; lia).
    rewrite Z.sub_0_r in Hi1. apply wp_bind, wp_ret.
    apply (l_release _ _ _ _ _ R2); [cbn; set_solver|]. intros s3 R3.
    replace (set_block i n L) with L in R3.
    + eapply lrep_eq; [exact R3|]. by apply v_held_back.
    + destruct L. unfold set_block. cbn in *. by rewrite list_insert_id.
  - assert (i = lh_n L) as -> by lia. rewrite Z.eqb_refl. cbn [mwhen].
    apply wp_bind, wp_bind, (l_bpin _ _ _ n b _ R2); [done|done|]. intros s3 R3.
    apply (l_setlog _ _ _ _ _ R3); [done|]. intros s4 R4.
    apply (l_release _ _ _ _ _ R4); [cbn; set_solver|]. intros s5 R5.
    rewrite i32_id in R5 by (unfold LOGSIZE, MAXOPBLOCKS in *; lia).
    eapply lrep_eq; [exact R5|]. cbn. rewrite held_acq_rel by done. by split.
Qed.

Definition begin_ok (L : logst) : bool :=
  (committing L =? 0) && (lh_n L + (outstanding L + 1) * MAXOPBLOCKS <=? LOGSIZE).

(** [begin_op] admits the operation when its reservation fits, and sleeps
    otherwise. *)
Lemma begin_op_ok s V L : lrep s V L -> LOG_LOCK ∉ vheld V -> 0 <= outstanding L < 2 ^ 31 - 1 ->
  if begin_ok L then wp begin_op (fun _ s' => lrep s' V (set_outstanding (outstanding L + 1) L)) s
  else exists s', begin_op s = Block s'.
Proof.
  intros R Hh Ho. destruct (begin_ok L) eqn:E; unfold begin_ok in E.
  - unfold begin_op. apply wp_bind, (l_acquire s V L); [done|apply log_lock_other|done|]. intros s1 R1.
    apply wp_bind, (l_getlog id _ _ L _ R1). cbn [id]. to_prop.
    assert (negb (committing L =? 0) = false) as -> by (rewrite negb_false_iff; by apply Z.eqb_eq).
    assert ((LOGSIZE <? lh_n L + (outstanding L + 1) * MAXOPBLOCKS) = false) as -> by (apply Z.ltb_ge; lia).
    apply wp_bind, (l_setlog _ _ _ _ _ R1); [done|]. intros s2 R2.
    apply (l_release _ _ _ _ _ R2); [cbn; set_solver|]. intros s3 R3.
    rewrite i32_id in R3 by lia. eapply lrep_eq; [exact R3|]. by apply v_held_back.
  - assert (wp (acquire LOG_LOCK) (fun _ s1 => log s1 = L) s) as Ha.
    { apply (l_acquire s V L); [done|apply log_lock_other|done|]. by intros s' [_ ?]. }
    apply wp_exists in Ha as ([] & s1 & Ea & EL). unfold begin_op. unfold mbind, M_bind. rewrite Ea.
    unfold gets. rewrite EL. destruct (committing L =? 0) eqn:E1; cbn [negb andb] in *; [|by eexists].
    to_prop. assert ((LOGSIZE <? lh_n L + (outstanding L + 1) * MAXOPBLOCKS) = true) as -> by (apply Z.ltb_lt; lia).
    by eexists.
Qed.

(** [end_op] of an operation that is not the last one. *)
Lemma end_op_more s V L : lrep s V L -> LOG_LOCK ∉ vheld V -> 1 < outstanding L < 2 ^ 31 ->
  committing L = 0 ->
  wp end_op (fun _ s' => lrep s' V (set_outstanding (outstanding L - 1) L)) s.
Proof.
  intros R Hh Ho Hc. unfold end_op, end_op_leave. apply wp_bind, wp_bind, (l_acquire s V L); [done|apply log_lock_other|done|].
  intros s1 R1. apply wp_bind, (l_getlog id _ _ L _ R1). cbn [id].
  apply wp_bind, (l_setlog _ _ _ _ _ R1); [done|]. intros s2 R2. rewrite i32_id in R2 by lia.
  apply wp_bind, (l_getlog id _ _ _ _ R2). cbn [id committing outstanding set_outstanding].
  rewrite Hc. cbn [Z.eqb negb]. assert ((outstanding L - 1 =? 0) = false) as -> by (apply Z.eqb_neq; lia).
  apply wp_bind, wp_ret, wp_bind, (l_release _ _ _ _ _ R2); [cbn; set_solver|]. intros s3 R3.
  apply wp_ret, wp_ret. eapply lrep_eq; [exact R3|]. by apply v_held_back.
Qed.

(** [commit] of any transaction, the empty one included. *)
Lemma commit_done s V L : lrep s V L -> ready V L ->
  wp commit (fun _ s' => exists V', lrep s' V' (set_n 0 L) /\ vlock V' = vlock V /\
    vheld V' = vheld V /\ (0 < lh_n L -> vwrites V' = vwrites V ++ commit_writes V L) /\
    (forall x, ~ in_log L x -> vcont V' x = vcont V x) /\
    (forall x, ~ in_log L x -> dblock (vdisk V') x = new_block V L x)) s.
Proof.
  intros R Hr. destruct (rd_n _ _ Hr) as [Hn _]. destruct (decide (lh_n L = 0)) as [H0|H0].
  - unfold commit. apply wp_bind, (l_getlog lh_n _ _ _ _ R). rewrite H0. apply wp_ret. exists V.
    split; [by destruct L; cbn in *; subst|]. do 2 (split; [done|]). split; [lia|]. split; [done|]. intros x _.
    unfold new_block, logged. by rewrite H0.
  - eapply wp_mono; [apply commit_ok; [done..|lia]|]. cbn beta.
    intros _ s' (V' & R' & Hw & Hd & E1 & E2 & E3 & _). exists V'. repeat (split; [done|]).
    intros x Hx. rewrite Hd, <- (final_disk V L Hr x Hx). unfold commit_writes.
    by rewrite apply_app, apply_cons.
Qed.

(** The last [end_op] commits: the log is empty again, all of the transaction is
    on the disk. *)
Lemma end_op_last s V L : lrep s V L -> LOG_LOCK ∉ vheld V -> outstanding L = 1 ->
  committing L = 0 -> ready V L ->
  wp end_op (fun _ s' => exists V', lrep s' V' (set_n 0 (set_outstanding 0 L)) /\
    vlock V' = vlock V /\ (0 < lh_n L -> vwrites V' = vwrites V ++ commit_writes V L) /\
    (forall x, ~ in_log L x -> vcont V' x = vcont V x) /\
    (forall x, ~ in_log L x -> dblock (vdisk V') x = new_block V L x)) s.
Proof.
  intros R Hh Ho Hc Hr. unfold end_op, end_op_leave. apply wp_bind, wp_bind, (l_acquire s V L); [done|apply log_lock_other|done|].
  intros s1 R1. apply wp_bind, (l_getlog id _ _ L _ R1). cbn [id].
  apply wp_bind, (l_setlog _ _ _ _ _ R1); [done|]. intros s2 R2. rewrite Ho in R2. change (i32 (1 - 1)) with 0 in R2.
  apply wp_bind, (l_getlog id _ _ _ _ R2). cbn [id committing outstanding set_outstanding].
  rewrite Hc. cbn [Z.eqb negb]. apply wp_bind, (l_setlog _ _ _ _ _ R2); [done|]. intros s3 R3.
  apply wp_bind, (l_release _ _ _ _ _ R3); [cbn; set_solver|]. intros s4 R4. apply wp_ret. unfold end_op_commit. cbn [mwhen].
  eapply lrep_eq in R4; [|by apply v_held_back]. set (L1 := set_committing 1 (set_outstanding 0 L)) in *.
  assert (ready V L1) as Hr1 by by destruct Hr.
  apply wp_bind. eapply (wp_mono _ (fun _ s' => exists V', lrep s' V' (set_n 0 L1) /\ vlock V' = vlock V /\
    vheld V' = vheld V /\ (0 < lh_n L -> vwrites V' = vwrites V ++ commit_writes V L) /\
    (forall x, ~ in_log L x -> vcont V' x = vcont V x) /\
    (forall x, ~ in_log L x -> dblock (vdisk V') x = new_block V L x))).
  - exact (commit_done s4 V L1 R4 Hr1).
  - intros _ s5 (V' & R5 & E1 & E2 & Ew & E3 & E4).
    apply wp_bind, (l_acquire _ _ _ _ _ R5); [apply log_lock_other|by rewrite E2|]. intros s6 R6.
    apply wp_bind, (l_setlog _ _ _ _ _ R6); [done|]. intros s7 R7.
    apply wp_bind, wp_ret, (l_release _ _ _ _ _ R7); [cbn; set_solver|]. intros s8 R8.
    exists V'. split; [|done]. eapply lrep_eq in R8; [|apply v_held_back; by rewrite E2].
    unfold L1 in R8. destruct L; cbn in *. subst. exact R8.
Qed.

(** ** Concurrent operations

    The operations in progress, each with the number of blocks it has added to the transaction;
    they run the functions of [log.c] in any order, one critical section of [log.lock] at a time.
    The only discipline is the one [log.c] asks of its callers: an operation is between its
    [begin_op] and its [end_op] when it calls [log_write], and adds at most MAXOPBLOCKS blocks.
    [busy] tells that the last operation is in its commit; anything else the kernel does leaves
    [struct log] alone. *)
Module Ops.
Definition ops := list Z.
Record sys := mkSys { sy : lstate; op : ops; busy : bool }.

Inductive step : sys -> sys -> Prop :=
| st_begin s o c s' : begin_op s = Ret tt s' ->
    step (mkSys s o c) (mkSys s' (0 :: o) c)
| st_write s o1 u o2 c b s' : log_write b s = Ret tt s' ->
    let u' := u + (lh_n (log s') - lh_n (log s)) in u' <= MAXOPBLOCKS ->
    step (mkSys s (o1 ++ u :: o2) c) (mkSys s' (o1 ++ u' :: o2) c)
| st_leave s o1 u o2 c d s' : end_op_leave s = Ret d s' ->
    step (mkSys s (o1 ++ u :: o2) c) (mkSys s' (o1 ++ o2) (c || d))
| st_commit s o s' : end_op_commit s = Ret tt s' ->
    step (mkSys s o true) (mkSys s' o false)
| st_other s o c s' : log s' = log s ->
    step (mkSys s o c) (mkSys s' o c).

(** What can happen after the start of the kernel on the disk [d]. *)
Inductive reachable (dv : Z) (sb : superblock) (d : gmap Z block) (pid : Z) : sys -> Prop :=
| re_boot s : boot_log dv sb (reboot d pid) = Ret tt s -> reachable dv sb d pid (mkSys s [] false)
| re_step x y : reachable dv sb d pid x -> step x y -> reachable dv sb d pid y.

Definition budget (o : ops) : Z := foldr (fun u a => (MAXOPBLOCKS - u) + a) 0 o.

Lemma budget_cons u o : budget (u :: o) = MAXOPBLOCKS - u + budget o.
Proof. done. Qed.
Lemma budget_app o1 o2 : budget (o1 ++ o2) = budget o1 + budget o2.
Proof. induction o1 as [|u o1 IH]; [done|]. cbn [app]. rewrite !budget_cons, IH. lia. Qed.

(** What is logged and what may still be logged fits in the log. *)
Record inv (sz : Z) (x : sys) : Prop := {
  iv_room : lh_n (log (sy x)) + budget (op x) <= LOGSIZE;
  iv_n : 0 <= lh_n (log (sy x));
  iv_out : outstanding (log (sy x)) = Z.of_nat (length (op x)) /\ Z.of_nat (length (op x)) * MAXOPBLOCKS <= LOGSIZE;
  iv_used : Forall (fun u => 0 <= u <= MAXOPBLOCKS) (op x);
  iv_log : size (log (sy x)) = sz /\ length (lh_block (log (sy x))) = Z.to_nat LOGSIZE;
  iv_busy : if busy x then committing (log (sy x)) <> 0 /\ op x = [] else committing (log (sy x)) = 0;
  iv_nodup : NoDup (logged (log (sy x)));
}.

Lemma budget_bounds o : Forall (fun u => 0 <= u <= MAXOPBLOCKS) o ->
  0 <= budget o <= Z.of_nat (length o) * MAXOPBLOCKS.
Proof.
  induction 1 as [|u o Hu Ho IH]; [done|]. rewrite budget_cons. cbn [length].
  unfold MAXOPBLOCKS in *. lia.
Qed.

Lemma logged_add n L : 0 <= lh_n L < LOGSIZE -> length (lh_block L) = Z.to_nat LOGSIZE ->
  n ∉ logged L -> logged (add_block n L) = logged L ++ [n] /\ lh_n (add_block n L) = lh_n L + 1.
Proof.
  intros Hn Hl Hin. unfold add_block. rewrite decide_False by done. split; [|done].
  unfold logged. cbn [lh_n lh_block set_n set_block]. rewrite Z2Nat.inj_add by lia.
  rewrite Nat.add_1_r. rewrite (take_S_r _ _ n) by (rewrite list_lookup_insert_eq by lia; done).
  by rewrite take_insert_ge by lia.
Qed.

(** *** What the functions do to [struct log] when they return *)

(** [m] leaves [struct log] as it is. *)
Definition keeps {A} (m : M lstate A) : Prop := forall s, rets m (fun _ s' => log s' = log s) s.

Lemma keeps_onbio {A} (m : M bstate A) : keeps (onbio m).
Proof. intros s. by apply rets_zoom. Qed.
Lemma keeps_acquire lk : keeps (acquire lk).
Proof. intros s. by apply rets_zoom. Qed.
Lemma keeps_release lk : keeps (release lk).
Proof. intros s. by apply rets_zoom. Qed.
Lemma keeps_gets {A} (f : lstate -> A) : keeps (gets f).
Proof. done. Qed.
Lemma keeps_the {A} (o : option A) : keeps (the o).
Proof. by destruct o. Qed.
Lemma keeps_bind {A B} (m : M lstate A) (k : A -> M lstate B) : keeps m -> (forall a, keeps (k a)) -> keeps (m ≫= k).
Proof.
  intros Hm Hk s. apply goes_bind. eapply goes_mono; [apply Hm|]. cbn beta. intros a s1 E.
  eapply goes_mono; [apply Hk|]. cbn beta. by intros b s2 ->.
Qed.
Lemma keeps_for n i (body : Z -> M lstate unit) : (forall i, keeps (body i)) -> keeps (for_ n i 1 body).
Proof.
  intros Hb s. apply (goes_for body (fun s' => log s' = log s)); [|done]. intros j s1 E.
  eapply goes_mono; [apply Hb|]. cbn beta. by intros _ s2 ->.
Qed.
Lemma keeps_when c (m : M lstate unit) : keeps m -> keeps (mwhen c m).
Proof. by destruct c. Qed.

Create HintDb keeps.
#[local] Hint Resolve keeps_onbio keeps_acquire keeps_release keeps_gets keeps_the keeps_bind keeps_for keeps_when : keeps.

Lemma install_keeps rec : keeps (install_trans rec).
Proof. unfold install_trans, lblock, bdata, set_bdata. eauto 40 with keeps. Qed.
Lemma write_log_keeps : keeps write_log.
Proof. unfold write_log, lblock, bdata, set_bdata. eauto 40 with keeps. Qed.
Lemma write_head_keeps : keeps write_head.
Proof. unfold write_head, lblock, bdata, set_bdata. eauto 40 with keeps. Qed.

(** Running a step that leaves the log alone. *)
Lemma rets_keep {A B} (m : M lstate A) (k : A -> M lstate B) (Q : B -> lstate -> Prop) s : keeps m ->
  (forall a s', log s' = log s -> rets (k a) Q s') -> rets (m ≫= k) Q s.
Proof. intros Hm Hk. apply goes_bind. eapply goes_mono; [apply Hm|]. cbn beta. eauto. Qed.

Lemma rets_setlog {B} f (k : unit -> M lstate B) (Q : B -> lstate -> Prop) s :
  (forall s', log s' = f (log s) -> rets (k tt) Q s') -> rets (setlog f ≫= k) Q s.
Proof. intros Hk. apply goes_bind, goes_modify. by apply Hk. Qed.

Lemma commit_log s : rets commit (fun _ s' => log s' = if 0 <? lh_n (log s) then set_n 0 (log s) else log s) s.
Proof.
  unfold commit. apply goes_bind, goes_gets. destruct (0 <? lh_n (log s)); [|done]. cbn [mwhen].
  apply rets_keep; [apply write_log_keeps|]. intros _ s1 E1. apply rets_keep; [apply write_head_keeps|]. intros _ s2 E2.
  apply rets_keep; [apply install_keeps|]. intros _ s3 E3. apply rets_setlog. intros s4 E4.
  eapply goes_mono; [apply write_head_keeps|]. cbn beta. intros _ s5 ->. congruence.
Qed.

Lemma begin_log s : rets begin_op (fun _ s' => begin_ok (log s) = true /\
  log s' = set_outstanding (i32 (outstanding (log s) + 1)) (log s)) s.
Proof.
  unfold begin_op. apply rets_keep; [apply keeps_acquire|]. intros _ s1 E1. apply goes_bind, goes_gets. rewrite E1. unfold begin_ok.
  destruct (committing (log s) =? 0); [|done]. cbn [negb andb].
  destruct (LOGSIZE <? lh_n (log s) + (outstanding (log s) + 1) * MAXOPBLOCKS) eqn:El; [done|]. to_prop. apply rets_setlog. intros s2 E2.
  eapply goes_mono; [apply keeps_release|]. cbn beta. intros _ s3 ->. rewrite E1 in E2. split; [by apply Z.leb_le|done].
Qed.

Lemma leave_log s : rets end_op_leave (fun d s' => let L := set_outstanding (i32 (outstanding (log s) - 1)) (log s) in
  committing (log s) = 0 /\ d = (outstanding L =? 0) /\ log s' = if d then set_committing 1 L else L) s.
Proof.
  unfold end_op_leave. apply rets_keep; [apply keeps_acquire|]. intros _ s1 E1. apply goes_bind, goes_gets. rewrite E1.
  apply rets_setlog. intros s2 E2. rewrite E1 in E2. apply goes_bind, goes_gets. rewrite E2. cbn [committing outstanding set_outstanding].
  destruct (committing (log s) =? 0) eqn:Ec; [|done]. cbn [negb]. to_prop. destruct (i32 (outstanding (log s) - 1) =? 0).
  - apply rets_setlog. intros s3 E3. apply rets_keep; [apply keeps_release|]. intros _ s4 E4. apply goes_ret.
    split; [done|]. split; [done|]. by rewrite E4, E3, E2.
  - apply rets_keep; [done|]. intros _ s3 E3. apply rets_keep; [apply keeps_release|]. intros _ s4 E4. apply goes_ret.
    split; [done|]. split; [done|]. by rewrite E4, E3, E2.
Qed.

Lemma end_commit_log s : rets end_op_commit (fun _ s' =>
  log s' = set_committing 0 (if 0 <? lh_n (log s) then set_n 0 (log s) else log s)) s.
Proof.
  unfold end_op_commit. apply goes_bind. eapply goes_mono; [apply commit_log|]. cbn beta. intros _ s1 E1.
  apply rets_keep; [apply keeps_acquire|]. intros _ s2 E2. apply rets_setlog. intros s3 E3. apply rets_keep; [done|]. intros _ s4 E4.
  eapply goes_mono; [apply keeps_release|]. cbn beta. intros _ s5 ->. by rewrite E4, E3, E2, E1.
Qed.

(** [log_write] within its limits adds a block that is not in the log yet. *)
Lemma log_write_log b s : 0 <= lh_n (log s) -> length (lh_block (log s)) = Z.to_nat LOGSIZE ->
  rets (log_write b) (fun _ s' => lh_n (log s) < LOGSIZE /\ exists n, log s' = add_block n (log s)) s.
Proof.
  intros Hn Hlen. unfold log_write. apply rets_keep; [apply keeps_acquire|]. intros _ s1 E1. apply goes_bind, goes_gets. rewrite E1.
  set (L := log s) in *. destruct ((LOGSIZE <=? lh_n L) || (size L - 1 <=? lh_n L)) eqn:Eb; [done|]. to_prop.
  destruct (outstanding L <? 1); [done|]. apply goes_bind, goes_gets. set (bno := blockno _).
  assert (Z.to_nat (lh_n L) <= length (lh_block L))%nat as Hle by lia.
  pose proof (find_logged_spec bno (lh_block L) (Z.to_nat (lh_n L)) 0 Hle) as Hi. cbn zeta in Hi.
  set (i := find_logged _ _ _ _) in *. fold (logged L) in Hi. apply rets_setlog. intros s2 E2. rewrite E1 in E2.
  unfold add_block. destruct (decide (bno ∈ logged L)) as [Hin|Hin].
  - destruct Hi as [Hi1 Hi2]. rewrite Z.sub_0_r in Hi1. rewrite (proj2 (Z.eqb_neq i (lh_n L))) by lia.
    apply rets_keep; [done|]. intros _ s3 E3. eapply goes_mono; [apply keeps_release|]. cbn beta. intros _ s4 E4. split; [done|]. exists bno.
    rewrite decide_True by done. rewrite E4, E3, E2. destruct L. unfold set_block. cbn in *. by rewrite list_insert_id.
  - assert (i = lh_n L) as -> by lia. rewrite Z.eqb_refl. cbn [mwhen]. apply goes_bind.
    apply rets_keep; [apply keeps_onbio|]. intros _ s3 E3. apply goes_modify. eapply goes_mono; [apply keeps_release|]. cbn beta.
    intros _ s4 E4. split; [done|]. exists bno. rewrite decide_False by done. rewrite E4. cbn [log]. rewrite E3, E2.
    by rewrite i32_id by (unfold LOGSIZE, MAXOPBLOCKS in *; lia).
Qed.

(** *** The invariant *)

(** A start of the kernel leaves an empty log of the size the superblock gives. *)
Lemma boot_inv dv sb d pid s : boot_log dv sb (reboot d pid) = Ret tt s -> inv (nlog sb) (mkSys s [] false).
Proof.
  set (I := fun s => size (log s) = nlog sb /\ length (lh_block (log s)) = Z.to_nat LOGSIZE /\ outstanding (log s) = 0 /\ committing (log s) = 0).
  cut (rets (boot_log dv sb) (fun _ s' => I s' /\ lh_n (log s') = 0) (reboot d pid)).
  { intros Hb E. destruct (rets_Ret _ _ _ _ _ Hb E) as ((I1 & I2 & I3 & I4) & I5). clear E Hb. split; cbn [sy op busy]; rewrite ?I3, ?I4, ?I5; try done.
    - unfold logged. rewrite I5. constructor. }
  unfold boot_log. apply rets_keep; [apply keeps_onbio|]. intros _ s1 E1. unfold initlog. change (BSIZE <=? sizeof_logheader) with false.
  apply rets_keep; [done|]. intros _ s1' E1'. rewrite E1 in E1'. apply rets_setlog. intros s2 E2. rewrite E1' in E2. assert (I s2) as I2 by (unfold I; rewrite E2; cbn [size lh_block outstanding committing reboot log log0]; rewrite length_replicate; done).
  clear E1 E1' E2. unfold recover_from_log, read_head. apply goes_bind.
  apply rets_keep; [apply keeps_gets|]. intros l s3 E3. apply rets_keep; [apply keeps_onbio|]. intros b s4 E4.
  apply rets_keep; [apply keeps_gets|]. intros h s5 E5. apply rets_setlog. intros s6 E6.
  assert (I s6) as I6 by (unfold I; rewrite E6, E5, E4, E3; exact I2). clear E3 E4 E5 E6. apply goes_bind.
  eapply goes_mono; [apply (goes_for _ I); [|exact I6]|].
  { intros i s7 I7. apply goes_bind, goes_gets. destruct (_ <? _); [|done]. apply goes_modify. unfold I in *. cbn. by rewrite length_insert. }
  cbn beta. intros _ s7 I7. eapply goes_mono; [apply keeps_onbio|]. cbn beta. intros _ s8 E8.
  apply rets_keep; [apply install_keeps|]. intros _ s9 E9. apply rets_setlog. intros s10 E10.
  eapply goes_mono; [apply write_head_keeps|]. cbn beta. intros _ s11 E11. unfold I. rewrite E11, E10, E9, E8. cbn. done.
Qed.

Lemma step_inv sz x y : inv sz x -> step x y -> inv sz y.
Proof.
  intros [I1 I2 [I3 I9] I4 (I5 & I6) I7 I8] Hs. destruct Hs as [s o c s' E|s o1 u o2 c b s' E u' Hu|s o1 u o2 c d s' E|s o s' E|s o c s' E];
    cbn [sy op busy] in *.
  - destruct (rets_Ret _ _ _ _ _ (begin_log s) E) as [Hb El]. unfold begin_ok in Hb. to_prop. pose proof (budget_bounds o I4) as Hbb.
    rewrite i32_id in El by (unfold LOGSIZE, MAXOPBLOCKS in *; lia).
    split; cbn [sy op busy]; rewrite ?El, ?Forall_cons, ?budget_cons; cbn [lh_n outstanding set_outstanding size committing lh_block length]; try done; [lia|lia|].
    destruct c; [by destruct I7|done].
  - destruct (rets_Ret _ _ _ _ _ (log_write_log b s I2 I6) E) as (Hlt & n & El). unfold u' in *. clear u'. rewrite El in *.
    rewrite ?budget_app, ?budget_cons, ?Forall_app, ?Forall_cons in *. destruct I4 as (F1 & F2 & F3).
    pose proof (budget_bounds _ F1). pose proof (budget_bounds _ F3). rewrite length_app in I3, I9. cbn [length] in I3, I9.
    assert (c = false) as -> by (destruct c; [destruct I7 as [_ Hnil]; by destruct o1|done]).
    destruct (decide (n ∈ logged (log s))) as [Hin|Hin].
    + assert (add_block n (log s) = log s) as Ea by (unfold add_block; by rewrite decide_True).
      rewrite Ea in *. split; cbn [sy op busy]; rewrite ?El, ?budget_app, ?budget_cons, ?Forall_app, ?Forall_cons, ?length_app; try done; [lia|]. split; [done|]. split; [lia|done].
    + destruct (logged_add n (log s)) as [EL En]; [lia|done|done|]. rewrite En in *.
      split; cbn [sy op busy]; rewrite ?El, ?budget_app, ?budget_cons, ?Forall_app, ?Forall_cons, ?length_app, ?En, ?EL; try (lia || done).
      * unfold add_block. by rewrite decide_False by done.
      * split; [done|]. split; [lia|done].
      * unfold add_block. rewrite decide_False by done. cbn. by rewrite length_insert.
      * unfold add_block. by rewrite decide_False by done.
      * apply NoDup_app. split; [done|]. split; [set_solver|]. apply NoDup_singleton.
  - destruct (rets_Ret _ _ _ _ _ (leave_log s) E) as (Hc & Hd & El). cbn zeta in *.
    rewrite ?budget_app, ?budget_cons, ?Forall_app, ?Forall_cons in *. destruct I4 as (F1 & F2 & F3). rewrite length_app in I3, I9. cbn [length] in I3, I9.
    pose proof (budget_bounds _ F1). pose proof (budget_bounds _ F3). cbn [outstanding set_outstanding] in Hd.
    assert (c = false) as -> by (destruct c; [by destruct I7|done]). cbn [orb].
    assert (lh_n (log s') = lh_n (log s) /\ outstanding (log s') = outstanding (log s) - 1 /\ size (log s') = sz /\ lh_block (log s') = lh_block (log s)) as (G1 & G2 & G3 & G4).
    { rewrite El. assert (i32 (outstanding (log s) - 1) = outstanding (log s) - 1) as -> by (apply i32_id; unfold LOGSIZE, MAXOPBLOCKS in *; lia).
      by destruct d. }
    split; cbn [sy op busy]; rewrite ?budget_app, ?Forall_app, ?length_app, ?G1, ?G2, ?G4; try (lia || done).
    + rewrite El. rewrite i32_id in Hd by (unfold LOGSIZE, MAXOPBLOCKS in *; lia). destruct d; [|done]. split; [done|]. symmetry in Hd. to_prop.
      destruct o1, o2; done || (cbn in I3; lia).
    + unfold logged. by rewrite G1, G4.
  - pose proof (rets_Ret _ _ _ _ _ (end_commit_log s) E) as El. destruct I7 as [I7 ->]. cbn [budget foldr] in *.
    destruct (0 <? lh_n (log s)) eqn:En; to_prop; split; cbn [sy op busy]; rewrite ?El; try done.
    + constructor.
  - rewrite <- E in *. split; done.
Qed.

Lemma ops_inv dv sb d pid x : reachable dv sb d pid x -> inv (nlog sb) x.
Proof. induction 1 as [s Hb|x y _ IH Hs]; [by apply boot_inv in Hb|by eapply step_inv]. Qed.
End Ops.

(** C8: the log has room.  After a start on any disk, however operations run [begin_op],
    [log_write] and [end_op] (the code of [log.c], interleaved at [log.lock], with other
    processes running during a commit), an operation that has added fewer than MAXOPBLOCKS blocks
    can call [log_write] again: on a disk whose superblock gives the log LOGSIZE data blocks and a
    header ([LOGSIZE < nlog sb]) the call returns, without the panics "too big a transaction" and
    "log_write outside of trans", the block is in the transaction exactly once, and its buffer is
    pinned when it is added.  The buffer is one the caller has locked ([vlock]). *)
Theorem log_has_room dv sb d pid s o1 u o2 c V n b :
  Ops.reachable dv sb d pid (Ops.mkSys s (o1 ++ u :: o2) c) -> u < MAXOPBLOCKS -> LOGSIZE < nlog sb ->
  lrep s V (log s) -> vlock V n = Some b -> LOG_LOCK ∉ vheld V -> vrefs V n + 1 < 2 ^ 32 ->
  wp (log_write b) (fun _ s' =>
    n ∈ logged (log s') /\ NoDup (logged (log s')) /\
    lh_n (log s') <= LOGSIZE /\
    lrep s' (if decide (n ∈ logged (log s)) then V else v_pin n 1 V) (add_block n (log s))) s.
Proof.
  intros Hre Hu Hsz R Hl Hh Hm. pose proof (Ops.ops_inv _ _ _ _ _ Hre) as [I1 I2 [I3 _] I4 (I5 & I6) I7 I8].
  cbn [Ops.sy Ops.op Ops.busy] in *. rewrite Ops.budget_app, Ops.budget_cons in I1.
  apply Forall_app in I4 as [F1 [F2 F3]%Forall_cons].
  pose proof (Ops.budget_bounds _ F1). pose proof (Ops.budget_bounds _ F3). set (L := log s) in *.
  eapply wp_mono; [apply log_write_ok; try done; [lia|lia|rewrite I3, length_app; cbn; lia]|].
  cbn beta. intros _ s' R'. assert (log s' = add_block n L) as -> by apply R'.
  destruct (decide (n ∈ logged L)) as [Hin|Hin].
  - unfold add_block in *. rewrite !decide_True in * by done. repeat (split; [done|]). split; [lia|done].
  - destruct (Ops.logged_add n L) as [-> ->]; [lia|done|done|]. split; [set_solver|].
    split; [|split; [lia|done]].
    apply NoDup_app. split; [done|]. split; [set_solver|]. apply NoDup_singleton.
Qed.

(** ** A run: one operation logs block 50 on a freshly started system *)

Definition demo_log : logst := mkLog 2 40 1 0 1 0 (replicate (Z.to_nat LOGSIZE) 0).
Definition demo_sb : superblock := mkSb 0 1000 900 200 40 2 40 60.

Lemma demo_boot L : ldev L = 1 -> exists s, lrep s (v_boot ∅ 1) L.
Proof.
  intros E. destruct (proj1 (wp_exists _ _ _) (binit_ok 1 ∅ 1 ltac:(done))) as (u & b & _ & Rb).
  exists (mkL b L). by split; [rewrite E|].
Qed.

(** The start on an empty disk, and the operation's [begin_op]. *)
Definition booted_log : logst := mkLog 2 40 0 0 1 0 (replicate (Z.to_nat LOGSIZE) 0).
Lemma demo_starts : exists s, boot_log 1 demo_sb (reboot ∅ 1) = Ret tt s /\ log s = booted_log.
Proof.
  assert (wp (boot_log 1 demo_sb) (fun _ s => log s = booted_log) (reboot ∅ 1)) as H by (vm_compute; reflexivity).
  destruct (proj1 (wp_exists _ _ _) H) as ([] & s & E & El). exists s. split; [exact E|exact El].
Qed.

Lemma demo_begins : exists s1 s2, log s1 = booted_log /\ begin_op s1 = Ret tt s2 /\ log s2 = demo_log.
Proof.
  destruct (demo_boot booted_log eq_refl) as [s1 R1]. assert (0 <= outstanding booted_log < 2 ^ 31 - 1) as Ho by (cbn; lia).
  pose proof (begin_op_ok s1 _ _ R1 ltac:(cbn; set_solver) Ho) as Hb. change (begin_ok booted_log) with true in Hb. cbn match in Hb.
  destruct (proj1 (wp_exists _ _ _) Hb) as ([] & s2 & E2 & R2). exists s1, s2. split; [apply R1|]. split; [exact E2|apply R2].
Qed.

Lemma demo_reachable s : log s = demo_log -> Ops.reachable 1 demo_sb ∅ 1 (Ops.mkSys s [0] false).
Proof.
  intros El. destruct demo_begins as (s1 & s2 & E1 & E2 & E3). destruct demo_starts as (s0 & E0 & El0).
  apply (Ops.re_step _ _ _ _ (Ops.mkSys s2 [0] false)); [|apply Ops.st_other; congruence].
  apply (Ops.re_step _ _ _ _ (Ops.mkSys s1 [] false)); [|exact (Ops.st_begin s1 [] false s2 E2)].
  apply (Ops.re_step _ _ _ _ (Ops.mkSys s0 [] false)); [|apply Ops.st_other; congruence].
  exact (Ops.re_boot _ _ _ _ s0 E0).
Qed.

Lemma demo_read : exists s b, lrep s (v_read b 50 (v_boot ∅ 1)) demo_log.
Proof.
  destruct (demo_boot demo_log eq_refl) as [s R].
  assert (wp (onbio (bread (ldev demo_log) 50))
    (fun b s' => lrep s' (v_read b 50 (v_boot ∅ 1)) demo_log) s) as Hw.
  { eapply l_bread; [exact R|done| |done|done]. right. cbn. unfold NBUF, MAXOPBLOCKS. lia. }
  apply wp_exists in Hw as (b & s' & _ & R'). by exists s', b.
Qed.

Lemma log_has_room_witness : exists s b, wp (log_write b) (fun _ s' => 50 ∈ logged (log s')) s.
Proof.
  destruct demo_read as (s & b & R). assert (log s = demo_log) as El by apply R. exists s, b.
  eapply wp_mono; [apply (log_has_room 1 demo_sb ∅ 1 s [] 0 [] false
    (v_read b 50 (v_boot ∅ 1)) 50 b (demo_reachable s El)); try done; by rewrite El|].
  cbn beta. by intros _ s' [H _].
Defined.

Lemma demo_txn : exists s V, lrep s V (add_block 50 demo_log) /\ ready V (add_block 50 demo_log).
Proof.
  destruct demo_read as (s & b & R).
  assert (wp (log_write b;; onbio (brelse b)) (fun _ s' =>
    lrep s' (v_relse 50 (v_pin 50 1 (v_read b 50 (v_boot ∅ 1)))) (add_block 50 demo_log)) s) as Hw.
  { apply wp_bind. eapply wp_mono; [apply (log_write_ok s _ demo_log 50 b R); try done; by vs|].
    cbn beta. intros _ s1 R1. change (logged demo_log) with (@nil Z) in R1.
    rewrite decide_False in R1 by set_solver.
    apply (l_brelse s1 _ _ 50 b _ R1); [by vs|by vs|by vs|done]. }
  apply wp_exists in Hw as (u & s' & _ & R'). eexists s', _. split; [exact R'|].
  assert (forall x, in_log (add_block 50 demo_log) x -> x <> 50) as Hne.
  { intros x Hx. unfold in_log in Hx. change (start (add_block 50 demo_log)) with 2 in Hx.
    unfold LOGSIZE, MAXOPBLOCKS in Hx. lia. }
  split.
  - change (lh_n (add_block 50 demo_log)) with 1. split; [unfold LOGSIZE, MAXOPBLOCKS; lia|done].
  - apply NoDup_singleton.
  - change (logged (add_block 50 demo_log)) with [50]. intros x ->%list_elem_of_singleton.
    split; [intros Hx; by apply (Hne 50 Hx)|]. split; [lia|]. vs. split; [done|]. cbn. lia.
  - intros x Hx%Hne. vs. done.
  - vm_compute. lia.
  - by vm_compute.
Qed.

Lemma commit_atomic_witness : exists s, wp commit (fun _ s' => lh_n (log s') = 0) s.
Proof.
  destruct demo_txn as (s & V & R & Hr). exists s.
  eapply wp_mono; [apply (commit_atomic s V _ demo_sb 1 R Hr); [by vm_compute|done]|].
  cbn beta. intros _ s' (W & _ & _ & H & _). exact H.
Defined.
