(* ===== verification/Kmem.v ===== *)
(** * Physical memory: allocator state, page list and swap slots

    The state of [kernel/kalloc.c] and the page-replacement part of
    [kernel/vm.c]: the free list threaded through physical memory, [pages[]], the
    circular page list from [lru_head] to [lru_tail], and the bitmap of swap
    slots.  Pointers to [struct page] are indices of [pages[]], [None] being
    NULL.  [kalloc] itself is in [Vm.v], because it evicts pages. *)

From Stdlib Require Import ZArith Lia.
From stdpp Require Import base numbers list gmap strings sets.
From S2P Require Import Prelude CString Riscv Spinlock Locks Dll Bio.

(** Addresses fixed by the linker script: the end of the kernel's image and of
    its text, and the trampoline page. *)
Class Linker := { kend : Z; etext : Z; trampoline : Z }.

(** [struct page] of [riscv.h] *)
Record page := mkPage {
  p_next : option Z; p_prev : option Z; p_pagetable : Z; p_vaddr : Z;
  in_lru : Z; is_page_table : Z }.
Definition page0 : page := mkPage None None 0 0 0 0.

Record kst := mkK {
  mem : memory; (* physical memory *)
  freelist : Z; (* kmem.freelist *)
  pages : gmap Z page; (* pages[] *)
  lru_head : option Z; (* oldest page, as an index of pages[] *)
  lru_tail : option Z; (* most recently added page *)
  clock_hand : option Z; (* the clock algorithm's hand *)
  num_lru_pages : Z; (* num_lru_pages *)
  swap_bitmap : list Z; (* swap_bitmap[] *)
  swap_out_count : Z; (* swap_out_count *)
  swap_in_count : Z; (* swap_in_count *)
  nr_sectors_read : Z; (* fs.c *)
  nr_sectors_write : Z; (* fs.c *)
  cur_pagetable : Z; (* myproc()->pagetable *)
  kbio : bstate; (* the buffer cache, which swapping uses *)
}.

Definition set_mem (x : memory) (s : kst) : kst :=
  mkK x (freelist s) (pages s) (lru_head s) (lru_tail s) (clock_hand s) (num_lru_pages s) (swap_bitmap s) (swap_out_count s) (swap_in_count s) (nr_sectors_read s) (nr_sectors_write s) (cur_pagetable s) (kbio s).
Definition set_freelist (x : Z) (s : kst) : kst :=
  mkK (mem s) x (pages s) (lru_head s) (lru_tail s) (clock_hand s) (num_lru_pages s) (swap_bitmap s) (swap_out_count s) (swap_in_count s) (nr_sectors_read s) (nr_sectors_write s) (cur_pagetable s) (kbio s).
Definition set_pages (x : gmap Z page) (s : kst) : kst :=
  mkK (mem s) (freelist s) x (lru_head s) (lru_tail s) (clock_hand s) (num_lru_pages s) (swap_bitmap s) (swap_out_count s) (swap_in_count s) (nr_sectors_read s) (nr_sectors_write s) (cur_pagetable s) (kbio s).
Definition set_lru_head (x : option Z) (s : kst) : kst :=
  mkK (mem s) (freelist s) (pages s) x (lru_tail s) (clock_hand s) (num_lru_pages s) (swap_bitmap s) (swap_out_count s) (swap_in_count s) (nr_sectors_read s) (nr_sectors_write s) (cur_pagetable s) (kbio s).
Definition set_lru_tail (x : option Z) (s : kst) : kst :=
  mkK (mem s) (freelist s) (pages s) (lru_head s) x (clock_hand s) (num_lru_pages s) (swap_bitmap s) (swap_out_count s) (swap_in_count s) (nr_sectors_read s) (nr_sectors_write s) (cur_pagetable s) (kbio s).
Definition set_clock_hand (x : option Z) (s : kst) : kst :=
  mkK (mem s) (freelist s) (pages s) (lru_head s) (lru_tail s) x (num_lru_pages s) (swap_bitmap s) (swap_out_count s) (swap_in_count s) (nr_sectors_read s) (nr_sectors_write s) (cur_pagetable s) (kbio s).
Definition set_num_lru_pages (x : Z) (s : kst) : kst :=
  mkK (mem s) (freelist s) (pages s) (lru_head s) (lru_tail s) (clock_hand s) x (swap_bitmap s) (swap_out_count s) (swap_in_count s) (nr_sectors_read s) (nr_sectors_write s) (cur_pagetable s) (kbio s).
Definition set_swap_bitmap (x : list Z) (s : kst) : kst :=
  mkK (mem s) (freelist s) (pages s) (lru_head s) (lru_tail s) (clock_hand s) (num_lru_pages s) x (swap_out_count s) (swap_in_count s) (nr_sectors_read s) (nr_sectors_write s) (cur_pagetable s) (kbio s).
Definition set_swap_out_count (x : Z) (s : kst) : kst :=
  mkK (mem s) (freelist s) (pages s) (lru_head s) (lru_tail s) (clock_hand s) (num_lru_pages s) (swap_bitmap s) x (swap_in_count s) (nr_sectors_read s) (nr_sectors_write s) (cur_pagetable s) (kbio s).
Definition set_swap_in_count (x : Z) (s : kst) : kst :=
  mkK (mem s) (freelist s) (pages s) (lru_head s) (lru_tail s) (clock_hand s) (num_lru_pages s) (swap_bitmap s) (swap_out_count s) x (nr_sectors_read s) (nr_sectors_write s) (cur_pagetable s) (kbio s).
Definition set_nr_sectors_read (x : Z) (s : kst) : kst :=
  mkK (mem s) (freelist s) (pages s) (lru_head s) (lru_tail s) (clock_hand s) (num_lru_pages s) (swap_bitmap s) (swap_out_count s) (swap_in_count s) x (nr_sectors_write s) (cur_pagetable s) (kbio s).
Definition set_nr_sectors_write (x : Z) (s : kst) : kst :=
  mkK (mem s) (freelist s) (pages s) (lru_head s) (lru_tail s) (clock_hand s) (num_lru_pages s) (swap_bitmap s) (swap_out_count s) (swap_in_count s) (nr_sectors_read s) x (cur_pagetable s) (kbio s).
Definition set_cur_pagetable (x : Z) (s : kst) : kst :=
  mkK (mem s) (freelist s) (pages s) (lru_head s) (lru_tail s) (clock_hand s) (num_lru_pages s) (swap_bitmap s) (swap_out_count s) (swap_in_count s) (nr_sectors_read s) (nr_sectors_write s) x (kbio s).
Definition set_kbio (x : bstate) (s : kst) : kst :=
  mkK (mem s) (freelist s) (pages s) (lru_head s) (lru_tail s) (clock_hand s) (num_lru_pages s) (swap_bitmap s) (swap_out_count s) (swap_in_count s) (nr_sectors_read s) (nr_sectors_write s) (cur_pagetable s) x.

#[export] #[refine] Instance kst_locks : HasLocks kst := {
  held := fun s => held (kbio s);
  set_held := fun x s => set_kbio (set_held x (kbio s)) s;
  curpid := fun s => curpid (kbio s);
}.
Proof. all: by intros; try destruct s as [? ? ? ? ? ? ? ? ? ? ? ? ? []]. Defined.

Definition KMEM_LOCK : Z := 1.
Definition PAGE_LOCK : Z := 2.
Definition LRU_LOCK : Z := 3.
Definition SWAP_LOCK : Z := 4.
Definition PTE_LOCK : Z := 5.
Definition STATS_LOCK : Z := 6.

Definition page_of (s : kst) (i : Z) : page := default page0 (pages s !! i).
Definition set_page (i : Z) (p : page) (s : kst) : kst := set_pages (<[i := p]> (pages s)) s.
Definition upd_page (i : Z) (f : page -> page) : M kst unit :=
  modify (fun s => set_page i (f (page_of s i)) s).

Definition pg_next v p := mkPage v (p_prev p) (p_pagetable p) (p_vaddr p) (in_lru p) (is_page_table p).
Definition pg_prev v p := mkPage (p_next p) v (p_pagetable p) (p_vaddr p) (in_lru p) (is_page_table p).
Definition pg_pagetable v p := mkPage (p_next p) (p_prev p) v (p_vaddr p) (in_lru p) (is_page_table p).
Definition pg_vaddr v p := mkPage (p_next p) (p_prev p) (p_pagetable p) v (in_lru p) (is_page_table p).
Definition pg_in_lru v p := mkPage (p_next p) (p_prev p) (p_pagetable p) (p_vaddr p) v (is_page_table p).
Definition pg_is_pt v p := mkPage (p_next p) (p_prev p) (p_pagetable p) (p_vaddr p) (in_lru p) v.

Definition oeqb (a b : option Z) : bool := bool_decide (a = b).

(** ** Page list: [check_lru_consistency], [lru_add], [lru_remove] of [vm.c] *)

(** The body of the outermost [if (!p)] releases [lru_lock] only when the count
    is not zero: the statement after the inner [if] is its body. *)
Definition check_lru_consistency : M kst unit :=
  acquire PAGE_LOCK;;
  acquire LRU_LOCK;;
  h ← gets lru_head;
  match h with
  | None =>
      n ← gets num_lru_pages;
      mwhen (negb (n =? 0)) (release LRU_LOCK);;
      release PAGE_LOCK
  | Some p0 =>
      loop (Z.to_nat 100001) (fun '(count, p) =>
        let count := count + 1 in
        if 100000 <? count then mret (inr tt) else
        q ← gets (fun s => p_next (page_of s p));
        hd ← gets lru_head;
        match q with
        | Some p' => if oeqb q hd then mret (inr tt) else mret (inl (count, p'))
        | None => mret (inr tt)
        end) (0, p0);;
      release LRU_LOCK;;
      release PAGE_LOCK
  end.

(** Setting the page's fields, taking it out of the list when it is on it, and
    putting it at the tail. *)
Definition lru_unlink (p : Z) : M kst unit :=
  h ← gets lru_head;
  pn ← gets (fun s => p_next (page_of s p));
  pp ← gets (fun s => p_prev (page_of s p));
  mwhen (negb (oeqb h (Some p) && oeqb pn None && oeqb pp None)) (
    match pp with Some q => upd_page q (pg_next pn) | None => mret tt end;;
    pn ← gets (fun s => p_next (page_of s p));
    pp ← gets (fun s => p_prev (page_of s p));
    match pn with Some q => upd_page q (pg_prev pp) | None => mret tt end;;
    h ← gets lru_head;
    mwhen (oeqb h (Some p)) (n ← gets (fun s => p_next (page_of s p)); modify (set_lru_head n));;
    t ← gets lru_tail;
    mwhen (oeqb t (Some p)) (q ← gets (fun s => p_prev (page_of s p)); modify (set_lru_tail q));;
    upd_page p (fun x => pg_prev None (pg_next None x));;
    upd_page p (pg_in_lru 0);;
    modify (fun s => set_num_lru_pages (i32 (num_lru_pages s - 1)) s)).

Definition lru_append (p : Z) (was_in_list : bool) : M kst unit :=
  h ← gets lru_head;
  match h with
  | None =>
      modify (fun s => set_lru_head (Some p) (set_lru_tail (Some p) s));;
      upd_page p (fun x => pg_next (Some p) (pg_prev (Some p) x));;
      upd_page p (pg_in_lru 1);;
      modify (set_num_lru_pages 1)
  | Some hd =>
      t ← gets lru_tail;
      upd_page p (pg_next h);;
      upd_page p (pg_prev t);;
      upd_page hd (pg_prev (Some p));;
      tl ← the t;
      upd_page tl (pg_next (Some p));;
      modify (set_lru_tail (Some p));;
      upd_page p (pg_in_lru 1);;
      mwhen (negb was_in_list) (modify (fun s => set_num_lru_pages (i32 (num_lru_pages s + 1)) s))
  end.

Definition lru_add_body (p pagetable vaddr : Z) : M kst unit :=
  upd_page p (pg_pagetable pagetable);;
  upd_page p (pg_vaddr vaddr);;
  was_in_list ← gets (fun s => negb (in_lru (page_of s p) =? 0));
  mwhen was_in_list (lru_unlink p);;
  lru_append p was_in_list.

Definition lru_add (p pagetable vaddr : Z) (use_lock : bool) : M kst unit :=
  if (p <? 0) || (PHYSTOP / PGSIZE <=? p) then mret tt else
  if MAXVA <=? vaddr then mret tt else
  ispt ← gets (fun s => is_page_table (page_of s p));
  if negb (ispt =? 0) then mret tt else
  mwhen use_lock (acquire PAGE_LOCK;; acquire LRU_LOCK);;
  lru_add_body p pagetable vaddr;;
  mwhen use_lock (release LRU_LOCK;; release PAGE_LOCK);;
  mwhen use_lock check_lru_consistency.

(** Taking a page off the list: only the ends are relinked. *)
Definition lru_unlink_ends (p : Z) : M kst unit :=
  h ← gets lru_head;
  t ← gets lru_tail;
  (if oeqb h (Some p) && oeqb h t then
     modify (fun s => set_lru_head None (set_lru_tail None s))
   else
     mwhen (oeqb h (Some p)) (n ← gets (fun s => p_next (page_of s p)); modify (set_lru_head n));;
     mwhen (oeqb t (Some p)) (n ← gets (fun s => p_prev (page_of s p)); modify (set_lru_tail n));;
     h ← gets lru_head;
     t ← gets lru_tail;
     match h with Some q => upd_page q (pg_prev t) | None => mret tt end;;
     match t with Some q => upd_page q (pg_next h) | None => mret tt end);;
  upd_page p (fun x => pg_prev None (pg_next None x));;
  upd_page p (pg_in_lru 0);;
  upd_page p (pg_vaddr 0);;
  modify (fun s => set_num_lru_pages (i32 (num_lru_pages s - 1)) s).

Definition lru_remove_body (p : Z) : M kst unit :=
  on_list ← gets (fun s => negb (in_lru (page_of s p) =? 0));
  mwhen on_list (lru_unlink_ends p).

Definition lru_remove (p : Z) (use_lock : bool) : M kst unit :=
  mwhen use_lock (acquire PAGE_LOCK;; acquire LRU_LOCK);;
  lru_remove_body p;;
  mwhen use_lock (release LRU_LOCK;; release PAGE_LOCK);;
  mwhen use_lock check_lru_consistency.

(** ** Swap slots: [init_swapbitmap], [allocswap], [freeswap] of [vm.c] *)

Definition MAX_SWAP_PAGES : Z := SWAPMAX / PGSIZE.

Definition init_swapbitmap : M kst unit :=
  for_ (Z.to_nat MAX_SWAP_PAGES) 0 1 (fun i =>
    modify (fun s => set_swap_bitmap (<[Z.to_nat i := 0]> (swap_bitmap s)) s)).

(** The scan for the first free slot. *)
Fixpoint first_free (bm : list Z) (i : Z) : option Z :=
  match bm with
  | [] => None
  | b :: r => if b =? 0 then Some i else first_free r (i + 1)
  end.

Definition allocswap : M kst Z :=
  acquire SWAP_LOCK;;
  bm ← gets swap_bitmap;
  match first_free bm 0 with
  | Some i =>
      modify (fun s => set_swap_bitmap (<[Z.to_nat i := 1]> (swap_bitmap s)) s);;
      release SWAP_LOCK;;
      mret i
  | None =>
      release SWAP_LOCK;;
      panic "allocswap: out of swap space"
  end.

Definition freeswap (blkno : Z) : M kst unit :=
  if (blkno <? 0) || (MAX_SWAP_PAGES <=? blkno) then panic "freeswap: invalid blkno" else
  acquire SWAP_LOCK;;
  modify (fun s => set_swap_bitmap (<[Z.to_nat blkno := 0]> (swap_bitmap s)) s);;
  release SWAP_LOCK.

(** ** [kfree], [freerange], [kinit] of [kalloc.c] *)

Section kalloc_c.
Context `{Linker}.

Definition kfree (pa : Z) : M kst unit :=
  if negb (pa mod PGSIZE =? 0) || (pa <? kend) || (PHYSTOP <=? pa) then panic "kfree" else
  modify (fun s => set_mem (memset (mem s) pa 1 PGSIZE) s);;
  acquire KMEM_LOCK;;
  modify (fun s => set_mem (wr64 (mem s) pa (freelist s)) s);;
  modify (set_freelist pa);;
  release KMEM_LOCK.

(** [p + PGSIZE <= pa_end] is the loop's test. *)
Definition freerange (pa_start pa_end : Z) : M kst unit :=
  let p := PGROUNDUP pa_start in
  for_ (Z.to_nat ((pa_end - p) / PGSIZE)) p PGSIZE kfree.

Definition kinit : M kst unit :=
  initlock KMEM_LOCK;;
  initlock PAGE_LOCK;;
  initlock LRU_LOCK;;
  initlock SWAP_LOCK;;
  init_swapbitmap;;
  for_ (Z.to_nat (PHYSTOP / PGSIZE)) 0 1 (fun i =>
    upd_page i (pg_in_lru 0);; upd_page i (pg_is_pt 0);; upd_page i (pg_vaddr 0));;
  freerange kend PHYSTOP.
End kalloc_c.

(** ** The free list *)

(** [l] is the list of free pages threaded through memory from [f]. *)
Fixpoint flist (m : memory) (f : Z) (l : list Z) : Prop :=
  match l with
  | [] => f = 0
  | p :: r => f = p /\ p <> 0 /\ flist m (rd64 m p) r
  end.

Definition in_page (p a : Z) : Prop := p <= a < p + PGSIZE.
Definition same_outside (p : Z) (m m' : memory) : Prop :=
  forall a, ~ in_page p a -> rd8 m' a = rd8 m a.

Lemma flist_ext m m' f l : (forall p, p ∈ l -> rd64 m' p = rd64 m p) -> flist m f l -> flist m' f l.
Proof.
  revert f; induction l as [|p l IH]; intros f Hm; cbn [flist]; [done|]. intros (-> & H0 & Hf).
  split; [done|]. split; [done|]. rewrite Hm by set_solver. apply IH; [set_solver|done].
Qed.

Lemma same_outside_rd64 p m m' q : same_outside p m m' -> q mod PGSIZE = 0 -> p mod PGSIZE = 0 ->
  q <> p -> forall i, 0 <= i -> i + 8 <= PGSIZE -> rd64 m' (q + i) = rd64 m (q + i).
Proof.
  intros Hs Hq Hp Hne i Hi Hi'. apply rd64_ext. intros a Ha. apply Hs. unfold in_page, PGSIZE in *.
  intros Hin. assert (q = p); [|done]. dlia.
Qed.

Lemma same_outside_trans p m1 m2 m3 : same_outside p m1 m2 -> same_outside p m2 m3 -> same_outside p m1 m3.
Proof. intros H1 H2 a Ha. rewrite H2, H1 by done. done. Qed.

Lemma memset_outside m p c : same_outside p m (memset m p c PGSIZE).
Proof.
  intros a Ha. rewrite rd8_memset by (unfold PGSIZE; lia). unfold in_page in Ha.
  by rewrite decide_False.
Qed.

Lemma wr64_outside m p i v : 0 <= i -> i + 8 <= PGSIZE -> same_outside p m (wr64 m (p + i) v).
Proof.
  intros Hi Hi' a Ha. unfold in_page in Ha. unfold wr64. apply rd8_wrn_ne. lia.
Qed.

#[local] Opaque memset wr64 rd64.

Section free_pages.
Context `{Linker}.

Definition is_page (p : Z) : Prop := p mod PGSIZE = 0 /\ kend <= p < PHYSTOP /\ 0 < p.

Record free_ok (s : kst) (l : list Z) : Prop := {
  fr_list : flist (mem s) (freelist s) l;
  fr_nodup : NoDup l;
  fr_page : forall p, p ∈ l -> is_page p;
  fr_lock : KMEM_LOCK ∉ held s;
}.

Lemma is_page_bound p : is_page p -> 0 <= p < 2 ^ 40.
Proof. unfold is_page, PHYSTOP, KERNBASE. lia. Qed.

Lemma flist_bound m f l : flist m f l -> (forall p, p ∈ l -> is_page p) -> 0 <= f < 2 ^ 64.
Proof.
  destruct l as [|q l]; cbn [flist]; [lia|]. intros (-> & _) Hp.
  pose proof (is_page_bound q (Hp q (list_elem_of_here _ _))). lia.
Qed.

(** A free list survives changes inside a page that is not on it. *)
Lemma flist_outside p m m' f l : same_outside p m m' -> p mod PGSIZE = 0 -> p ∉ l ->
  (forall q, q ∈ l -> is_page q) -> flist m f l -> flist m' f l.
Proof.
  intros Ho Hal Hn Hp. apply flist_ext. intros q Hq. destruct (Hp q Hq) as (Hqa & _).
  assert (q <> p) as Hne by congruence.
  pose proof (same_outside_rd64 p m m' q Ho Hqa Hal Hne 0) as E.
  rewrite Z.add_0_r in E. apply E; unfold PGSIZE; lia.
Qed.

Definition kfree_mem (m : memory) (pa f : Z) : memory := wr64 (memset m pa 1 PGSIZE) pa f.

Lemma kfree_mem_outside m pa f : same_outside pa m (kfree_mem m pa f).
Proof.
  eapply same_outside_trans; [apply memset_outside|].
  pose proof (wr64_outside (memset m pa 1 PGSIZE) pa 0 f) as Hw. rewrite Z.add_0_r in Hw.
  apply Hw; unfold PGSIZE; lia.
Qed.

Lemma rd64_kfree_mem m pa f : 0 <= f < 2 ^ 64 -> rd64 (kfree_mem m pa f) pa = f.
Proof. apply rd64_wr64_eq. Qed.

(** [kfree] puts the page at the head of the list; only the page's own bytes
    change. *)
Lemma kfree_ok s l pa : free_ok s l -> is_page pa -> pa ∉ l ->
  wp (kfree pa) (fun _ s' => free_ok s' (pa :: l) /\ same_outside pa (mem s) (mem s') /\
    s' = set_freelist pa (set_mem (mem s') s)) s.
Proof.
  intros [Hl Hd Hp Hk] Hpa Hn. pose proof Hpa as (Hal & Hr & H0). unfold kfree.
  assert (negb (pa mod PGSIZE =? 0) || (pa <? kend) || (PHYSTOP <=? pa) = false) as ->.
  { rewrite Hal. cbn. apply orb_false_iff. rewrite Z.ltb_ge, Z.leb_gt. lia. }
  apply wp_bind, wp_modify, wp_bind, wp_acquire; [done|].
  apply wp_bind, wp_modify, wp_bind, wp_modify. apply wp_release; [cbn; set_solver|].
  match goal with |- _ /\ _ /\ ?x = _ => set (s' := x) end.
  assert (s' = set_freelist pa (set_mem (kfree_mem (mem s) pa (freelist s)) s)) as ->.
  { unfold s', kfree_mem. transitivity (set_freelist pa (set_mem (kfree_mem (mem s) pa (freelist s))
      (set_held (({[KMEM_LOCK]} ∪ held s) ∖ {[KMEM_LOCK]}) s)));
      [done|]. by rewrite held_acq_rel, set_held_held. }
  pose proof (kfree_mem_outside (mem s) pa (freelist s)) as Ho.
  split; [|split; [exact Ho|done]]. split; [| | |exact Hk]; cbn [mem freelist set_freelist set_mem].
  - cbn [flist]. split; [done|]. split; [lia|].
    rewrite rd64_kfree_mem by (by eapply flist_bound). by eapply flist_outside.
  - by constructor.
  - intros q [->|Hq]%elem_of_cons; [done|by apply Hp].
Qed.
Definition page_run (p : Z) (k : Z) : list Z := (fun i => p + i * PGSIZE) <$> seqZ 0 k.

Lemma elem_page_run p k q : q ∈ page_run p k <-> exists i, q = p + i * PGSIZE /\ 0 <= i < k.
Proof.
  unfold page_run. rewrite list_elem_of_fmap. split; intros (i & Hi & Hr); exists i.
  - apply elem_of_seqZ in Hr. lia.
  - rewrite elem_of_seqZ. lia.
Qed.

Lemma page_run_S p k : 0 <= k -> page_run p (k + 1) = page_run p k ++ [p + k * PGSIZE].
Proof. intros. unfold page_run. rewrite seqZ_app, fmap_app by lia. by rewrite Z.add_0_l. Qed.

(** [freerange] on an allocator whose list is empty. *)
Lemma freerange_ok s a b : free_ok s [] -> 0 <= a < 2 ^ 63 -> kend <= a -> 0 < a -> b <= PHYSTOP ->
  wp (freerange a b) (fun _ s' =>
    free_ok s' (reverse (page_run (PGROUNDUP a) (Z.max 0 ((b - PGROUNDUP a) / PGSIZE)))) /\
    s' = set_freelist (freelist s') (set_mem (mem s') s)) s.
Proof.
  intros Hf Ha Hk H0 Hb. unfold freerange.
  assert (PGROUNDUP a mod PGSIZE = 0 /\ a <= PGROUNDUP a) as [Hal Hge].
  { rewrite PGROUNDUP_spec by done. unfold PGSIZE. dlia. }
  set (p := PGROUNDUP a) in *. set (n := Z.to_nat ((b - p) / PGSIZE)).
  replace (Z.max 0 ((b - p) / PGSIZE)) with (Z.of_nat n) by lia.
  apply (wp_for _ (fun k s' => free_ok s' (reverse (page_run p k)) /\
    s' = set_freelist (freelist s') (set_mem (mem s') s))).
  - split; [done|by destruct s].
  - intros k s' Hkn [Hf' Es]. pose proof Hf' as [_ Hd' Hp' _].
    assert (is_page (p + k * PGSIZE)) as Hpk.
    { split; [|split]; unfold n, PGSIZE in *; [|split; [lia|]|lia]; dlia. }
    eapply wp_mono; [apply kfree_ok; [exact Hf'|done|]|].
    + rewrite elem_of_reverse, elem_page_run. intros (i & E & Hi). unfold PGSIZE in E. lia.
    + cbn beta. intros _ s2 (Hf2 & _ & Es2). split.
      * by rewrite page_run_S, reverse_snoc by lia.
      * rewrite Es2, Es. done.
Qed.

Definition fresh_page (x : page) : Prop := in_lru x = 0 /\ is_page_table x = 0 /\ p_vaddr x = 0.

Lemma init_swapbitmap_ok s : length (swap_bitmap s) = Z.to_nat MAX_SWAP_PAGES ->
  wp init_swapbitmap (fun _ s' =>
    s' = set_swap_bitmap (replicate (Z.to_nat MAX_SWAP_PAGES) 0) s) s.
Proof.
  intros Hl. unfold init_swapbitmap.
  eapply wp_mono; [apply (wp_for _ (fun k s' => s' = set_swap_bitmap
    (replicate (Z.to_nat k) 0 ++ drop (Z.to_nat k) (swap_bitmap s)) s))|].
  - by destruct s.
  - intros k s' Hk ->. rewrite Z.add_0_l, Z.mul_1_r. apply wp_modify.
    cbn [swap_bitmap set_swap_bitmap]. unfold set_swap_bitmap. cbn. f_equal.
    rewrite Z2Nat.inj_add by lia. rewrite Nat.add_1_r.
    destruct (lookup_lt_is_Some_2 (swap_bitmap s) (Z.to_nat k)) as [x Hx]; [lia|].
    rewrite insert_app_r_alt by (rewrite length_replicate; lia). rewrite length_replicate, Nat.sub_diag.
    rewrite (drop_S _ x) by done. by rewrite replicate_S_end, <- app_assoc.
  - cbn beta. intros _ s' ->. rewrite Z2Nat.id by done. by rewrite drop_ge, app_nil_r by lia.
Qed.

(** C23: [kinit] makes every page between the end of the kernel and PHYSTOP
    available, each exactly once; every swap slot is free and no page is on the
    page list. *)
Theorem kinit_spec s : freelist s = 0 -> held s = ∅ -> 0 < kend < 2 ^ 63 ->
  length (swap_bitmap s) = Z.to_nat MAX_SWAP_PAGES ->
  wp kinit (fun _ s' => exists l, free_ok s' l /\
    (forall p, p ∈ l <-> p mod PGSIZE = 0 /\ kend <= p < PHYSTOP) /\
    swap_bitmap s' = replicate (Z.to_nat MAX_SWAP_PAGES) 0 /\
    (forall i, 0 <= i < PHYSTOP / PGSIZE -> fresh_page (page_of s' i)) /\ held s' = ∅) s.
Proof.
  intros Hf Hh Hk Hl. unfold kinit. do 4 apply wp_bind, wp_modify.
  match goal with |- wp _ _ ?x => set (s0 := x) end.
  assert (s0 = s) as ->.
  { unfold s0. assert (forall k, set_held (held s ∖ {[k]}) s = s) as E.
    { intros k. assert (held s ∖ {[k]} = held s) as -> by (rewrite Hh; set_solver).
      apply set_held_held. }
    by rewrite !E. }
  apply wp_bind. eapply wp_mono; [by apply init_swapbitmap_ok|]. cbn beta. intros _ s1 ->.
  set (bm := replicate _ 0).
  apply wp_bind. eapply wp_mono; [apply (wp_for _ (fun k s' => exists ps,
    s' = set_pages ps (set_swap_bitmap bm s) /\
    forall i, 0 <= i < k -> fresh_page (default page0 (ps !! i))))|].
  - exists (pages s). split; [done|lia].
  - intros k s' Hkk (ps & -> & Hps). unfold upd_page. apply wp_bind, wp_modify, wp_bind, wp_modify, wp_modify.
    rewrite Z.add_0_l, Z.mul_1_r. eexists. split; [reflexivity|]. intros i Hi.
    rewrite lookup_insert. case_decide as E.
    + split; [|split]; cbn; unfold page_of; cbn; by rewrite ?lookup_insert_eq.
    + cbn. unfold set_page. cbn. rewrite !lookup_insert_ne by done. apply Hps. lia.
  - cbn beta. intros _ s2 (ps & -> & Hps). rewrite Z2Nat.id in Hps by done.
    eapply wp_mono; [apply freerange_ok; [|lia..|done]|].
    + split; [done|constructor|set_solver|]. change (KMEM_LOCK ∉ held s). rewrite Hh. set_solver.
    + cbn beta. intros _ s3 (Hf3 & Es). eexists. split; [exact Hf3|].
      split; [|rewrite Es; split; [done|split; [exact Hps|exact Hh]]].
      intros p. rewrite elem_of_reverse, elem_page_run. rewrite PGROUNDUP_spec by lia.
      assert (PHYSTOP mod PGSIZE = 0) as Hpt by done.
      split.
      * intros (i & -> & Hi). unfold PGSIZE in *. split; dlia.
      * intros [Hp1 Hp2]. exists ((p - (kend + 4095) / 4096 * 4096) / PGSIZE).
        unfold PGSIZE in *. split; dlia.
Qed.
End free_pages.

(** ** Swap slots *)

Lemma first_free_Some bm i k : first_free bm i = Some k ->
  i <= k < i + Z.of_nat (length bm) /\ bm !! Z.to_nat (k - i) = Some 0 /\
  forall j x, (j < Z.to_nat (k - i))%nat -> bm !! j = Some x -> x <> 0.
Proof.
  revert i; induction bm as [|b bm IH]; intros i; cbn [first_free]; [done|].
  destruct (b =? 0) eqn:E; to_prop.
  - intros [= <-]. subst. rewrite Z.sub_diag. cbn [length]. split; [lia|]. split; [done|lia].
  - intros (H1 & H2 & H3)%IH. cbn [length]. split; [lia|].
    replace (Z.to_nat (k - i)) with (S (Z.to_nat (k - (i + 1)))) by lia. split; [done|].
    intros [|j] x Hj; cbn; [by intros [= <-]|]. apply H3. lia.
Qed.

Lemma first_free_None bm i : first_free bm i = None -> forall x, x ∈ bm -> x <> 0.
Proof.
  revert i; induction bm as [|b bm IH]; intros i; cbn [first_free]; [set_solver|].
  destruct (b =? 0) eqn:E; to_prop; [done|]. intros Hn x [->|Hx]%elem_of_cons; [done|by eapply IH].
Qed.

(** [allocswap] returns the lowest free slot and marks only that one;
    [freeswap] of it restores the bitmap.  With no free slot the kernel panics. *)
Theorem swap_slots s : SWAP_LOCK ∉ held s -> length (swap_bitmap s) = Z.to_nat MAX_SWAP_PAGES ->
  if decide (0 ∈ swap_bitmap s) then
    wp allocswap (fun i s1 => 0 <= i < MAX_SWAP_PAGES /\ swap_bitmap s !! Z.to_nat i = Some 0 /\
      (forall j x, (j < Z.to_nat i)%nat -> swap_bitmap s !! j = Some x -> x <> 0) /\
      s1 = set_swap_bitmap (<[Z.to_nat i := 1]> (swap_bitmap s)) s /\
      wp (freeswap i) (fun _ s2 => s2 = s) s1) s
  else panics allocswap "allocswap: out of swap space" s.
Proof.
  intros Hl Hlen. unfold allocswap. destruct (first_free (swap_bitmap s) 0) as [i|] eqn:E.
  - apply first_free_Some in E as Hi. rewrite Z.sub_0_r in Hi. destruct Hi as (H1 & H2 & H3).
    rewrite decide_True by (by eapply list_elem_of_lookup_2).
    apply wp_bind, wp_acquire; [done|]. apply wp_bind, wp_gets.
    change (swap_bitmap (set_held _ s)) with (swap_bitmap s). rewrite E.
    apply wp_bind, wp_modify, wp_bind, wp_release; [cbn; set_solver|]. apply wp_ret.
    rewrite Hlen in H1. assert (0 <= MAX_SWAP_PAGES) by done.
    split; [lia|]. split; [done|]. split; [done|].
    match goal with |- ?x = ?y /\ _ => assert (x = y) as -> end.
    { transitivity (set_swap_bitmap (<[Z.to_nat i := 1]> (swap_bitmap s))
        (set_held (({[SWAP_LOCK]} ∪ held s) ∖ {[SWAP_LOCK]}) s)); [done|].
      by rewrite held_acq_rel, set_held_held. }
    split; [done|]. unfold freeswap.
    assert ((i <? 0) || (MAX_SWAP_PAGES <=? i) = false) as ->
      by (apply orb_false_iff; rewrite Z.ltb_ge, Z.leb_gt; lia).
    apply wp_bind, wp_acquire; [done|]. apply wp_bind, wp_modify, wp_release; [cbn; set_solver|].
    transitivity (set_swap_bitmap (<[Z.to_nat i := 0]> (<[Z.to_nat i := 1]> (swap_bitmap s)))
        (set_held (({[SWAP_LOCK]} ∪ held s) ∖ {[SWAP_LOCK]}) s)); [done|].
    rewrite held_acq_rel, set_held_held by done. rewrite list_insert_insert_eq, list_insert_id by done.
    by destruct s.
  - rewrite decide_False by (intros Hin; by apply (first_free_None _ _ E 0 Hin)).
    apply panics_bind_r, wp_acquire; [done|]. apply panics_bind_r, wp_gets.
    change (swap_bitmap (set_held _ s)) with (swap_bitmap s). rewrite E.
    apply panics_bind_r, wp_release; [cbn; set_solver|]. done.
Qed.

(** Concrete states. *)
Definition kinit0 : kst :=
  mkK ∅ 0 ∅ None None None 0 (replicate (Z.to_nat MAX_SWAP_PAGES) 7) 0 0 0 0 0 (Bio.boot ∅ 1).

Definition demo_linker : Linker := Build_Linker 2147500000 2147490000 2147480000.

Lemma kinit_spec_witness :
  exists s l, @kinit demo_linker kinit0 = Ret tt s /\ @free_ok demo_linker s l.
Proof.
  pose proof (@kinit_spec demo_linker kinit0 eq_refl eq_refl ltac:(cbn; lia) eq_refl) as Hw.
  revert Hw. generalize (@kinit demo_linker) as m. generalize kinit0 as k. intros k m Hw.
  apply wp_exists in Hw as ([] & s & E & l & Hf & _). by exists s, l.
Defined.

Lemma swap_slots_witness : wp allocswap (fun i _ => i = 1)
  (set_swap_bitmap [1; 0; 0; 0; 0; 0] kinit0).
Proof.
  pose proof (swap_slots (set_swap_bitmap [1; 0; 0; 0; 0; 0] kinit0) ltac:(cbn; set_solver) eq_refl) as Hw.
  rewrite decide_True in Hw by (cbn; set_solver).
  eapply wp_mono; [exact Hw|]. cbn beta. intros i s1 (Hi & Hz & Hlt & _).
  cbn [swap_bitmap set_swap_bitmap] in *.
  assert (i <> 0) by (intros ->; done).
  destruct (decide (i = 1)) as [|Hne]; [done|]. exfalso.
  apply (Hlt 1%nat 0); [lia|done|done].
Defined.
