(* ===== verification/Lru.v ===== *)
(** * The page list

    [lru_add], [lru_remove] and [check_lru_consistency] of [kernel/vm.c] on the
    circular list of user pages from [lru_head] to [lru_tail]. *)

From Stdlib Require Import ZArith Lia.
From stdpp Require Import base numbers list gmap strings sets.
From S2P Require Import Prelude CString Riscv Spinlock Locks Dll Bio Kmem.

Definition pnext (s : kst) (i : Z) : option Z := p_next (page_of s i).
Definition pprev (s : kst) (i : Z) : option Z := p_prev (page_of s i).

(** [l] lists the pages from [lru_head] to [lru_tail]; the last one is linked
    back to the first. *)
Definition ring (s : kst) (l : list Z) : Prop :=
  match l with
  | [] => lru_head s = None /\ lru_tail s = None
  | h :: _ => lru_head s = Some h /\ lru_tail s = last l /\ chain (pnext s) (pprev s) (l ++ [h])
  end.

Record linked_list (s : kst) (l : list Z) : Prop := {
  ll_ring : ring s l;
  ll_nodup : NoDup l;
  ll_flag : forall i, in_lru (page_of s i) <> 0 <-> i ∈ l;
  ll_num : num_lru_pages s = Z.of_nat (length l);
  ll_range : forall i, i ∈ l -> 0 <= i < PHYSTOP / PGSIZE;
}.

(** The list is well formed and its two locks are not held. *)
Definition lru_ok (s : kst) (l : list Z) : Prop :=
  linked_list s l /\ PAGE_LOCK ∉ held s /\ LRU_LOCK ∉ held s.

(** The part of the state the page list does not use. *)
Definition lru_frame (s s' : kst) : Prop :=
  mem s' = mem s /\ freelist s' = freelist s /\ clock_hand s' = clock_hand s /\
  swap_bitmap s' = swap_bitmap s /\ swap_out_count s' = swap_out_count s /\
  swap_in_count s' = swap_in_count s /\ nr_sectors_read s' = nr_sectors_read s /\
  nr_sectors_write s' = nr_sectors_write s /\ cur_pagetable s' = cur_pagetable s /\
  kbio s' = kbio s.

Lemma page_of_set i x s j : page_of (set_page i x s) j = if decide (i = j) then x else page_of s j.
Proof. unfold page_of, set_page. cbn. rewrite lookup_insert. by case_decide. Qed.

Lemma page_of_num n s j : page_of (set_num_lru_pages n s) j = page_of s j.
Proof. done. Qed.
Lemma page_of_head h s j : page_of (set_lru_head h s) j = page_of s j.
Proof. done. Qed.
Lemma page_of_tail h s j : page_of (set_lru_tail h s) j = page_of s j.
Proof. done. Qed.
Lemma page_of_kheld x (s : kst) j : page_of (set_held x s) j = page_of s j.
Proof. done. Qed.
#[export] Hint Rewrite page_of_set page_of_num page_of_head page_of_tail page_of_kheld : lru.

(** Reading the pages after updates. *)
Ltac pages := autorewrite with lru; repeat (case_decide; subst; autorewrite with lru);
  try done; try congruence.

Lemma pnext_set_next i v s x : pnext (set_page i (pg_next v (page_of s i)) s) x = fupd (pnext s) i v x.
Proof. unfold pnext, fupd. rewrite page_of_set. repeat case_decide; subst; done. Qed.
Lemma pprev_set_prev i v s x : pprev (set_page i (pg_prev v (page_of s i)) s) x = fupd (pprev s) i v x.
Proof. unfold pprev, fupd. rewrite page_of_set. repeat case_decide; subst; done. Qed.
Lemma pnext_set_same i y s x : p_next y = p_next (page_of s i) -> pnext (set_page i y s) x = pnext s x.
Proof. intros E. unfold pnext. rewrite page_of_set. case_decide; subst; done. Qed.
Lemma pprev_set_same i y s x : p_prev y = p_prev (page_of s i) -> pprev (set_page i y s) x = pprev s x.
Proof. intros E. unfold pprev. rewrite page_of_set. case_decide; subst; done. Qed.

Lemma range_phys : PHYSTOP / PGSIZE < 2 ^ 30.
Proof. by vm_compute. Qed.

(** ** [check_lru_consistency] *)

Definition held_but (k : Z) (s : kst) : kst := set_held (held s ∖ {[k]}) s.

Lemma set_held_same (x : gset Z) (s : kst) : x = held s -> set_held x s = s.
Proof. intros ->. apply set_held_held. Qed.

Lemma two_locks (x : gset Z) a b : a ∉ x -> b ∉ x -> a <> b ->
  (({[b]} ∪ ({[a]} ∪ x)) ∖ {[b]}) ∖ {[a]} = x.
Proof. set_solver. Qed.

(** On a list that is not empty it returns and changes nothing, however the
    links are: it stops after 100000 steps. *)
Lemma check_lru_ok s h : lru_head s = Some h -> PAGE_LOCK ∉ held s -> LRU_LOCK ∉ held s ->
  wp check_lru_consistency (fun _ s' => s' = s) s.
Proof.
  intros Hh H1 H2. unfold check_lru_consistency.
  apply wp_bind, wp_acquire; [done|]. apply wp_bind, wp_acquire; [cbn; unfold PAGE_LOCK, LRU_LOCK in *; set_solver|].
  set (s1 := set_held _ _). apply wp_bind, wp_gets.
  change (lru_head s1) with (lru_head s). rewrite Hh.
  apply wp_bind. eapply wp_mono; [apply (wp_loop _ (fun cp s' => s' = s1 /\ 0 <= fst cp <= 100000)
    (fun cp _ => Z.to_nat (100000 - fst cp)) (fun _ s' => s' = s1))|].
  - intros [c p] s' [-> Hc]. cbn [fst] in *. destruct (100000 <? c + 1) eqn:E; to_prop.
    + by apply wp_ret.
    + apply wp_bind, wp_gets, wp_bind, wp_gets. destruct (p_next (page_of s1 p)) as [q|]; [|by apply wp_ret].
      destruct (oeqb _ _); apply wp_ret; [done|]. cbn [fst]. split; [split; [done|lia]|lia].
  - cbn [fst]. split; [done|lia].
  - cbn [fst]. lia.
  - cbn beta. intros _ s' ->. apply wp_bind, wp_release; [cbn; set_solver|].
    apply wp_release; [cbn; unfold PAGE_LOCK, LRU_LOCK; set_solver|].
    rewrite set_held_set. unfold s1. rewrite !set_held_set, !held_set.
    apply set_held_same, two_locks; [done..|]. done.
Qed.

(** On an empty list with the count at 0 it returns with [lru_lock] held. *)
Lemma check_lru_leaks s : lru_head s = None -> num_lru_pages s = 0 ->
  PAGE_LOCK ∉ held s -> LRU_LOCK ∉ held s ->
  wp check_lru_consistency (fun _ s' => s' = set_held ({[LRU_LOCK]} ∪ held s) s) s.
Proof.
  intros Hh Hn H1 H2. unfold check_lru_consistency.
  apply wp_bind, wp_acquire; [done|]. apply wp_bind, wp_acquire; [cbn; unfold PAGE_LOCK, LRU_LOCK in *; set_solver|].
  set (s1 := set_held _ (set_held _ s)). apply wp_bind, wp_gets.
  change (lru_head s1) with (lru_head s). rewrite Hh. apply wp_bind, wp_gets.
  change (num_lru_pages s1) with (num_lru_pages s). rewrite Hn. apply wp_bind, wp_ret.
  apply wp_release; [cbn; set_solver|]. unfold s1. rewrite !set_held_set, !held_set.
  replace (_ ∖ {[PAGE_LOCK]}) with ({[LRU_LOCK]} ∪ held s); [done|].
  unfold PAGE_LOCK, LRU_LOCK in *. set_solver.
Qed.

(** ** [lru_add] *)

(** [s'] differs from [s] in the links, the flag, and the count only. *)
Definition links_only (s s' : kst) : Prop :=
  lru_frame s s' /\ forall i, p_pagetable (page_of s' i) = p_pagetable (page_of s i) /\
    p_vaddr (page_of s' i) = p_vaddr (page_of s i) /\
    is_page_table (page_of s' i) = is_page_table (page_of s i).

Lemma ll_flag_snoc s s' l p : (forall i, in_lru (page_of s i) <> 0 <-> i ∈ l) ->
  in_lru (page_of s' p) <> 0 -> (forall i, i <> p -> in_lru (page_of s' i) = in_lru (page_of s i)) ->
  forall i, in_lru (page_of s' i) <> 0 <-> i ∈ l ++ [p].
Proof.
  intros Hf H1 H2 i. rewrite elem_of_app, list_elem_of_singleton.
  destruct (decide (i = p)) as [->|Hi]; [tauto|]. rewrite H2, Hf by done. tauto.
Qed.

Lemma ll_length s l : linked_list s l -> Z.of_nat (length l) <= PHYSTOP / PGSIZE.
Proof.
  intros [_ Hd _ _ Hr].
  assert (length l <= length (seqZ 0 (PHYSTOP / PGSIZE)))%nat as Hle.
  { apply submseteq_length, NoDup_submseteq; [done|]. intros i Hi. apply elem_of_seqZ.
    specialize (Hr i Hi). lia. }
  rewrite length_seqZ in Hle. assert (0 <= PHYSTOP / PGSIZE) by done. lia.
Qed.

Lemma append_ok s l p : linked_list s l -> p ∉ l -> 0 <= p < PHYSTOP / PGSIZE ->
  wp (lru_append p false) (fun _ s' => linked_list s' (l ++ [p]) /\ links_only s s') s.
Proof.
  intros Hll Hp Hpr. pose proof (ll_length s l Hll) as Hlen. pose proof range_phys.
  destruct Hll as [Hr Hd Hf Hn Hb]. unfold lru_append, upd_page. cbn [negb mwhen]. apply wp_bind, wp_gets.
  destruct l as [|h l]; cbn [ring] in Hr.
  - destruct Hr as [-> Ht]. wp_steps. split.
    + split; try done.
      * split; [done|]. split; [done|]. split; [|done]. split; unfold pnext, pprev; pages.
      * apply NoDup_singleton.
      * eapply (ll_flag_snoc s); [done|pages|]. intros i Hi. pages.
      * intros i ->%list_elem_of_singleton. done.
    + split; [done|]. intros i. pages.
  - destruct Hr as (Hh & Ht & Hc). rewrite Hh. destruct (snoc_split l h) as (A & t & EA).
    assert (last (h :: l) = Some t) as Hlast by (rewrite EA; apply last_snoc).
    assert (t ∈ h :: l) as Htl by (rewrite EA; set_solver).
    wp_steps. rewrite Ht, Hlast. apply (wp_the _ t); [done|]. wp_steps.
    split.
    + split; try done.
      * cbn [app ring]. split; [done|]. split; [by rewrite app_comm_cons, last_snoc|].
        replace (h :: (l ++ [p]) ++ [h]) with (A ++ [t; p; h]);
          [|change (A ++ [t; p; h] = (h :: l ++ [p]) ++ [h]); rewrite app_comm_cons, EA, <- !app_assoc; done].
        assert ((h :: l) ++ [h] = A ++ [t; h]) as E1 by (rewrite EA, <- app_assoc; done).
        rewrite E1 in Hc. eapply chain_ext; [apply (chain_insert _ _ A t p h [] Hc)|..]; rewrite <- ?E1.
        -- by rewrite removelast_snoc.
        -- cbn [app tail]. rewrite Permutation_app_comm. done.
        -- set_solver.
        -- intros x. unfold pnext, fupd. pages.
        -- intros x. unfold pprev, fupd. pages.
      * apply NoDup_app. split; [done|]. split; [set_solver|apply NoDup_singleton].
      * eapply (ll_flag_snoc s); [done|pages|]. intros i Hi. pages.
      * cbn. rewrite Hn. rewrite length_app. cbn [length].
        unfold i32. cbn [length] in Hlen. rewrite Z.mod_small by lia. lia.
      * intros i [?| ->%list_elem_of_singleton]%elem_of_app; auto.
    + split; [done|]. intros i. pages.
Qed.

Lemma ll_ext s s' l : linked_list s l -> lru_head s' = lru_head s -> lru_tail s' = lru_tail s ->
  num_lru_pages s' = num_lru_pages s ->
  (forall i, pnext s' i = pnext s i /\ pprev s' i = pprev s i /\
     in_lru (page_of s' i) = in_lru (page_of s i)) -> linked_list s' l.
Proof.
  intros [Hr Hd Hf Hn Hb] E1 E2 E3 E4. split; [|done| |by rewrite E3|done].
  - destruct l as [|h l]; cbn [ring] in *; rewrite E1, E2; [done|]. destruct Hr as (? & ? & Hc).
    split; [done|]. split; [done|]. eapply chain_ext; [exact Hc|..]; intros x; apply E4.
  - intros i. destruct (E4 i) as (_ & _ & ->). apply Hf.
Qed.

(** Running the body of a list operation with or without its locks. *)
Definition with_locks (use_lock : bool) (m : M kst unit) : M kst unit :=
  mwhen use_lock (acquire PAGE_LOCK;; acquire LRU_LOCK);;
  m;;
  mwhen use_lock (release LRU_LOCK;; release PAGE_LOCK);;
  mwhen use_lock check_lru_consistency.

(** What the operation did to the fields that are not links. *)
Definition meta_same (s s' : kst) (i : Z) : Prop :=
  p_pagetable (page_of s' i) = p_pagetable (page_of s i) /\
  p_vaddr (page_of s' i) = p_vaddr (page_of s i) /\
  is_page_table (page_of s' i) = is_page_table (page_of s i).

Lemma with_locks_ok (ul : bool) m s (P : kst -> Prop) : PAGE_LOCK ∉ held s -> LRU_LOCK ∉ held s ->
  (forall x, (if ul then x = {[LRU_LOCK]} ∪ ({[PAGE_LOCK]} ∪ held s) else x = held s) ->
    wp m (fun _ s' => kbio s' = set_held x (kbio s) /\ is_Some (lru_head s') /\
      P (set_kbio (kbio s) s')) (set_held x s)) ->
  wp (with_locks ul m) (fun _ s' => P s' /\ kbio s' = kbio s) s.
Proof.
  intros H1 H2 Hm. unfold with_locks. destruct ul; cbn [mwhen].
  - apply wp_bind, wp_bind, wp_acquire; [done|].
    apply wp_acquire; [cbn; unfold PAGE_LOCK, LRU_LOCK in *; set_solver|].
    rewrite set_held_set, held_set. apply wp_bind. eapply wp_mono; [by apply Hm|]. cbn beta.
    intros _ s' (Ek & [h Hh] & HP).
    assert (held s' = {[LRU_LOCK]} ∪ ({[PAGE_LOCK]} ∪ held s)) as Eh by (cbn; by rewrite Ek).
    apply wp_bind, wp_bind, wp_release; [rewrite Eh; set_solver|].
    apply wp_release; [rewrite held_set, Eh; unfold PAGE_LOCK, LRU_LOCK; set_solver|].
    rewrite set_held_set, held_set, Eh. rewrite two_locks by done. set (s3 := set_held _ s').
    assert (s3 = set_kbio (kbio s) s') as E3.
    { unfold s3. change (set_kbio (set_held (held (kbio s)) (kbio s')) s' = set_kbio (kbio s) s').
      by rewrite Ek, set_held_set, set_held_held. }
    eapply wp_mono; [apply (check_lru_ok s3 h); [by rewrite E3|rewrite E3; exact H1|rewrite E3; exact H2]|].
    cbn beta. intros _ s4 ->. by rewrite E3.
  - apply wp_bind, wp_ret, wp_bind. specialize (Hm (held s) eq_refl). rewrite set_held_held in Hm.
    eapply wp_mono; [exact Hm|]. cbn beta. intros _ s' (Ek & _ & HP).
    apply wp_bind, wp_ret, wp_ret. change (held s) with (held (kbio s)) in Ek. rewrite set_held_held in Ek.
    split; [|done]. rewrite <- Ek in HP. by destruct s'.
Qed.

(** The fields outside the list that an operation leaves alone, the cache (with
    its lock set) apart. *)
Definition lru_frame' (s s' : kst) : Prop :=
  mem s' = mem s /\ freelist s' = freelist s /\ clock_hand s' = clock_hand s /\
  swap_bitmap s' = swap_bitmap s /\ swap_out_count s' = swap_out_count s /\
  swap_in_count s' = swap_in_count s /\ nr_sectors_read s' = nr_sectors_read s /\
  nr_sectors_write s' = nr_sectors_write s /\ cur_pagetable s' = cur_pagetable s.

Lemma lru_frame_intro s s' : lru_frame' s s' -> kbio s' = kbio s -> lru_frame s s'.
Proof. intros (?&?&?&?&?&?&?&?&?) ?. done. Qed.

(** [lru_add] of a page that is not on the list puts it at the tail. *)
Lemma lru_add_ok s l p pt va ul : lru_ok s l -> p ∉ l -> 0 <= p < PHYSTOP / PGSIZE ->
  va < MAXVA -> is_page_table (page_of s p) = 0 ->
  wp (lru_add p pt va ul) (fun _ s' => lru_ok s' (l ++ [p]) /\ lru_frame s s' /\
    p_pagetable (page_of s' p) = pt /\ p_vaddr (page_of s' p) = va /\
    is_page_table (page_of s' p) = 0 /\ forall i, i <> p -> meta_same s s' i) s.
Proof.
  intros (Hll & H1 & H2) Hp Hr Hva Hpt. unfold lru_add.
  assert ((p <? 0) || (PHYSTOP / PGSIZE <=? p) = false) as ->
    by (apply orb_false_iff; rewrite Z.ltb_ge, Z.leb_gt; lia).
  assert ((MAXVA <=? va) = false) as -> by by apply Z.leb_gt.
  apply wp_bind, wp_gets. rewrite Hpt. cbn [negb Z.eqb].
  eapply wp_mono; [apply (with_locks_ok ul (lru_add_body p pt va) s (fun s' => linked_list s' (l ++ [p]) /\
    lru_frame' s s' /\ p_pagetable (page_of s' p) = pt /\ p_vaddr (page_of s' p) = va /\
    is_page_table (page_of s' p) = 0 /\ forall i, i <> p -> meta_same s s' i)); [done..|]|].
  - intros x _. unfold lru_add_body, upd_page. apply wp_bind, wp_modify, wp_bind, wp_modify, wp_bind, wp_gets.
    set (s1 := set_page p _ _).
    assert (linked_list s1 l) as Hll1.
    { eapply (ll_ext s); [done..|]. intros i. unfold s1, pnext, pprev. pages. }
    assert (in_lru (page_of s1 p) = 0) as Hz.
    { destruct (decide (in_lru (page_of s1 p) = 0)) as [|Hne]; [done|].
      by apply (ll_flag _ _ Hll1) in Hne. }
    rewrite Hz. cbn [negb Z.eqb mwhen]. apply wp_bind, wp_ret.
    eapply wp_mono; [by apply append_ok|]. cbn beta. intros _ s2 (Hl2 & Hfr & Hmeta).
    destruct Hfr as (F1 & F2 & F3 & F4 & F5 & F6 & F7 & F8 & F9 & F10).
    split; [exact F10|]. split; [|split; [|split; [done|]]].
    + destruct Hl2 as [Hrg _ _ _ _]. destruct (l ++ [p]) eqn:E; [by destruct l|]. destruct Hrg as [-> _]. done.
    + apply (ll_ext _ _ _ Hl2); [reflexivity..|]. intros i; split; [|split]; reflexivity.
    + split; [|split; [|split]].
      * destruct (Hmeta p) as (E & _). change (p_pagetable (page_of s2 p) = pt). rewrite E. unfold s1. pages.
      * destruct (Hmeta p) as (_ & E & _). change (p_vaddr (page_of s2 p) = va). rewrite E. unfold s1. pages.
      * destruct (Hmeta p) as (_ & _ & E). change (is_page_table (page_of s2 p) = 0). rewrite E. unfold s1. pages.
      * intros i Hi. destruct (Hmeta i) as (E1 & E2 & E3). unfold meta_same.
        change (page_of (set_kbio (kbio s) s2) i) with (page_of s2 i). rewrite E1, E2, E3. unfold s1. pages.
  - cbn beta. intros _ s' [(Hl' & Hf' & Hrest) Hk]. split; [split; [done|]|].
    + change (PAGE_LOCK ∉ held (kbio s') /\ LRU_LOCK ∉ held (kbio s')). by rewrite Hk.
    + split; [by apply lru_frame_intro|done].
Qed.

(** ** [lru_remove] *)

Lemma elem_of_removelast (r : list Z) t x : NoDup r -> last r = Some t ->
  x ∈ removelast r -> x ∈ r /\ x <> t.
Proof.
  intros Hd Hl Hx. destruct (exists_last (l := r)) as (A & y & ->); [by intros ->|].
  rewrite last_snoc in Hl. injection Hl as ->. rewrite removelast_snoc in Hx.
  apply NoDup_app in Hd as (_ & Hd & _). split; [set_solver|]. intros ->. apply (Hd _ Hx). set_solver.
Qed.

(** Linking the two ends of a list closes the ring. *)
Lemma close_ring nxt prv nxt' prv' (h t : Z) (r : list Z) : NoDup (h :: r) -> last (h :: r) = Some t ->
  chain nxt prv (h :: r) ->
  (forall x, x ∈ h :: r -> x <> t -> nxt' x = nxt x) -> nxt' t = Some h ->
  (forall x, x ∈ h :: r -> x <> h -> prv' x = prv x) -> prv' h = Some t ->
  chain nxt' prv' ((h :: r) ++ [h]).
Proof.
  intros Hd Hl Hc Hn Ht Hp Hh. destruct (snoc_split r h) as (A & y & E).
  assert (y = t) as -> by (rewrite E, last_snoc in Hl; by injection Hl).
  rewrite E, <- app_assoc. cbn [app]. apply chain_app. split; [|by split; [split|]].
  rewrite <- E. apply (chain_frame nxt prv); [done|..].
  - intros x Hx. destruct (elem_of_removelast _ _ _ Hd Hl Hx). auto.
  - intros x Hx. cbn in Hx. apply NoDup_cons in Hd as [Hd _]. apply Hp; [set_solver|]. congruence.
Qed.

(** The rest [h :: r] of a list from which an end [p] is taken. *)
Record cut (s : kst) (l : list Z) (p h : Z) (r : list Z) (t : Z) : Prop := {
  ct_p : p ∉ h :: r;
  ct_nodup : NoDup (h :: r);
  ct_in : forall i, i ∈ l <-> i = p \/ i ∈ h :: r;
  ct_len : Z.of_nat (length l) = Z.of_nat (length (h :: r)) + 1;
  ct_last : last (h :: r) = Some t;
  ct_tin : t ∈ h :: r;
  ct_chain : chain (pnext s) (pprev s) (h :: r);
  ct_ends : lru_head s = Some p /\ lru_tail s = Some t /\ pnext s p = Some h \/
            lru_head s = Some h /\ lru_tail s = Some p /\ pprev s p = Some t;
}.

Lemma cut_ok s l r p h : linked_list s l -> (l = p :: h :: r \/ l = h :: r ++ [p]) ->
  exists t, cut s l p h r t.
Proof.
  intros [Hr Hd Hf Hn Hb] Hcase. destruct (snoc_split r h) as (A & t & EA). exists t.
  assert (last (h :: r) = Some t) as Hlast by (rewrite EA; apply last_snoc).
  assert (t ∈ h :: r) as Ht by (rewrite EA; set_solver).
  destruct Hcase as [-> | ->]; cbn [ring] in Hr; destruct Hr as (Hh & Hl & Hc).
  - apply NoDup_cons in Hd as [? ?]. cbn [app] in Hc. apply chain_cons2 in Hc as [[Hn1 _] Hc].
    split; try done; [set_solver|cbn [length]; lia| |].
    + rewrite app_comm_cons in Hc. by apply chain_prefix in Hc.
    + left. split; [done|]. split; [|done]. rewrite Hl. by rewrite <- Hlast.
  - rewrite app_comm_cons in *. pose proof Hd as (? & H1 & _)%NoDup_app.
    split; try done; [set_solver|set_solver|rewrite length_app; cbn [length]; lia| |].
    + by do 2 apply chain_prefix in Hc.
    + right. split; [done|]. split; [by rewrite Hl, last_snoc|].
      rewrite EA, <- !app_assoc in Hc. cbn [app] in Hc. apply chain_mid in Hc as [_ Hc]. done.
Qed.

Lemma oeqb_refl a : oeqb a a = true.
Proof. unfold oeqb. by apply bool_decide_eq_true. Qed.
Lemma oeqb_ne (a b : Z) : a <> b -> oeqb (Some a) (Some b) = false.
Proof. intros. unfold oeqb. apply bool_decide_eq_false. congruence. Qed.

(** The state [lru_unlink_ends] leaves: the rest is closed, the page cleared. *)
Definition unlinked (s : kst) (p h t : Z) : kst :=
  let s1 := set_lru_tail (Some t) (set_lru_head (Some h) s) in
  let s2 := set_page h (pg_prev (Some t) (page_of s1 h)) s1 in
  let s3 := set_page t (pg_next (Some h) (page_of s2 t)) s2 in
  let s4 := set_page p (pg_prev None (pg_next None (page_of s3 p))) s3 in
  let s5 := set_page p (pg_in_lru 0 (page_of s4 p)) s4 in
  let s6 := set_page p (pg_vaddr 0 (page_of s5 p)) s5 in
  set_num_lru_pages (i32 (num_lru_pages s - 1)) s6.

Lemma set_tail_same s t : lru_tail s = t -> set_lru_tail t s = s.
Proof. intros <-. by destruct s. Qed.
Lemma set_head_same s h : lru_head s = h -> set_lru_head h s = s.
Proof. intros <-. by destruct s. Qed.

Lemma unlink_ends_run s l r p h t : cut s l p h r t ->
  wp (lru_unlink_ends p) (fun _ s' => s' = unlinked s p h t) s.
Proof.
  intros [C1 C2 C3 C4 C5 C6 C7 C8]. assert (h <> p /\ t <> p) as [Hhp Htp] by set_solver.
  unfold lru_unlink_ends, upd_page. apply wp_bind, wp_gets, wp_bind, wp_gets, wp_bind.
  destruct C8 as [(E1 & E2 & E3)|(E1 & E2 & E3)]; rewrite E1, E2.
  - rewrite oeqb_refl, oeqb_ne, oeqb_ne by done. cbn [andb mwhen].
    wp_steps. cbn [lru_head set_lru_head]. unfold pnext in E3. rewrite E3.
    change (lru_tail (set_lru_head (Some h) s)) with (lru_tail s). rewrite E2. wp_steps.
    unfold unlinked. rewrite (set_tail_same (set_lru_head (Some h) s)) by done. done.
  - rewrite oeqb_ne, oeqb_refl by done. cbn [andb mwhen].
    wp_steps. change (lru_head (set_lru_tail (p_prev (page_of s p)) s)) with (lru_head s). rewrite E1.
    cbn [lru_tail set_lru_tail]. unfold pprev in E3. rewrite E3. wp_steps.
    unfold unlinked. rewrite (set_head_same s) by done. done.
Qed.

(** A page at the head or the tail of a list of at least two is taken off and
    the rest is again a ring. *)
Lemma unlink_ends_ok s l r p h t : linked_list s l -> cut s l p h r t ->
  let s' := unlinked s p h t in
  linked_list s' (h :: r) /\ lru_frame s s' /\ p_vaddr (page_of s' p) = 0 /\
  is_page_table (page_of s' p) = is_page_table (page_of s p) /\
  forall i, i <> p -> meta_same s s' i.
Proof.
  intros Hll Hcut s'. pose proof (ll_length s l Hll) as Hlen. pose proof range_phys as Hrp.
  destruct Hcut as [C1 C2 C3 C4 C5 C6 C7 C8].
  destruct Hll as [Hr Hd Hf Hn Hb]. assert (h <> p /\ t <> p) as [Hhp Htp] by set_solver.
  split; [|split; [done|split; [unfold s', unlinked; pages|split; [unfold s', unlinked; pages|]]]].
  - split; try done.
    + cbn [ring]. split; [done|]. split; [done|].
      apply (close_ring (pnext s) (pprev s) _ _ h t r); try done.
      * intros x Hx Hxt. assert (x <> p) by congruence. unfold s', unlinked, pnext. pages.
      * unfold s', unlinked, pnext. pages.
      * intros x Hx Hxt. assert (x <> p) by congruence. unfold s', unlinked, pprev. pages.
      * unfold s', unlinked, pprev. pages.
    + intros i. destruct (decide (i = p)) as [->|Hi].
      * split; [|done]. unfold s', unlinked. pages.
      * assert (in_lru (page_of s' i) = in_lru (page_of s i)) as -> by (unfold s', unlinked; pages).
        rewrite Hf, C3. tauto.
    + change (num_lru_pages s') with (i32 (num_lru_pages s - 1)). rewrite Hn.
      unfold i32. rewrite Z.mod_small by lia. lia.
    + intros i Hi. apply Hb, C3. by right.
  - intros i Hi. unfold meta_same, s', unlinked. pages.
Qed.

(** [lru_remove] of a page at an end of a list of at least two. *)
Lemma lru_remove_end_ok s l p h r ul : lru_ok s l -> (l = p :: h :: r \/ l = h :: r ++ [p]) ->
  wp (lru_remove p ul) (fun _ s' => lru_ok s' (h :: r) /\ lru_frame s s' /\
    p_vaddr (page_of s' p) = 0 /\ is_page_table (page_of s' p) = is_page_table (page_of s p) /\ forall i, i <> p -> meta_same s s' i) s.
Proof.
  intros (Hll & H1 & H2) Hcase. destruct (cut_ok s l r p h Hll Hcase) as [t Hcut].
  unfold lru_remove.
  eapply wp_mono; [apply (with_locks_ok ul (lru_remove_body p) s (fun s' => linked_list s' (h :: r) /\
    lru_frame' s s' /\ p_vaddr (page_of s' p) = 0 /\
    is_page_table (page_of s' p) = is_page_table (page_of s p) /\ forall i, i <> p -> meta_same s s' i)); [done..|]|].
  - intros x _. unfold lru_remove_body. apply wp_bind, wp_gets.
    assert (linked_list (set_held x s) l) as Hll1 by (eapply (ll_ext s); done).
    assert (cut (set_held x s) l p h r t) as Hcut1 by by destruct Hcut.
    assert (negb (in_lru (page_of (set_held x s) p) =? 0) = true) as ->.
    { apply negb_true_iff, Z.eqb_neq, (ll_flag _ _ Hll1). apply Hcut. by left. }
    cbn [mwhen]. eapply wp_mono; [by eapply unlink_ends_run|]. cbn beta. intros _ s' ->.
    destruct (unlink_ends_ok _ _ _ _ _ _ Hll1 Hcut1) as (U1 & U2 & U3 & U4 & U5).
    assert (lru_head (unlinked (set_held x s) p h t) = Some h) as Eh by reflexivity.
    revert U1 U2 U3 U4 U5 Eh. generalize (unlinked (set_held x s) p h t). intros u U1 U2 U3 U4 U5 Eh.
    destruct U2 as (?&?&?&?&?&?&?&?&?&Eb). split; [exact Eb|]. split; [by rewrite Eh|].
    split; [apply (ll_ext u); [exact U1|reflexivity..|]; intros i; split; [|split]; reflexivity|].
    split; [done|]. split; [exact U3|split; [exact U4|exact U5]].
  - cbn beta. intros _ s' [(Hl' & Hf' & Hrest) Hk]. split; [split; [done|]|].
    + change (PAGE_LOCK ∉ held (kbio s') /\ LRU_LOCK ∉ held (kbio s')). by rewrite Hk.
    + split; [by apply lru_frame_intro|done].
Qed.

(** Removing the last page: the check that [lru_remove] runs afterwards returns from its
    empty-list branch with [lru_lock] held. *)
Lemma lru_remove_last s p : lru_ok s [p] ->
  wp (lru_remove p true) (fun _ s' => LRU_LOCK ∈ held s' /\ PAGE_LOCK ∉ held s' /\ lru_head s' = None /\
    forall q, is_page_table (page_of s' q) = is_page_table (page_of s q)) s.
Proof.
  intros (Hll & H1 & H2). unfold lru_remove. cbn [mwhen].
  apply wp_bind, wp_bind, wp_acquire; [done|].
  apply wp_acquire; [cbn; unfold PAGE_LOCK, LRU_LOCK in *; set_solver|].
  rewrite set_held_set, held_set. set (s1 := set_held _ s).
  destruct Hll as [(Hh & Ht & _) _ Hf Hn _].
  unfold lru_remove_body. apply wp_bind, wp_bind, wp_gets.
  assert (negb (in_lru (page_of s1 p) =? 0) = true) as ->.
  { apply negb_true_iff, Z.eqb_neq, Hf. set_solver. }
  cbn [mwhen]. unfold lru_unlink_ends, upd_page. apply wp_bind, wp_gets, wp_bind, wp_gets.
  change (lru_head s1) with (lru_head s). change (lru_tail s1) with (lru_tail s). rewrite Hh, Ht. cbn [last].
  rewrite oeqb_refl. cbn [andb]. wp_steps. apply wp_release; [cbn; set_solver|].
  apply wp_release; [cbn; unfold PAGE_LOCK, LRU_LOCK; set_solver|]. rewrite set_held_set, held_set.
  match goal with |- wp _ _ (set_held _ ?x) => set (s2 := x) end.
  change (held s2) with ({[LRU_LOCK]} ∪ ({[PAGE_LOCK]} ∪ held s)). rewrite two_locks by done.
  eapply wp_mono; [apply check_lru_leaks; try done|].
  - change (i32 (num_lru_pages s - 1) = 0). rewrite Hn. done.
  - cbn beta. intros _ s' ->. rewrite !held_set. split; [set_solver|]. split; [unfold PAGE_LOCK, LRU_LOCK in *; set_solver|]. split; [done|].
    intros q. rewrite !page_of_kheld. unfold s2. pages.
Qed.

(** C33: the page list.  [lru_add] of a page that is not on a well-formed list makes it the last
    one, keeps the circular list well formed with the right count, and records its page table
    and address.  [lru_remove] of that page gives the list back when there were pages on it
    before; when there were none, the locked [lru_remove] empties the list but leaves
    [lru_lock] held.  Neither touches physical memory, the free list or the swap slots. *)
Theorem lru_add_remove s l p pt va ul :
  lru_ok s l -> p ∉ l -> 0 <= p < PHYSTOP / PGSIZE -> va < MAXVA ->
  is_page_table (page_of s p) = 0 ->
  wp (lru_add p pt va ul) (fun _ s1 => lru_ok s1 (l ++ [p]) /\ lru_frame s s1 /\
    p_pagetable (page_of s1 p) = pt /\ p_vaddr (page_of s1 p) = va /\
    match l with
    | [] => wp (lru_remove p true) (fun _ s2 => lru_head s2 = None /\ LRU_LOCK ∈ held s2) s1
    | _ => wp (lru_remove p ul) (fun _ s2 => lru_ok s2 l /\ lru_frame s s2) s1
    end) s.
Proof.
  intros Hok Hp Hr Hva Hpt. eapply wp_mono; [by apply (lru_add_ok s l)|]. cbn beta.
  intros _ s1 (Hok1 & F1 & E1 & E2 & _). split; [done|]. split; [done|]. split; [done|]. split; [done|]. destruct l as [|h r].
  - eapply wp_mono; [by apply lru_remove_last|]. cbn beta. by intros _ s2 (L1 & _ & L3 & _).
  - eapply wp_mono; [apply (lru_remove_end_ok s1 (h :: r ++ [p]) p h r); [done|by right]|]. cbn beta.
    intros _ s2 (Hok2 & F2 & _). split; [done|].
    destruct F1 as (?&?&?&?&?&?&?&?&?&?), F2 as (?&?&?&?&?&?&?&?&?&?). repeat split; congruence.
Qed.

(** ** What goes wrong *)

(** Freeing the last page on the list leaves [lru_lock] held, and the next locked [lru_add]
    panics in [acquire]. *)
Theorem lru_remove_last_leaks s p q pt va : lru_ok s [p] ->
  0 <= q < PHYSTOP / PGSIZE -> va < MAXVA -> is_page_table (page_of s q) = 0 -> q <> p ->
  wp (lru_remove p true) (fun _ s' => LRU_LOCK ∈ held s' /\ lru_head s' = None /\
    panics (lru_add q pt va true) "acquire" s') s.
Proof.
  intros Hok Hq Hva Hpt Hne. eapply wp_mono; [by apply lru_remove_last|]. cbn beta. intros _ s' (L1 & L2 & L3 & Ez). split; [done|]. split; [done|].
  unfold lru_add. assert ((q <? 0) || (PHYSTOP / PGSIZE <=? q) = false) as -> by (apply orb_false_iff; rewrite Z.ltb_ge, Z.leb_gt; lia).
  assert ((MAXVA <=? va) = false) as -> by by apply Z.leb_gt.
  apply panics_bind_r, wp_gets. rewrite Ez, Hpt. cbn [negb Z.eqb mwhen].
  apply panics_bind_l, panics_bind_r, wp_acquire; [done|]. apply acquire_held. rewrite !held_set. set_solver.
Qed.

(** The second chance of [select_victim] loses the page's address.  It calls
    [lru_remove] and then [lru_add] with the page's own [vaddr], which
    [lru_remove] has just cleared: the page goes to the tail with address 0. *)
Theorem second_chance_loses_vaddr s p h r : lru_ok s (p :: h :: r) ->
  is_page_table (page_of s p) = 0 ->
  wp (lru_remove p false;;
      pg ← gets (fun s => page_of s p);
      lru_add p (p_pagetable pg) (p_vaddr pg) false)
    (fun _ s' => lru_ok s' (h :: r ++ [p]) /\ p_vaddr (page_of s' p) = 0) s.
Proof.
  intros Hok Hpt. pose proof Hok as ([_ Hd _ _ Hb] & _).
  apply wp_bind. eapply wp_mono; [apply (lru_remove_end_ok s (p :: h :: r) p h r); [done|by left]|]. cbn beta.
  intros _ s1 (Hok1 & Hf & Hv & Hi & Hm). apply wp_bind, wp_gets. rewrite Hv.
  apply NoDup_cons in Hd as [Hp _].
  eapply wp_mono; [apply (lru_add_ok s1 (h :: r)); [done|done|apply Hb; set_solver|by vm_compute|]|].
  - by rewrite Hi.
  - cbn beta. intros _ s2 (Hok2 & _ & _ & Hv2 & _). done.
Qed.

(** Removing a page from the middle of the list breaks the list.
    [lru_remove] relinks only the ends, so the page before it still points to the
    removed page, whose own links are null: no list describes the result. *)
Theorem lru_remove_middle_breaks s a p b r : lru_ok s (a :: p :: b :: r) ->
  wp (lru_remove p false) (fun _ s' => lru_head s' = Some a /\ pnext s' a = Some p /\
    pnext s' p = None /\ forall l, ~ linked_list s' l) s.
Proof.
  intros ([(Hh & Ht & Hc) Hd Hf Hn Hb] & _). unfold lru_remove. cbn [mwhen]. apply wp_bind, wp_ret, wp_bind.
  destruct (snoc_split r b) as (A & t & EA).
  assert (lru_tail s = Some t) as Et.
  { rewrite Ht. change (last (p :: b :: r) = Some t). rewrite EA. destruct A; [done|].
    change (last ((a :: p :: z :: A) ++ [t]) = Some t). apply last_snoc. }
  assert (t ∈ b :: r) as Htin by (rewrite EA; set_solver).
  apply NoDup_cons in Hd as [Hd1 Hd2]. apply NoDup_cons in Hd2 as [Hd2 _].
  assert (a <> p /\ t <> p /\ a <> t) as (N1 & N2 & N3) by set_solver.
  cbn [app] in Hc. apply chain_cons2 in Hc as [[Ha _] _].
  unfold lru_remove_body. apply wp_bind, wp_gets.
  assert (negb (in_lru (page_of s p) =? 0) = true) as ->.
  { apply negb_true_iff, Z.eqb_neq, Hf. set_solver. }
  cbn [mwhen]. unfold lru_unlink_ends, upd_page. apply wp_bind, wp_gets, wp_bind, wp_gets.
  rewrite Hh, Et, (oeqb_ne a p N1), (oeqb_ne t p N2). cbn [andb mwhen]. wp_steps.
  rewrite Hh, Et. wp_steps.
  match goal with |- lru_head ?x = _ /\ _ => set (s' := x) end.
  assert (lru_head s' = Some a) as E1 by exact Hh.
  assert (pnext s' a = Some p) as E2 by (rewrite <- Ha; unfold s', pnext; pages).
  assert (pnext s' p = None) as E3 by (unfold s', pnext; pages).
  assert (in_lru (page_of s' p) = 0) as E4 by (unfold s'; pages).
  clearbody s'. repeat (split; [done|]). intros l [Hr' _ Hf' _ _].
  destruct l as [|x l]; cbn [ring] in Hr'; [naive_solver|]. destruct Hr' as (Hx & _ & Hc').
  assert (x = a) as -> by congruence.
  destruct l as [|y l]; cbn [app] in Hc'; apply chain_cons2 in Hc' as [[Hy _] _].
  - congruence.
  - assert (y = p) as -> by congruence. apply (Hf' p); [set_solver|done].
Qed.

(** ** A list of pages 524300, 524301, 524302 *)

Definition k0 : kst :=
  mkK ∅ 0 ∅ None None None 0 (replicate (Z.to_nat MAX_SWAP_PAGES) 0) 0 0 0 0 0 (Bio.boot ∅ 1).

Lemma k0_ok : lru_ok k0 [].
Proof. split; [|cbn; set_solver]. split; try done; [constructor| |set_solver]. intros i. cbn. set_solver. Qed.

Lemma demo_pages (l : list Z) : NoDup l -> (forall i, i ∈ l -> 0 <= i < PHYSTOP / PGSIZE) ->
  exists s, lru_ok s l /\ forall i, is_page_table (page_of s i) = 0.
Proof.
  induction l as [|p l IH] using rev_ind; intros Hd Hr.
  - exists k0. split; [apply k0_ok|done].
  - apply NoDup_app in Hd as (Hd & Hp & _).
    destruct IH as (s & Hok & Hpt); [done|intros i Hi; apply Hr; set_solver|].
    assert (p ∉ l) as Hn by set_solver.
    pose proof (lru_add_ok s l p 0 0 false Hok Hn (Hr p ltac:(set_solver)) ltac:(by vm_compute) (Hpt p)) as Hw.
    apply wp_exists in Hw as (u & s' & _ & Hok' & _ & _ & _ & Ep & Hm). exists s'. split; [done|].
    intros i. destruct (decide (i = p)) as [->|Hi]; [done|].
    destruct (Hm i Hi) as (_ & _ & ->). apply Hpt.
Qed.

Definition pg (i : Z) : Z := 524300 + i.
Lemma pg_range i : 0 <= i < 1000 -> 0 <= pg i < PHYSTOP / PGSIZE.
Proof. unfold pg. change (PHYSTOP / PGSIZE) with 532480. lia. Qed.

Lemma demo_list (l : list Z) : NoDup l -> (forall i, i ∈ l -> exists j, 0 <= j < 1000 /\ i = pg j) ->
  exists s, lru_ok s l /\ forall i, is_page_table (page_of s i) = 0.
Proof.
  intros Hd Hl. apply demo_pages; [done|]. intros i Hi. destruct (Hl i Hi) as (j & Hj & ->). by apply pg_range.
Qed.

Lemma lru_add_remove_witness : exists s s',
  lru_ok s [pg 0] /\ lru_ok s' [pg 0; pg 1] /\ lru_add (pg 1) 4096 8192 true s = Ret tt s'.
Proof.
  destruct (demo_list [pg 0]) as (s & Hok & Hpt); [apply NoDup_singleton| |].
  { intros i ->%list_elem_of_singleton. by exists 0. }
  pose proof (lru_add_remove s [pg 0] (pg 1) 4096 8192 true Hok ltac:(set_solver)
    (pg_range 1 ltac:(lia)) ltac:(by vm_compute) (Hpt _)) as Hw.
  apply wp_exists in Hw as ([] & s' & E & Hok' & _). by exists s, s'.
Defined.

Lemma lru_remove_last_leaks_witness : exists s,
  lru_ok s [pg 0] /\ wp (lru_remove (pg 0) true) (fun _ s' => LRU_LOCK ∈ held s') s.
Proof.
  destruct (demo_list [pg 0]) as (s & Hok & Hpt); [apply NoDup_singleton| |].
  { intros i ->%list_elem_of_singleton. by exists 0. }
  exists s. split; [done|].
  eapply wp_mono; [apply (lru_remove_last_leaks s (pg 0) (pg 1) 0 0 Hok (pg_range 1 ltac:(lia)));
    [by vm_compute|apply Hpt|done]|]. by intros _ s' [? _].
Defined.

Lemma demo3 : exists s, lru_ok s [pg 0; pg 1; pg 2] /\ forall i, is_page_table (page_of s i) = 0.
Proof.
  apply demo_list.
  - repeat constructor; unfold pg; set_solver by lia.
  - intros i Hi. rewrite !elem_of_cons in Hi. destruct Hi as [->|[->|[->|Hi]]];
      [by exists 0|by exists 1|by exists 2|set_solver].
Qed.

Lemma second_chance_loses_vaddr_witness : exists s, lru_ok s [pg 0; pg 1; pg 2] /\
  wp (lru_remove (pg 0) false;; x ← gets (fun s => page_of s (pg 0));
      lru_add (pg 0) (p_pagetable x) (p_vaddr x) false)
    (fun _ s' => p_vaddr (page_of s' (pg 0)) = 0) s.
Proof.
  destruct demo3 as (s & Hok & Hpt). exists s. split; [done|].
  eapply wp_mono; [apply (second_chance_loses_vaddr s (pg 0) (pg 1) [pg 2] Hok (Hpt _))|].
  by intros _ s' [_ ?].
Defined.

Lemma lru_remove_middle_breaks_witness : exists s, lru_ok s [pg 0; pg 1; pg 2] /\
  wp (lru_remove (pg 1) false) (fun _ s' => pnext s' (pg 0) = Some (pg 1)) s.
Proof.
  destruct demo3 as (s & Hok & Hpt). exists s. split; [done|].
  eapply wp_mono; [apply (lru_remove_middle_breaks s (pg 0) (pg 1) (pg 2) [] Hok)|].
  by intros _ s' (_ & ? & _).
Defined.
