(* ===== verification/Vm.v ===== *)
(** * Virtual memory, swapping and [kalloc]

    [kernel/vm.c] (page tables, user memory, copying between user and kernel,
    choice of a victim page, eviction), [kalloc] of [kernel/kalloc.c],
    [swapread]/[swapwrite] of [kernel/fs.c], [either_copyin]/[either_copyout] and
    [proc_mapstacks] of [kernel/proc.c].

    [kalloc] evicts a page when memory is full; eviction writes the page through
    [copyin], which may itself allocate.  The routines below [kalloc] take the
    allocator as an argument and [kalloc] ties the knot with fuel: one unit for
    each nested call or retry.  A null pointer is 0. *)

From Stdlib Require Import ZArith Lia.
From stdpp Require Import base numbers list gmap strings sets.
From S2P Require Import Prelude CString Riscv Spinlock Locks Dll Bio Block Kmem.

Definition onkbio {A} (m : M bstate A) : M kst A := zoom kbio set_kbio m.
Definition setmem (f : memory -> memory) : M kst unit := modify (fun s => set_mem (f (mem s)) s).
Definition load64 (a : Z) : M kst Z := gets (fun s => rd64 (mem s) a).
Definition store64 (a v : Z) : M kst unit := setmem (fun m => wr64 m a v).

(** The entry [evictpage] leaves for a page in swap slot [blkno]. *)
Definition swap_pte (blkno flags : Z) : Z :=
  Z.lor (Z.lor (Z.shiftl blkno 12) (Z.land flags (Z.lnot PTE_V))) PTE_SWAP.

(** [*pte = v] between [acquire] and [release] of [pte_lock]. *)
Definition set_pte (pte v : Z) : M kst unit :=
  acquire PTE_LOCK;; store64 pte v;; release PTE_LOCK.

Fixpoint put_bytes (m : memory) (a : Z) (bs : list Z) : memory :=
  match bs with
  | [] => m
  | b :: r => put_bytes (wr8 m a b) (a + 1) r
  end.

Section vm_c.
Context `{Linker}.

Section below_kalloc.
Context (ka : M kst Z).   (* kalloc *)

(** One level of [walk]: the next page-table page. *)
Definition walk_level (level va : Z) (alloc : bool) (pagetable : Z) : M kst (option Z) :=
  let pte := pagetable + 8 * PX level va in
  v ← load64 pte;
  if tst v PTE_V then mret (Some (PTE2PA v)) else
  if negb alloc then mret None else
  pg ← ka;
  if pg =? 0 then mret None else
  setmem (fun m => memset m pg 0 PGSIZE);;
  let i := (pg - KERNBASE) / PGSIZE in
  upd_page i (pg_is_pt 1);;
  upd_page i (pg_vaddr 0);;
  store64 pte (Z.lor (PA2PTE pg) PTE_V);;
  mret (Some pg).

Definition walk (pagetable va : Z) (alloc : bool) : M kst Z :=
  if MAXVA <=? va then panic "walk" else
  o ← walk_level 2 va alloc pagetable;
  match o with
  | None => mret 0
  | Some pt1 =>
      o ← walk_level 1 va alloc pt1;
      match o with
      | None => mret 0
      | Some pt0 => mret (pt0 + 8 * PX 0 va)
      end
  end.

(** [copyout]: [get src n] reads the kernel's source bytes. *)
Definition copyout (get : Z -> Z -> M kst (list Z)) (pagetable dstva src len : Z) : M kst Z :=
  loop (Z.to_nat (len / PGSIZE + 3)) (fun '(dstva, src, len) =>
    if len =? 0 then mret (inr 0) else
    let va0 := PGROUNDDOWN dstva in
    if MAXVA <=? va0 then mret (inr (-1)) else
    pte ← walk pagetable va0 false;
    if pte =? 0 then mret (inr (-1)) else
    v ← load64 pte;
    if negb (tst v PTE_V) || negb (tst v PTE_U) || negb (tst v PTE_W) then mret (inr (-1)) else
    let pa0 := PTE2PA v in
    let n := Z.min (PGSIZE - (dstva - va0)) len in
    bs ← get src n;
    setmem (fun m => put_bytes m (pa0 + (dstva - va0)) bs);;
    mret (inl (u64 (va0 + PGSIZE), src + n, len - n))) (dstva, src, len).

Definition either_copyout (user_dst : bool) (dst : Z) (get : Z -> Z -> M kst (list Z))
    (src len : Z) : M kst Z :=
  pt ← gets cur_pagetable;
  if user_dst then copyout get pt dst src len
  else bs ← get src len; setmem (fun m => put_bytes m dst bs);; mret 0.

(** [swapread] copies with [user_dst] = 1. *)
Definition swapread (ptr blkno : Z) : M kst unit :=
  let BLKS_PER_PG := PGSIZE / BSIZE in
  if (blkno <? 0) || (SWAPMAX / BLKS_PER_PG <=? blkno) then panic "swapread: blkno exceeded range" else
  for_ (Z.to_nat BLKS_PER_PG) 0 1 (fun i =>
    modify (fun s => set_nr_sectors_read (i32 (nr_sectors_read s + 1)) s);;
    bp ← onkbio (bread 0 (SWAPBASE + BLKS_PER_PG * blkno + i));
    r ← either_copyout true (ptr + i * BSIZE)
          (fun off n => gets (fun s => slice (data (buf_of (kbio s) bp)) off n)) 0 BSIZE;
    if r =? -1 then panic "swapread: either_copyout failed" else
    onkbio (brelse bp)).

Definition walkaddr (pagetable va : Z) : M kst Z :=
  pte ← walk pagetable va false;
  if pte =? 0 then mret 0 else
  v ← load64 pte;
  if negb (tst v PTE_V) && tst v PTE_SWAP then
    let blkno := i32 (PTE2PPN v) in
    mm ← ka;
    if mm =? 0 then mret 0 else
    swapread mm blkno;;
    freeswap blkno;;
    acquire STATS_LOCK;;
    modify (fun s => set_swap_in_count (i32 (swap_in_count s + 1)) s);;
    release STATS_LOCK;;
    v ← load64 pte;
    store64 pte (Z.lor (Z.lor (PA2PTE mm) (Z.land (PTE_FLAGS v) (Z.lnot PTE_SWAP))) PTE_V);;
    let i := mm / PGSIZE in
    pg ← gets (fun s => page_of s i);
    mwhen ((in_lru pg =? 0) && (is_page_table pg =? 0) && negb (va =? 0) && (va <? MAXVA))
      (lru_add i pagetable va true);;
    mret mm
  else if negb (tst v PTE_V) || negb (tst v PTE_U) then mret 0
  else mret (PTE2PA v).

(** [copyin]: [put dst bs] writes to the kernel's destination. *)
Definition copyin (put : Z -> list Z -> M kst unit) (pagetable dst srcva len : Z) : M kst Z :=
  loop (Z.to_nat (len / PGSIZE + 3)) (fun '(dst, srcva, len) =>
    if len =? 0 then mret (inr 0) else
    let va0 := PGROUNDDOWN srcva in
    pa0 ← walkaddr pagetable va0;
    if pa0 =? 0 then mret (inr (-1)) else
    let n := Z.min (PGSIZE - (srcva - va0)) len in
    bs ← gets (fun s => bytes (mem s) (pa0 + (srcva - va0)) (Z.to_nat n));
    put dst bs;;
    mret (inl (dst + n, u64 (va0 + PGSIZE), len - n))) (dst, srcva, len).

Definition either_copyin (put : Z -> list Z -> M kst unit) (dst : Z) (user_src : bool)
    (src len : Z) : M kst Z :=
  pt ← gets cur_pagetable;
  if user_src then copyin put pt dst src len
  else bs ← gets (fun s => bytes (mem s) src (Z.to_nat len)); put dst bs;; mret 0.

(** The bytes of one page: up to and including a NUL, at most [n]. *)
Fixpoint str_chunk (m : memory) (p : Z) (n : nat) : list Z * bool :=
  match n with
  | O => ([], false)
  | S k =>
      let c := rd8 m p in
      if c =? 0 then ([0], true)
      else let '(bs, z) := str_chunk m (p + 1) k in (c :: bs, z)
  end.

Definition copyinstr (put : Z -> list Z -> M kst unit) (pagetable dst srcva max : Z) : M kst Z :=
  loop (Z.to_nat (max / PGSIZE + 3)) (fun '(dst, srcva, max) =>
    if max =? 0 then mret (inr (-1)) else
    let va0 := PGROUNDDOWN srcva in
    pa0 ← walkaddr pagetable va0;
    if pa0 =? 0 then mret (inr (-1)) else
    let n := Z.min (PGSIZE - (srcva - va0)) max in
    r ← gets (fun s => str_chunk (mem s) (pa0 + (srcva - va0)) (Z.to_nat n));
    put dst (fst r);;
    if (snd r : bool) then mret (inr 0)
    else mret (inl (dst + n, u64 (va0 + PGSIZE), max - n))) (dst, srcva, max).

(** [swapwrite] copies with [user_src] = 1. *)
Definition swapwrite (ptr blkno : Z) : M kst unit :=
  let BLKS_PER_PG := PGSIZE / BSIZE in
  if (blkno <? 0) || (SWAPMAX / BLKS_PER_PG <=? blkno) then panic "swapwrite: blkno exceeded range" else
  for_ (Z.to_nat BLKS_PER_PG) 0 1 (fun i =>
    modify (fun s => set_nr_sectors_write (i32 (nr_sectors_write s + 1)) s);;
    bp ← onkbio (bread 0 (SWAPBASE + BLKS_PER_PG * blkno + i));
    r ← either_copyin
          (fun off bs => onkbio (upd bp (fun b => set_data (splice (data b) off bs) b)))
          0 true (ptr + i * BSIZE) BSIZE;
    if r =? -1 then panic "swapwrite: either_copyin failed" else
    onkbio (bwrite bp);;
    onkbio (brelse bp)).

(** [select_victim]: NULL is [None].  [start] is the hand at the beginning. *)
Definition select_victim (fuel : nat) : M kst (option Z) :=
  acquire PAGE_LOCK;;
  acquire LRU_LOCK;;
  h ← gets lru_head;
  match h with
  | None => release LRU_LOCK;; release PAGE_LOCK;; mret None
  | Some _ =>
      c ← gets clock_hand;
      mwhen (oeqb c None) (modify (set_clock_hand h));;
      c ← gets clock_hand;
      start ← the c;
      sva ← gets (fun s => p_vaddr (page_of s start));
      if MAXVA <=? sva then panic "clock_hand vaddr invalid" else
      loop fuel (fun _ : unit =>
        c ← gets clock_hand;
        cp ← the c;
        cpg ← gets (fun s => page_of s cp);
        pte ← walk (p_pagetable cpg) (p_vaddr cpg) false;
        v ← load64 pte;
        let pick : M kst (unit + option Z) := victim ← gets clock_hand;
                    vp ← the victim;
                    n ← gets (fun s => p_next (page_of s vp));
                    modify (set_clock_hand n);;
                    release LRU_LOCK;; release PAGE_LOCK;;
                    mret (inr (Some vp)) in
        let tail : M kst (unit + option Z) := c ← gets clock_hand;
                    if oeqb c (Some start) then pick else mret (inl tt) in
        if (pte =? 0) || negb (tst v PTE_V) || (KERNBASE <=? p_vaddr cpg) || (TRAMPOLINE <=? p_vaddr cpg) then
          modify (set_clock_hand (p_next cpg));; tail
        else if tst v PTE_A then
          store64 pte (Z.land v (Z.lnot PTE_A));;
          modify (set_clock_hand (p_next cpg));;
          t ← gets lru_tail;
          mwhen (negb (oeqb t (Some cp))) (
            lru_remove cp false;;
            pg ← gets (fun s => page_of s cp);
            lru_add cp (p_pagetable pg) (p_vaddr pg) false);;
          tail
        else pick) tt
  end.

Definition evictpage (fuel : nat) : M kst bool :=
  victim ← select_victim fuel;
  match victim with
  | None => mret false
  | Some vp =>
      pg ← gets (fun s => page_of s vp);
      let victim_pagetable := p_pagetable pg in
      let victim_vaddr := p_vaddr pg in
      if MAXVA <=? victim_vaddr then panic "invalid victim vaddr" else
      pte ← walk victim_pagetable victim_vaddr false;
      if pte =? 0 then mret false else
      v ← load64 pte;
      if negb (tst v PTE_V) then mret false else
      let pa := PTE2PA v in
      blkno ← allocswap;
      swapwrite pa blkno;;
      acquire STATS_LOCK;;
      modify (fun s => set_swap_out_count (i32 (swap_out_count s + 1)) s);;
      release STATS_LOCK;;
      lru_remove vp true;;
      v ← load64 pte;
      let flags := Z.land (PTE_FLAGS v) (Z.lor (Z.lor (Z.lor PTE_R PTE_W) PTE_X) PTE_U) in
      set_pte pte (swap_pte blkno flags);;
      kfree pa;;
      upd_page (pa / PGSIZE) (fun x => pg_is_pt 0 (pg_in_lru 0 (pg_vaddr 0 (pg_pagetable 0 x))));;
      mret true
  end.
End below_kalloc.

(** [kalloc]; [fuel] bounds the retries and the nested allocations. *)
Fixpoint kalloc (fuel : nat) : M kst Z :=
  match fuel with
  | O => nofuel
  | S n =>
      acquire KMEM_LOCK;;
      r ← gets freelist;
      if negb (r =? 0) then
        nxt ← load64 r;
        modify (set_freelist nxt);;
        release KMEM_LOCK;;
        setmem (fun m => memset m r 5 PGSIZE);;
        mret r
      else
        release KMEM_LOCK;;
        ok ← evictpage (kalloc n) n;
        if (ok : bool) then kalloc n else mret 0
  end.

Context (fuel : nat).
Let ka := kalloc fuel.

(** ** Mappings *)

(** A page mapped for the user joins the page list, unless it is there. *)
Definition map_lru (pagetable a pa perm : Z) : M kst unit :=
  mwhen (tst perm PTE_U) (
    let i := pa / PGSIZE in
    pg ← gets (fun s => page_of s i);
    mwhen ((in_lru pg =? 0) && (is_page_table pg =? 0) && (a <? MAXVA)) (lru_add i pagetable a true)).

Definition mappages (pagetable va size pa perm : Z) : M kst Z :=
  if negb (va mod PGSIZE =? 0) then panic "mappages: va not aligned" else
  if negb (size mod PGSIZE =? 0) then panic "mappages: size not aligned" else
  if size =? 0 then panic "mappages: size" else
  let last := u64 (va + size - PGSIZE) in
  loop (Z.to_nat (size / PGSIZE + 1)) (fun '(a, pa) =>
    pte ← walk ka pagetable a true;
    if pte =? 0 then mret (inr (-1)) else
    v ← load64 pte;
    if tst v PTE_V then panic "mappages: remap" else
    set_pte pte (Z.lor (Z.lor (PA2PTE pa) perm) PTE_V);;
    map_lru pagetable a pa perm;;
    if a =? last then mret (inr 0)
    else mret (inl (u64 (a + PGSIZE), u64 (pa + PGSIZE)))) (va, pa).

Definition kvmmap (kpgtbl va pa sz perm : Z) : M kst unit :=
  r ← mappages kpgtbl va sz pa perm;
  if negb (r =? 0) then panic "kvmmap" else mret tt.

Definition proc_mapstacks (kpgtbl : Z) : M kst unit :=
  for_ (Z.to_nat NPROC) 0 1 (fun p =>
    pa ← ka;
    if pa =? 0 then panic "kalloc" else
    kvmmap kpgtbl (KSTACK p) pa PGSIZE (Z.lor PTE_R PTE_W)).

Definition kvmmake : M kst Z :=
  kpgtbl ← ka;
  setmem (fun m => memset m kpgtbl 0 PGSIZE);;
  kvmmap kpgtbl UART0 UART0 PGSIZE (Z.lor PTE_R PTE_W);;
  kvmmap kpgtbl VIRTIO0 VIRTIO0 PGSIZE (Z.lor PTE_R PTE_W);;
  kvmmap kpgtbl PLIC PLIC 0x4000000 (Z.lor PTE_R PTE_W);;
  kvmmap kpgtbl KERNBASE KERNBASE (etext - KERNBASE) (Z.lor PTE_R PTE_X);;
  kvmmap kpgtbl etext etext (PHYSTOP - etext) (Z.lor PTE_R PTE_W);;
  kvmmap kpgtbl TRAMPOLINE trampoline PGSIZE (Z.lor PTE_R PTE_X);;
  proc_mapstacks kpgtbl;;
  mret kpgtbl.

Definition uvmunmap (pagetable va npages : Z) (do_free : bool) : M kst unit :=
  if negb (va mod PGSIZE =? 0) then panic "uvmunmap: not aligned" else
  let last := u64 (va + u64 (npages * PGSIZE)) in
  for_ (Z.to_nat ((last - va) / PGSIZE)) va PGSIZE (fun a =>
    pte ← walk ka pagetable a false;
    if pte =? 0 then panic "uvmunmap: walk" else
    v ← load64 pte;
    if negb (tst v PTE_V) then panic "uvmunmap: not mapped" else
    if PTE_FLAGS v =? PTE_V then panic "uvmunmap: not a leaf" else
    (if do_free then
       let pa := PTE2PA v in
       let i := pa / PGSIZE in
       il ← gets (fun s => in_lru (page_of s i));
       mwhen (negb (il =? 0)) (lru_remove i true;; upd_page i (pg_vaddr 0));;
       kfree pa
     else mwhen (tst v PTE_SWAP) (freeswap (i32 (PTE2PPN v))));;
    set_pte pte 0).

Definition uvmcreate : M kst Z :=
  pagetable ← ka;
  if pagetable =? 0 then mret 0 else
  setmem (fun m => memset m pagetable 0 PGSIZE);;
  mret pagetable.

Definition uvmfirst (pagetable src sz : Z) : M kst unit :=
  if PGSIZE <=? sz then panic "uvmfirst: more than a page" else
  mm ← ka;
  setmem (fun m => memset m mm 0 PGSIZE);;
  _ ← mappages pagetable 0 PGSIZE mm (Z.lor (Z.lor (Z.lor PTE_W PTE_R) PTE_X) PTE_U);
  let i := mm / PGSIZE in
  ispt ← gets (fun s => is_page_table (page_of s i));
  mwhen (ispt =? 0) (lru_add i pagetable 0 false);;
  setmem (fun m => memmove m mm src sz).

Definition uvmdealloc (pagetable oldsz newsz : Z) : M kst Z :=
  if oldsz <=? newsz then mret oldsz else
  mwhen (PGROUNDUP newsz <? PGROUNDUP oldsz)
    (let npages := i32 ((PGROUNDUP oldsz - PGROUNDUP newsz) / PGSIZE) in
     uvmunmap pagetable (PGROUNDUP newsz) npages true);;
  mret newsz.

Definition uvmalloc (pagetable oldsz newsz xperm : Z) : M kst Z :=
  if newsz <? oldsz then mret oldsz else
  let oldsz := PGROUNDUP oldsz in
  loop (Z.to_nat ((newsz - oldsz) / PGSIZE + 2)) (fun a =>
    if negb (a <? newsz) then mret (inr newsz) else
    mm ← ka;
    if mm =? 0 then uvmdealloc pagetable a oldsz;; mret (inr 0) else
    setmem (fun m => memset m mm 0 PGSIZE);;
    r ← mappages pagetable a PGSIZE mm (Z.lor (Z.lor (Z.lor PTE_R PTE_W) PTE_U) xperm);
    if negb (r =? 0) then
      kfree mm;; uvmdealloc pagetable a oldsz;; mret (inr 0)
    else mret (inl (u64 (a + PGSIZE)))) oldsz.

(** [depth] bounds the recursion: Sv39 tables have three levels. *)
Fixpoint freewalk (depth : nat) (pagetable : Z) : M kst unit :=
  match depth with
  | O => nofuel
  | S d =>
      for_ 512 0 1 (fun i =>
        pte ← load64 (pagetable + 8 * i);
        if tst pte PTE_V && (Z.land pte (Z.lor (Z.lor PTE_R PTE_W) PTE_X) =? 0) then
          freewalk d (PTE2PA pte);;
          store64 (pagetable + 8 * i) 0
        else if tst pte PTE_V then panic "freewalk: leaf"
        else mret tt);;
      let i := (pagetable - KERNBASE) / PGSIZE in
      upd_page i (pg_is_pt 0);;
      upd_page i (pg_vaddr 0);;
      kfree pagetable
  end.

Definition uvmfree (pagetable sz : Z) : M kst unit :=
  mwhen (0 <? sz) (uvmunmap pagetable 0 (PGROUNDUP sz / PGSIZE) true);;
  freewalk 3 pagetable.

Definition uvmcopy (old new sz : Z) : M kst Z :=
  loop (Z.to_nat (sz / PGSIZE + 2)) (fun i =>
    if negb (i <? sz) then mret (inr 0) else
    let err : M kst (Z + Z) := uvmunmap new 0 (i / PGSIZE) true;; mret (inr (-1)) in
    pte ← walk ka old i false;
    if pte =? 0 then panic "uvmcopy: pte should exist" else
    v ← load64 pte;
    if negb (tst v PTE_V) && tst v PTE_SWAP then
      mm ← ka;
      if mm =? 0 then err else
      v ← load64 pte;
      swapread ka mm (i32 (PTE2PPN v));;
      v ← load64 pte;
      let flags := Z.land (PTE_FLAGS v) (Z.lor (Z.lor (Z.lor PTE_R PTE_W) PTE_X) PTE_U) in
      r ← mappages new i PGSIZE mm flags;
      if negb (r =? 0) then kfree mm;; err
      else mret (inl (i + PGSIZE))
    else if negb (tst v PTE_V) then panic "uvmcopy: page not present" else
    let pa := PTE2PA v in
    let flags := PTE_FLAGS v in
    mm ← ka;
    if mm =? 0 then err else
    setmem (fun m => memmove m mm pa PGSIZE);;
    r ← mappages new i PGSIZE mm flags;
    if negb (r =? 0) then kfree mm;; err
    else mret (inl (i + PGSIZE))) 0.

Definition uvmclear (pagetable va : Z) : M kst unit :=
  pte ← walk ka pagetable va false;
  if pte =? 0 then panic "uvmclear" else
  v ← load64 pte;
  store64 pte (Z.land v (u64 (Z.lnot PTE_U))).
End vm_c.
