(* ===== verification/Pagetable.v ===== *)
(** * Page tables

    Correctness of [walk], [mappages], [uvmunmap] and [kalloc] of [Vm.v] on
    three-level Sv39 tables stored in physical memory.  A table is described by a
    tree [ptree]; [pte_of] is the entry a virtual address has in it. *)

From Stdlib Require Import ZArith Lia.
From stdpp Require Import base numbers list gmap strings sets.
From S2P Require Import Prelude CString Riscv Spinlock Locks Dll Bio Kmem Lru Vm.

#[local] Opaque memset wr64 rd64.

Record ptree := PT { root : Z; mid : gmap Z Z; leaf : gmap (Z * Z) Z }.

Definition pg_ok (p : Z) : Prop := p mod PGSIZE = 0 /\ 0 < p < 2 ^ 56.
Definition ptpage (t : ptree) (p : Z) : Prop :=
  p = root t \/ (exists i, mid t !! i = Some p) \/ (exists k, leaf t !! k = Some p).
Definition dir_entry (p : Z) : Z := Z.lor (PA2PTE p) PTE_V.

(** Entry [k] of the table page at [P]. *)
Definition entry (m : memory) (P k : Z) : Z := rd64 m (P + 8 * k).
Definition points (v : Z) (o : option Z) : Prop :=
  match o with Some p => v = dir_entry p | None => tst v PTE_V = false end.

Record pt_rep (m : memory) (t : ptree) : Prop := {
  pt_pages : forall p, ptpage t p -> pg_ok p;
  pt_root : forall i, 0 <= i < 512 -> points (entry m (root t) i) (mid t !! i);
  pt_mid : forall i p j, mid t !! i = Some p -> 0 <= j < 512 ->
    points (entry m p j) (leaf t !! (i, j));
  pt_leaf : forall i j p, leaf t !! (i, j) = Some p -> is_Some (mid t !! i);
  pt_d1 : forall i, mid t !! i <> Some (root t);
  pt_d2 : forall k, leaf t !! k <> Some (root t);
  pt_d3 : forall i k p, mid t !! i = Some p -> leaf t !! k <> Some p;
  pt_d4 : forall i j p, mid t !! i = Some p -> mid t !! j = Some p -> i = j;
  pt_d5 : forall i j p, leaf t !! i = Some p -> leaf t !! j = Some p -> i = j;
}.

(** The address of the leaf entry of [va], and the entry. *)
Definition pte_addr (t : ptree) (va : Z) : option Z :=
  (fun p => p + 8 * PX 0 va) <$> (leaf t !! (PX 2 va, PX 1 va)).
Definition pte_of (m : memory) (t : ptree) (va : Z) : Z :=
  from_option (rd64 m) 0 (pte_addr t va).

(** Memory changed inside the page [pg] and the entry at [e] only. *)
Definition only (pg e : Z) (m m' : memory) : Prop :=
  forall a, ~ in_page pg a -> ~ (e <= a < e + 8) -> rd8 m' a = rd8 m a.

Lemma entry_only pg e m m' P k : only pg e m m' -> pg_ok pg -> pg_ok P -> P <> pg ->
  0 <= k < 512 -> (P + 8 * k + 8 <= e \/ e + 8 <= P + 8 * k) -> entry m' P k = entry m P k.
Proof.
  intros Ho (H1 & _) (H2 & _) Hne Hk He. unfold entry. apply rd64_ext. intros a Ha. apply Ho; [|lia].
  unfold in_page, PGSIZE in *. intros Hin. apply Hne. dlia.
Qed.

Lemma entry_disjoint P k P' k' : pg_ok P -> pg_ok P' -> 0 <= k < 512 -> 0 <= k' < 512 ->
  (P, k) <> (P', k') -> P + 8 * k + 8 <= P' + 8 * k' \/ P' + 8 * k' + 8 <= P + 8 * k.
Proof.
  intros (H1 & _) (H2 & _) Hk Hk' Hne. unfold PGSIZE in *.
  destruct (decide (P = P')) as [->|Hp]; [|dlia].
  assert (k <> k') by congruence. lia.
Qed.

Lemma dir_entry_valid p : pg_ok p -> tst (dir_entry p) PTE_V = true /\ PTE2PA (dir_entry p) = p.
Proof.
  intros (Hal & Hr). unfold dir_entry, PGSIZE in *. split.
  - rewrite tst_pte; [done|lia|by unfold PTE_V|by unfold PTE_V].
  - apply PTE2PA_PA2PTE; [lia|done|by unfold PTE_V].
Qed.

(** ** Adding a table page *)

Definition add_mid (i p : Z) (t : ptree) : ptree := PT (root t) (<[i := p]> (mid t)) (leaf t).
Definition add_leaf (k : Z * Z) (p : Z) (t : ptree) : ptree := PT (root t) (mid t) (<[k := p]> (leaf t)).

Lemma add_mid_rep m m' t i pg : pt_rep m t -> mid t !! i = None -> 0 <= i < 512 ->
  pg_ok pg -> ~ ptpage t pg -> only pg (root t + 8 * i) m m' ->
  entry m' (root t) i = dir_entry pg -> (forall k, 0 <= k < 512 -> entry m' pg k = 0) ->
  pt_rep m' (add_mid i pg t).
Proof.
  intros [P0 P1 P2 P3 D1 D2 D3 D4 D5] Hn Hi Hpg Hfresh Ho He Hz.
  assert (pg_ok (root t)) as Hroot by (apply P0; by left).
  assert (root t <> pg) as Hrp by (intros <-; apply Hfresh; by left).
  assert (forall j p, mid t !! j = Some p -> p <> pg /\ p <> root t /\ pg_ok p) as Hmid.
  { intros j p Hj. split; [intros ->; apply Hfresh; right; left; by exists j|].
    split; [intros ->; by apply (D1 j)|]. apply P0. right; left; by exists j. }
  assert (forall j p, leaf t !! j = Some p -> p <> pg) as Hleaf.
  { intros j p Hj ->. apply Hfresh. right; right; by exists j. }
  split; cbn [root mid leaf add_mid].
  - intros p [->|[[j Hj]|[k Hk]]]; [done| |apply P0; right; right; by exists k].
    cbn in Hj. apply lookup_insert_Some in Hj as [[_ <-]|[_ Hj]]; [done|]. apply (Hmid _ _ Hj).
  - intros j Hj. rewrite lookup_insert. case_decide as E; [subst; exact He|].
    rewrite (entry_only pg _ m m' (root t) j Ho) by (done || lia). by apply P1.
  - intros j p k Hj Hk. apply lookup_insert_Some in Hj as [[<- <-]|[Hne Hj]].
    + destruct (leaf t !! (i, k)) as [q|] eqn:El.
      * apply P3 in El. rewrite Hn in El. by destruct El.
      * cbn. by rewrite Hz.
    + destruct (Hmid j p Hj) as (N1 & N2 & N3).
      rewrite (entry_only pg _ m m' p k Ho); try done; [by apply P2|].
      apply entry_disjoint; try done. congruence.
  - intros j k p Hl. destruct (P3 _ _ _ Hl) as [q Hq]. exists q. rewrite lookup_insert_ne; [done|].
    intros ->. congruence.
  - intros j Hj. apply lookup_insert_Some in Hj as [[_ Hj]|[_ Hj]]; [congruence|by apply (D1 j)].
  - done.
  - intros j k p Hj Hl. apply lookup_insert_Some in Hj as [[_ Hj]|[_ Hj]]; [|by eapply D3].
    apply (Hleaf _ _ Hl). congruence.
  - intros j k p Hj Hk. apply lookup_insert_Some in Hj as [[<- <-]|[_ Hj]];
      apply lookup_insert_Some in Hk as [[<- Hk]|[_ Hk]]; try done.
    + by apply Hmid in Hk as [? _].
    + subst. by apply Hmid in Hj as [? _].
    + by eapply D4.
  - done.
Qed.

Lemma add_leaf_rep m m' t i j p pg : pt_rep m t -> mid t !! i = Some p -> leaf t !! (i, j) = None ->
  0 <= j < 512 -> pg_ok pg -> ~ ptpage t pg -> only pg (p + 8 * j) m m' ->
  entry m' p j = dir_entry pg -> pt_rep m' (add_leaf (i, j) pg t).
Proof.
  intros [P0 P1 P2 P3 D1 D2 D3 D4 D5] Hp Hn Hj Hpg Hfresh Ho He.
  assert (pg_ok (root t)) as Hroot by (apply P0; by left).
  assert (root t <> pg) as Hrp by (intros <-; apply Hfresh; by left).
  assert (forall j p, mid t !! j = Some p -> p <> pg /\ p <> root t /\ pg_ok p) as Hmid.
  { intros j' p' Hj'. split; [intros ->; apply Hfresh; right; left; by exists j'|].
    split; [intros ->; by apply (D1 j')|]. apply P0. right; left; by exists j'. }
  assert (forall j p, leaf t !! j = Some p -> p <> pg) as Hleaf.
  { intros j' p' Hj' ->. apply Hfresh. right; right; by exists j'. }
  destruct (Hmid i p Hp) as (M1 & M2 & M3).
  split; cbn [root mid leaf add_leaf]; try done.
  - intros q [->|[[k Hk]|[k Hk]]]; [done|apply (Hmid _ _ Hk)|].
    cbn in Hk. apply lookup_insert_Some in Hk as [[_ <-]|[_ Hk]]; [done|]. apply P0. right; right; by exists k.
  - intros k Hk. rewrite (entry_only pg _ m m' (root t) k Ho); try done; [by apply P1|].
    apply entry_disjoint; try done. congruence.
  - intros k q l Hk Hl. destruct (Hmid k q Hk) as (N1 & N2 & N3).
    rewrite lookup_insert. case_decide as E.
    + injection E as <- <-. assert (q = p) as -> by congruence. exact He.
    + rewrite (entry_only pg _ m m' q l Ho); try done; [by apply P2|].
      apply entry_disjoint; try done. intros [= -> ->]. apply E. f_equal. by eapply D4.
  - intros k l q Hl. apply lookup_insert_Some in Hl as [[[= <- <-] _]|[_ Hl]]; [by exists p|by eapply P3].
  - intros k Hk. apply lookup_insert_Some in Hk as [[_ Hk]|[_ Hk]]; [congruence|by apply (D2 k)].
  - intros k l q Hk Hl. apply lookup_insert_Some in Hl as [[_ Hl]|[_ Hl]]; [|by eapply D3].
    destruct (Hmid k q Hk) as (? & _). congruence.
  - intros k l q Hk Hl. apply lookup_insert_Some in Hk as [[<- <-]|[_ Hk]];
      apply lookup_insert_Some in Hl as [[<- Hl]|[_ Hl]]; try done.
    + by apply Hleaf in Hl.
    + subst. by apply Hleaf in Hk.
    + by eapply D5.
Qed.

(** ** Entries of virtual addresses *)

Lemma pte_of_leaf m t va p : leaf t !! (PX 2 va, PX 1 va) = Some p ->
  pte_of m t va = entry m p (PX 0 va).
Proof. intros E. unfold pte_of, pte_addr. by rewrite E. Qed.
Lemma pte_of_None m t va : leaf t !! (PX 2 va, PX 1 va) = None -> pte_of m t va = 0.
Proof. intros E. unfold pte_of, pte_addr. by rewrite E. Qed.

Lemma leaf_page m t k p : pt_rep m t -> leaf t !! k = Some p -> pg_ok p.
Proof. intros R Hl. apply R. right; right. by exists k. Qed.

Lemma add_mid_pte m m' t i pg va : pt_rep m t -> pg_ok pg -> ~ ptpage t pg -> 0 <= i < 512 ->
  only pg (root t + 8 * i) m m' -> pte_of m' (add_mid i pg t) va = pte_of m t va.
Proof.
  intros R Hpg Hfresh Hi Ho. destruct (leaf t !! (PX 2 va, PX 1 va)) as [p|] eqn:E.
  - rewrite (pte_of_leaf m t va p), (pte_of_leaf m' (add_mid i pg t) va p) by done.
    pose proof (leaf_page _ _ _ _ R E) as Hp. pose proof (PX_range 0 va ltac:(lia)).
    apply (entry_only pg (root t + 8 * i)); try done.
    + intros ->. apply Hfresh. right; right. by eexists.
    + apply entry_disjoint; try done; [apply R; by left|]. intros [= -> _]. by apply (pt_d2 _ _ R) in E.
  - by rewrite !pte_of_None.
Qed.

Lemma add_leaf_pte m m' t i j p pg va : pt_rep m t -> pg_ok pg -> ~ ptpage t pg -> 0 <= j < 512 ->
  mid t !! i = Some p -> leaf t !! (i, j) = None -> only pg (p + 8 * j) m m' ->
  (forall k, 0 <= k < 512 -> entry m' pg k = 0) ->
  pte_of m' (add_leaf (i, j) pg t) va = pte_of m t va.
Proof.
  intros R Hpg Hfresh Hj Hp Hn Ho Hz. pose proof (PX_range 0 va ltac:(lia)) as Hr.
  destruct (decide ((PX 2 va, PX 1 va) = (i, j))) as [E|E].
  - rewrite (pte_of_None m t va) by congruence.
    rewrite (pte_of_leaf _ _ va pg) by (cbn; by rewrite E, lookup_insert_eq). by apply Hz.
  - assert (leaf (add_leaf (i, j) pg t) !! (PX 2 va, PX 1 va) = leaf t !! (PX 2 va, PX 1 va)) as El
      by (cbn; by rewrite lookup_insert_ne).
    destruct (leaf t !! (PX 2 va, PX 1 va)) as [q|] eqn:Eq.
    + rewrite (pte_of_leaf m t va q), (pte_of_leaf _ _ va q) by done.
      pose proof (leaf_page _ _ _ _ R Eq) as Hq. apply (entry_only pg (p + 8 * j)); try done.
      * intros ->. apply Hfresh. right; right. by eexists.
      * apply entry_disjoint; try done; [apply R; right; left; by exists i|].
        intros [= -> _]. by apply (pt_d3 _ _ R _ _ _ Hp) in Eq.
    + by rewrite !pte_of_None.
Qed.

(** ** [kalloc] with a page on the free list *)

Section with_linker.
Context `{Linker}.

Lemma is_page_pg_ok p : is_page p -> pg_ok p.
Proof. intros (Hal & Hr & H0). split; [done|]. unfold PHYSTOP, KERNBASE in Hr. lia. Qed.

Lemma kalloc_ok n s p l : free_ok s (p :: l) ->
  wp (kalloc (S n)) (fun r s' => r = p /\ free_ok s' l /\
    s' = set_freelist (freelist s') (set_mem (memset (mem s) p 5 PGSIZE) s)) s.
Proof.
  intros [Hl Hd Hp Hk]. cbn [flist] in Hl. destruct Hl as (Hf & H0 & Hl).
  apply NoDup_cons in Hd as [Hn Hd]. cbn [kalloc].
  apply wp_bind, wp_acquire; [done|]. apply wp_bind, wp_gets.
  change (freelist (set_held _ s)) with (freelist s). rewrite Hf.
  assert (negb (p =? 0) = true) as -> by (rewrite negb_true_iff; by apply Z.eqb_neq).
  unfold load64, setmem. apply wp_bind, wp_gets, wp_bind, wp_modify, wp_bind, wp_release; [cbn; set_solver|].
  apply wp_bind, wp_modify, wp_ret. split; [done|].
  match goal with |- free_ok ?x _ /\ _ => set (s' := x) end.
  assert (s' = set_freelist (rd64 (mem s) p) (set_mem (memset (mem s) p 5 PGSIZE) s)) as ->.
  { unfold s'. transitivity (set_freelist (rd64 (mem s) p) (set_mem (memset (mem s) p 5 PGSIZE)
      (set_held (({[KMEM_LOCK]} ∪ held s) ∖ {[KMEM_LOCK]}) s))); [done|].
    by rewrite held_acq_rel, set_held_held. }
  split; [|done]. split; cbn [mem freelist set_freelist set_mem]; [|done| |exact Hk].
  - eapply flist_outside; [apply memset_outside|apply Hp, list_elem_of_here|done| |done].
    intros q Hq. apply Hp. by constructor.
  - intros q Hq. apply Hp. by constructor.
Qed.

Lemma memset0_entry m p k : 0 <= k < 512 -> entry (memset m p 0 PGSIZE) p k = 0.
Proof.
  intros Hk. unfold entry. apply rd64_zero. intros a Ha.
  rewrite rd8_memset by (unfold PGSIZE; lia). rewrite decide_True; [done|]. unfold PGSIZE. lia.
Qed.

(** A table and the free list, sharing no page. *)
Record pinv (s : kst) (t : ptree) (l : list Z) : Prop := {
  pi_rep : pt_rep (mem s) t;
  pi_free : free_ok s l;
  pi_dis : forall p, p ∈ l -> ~ ptpage t p;
}.

(** What building tables leaves alone. *)
Record tbl_frame (s s' : kst) : Prop := {
  tf_lru : lru_head s' = lru_head s /\ lru_tail s' = lru_tail s /\
           num_lru_pages s' = num_lru_pages s /\ clock_hand s' = clock_hand s;
  tf_rest : swap_bitmap s' = swap_bitmap s /\ swap_out_count s' = swap_out_count s /\
           swap_in_count s' = swap_in_count s /\ cur_pagetable s' = cur_pagetable s /\ kbio s' = kbio s;
  tf_links : forall i, p_next (page_of s' i) = p_next (page_of s i) /\
           p_prev (page_of s' i) = p_prev (page_of s i) /\ in_lru (page_of s' i) = in_lru (page_of s i);
  tf_pages : forall i, KERNBASE / PGSIZE <= i -> page_of s' i = page_of s i;
}.

Lemma tbl_frame_refl s : tbl_frame s s.
Proof. by split. Qed.
Lemma tbl_frame_trans s1 s2 s3 : tbl_frame s1 s2 -> tbl_frame s2 s3 -> tbl_frame s1 s3.
Proof.
  intros [A1 A2 A3 A4] [B1 B2 B3 B4]. split.
  - destruct A1 as (?&?&?&?), B1 as (?&?&?&?). repeat split; congruence.
  - destruct A2 as (?&?&?&?&?), B2 as (?&?&?&?&?). repeat split; congruence.
  - intros i. destruct (A3 i) as (?&?&?), (B3 i) as (?&?&?). repeat split; congruence.
  - intros i Hi. rewrite B4, A4 by done. done.
Qed.

(** From [s] to [s'] the table has grown by pages of the free list: no entry of
    a virtual address changed and no other memory. *)
Record grows (s : kst) (t : ptree) (l : list Z) (s' : kst) (t' : ptree) (l' : list Z) : Prop := {
  g_inv : pinv s' t' l';
  g_root : root t' = root t;
  g_pte : forall va, pte_of (mem s') t' va = pte_of (mem s) t va;
  g_mem : forall a, (forall p, ptpage t p \/ p ∈ l -> ~ in_page p a) -> rd8 (mem s') a = rd8 (mem s) a;
  g_src : forall p, ptpage t' p -> ptpage t p \/ p ∈ l;
  g_sub : forall p, p ∈ l' -> p ∈ l;
  g_frame : tbl_frame s s';
}.

Lemma grows_refl s t l : pinv s t l -> grows s t l s t l.
Proof. intros I. split; auto using tbl_frame_refl. Qed.

Lemma grows_trans s1 t1 l1 s2 t2 l2 s3 t3 l3 :
  grows s1 t1 l1 s2 t2 l2 -> grows s2 t2 l2 s3 t3 l3 -> grows s1 t1 l1 s3 t3 l3.
Proof.
  intros [A1 A2 A3 A4 A5 A6 A7] [B1 B2 B3 B4 B5 B6 B7]. split; [done|congruence|congruence| | |auto|].
  - intros a Ha. rewrite B4, A4; [done|done|]. intros p [Hp|Hp]; apply Ha; auto.
  - intros p [Hp|Hp]%B5; auto.
  - by eapply tbl_frame_trans.
Qed.

(** The memory after a zeroed page [pg] is linked at entry [k] of page [P]. *)
Definition table_mem (m : memory) (pg P k : Z) : memory :=
  wr64 (memset (memset m pg 5 PGSIZE) pg 0 PGSIZE) (P + 8 * k) (dir_entry pg).

Lemma dir_entry_bound pg : pg_ok pg -> 0 <= dir_entry pg < 2 ^ 64.
Proof.
  intros [_ Hb]. unfold dir_entry. rewrite pte_lor; [|lia|by unfold PTE_V].
  change (2 ^ 56) with 72057594037927936 in Hb. change (2 ^ 64) with 18446744073709551616.
  change PTE_V with 1. dlia.
Qed.

Lemma table_mem_only m pg P k : only pg (P + 8 * k) m (table_mem m pg P k).
Proof.
  intros a H1 H2. unfold table_mem. transitivity (rd8 (memset (memset m pg 5 PGSIZE) pg 0 PGSIZE) a).
  - apply rd8_wr64_ne. lia.
  - rewrite !memset_outside by done. done.
Qed.

Lemma table_mem_entry m pg P k : pg_ok pg -> entry (table_mem m pg P k) P k = dir_entry pg.
Proof. intros Hp. unfold entry, table_mem. by apply rd64_wr64_eq, dir_entry_bound. Qed.

Lemma table_mem_zero m pg P k j : pg_ok pg -> pg_ok P -> P <> pg -> 0 <= k < 512 -> 0 <= j < 512 ->
  entry (table_mem m pg P k) pg j = 0.
Proof.
  intros H1 H2 Hne Hk Hj. unfold entry, table_mem. rewrite rd64_wr64_ne.
  - by apply memset0_entry.
  - apply entry_disjoint; try done. congruence.
Qed.

Lemma table_mem_flist m pg P k f l : pg_ok P -> pg_ok pg -> pg ∉ l -> P ∉ l ->
  (forall q, q ∈ l -> is_page q) -> 0 <= k < 512 -> flist m f l -> flist (table_mem m pg P k) f l.
Proof.
  intros HP Hpg N1 N2 Hp Hk. apply flist_ext. intros q Hq.
  pose proof (is_page_pg_ok q (Hp q Hq)) as Hqk.
  pose proof (entry_only pg (P + 8 * k) m (table_mem m pg P k) q 0 (table_mem_only m pg P k) Hpg Hqk) as E.
  unfold entry in E. rewrite Z.mul_0_r, Z.add_0_r in E. apply E; [congruence|lia|].
  pose proof (entry_disjoint q 0 P k Hqk HP) as Hd. rewrite Z.mul_0_r, Z.add_0_r in Hd.
  apply Hd; [lia|lia|]. congruence.
Qed.

(** [s] has the memory [m]. *)
Record has_mem (s : kst) (m : memory) : Prop := { hm_eq : mem s = m }.

(** Allocating a zeroed page and storing its address at entry [k] of page [P]. *)
Definition new_table (n : nat) (P k : Z) : M kst (option Z) :=
  pg ← kalloc (S n);
  if pg =? 0 then mret None else
  setmem (fun m => memset m pg 0 PGSIZE);;
  let i := (pg - KERNBASE) / PGSIZE in
  upd_page i (pg_is_pt 1);;
  upd_page i (pg_vaddr 0);;
  store64 (P + 8 * k) (Z.lor (PA2PTE pg) PTE_V);;
  mret (Some pg).

Definition mark_table (pg : Z) (s : kst) : kst :=
  let i := (pg - KERNBASE) / PGSIZE in
  let s1 := set_page i (pg_is_pt 1 (page_of s i)) s in
  set_page i (pg_vaddr 0 (page_of s1 i)) s1.

Lemma mark_table_frame pg s : is_page pg -> tbl_frame s (mark_table pg s).
Proof.
  intros (_ & Hr & _). split; [done|done| |].
  - intros i. unfold mark_table. repeat split; pages.
  - intros i Hi. assert (i <> (pg - KERNBASE) / PGSIZE).
    { unfold PHYSTOP, KERNBASE, PGSIZE in *. dlia. }
    unfold mark_table. rewrite !page_of_set, !decide_False by congruence. done.
Qed.

Lemma new_table_run n s l P k pg : free_ok s (pg :: l) ->
  wp (new_table n P k) (fun r s' => r = Some pg /\ exists f, flist (memset (mem s) pg 5 PGSIZE) f l /\
    s' = mark_table pg (set_freelist f (set_mem (table_mem (mem s) pg P k) s))) s.
Proof.
  intros F. assert (is_page pg) as (Hal & Hr & H0) by (apply (fr_page _ _ F), list_elem_of_here).
  unfold new_table. apply wp_bind. eapply wp_mono; [by apply kalloc_ok|]. cbn beta.
  intros _ s1 (-> & F1 & Es). assert ((pg =? 0) = false) as -> by (apply Z.eqb_neq; lia).
  unfold setmem, upd_page, store64, setmem. wp_steps. split; [done|]. exists (freelist s1).
  assert (mem s1 = memset (mem s) pg 5 PGSIZE) as Em by (rewrite Es; done).
  split; [rewrite <- Em; apply F1|]. rewrite Es. reflexivity.
Qed.

Lemma new_table_ok n s t l P k pg : pinv s t (pg :: l) -> ptpage t P -> 0 <= k < 512 ->
  wp (new_table n P k) (fun r s' => r = Some pg /\ free_ok s' l /\
    has_mem s' (table_mem (mem s) pg P k) /\ tbl_frame s s') s.
Proof.
  intros [R F D] HP Hk. pose proof (pt_pages _ _ R P HP) as HPok.
  assert (~ ptpage t pg) as Hfresh by (apply D, list_elem_of_here).
  assert (is_page pg) as Hpg by (apply (fr_page _ _ F), list_elem_of_here).
  pose proof (is_page_pg_ok pg Hpg) as Hpk.
  eapply wp_mono; [by apply new_table_run|]. cbn beta. intros r s' (-> & f & Hfl & ->).
  split; [done|]. pose proof (fr_nodup _ _ F) as [Hnl Hnd]%NoDup_cons.
  assert (forall q, q ∈ l -> is_page q) as Hlp by (intros q Hq; apply (fr_page _ _ F); by constructor).
  split; [|split; [split; reflexivity|]].
  - split; [|done|done|apply F]. change (flist (table_mem (mem s) pg P k) f l).
    apply table_mem_flist; try done.
    + intros Hc. apply (D P); [by constructor|done].
    + eapply flist_outside; [|apply Hpg|exact Hnl|exact Hlp|exact Hfl].
      intros a Ha. by rewrite memset_outside.
  - eapply tbl_frame_trans; [|by apply mark_table_frame]. by split.
Qed.

Section grow.
Context (s s' : kst) (t : ptree) (l : list Z) (pg : Z).
Context (I : pinv s t (pg :: l)) (F' : free_ok s' l) (Hfr : tbl_frame s s').

Lemma grow_pg : is_page pg /\ pg_ok pg /\ ~ ptpage t pg.
Proof using I.
  destruct I as [R F D]. assert (is_page pg) by (apply (fr_page _ _ F), list_elem_of_here).
  split; [done|]. split; [by apply is_page_pg_ok|]. apply D, list_elem_of_here.
Qed.

Lemma grow_fresh q : q ∈ l -> ~ ptpage t q /\ q <> pg.
Proof using I.
  intros Hq. destruct I as [R F D]. split; [apply D; by constructor|].
  pose proof (fr_nodup _ _ F) as [Hnl _]%NoDup_cons. congruence.
Qed.

Lemma grow_outside P k a : has_mem s' (table_mem (mem s) pg P k) -> ptpage t P -> 0 <= k < 512 ->
  (forall p, ptpage t p \/ p ∈ pg :: l -> ~ in_page p a) -> rd8 (mem s') a = rd8 (mem s) a.
Proof using Type.
  intros Em HP Hk Ha. rewrite (hm_eq _ _ Em). apply table_mem_only.
  - apply Ha. right. apply list_elem_of_here.
  - intros Hin. apply (Ha P); [by left|]. unfold in_page, PGSIZE. lia.
Qed.

Lemma grow_mid i : mid t !! i = None -> 0 <= i < 512 -> has_mem s' (table_mem (mem s) pg (root t) i) ->
  grows s t (pg :: l) s' (add_mid i pg t) l.
Proof using I F' Hfr.
  intros Hn Hi Em. destruct grow_pg as (G1 & G2 & G3). pose proof (pi_rep _ _ _ I) as R.
  assert (pg_ok (root t)) as Hroot by (apply R; by left).
  assert (root t <> pg) as Hne by (intros E; apply G3; by left).
  pose proof (table_mem_only (mem s) pg (root t) i) as Ho.
  assert (forall p, ptpage (add_mid i pg t) p -> ptpage t p \/ p = pg) as Hsrc.
  { intros p [->|[[j Hj]|[k Hk]]]; [left; by left| |left; right; right; by exists k].
    cbn in Hj. apply lookup_insert_Some in Hj as [[_ <-]|[_ Hj]]; [by right|left; right; left; by exists j]. }
  split; [|reflexivity| | | | |exact Hfr].
  - split; [|exact F'|].
    + rewrite (hm_eq _ _ Em). clear Em. apply (add_mid_rep (mem s)); try assumption; [by apply table_mem_entry|].
      intros k Hk. by apply table_mem_zero.
    + clear Em. intros q Hq Hp. destruct (grow_fresh q Hq) as [? ?]. apply Hsrc in Hp as [?| ->]; done.
  - intros va. rewrite (hm_eq _ _ Em). clear Em. by apply (add_mid_pte (mem s)).
  - intros a. apply (grow_outside (root t) i a); [assumption|by left|assumption].
  - clear Em. intros p [?| ->]%Hsrc; [by left|right; apply list_elem_of_here].
  - clear Em. intros q Hq. by constructor.
Qed.

Lemma grow_leaf i j p : mid t !! i = Some p -> leaf t !! (i, j) = None -> 0 <= j < 512 ->
  has_mem s' (table_mem (mem s) pg p j) -> grows s t (pg :: l) s' (add_leaf (i, j) pg t) l.
Proof using I F' Hfr.
  intros Hp Hn Hj Em. destruct grow_pg as (G1 & G2 & G3). pose proof (pi_rep _ _ _ I) as R.
  assert (ptpage t p) as Hpp by (right; left; by exists i).
  assert (pg_ok p) as Hpok by by apply R.
  assert (p <> pg) as Hne by (intros ->; done).
  pose proof (table_mem_only (mem s) pg p j) as Ho.
  assert (forall q, ptpage (add_leaf (i, j) pg t) q -> ptpage t q \/ q = pg) as Hsrc.
  { intros q [->|[[k Hk]|[k Hk]]]; [left; by left|left; right; left; by exists k|].
    cbn in Hk. apply lookup_insert_Some in Hk as [[_ <-]|[_ Hk]]; [by right|left; right; right; by exists k]. }
  assert (forall k, 0 <= k < 512 -> entry (mem s') pg k = 0) as Hz
    by (intros k Hk; rewrite (hm_eq _ _ Em); clear Em; by apply table_mem_zero).
  split; [|reflexivity| | | | |exact Hfr].
  - split; [|exact F'|].
    + rewrite (hm_eq _ _ Em). clear Em Hz. apply (add_leaf_rep (mem s) _ t i j p); try assumption. by apply table_mem_entry.
    + clear Em Hz. intros q Hq Hp'. destruct (grow_fresh q Hq) as [? ?]. apply Hsrc in Hp' as [?| ->]; done.
  - intros va. rewrite (hm_eq _ _ Em) in *. clear Em. apply (add_leaf_pte (mem s) _ t i j p); assumption.
  - intros a. apply (grow_outside p j a); assumption.
  - clear Em Hz. intros q [?| ->]%Hsrc; [by left|right; apply list_elem_of_here].
  - clear Em Hz. intros q Hq. by constructor.
Qed.
End grow.

(** ** [walk] *)

(** Without [alloc]: the address of the entry, or 0; nothing changes. *)
Lemma walk_ok ka s t va : pt_rep (mem s) t -> 0 <= va < MAXVA ->
  wp (walk ka (root t) va false) (fun r s' => r = default 0 (pte_addr t va) /\ s' = s) s.
Proof.
  intros R Hva. unfold walk. assert ((MAXVA <=? va) = false) as -> by (apply Z.leb_gt; lia).
  pose proof (PX_range 2 va ltac:(lia)) as X2. pose proof (PX_range 1 va ltac:(lia)) as X1.
  unfold walk_level, load64. apply wp_bind, wp_bind, wp_gets.
  pose proof (pt_root _ _ R _ X2) as H2. fold (entry (mem s) (root t) (PX 2 va)).
  destruct (mid t !! PX 2 va) as [p|] eqn:E2; cbn [points] in H2.
  - assert (pg_ok p) as Hp by (apply R; right; left; by eexists).
    rewrite H2. destruct (dir_entry_valid p Hp) as [-> ->]. apply wp_ret. cbn beta iota.
    apply wp_bind, wp_bind, wp_gets. fold (entry (mem s) p (PX 1 va)).
    pose proof (pt_mid _ _ R _ _ _ E2 X1) as H1. unfold pte_addr.
    destruct (leaf t !! (PX 2 va, PX 1 va)) as [q|] eqn:E1; cbn [points] in H1.
    + assert (pg_ok q) as Hq by (by eapply leaf_page).
      rewrite H1. destruct (dir_entry_valid q Hq) as [-> ->]. done.
    + rewrite H1. done.
  - rewrite H2. unfold pte_addr. destruct (leaf t !! (PX 2 va, PX 1 va)) as [q|] eqn:E1; [|done].
    apply (pt_leaf _ _ R) in E1. rewrite E2 in E1. by destruct E1.
Qed.

(** With [alloc] and free pages: the table grows until the entry exists. *)
Lemma walk_alloc_ok n s t l va : pinv s t l -> (2 <= length l)%nat -> 0 <= va < MAXVA ->
  wp (walk (kalloc (S n)) (root t) va true) (fun r s' => exists t' l',
    grows s t l s' t' l' /\ (length l <= length l' + 2)%nat /\ pte_addr t' va = Some r) s.
Proof.
  intros I Hl Hva. unfold walk. assert ((MAXVA <=? va) = false) as -> by (apply Z.leb_gt; lia).
  pose proof (PX_range 2 va ltac:(lia)) as X2. pose proof (PX_range 1 va ltac:(lia)) as X1.
  apply wp_bind. apply (wp_mono _ (fun o s' => exists t' l' p, o = Some p /\ grows s t l s' t' l' /\
    (length l <= length l' + 1)%nat /\ mid t' !! PX 2 va = Some p)).
  - unfold walk_level, load64. apply wp_bind, wp_gets. fold (entry (mem s) (root t) (PX 2 va)).
    pose proof (pt_root _ _ (pi_rep _ _ _ I) _ X2) as H2.
    destruct (mid t !! PX 2 va) as [p|] eqn:E2; cbn [points] in H2.
    + assert (pg_ok p) as Hp by (apply (pi_rep _ _ _ I); right; left; by eexists).
      rewrite H2. destruct (dir_entry_valid p Hp) as [-> ->]. apply wp_ret.
      exists t, l, p. split; [done|]. split; [by apply grows_refl|]. split; [lia|done].
    + rewrite H2. cbn [negb]. destruct l as [|pg l]; [cbn in Hl; lia|].
      change (wp (new_table n (root t) (PX 2 va)) (fun o s' => exists t' l' p, o = Some p /\
        grows s t (pg :: l) s' t' l' /\ (length (pg :: l) <= length l' + 1)%nat /\
        mid t' !! PX 2 va = Some p) s).
      eapply wp_mono; [apply (new_table_ok n s t l); [done|by left|done]|]. cbn beta.
      intros r s' (-> & F' & Em & Hfr). exists (add_mid (PX 2 va) pg t), l, pg.
      split; [reflexivity|]. split; [apply grow_mid; assumption|]. clear Em. split; [cbn; lia|].
      cbn. by rewrite lookup_insert_eq.
  - intros o s1 (t1 & l1 & p & -> & G1 & Hl1 & Em1). pose proof (g_inv _ _ _ _ _ _ G1) as I1.
    apply wp_bind. unfold walk_level, load64. apply wp_bind, wp_gets. fold (entry (mem s1) p (PX 1 va)).
    pose proof (pt_mid _ _ (pi_rep _ _ _ I1) _ _ _ Em1 X1) as H1.
    destruct (leaf t1 !! (PX 2 va, PX 1 va)) as [q|] eqn:E1; cbn [points] in H1.
    + assert (pg_ok q) as Hq by (eapply leaf_page; [apply I1|done]).
      rewrite H1. destruct (dir_entry_valid q Hq) as [-> ->]. apply wp_ret, wp_ret.
      exists t1, l1. split; [done|]. split; [lia|]. unfold pte_addr. by rewrite E1.
    + rewrite H1. cbn [negb]. destruct l1 as [|pg l1]; [cbn in Hl1; lia|].
      eapply wp_mono; [apply (new_table_ok n s1 t1 l1 p (PX 1 va) pg); [done|right; left; by eexists|done]|].
      cbn beta. intros r s2 (-> & F2 & Em & Hfr). apply wp_ret.
      exists (add_leaf (PX 2 va, PX 1 va) pg t1), l1. split; [|clear Em; split; [cbn in *; lia|]].
      * eapply grows_trans; [exact G1|].
        apply (grow_leaf s1 s2 t1 l1 pg I1 F2 Hfr _ _ p); assumption.
      * unfold pte_addr. cbn. by rewrite lookup_insert_eq.
Qed.

(** ** Writing a leaf entry *)

Definition same_vpage (va va' : Z) : Prop := va / PGSIZE = va' / PGSIZE.
#[export] Instance same_vpage_dec va va' : Decision (same_vpage va va').
Proof. unfold same_vpage. apply _. Defined.

Lemma PX_same_page level va va' : 0 <= level -> same_vpage va va' -> PX level va = PX level va'.
Proof.
  intros Hl E. unfold same_vpage, PGSIZE in E. rewrite !PX_spec by done.
  replace (2 ^ (12 + 9 * level)) with (4096 * 2 ^ (9 * level)) by (rewrite Z.pow_add_r by lia; done).
  assert (0 < 2 ^ (9 * level)) by (apply Z.pow_pos_nonneg; lia).
  by rewrite <- !Z.div_div, E by lia.
Qed.

Lemma PX_other_page va va' : 0 <= va < MAXVA -> 0 <= va' < MAXVA -> ~ same_vpage va va' ->
  PX 2 va <> PX 2 va' \/ PX 1 va <> PX 1 va' \/ PX 0 va <> PX 0 va'.
Proof.
  intros H1 H2 Hne. destruct (decide (PX 2 va = PX 2 va')) as [E2|]; [|by left].
  destruct (decide (PX 1 va = PX 1 va')) as [E1|]; [|by right; left].
  destruct (decide (PX 0 va = PX 0 va')) as [E0|]; [|by right; right]. exfalso. apply Hne.
  unfold same_vpage, PGSIZE. pose proof (PX_decompose va H1). pose proof (PX_decompose va' H2).
  rewrite E2, E1, E0 in *. dlia.
Qed.

Lemma leaf_range m t va p : pt_rep m t -> leaf t !! (PX 2 va, PX 1 va) = Some p ->
  pg_ok p /\ 0 <= PX 0 va < 512 /\ p <> root t /\ (forall i q, mid t !! i = Some q -> q <> p).
Proof.
  intros R Hl. split; [by eapply leaf_page|]. split; [apply PX_range; lia|].
  split; [intros ->; by apply (pt_d2 _ _ R) in Hl|]. intros i q Hq ->. by apply (pt_d3 _ _ R _ _ _ Hq) in Hl.
Qed.

Lemma entry_wr64_ne m P k P' k' v : pg_ok P -> pg_ok P' -> 0 <= k < 512 -> 0 <= k' < 512 ->
  (P', k') <> (P, k) -> entry (wr64 m (P + 8 * k) v) P' k' = entry m P' k'.
Proof. intros. unfold entry. apply rd64_wr64_ne. by apply entry_disjoint. Qed.

Lemma store_leaf_pte m t va r v va' : pt_rep m t -> pte_addr t va = Some r ->
  0 <= va < MAXVA -> 0 <= va' < MAXVA -> 0 <= v < 2 ^ 64 ->
  pte_of (wr64 m r v) t va' = if decide (same_vpage va' va) then v else pte_of m t va'.
Proof.
  intros R Hr Hva Hva' Hv. unfold pte_addr in Hr. apply fmap_Some in Hr as (p & Hp & ->).
  destruct (leaf_range _ _ _ _ R Hp) as (Hpk & Hx & _).
  case_decide as E.
  - unfold pte_of, pte_addr. rewrite !(PX_same_page _ va' va) by (done || lia). rewrite Hp. cbn.
    by apply rd64_wr64_eq.
  - destruct (leaf t !! (PX 2 va', PX 1 va')) as [q|] eqn:Eq; [|by rewrite !pte_of_None].
    rewrite !(pte_of_leaf _ _ _ q) by done.
    destruct (leaf_range _ _ _ _ R Eq) as (Hqk & Hx' & _).
    apply entry_wr64_ne; try done. intros [= -> E0].
    pose proof (pt_d5 _ _ R _ _ _ Eq Hp) as [= E2 E1].
    destruct (PX_other_page va' va Hva' Hva E) as [|[|]]; done.
Qed.

Lemma store_leaf_rep m t va r v : pt_rep m t -> pte_addr t va = Some r -> pt_rep (wr64 m r v) t.
Proof.
  intros R Hr. unfold pte_addr in Hr. apply fmap_Some in Hr as (p & Hp & ->).
  destruct (leaf_range _ _ _ _ R Hp) as (Hpk & Hx & Hnr & Hnm).
  assert (forall P k, ptpage t P -> P <> p -> 0 <= k < 512 ->
    entry (wr64 m (p + 8 * PX 0 va) v) P k = entry m P k) as E.
  { intros P k HP Hne Hk. apply entry_wr64_ne; try done; [by apply R|congruence]. }
  destruct R as [P0 P1 P2 P3 D1 D2 D3 D4 D5]. split; try assumption.
  - intros i Hi. rewrite E; [by apply P1|by left|congruence|done].
  - intros i q j Hq Hj. rewrite E; [by apply P2|right; left; by exists i|by eapply Hnm|done].
Qed.

Lemma store_leaf_free m t va r v f l : pt_rep m t -> pte_addr t va = Some r ->
  (forall p, p ∈ l -> ~ ptpage t p) -> (forall p, p ∈ l -> is_page p) ->
  flist m f l -> flist (wr64 m r v) f l.
Proof.
  intros R Hr D Hp. unfold pte_addr in Hr. apply fmap_Some in Hr as (p & Hpl & ->).
  destruct (leaf_range _ _ _ _ R Hpl) as (Hpk & Hx & _).
  apply flist_ext. intros q Hq. pose proof (is_page_pg_ok q (Hp q Hq)) as Hqk.
  pose proof (entry_wr64_ne m p (PX 0 va) q 0 v Hpk Hqk Hx ltac:(lia)) as E.
  unfold entry in E. rewrite Z.mul_0_r, Z.add_0_r in E. apply E.
  intros [= -> _]. apply (D p Hq). right; right. by eexists.
Qed.

Lemma store_leaf_inv s t l va r v : pinv s t l -> pte_addr t va = Some r ->
  pinv (set_mem (wr64 (mem s) r v) s) t l.
Proof.
  intros [R [Fl Fd Fp Fk] D] Hr. split; [by eapply store_leaf_rep| |exact D].
  split; [|exact Fd|exact Fp|exact Fk]. cbn [mem freelist set_mem].
  by eapply store_leaf_free.
Qed.

(** ** [mappages] *)

Record kinv (s : kst) (t : ptree) (l ll : list Z) : Prop := {
  ki_p : pinv s t l;
  ki_lru : lru_ok s ll;
  ki_lock : PTE_LOCK ∉ held s;
}.

(** From [s] to [s'] entries of virtual addresses may have changed; tables grew
    by pages of the free list, other memory did not change. *)
Record extends (s : kst) (t : ptree) (l : list Z) (s' : kst) (t' : ptree) (l' : list Z) : Prop := {
  e_root : root t' = root t;
  e_mem : forall a, (forall p, ptpage t p \/ p ∈ l -> ~ in_page p a) -> rd8 (mem s') a = rd8 (mem s) a;
  e_src : forall p, ptpage t' p -> ptpage t p \/ p ∈ l;
  e_sub : forall p, p ∈ l' -> p ∈ l;
}.

Lemma extends_refl s t l : extends s t l s t l.
Proof. split; auto. Qed.
Lemma extends_trans s1 t1 l1 s2 t2 l2 s3 t3 l3 :
  extends s1 t1 l1 s2 t2 l2 -> extends s2 t2 l2 s3 t3 l3 -> extends s1 t1 l1 s3 t3 l3.
Proof.
  intros [A1 A2 A3 A4] [B1 B2 B3 B4]. split; [congruence| | |auto].
  - intros a Ha. rewrite B2, A2; [done|done|]. intros p [Hp|Hp]; apply Ha; auto.
  - intros p [Hp|Hp]%B3; auto.
Qed.
Lemma grows_extends s t l s' t' l' : grows s t l s' t' l' -> extends s t l s' t' l'.
Proof. by intros [A1 A2 A3 A4 A5 A6 A7]. Qed.

Lemma kinv_grows s t l ll s' t' l' : kinv s t l ll -> grows s t l s' t' l' -> kinv s' t' l' ll.
Proof.
  intros [I (Hll & H1 & H2) H3] G. destruct (g_frame _ _ _ _ _ _ G) as [(A1&A2&A3&A4) (B1&B2&B3&B4&B5) C D].
  split; [apply G| |].
  - split; [eapply (ll_ext s); [done|done..|]; intros i; destruct (C i) as (?&?&?); done|].
    change (PAGE_LOCK ∉ held (kbio s') /\ LRU_LOCK ∉ held (kbio s')). by rewrite B5.
  - change (PTE_LOCK ∉ held (kbio s')). by rewrite B5.
Qed.

Lemma set_pte_run s r v : PTE_LOCK ∉ held s ->
  wp (set_pte r v) (fun _ s' => s' = set_mem (wr64 (mem s) r v) s) s.
Proof.
  intros Hk. unfold set_pte, store64, setmem. apply wp_bind, wp_acquire; [done|].
  apply wp_bind, wp_modify, wp_release; [cbn; set_solver|].
  transitivity (set_mem (wr64 (mem s) r v) (set_held (({[PTE_LOCK]} ∪ held s) ∖ {[PTE_LOCK]}) s)); [reflexivity|].
  by rewrite held_acq_rel, set_held_held.
Qed.

Lemma set_pte_ok s t l ll va r v : kinv s t l ll -> pte_addr t va = Some r -> 0 <= va < MAXVA ->
  0 <= v < 2 ^ 64 ->
  wp (set_pte r v) (fun _ s' => kinv s' t l ll /\ extends s t l s' t l /\
    tbl_frame s s' /\
    forall va', 0 <= va' < MAXVA -> pte_of (mem s') t va' =
      if decide (same_vpage va' va) then v else pte_of (mem s) t va') s.
Proof.
  intros [I Hlru Hk] Hr Hva Hv. eapply wp_mono; [by apply set_pte_run|]. cbn beta. intros _ s' ->.
  assert (pinv (set_mem (wr64 (mem s) r v) s) t l) as I' by by eapply store_leaf_inv.
  split; [|split; [|split; [by split|]]].
  - split; [exact I'| |exact Hk]. destruct Hlru as (Hll & H1 & H2). split; [|split; [exact H1|exact H2]].
    apply (ll_ext s); [exact Hll|reflexivity..|]. intros i. split; [|split]; reflexivity.
  - split; [reflexivity| |intros; by left|done]. intros a Ha. cbn [mem set_mem]. apply rd8_wr64_ne.
    unfold pte_addr in Hr. apply fmap_Some in Hr as (p & Hp & ->).
    destruct (leaf_range _ _ _ _ (pi_rep _ _ _ I) Hp) as (_ & Hx & _).
    assert (~ in_page p a) as Hn by (apply Ha; left; right; right; by eexists).
    unfold in_page, PGSIZE in Hn. lia.
  - intros va' Hva'. cbn [mem set_mem]. apply store_leaf_pte; try assumption. apply I.
Qed.

(** Adding the page to the list leaves the tables alone. *)
Lemma map_lru_ok s t l ll pt a pa perm : kinv s t l ll -> a < MAXVA ->
  (tst perm PTE_U = true -> 0 <= pa < PHYSTOP) ->
  wp (map_lru pt a pa perm) (fun _ s' => mem s' = mem s /\ exists ll', kinv s' t l ll') s.
Proof.
  intros K Ha Hpa. unfold map_lru. apply wp_when; intros Hu; [|by split; [|exists ll]].
  cbn zeta. apply wp_bind, wp_gets. set (i := pa / PGSIZE).
  apply wp_when; intros Hc; [|by split; [|exists ll]]. to_prop.
  destruct K as [I Hlru Hk].
  eapply wp_mono; [apply (lru_add_ok s ll i pt a true Hlru); [| |lia|done]|].
  - intros Hin. by apply (ll_flag _ _ (proj1 Hlru)) in Hin.
  - specialize (Hpa Hu). unfold i. split; [apply Z.div_pos; unfold PGSIZE; lia|].
    apply Z.div_lt_upper_bound; [by unfold PGSIZE|]. change (PGSIZE * (PHYSTOP / PGSIZE)) with PHYSTOP. lia.
  - cbn beta. intros _ s' (Hok & (F1&F2&_&_&_&_&_&_&_&F10) & _). split; [exact F1|].
    exists (ll ++ [i]). destruct I as [R [Fl Fd Fp Fk] D].
    split; [split; [by rewrite F1|split; [by rewrite F1, F2|exact Fd|exact Fp|]|exact D]|exact Hok|].
    + change (KMEM_LOCK ∉ held (kbio s')). by rewrite F10.
    + change (PTE_LOCK ∉ held (kbio s')). by rewrite F10.
Qed.

Definition leaf_pte (pa perm : Z) : Z := Z.lor (Z.lor (PA2PTE pa) perm) PTE_V.

Lemma leaf_pte_bound pa perm : 0 <= pa < 2 ^ 56 -> 0 <= perm < 1024 -> 0 <= leaf_pte pa perm < 2 ^ 64.
Proof.
  intros Hpa Hp. unfold leaf_pte. rewrite <- Z.lor_assoc.
  assert (0 <= Z.lor perm PTE_V < 1024) as Hb.
  { split; [apply Z.lor_nonneg; split; [lia|by unfold PTE_V]|]. change 1024 with (2 ^ 10).
    destruct (decide (Z.lor perm PTE_V = 0)) as [->|]; [done|].
    apply Z.log2_lt_pow2; [assert (0 <= Z.lor perm PTE_V) by (apply Z.lor_nonneg; split; [lia|by unfold PTE_V]); lia|].
    rewrite Z.log2_lor by (lia || by unfold PTE_V). apply Z.max_lub_lt; [|by unfold PTE_V].
    destruct (decide (perm = 0)) as [->|]; [done|]. apply Z.log2_lt_pow2; lia. }
  rewrite pte_lor by done. change (2 ^ 56) with 72057594037927936 in Hpa.
  change (2 ^ 64) with 18446744073709551616. dlia.
Qed.

(** One turn of the loop of [mappages]. *)
Definition map_turn (n : nat) (pagetable last perm : Z) (x : Z * Z) : M kst (Z * Z + Z) :=
  let '(a, pa) := x in
  pte ← walk (kalloc (S n)) pagetable a true;
  if pte =? 0 then mret (inr (-1)) else
  v ← load64 pte;
  if tst v PTE_V then panic "mappages: remap" else
  set_pte pte (Z.lor (Z.lor (PA2PTE pa) perm) PTE_V);;
  map_lru pagetable a pa perm;;
  if a =? last then mret (inr 0)
  else mret (inl (u64 (a + PGSIZE), u64 (pa + PGSIZE))).

Lemma map_turn_ok n s t l ll last a pa perm : kinv s t l ll -> (2 <= length l)%nat ->
  0 <= a < MAXVA -> tst (pte_of (mem s) t a) PTE_V = false -> 0 <= pa < 2 ^ 56 ->
  0 <= perm < 1024 -> (tst perm PTE_U = true -> 0 <= pa < PHYSTOP) ->
  wp (map_turn n (root t) last perm (a, pa)) (fun r s' =>
    r = (if a =? last then inr 0 else inl (u64 (a + PGSIZE), u64 (pa + PGSIZE))) /\
    exists t' l' ll', kinv s' t' l' ll' /\ extends s t l s' t' l' /\ (length l <= length l' + 2)%nat /\
    forall va, 0 <= va < MAXVA -> pte_of (mem s') t' va =
      if decide (same_vpage va a) then leaf_pte pa perm else pte_of (mem s) t va) s.
Proof.
  intros K Hl Ha Hv Hpa Hperm Hu. unfold map_turn. apply wp_bind.
  eapply wp_mono; [apply walk_alloc_ok; [apply K|done|done]|]. cbn beta.
  intros r s1 (t1 & l1 & G & Hl1 & Hr). pose proof (kinv_grows _ _ _ _ _ _ _ K G) as K1.
  assert (pte_of (mem s1) t1 a = rd64 (mem s1) r) as Ev by (unfold pte_of; by rewrite Hr).
  assert (r <> 0) as Hr0.
  { unfold pte_addr in Hr. apply fmap_Some in Hr as (p & Hp & ->).
    destruct (leaf_range _ _ _ _ (pi_rep _ _ _ (ki_p _ _ _ _ K1)) Hp) as ((_ & ?) & ? & _). lia. }
  apply Z.eqb_neq in Hr0 as ->. unfold load64. apply wp_bind, wp_gets.
  rewrite <- Ev, (g_pte _ _ _ _ _ _ G), Hv.
  apply wp_bind. eapply wp_mono; [apply (set_pte_ok s1 t1 l1 ll a r); [done|done|done|by apply leaf_pte_bound]|].
  cbn beta. intros _ s2 (K2 & E2 & _ & Hp2).
  apply wp_bind. eapply wp_mono; [apply (map_lru_ok s2 t1 l1 ll); [done|lia|done]|].
  cbn beta. intros _ s3 (Em & ll3 & K3).
  assert (exists t' l' ll', kinv s3 t' l' ll' /\ extends s t l s3 t' l' /\ (length l <= length l' + 2)%nat /\
    forall va, 0 <= va < MAXVA -> pte_of (mem s3) t' va =
      if decide (same_vpage va a) then leaf_pte pa perm else pte_of (mem s) t va) as HR.
  { exists t1, l1, ll3. split; [done|]. split; [|split; [done|]].
    - eapply extends_trans; [by apply grows_extends|]. destruct E2 as [X1 X2 X3 X4].
      split; [done| |done|done]. intros x Hx. rewrite Em. by apply X2.
    - intros va Hva. rewrite Em, Hp2 by done. case_decide; [done|]. apply G. }
  destruct (a =? last); apply wp_ret; by split.
Qed.

(** The entry of [v] after [n] pages were mapped from [va] to [pa]. *)
Definition mapped (old : Z -> Z) (va pa perm n v : Z) : Z :=
  if decide (va <= v < va + n * PGSIZE) then leaf_pte (pa + (v - va) / PGSIZE * PGSIZE) perm else old v.

Lemma mapped_step old va pa perm i v : va mod PGSIZE = 0 -> 0 <= i ->
  (if decide (same_vpage v (va + i * PGSIZE)) then leaf_pte (pa + i * PGSIZE) perm
   else mapped old va pa perm i v) = mapped old va pa perm (i + 1) v.
Proof.
  intros Hva Hi. unfold mapped, same_vpage, PGSIZE in *. repeat case_decide; try done.
  - f_equal. assert ((v - va) / 4096 = i) as -> by dlia. done.
  - exfalso. dlia.
  - exfalso. dlia.
  - exfalso. dlia.
Qed.

(** The postcondition of [mappages] when it succeeds. *)
Record mapped_ok (s : kst) (t : ptree) (l : list Z) (va pa perm n : Z) (s' : kst) (t' : ptree)
    (l' ll' : list Z) : Prop := {
  mo_inv : kinv s' t' l' ll';
  mo_ext : extends s t l s' t' l';
  mo_len : Z.of_nat (length l) <= Z.of_nat (length l') + 2 * n;
  mo_pte : forall v, 0 <= v < MAXVA ->
    pte_of (mem s') t' v = mapped (pte_of (mem s) t) va pa perm n v;
}.

Lemma mappages_ok fuel s t l ll va n pa perm : kinv s t l ll ->
  va mod PGSIZE = 0 -> 0 <= va -> 1 <= n -> va + n * PGSIZE <= MAXVA ->
  0 <= pa -> pa + n * PGSIZE <= 2 ^ 56 -> 0 <= perm < 1024 ->
  (tst perm PTE_U = true -> pa + n * PGSIZE <= PHYSTOP) -> 2 * n <= Z.of_nat (length l) ->
  (forall i, 0 <= i < n -> tst (pte_of (mem s) t (va + i * PGSIZE)) PTE_V = false) ->
  wp (mappages (S fuel) (root t) va (n * PGSIZE) pa perm) (fun r s' => r = 0 /\
    exists t' l' ll', mapped_ok s t l va pa perm n s' t' l' ll') s.
Proof.
  intros K Hal Hva Hn Hmax Hpa Hpm Hperm Hu Hl Hun. unfold mappages.
  rewrite Hal. cbn [negb Z.eqb].
  assert ((n * PGSIZE) mod PGSIZE = 0) as -> by (unfold PGSIZE; dlia). cbn [negb Z.eqb].
  assert ((n * PGSIZE =? 0) = false) as -> by (apply Z.eqb_neq; unfold PGSIZE; lia).
  assert (u64 (va + n * PGSIZE - PGSIZE) = va + (n - 1) * PGSIZE) as ->.
  { unfold u64. rewrite Z.mod_small; [unfold PGSIZE; lia|].
    change MAXVA with 274877906944 in Hmax. unfold PGSIZE in *. lia. }
  set (last := va + (n - 1) * PGSIZE).
  assert (n * PGSIZE / PGSIZE = n) as -> by (apply Z.div_mul; by unfold PGSIZE).
  apply (wp_loop _ (fun x s' => exists i t' l' ll', x = (va + i * PGSIZE, pa + i * PGSIZE) /\
    0 <= i < n /\ mapped_ok s t l va pa perm i s' t' l' ll')
    (fun x _ => Z.to_nat ((last - fst x) / PGSIZE))).
  - intros x s1 (i & t1 & l1 & ll1 & -> & Hi & [K1 E1 L1 P1]).
    assert (0 <= va + i * PGSIZE < MAXVA) as Hai by (unfold PGSIZE in *; lia).
    rewrite <- (e_root _ _ _ _ _ _ E1).
    eapply wp_mono; [apply (map_turn_ok fuel s1 t1 l1 ll1 last); try done|].
    + lia.
    + rewrite P1 by done. unfold mapped. rewrite decide_False by lia. apply Hun. lia.
    + unfold PGSIZE in *. lia.
    + intros Hu'. specialize (Hu Hu'). unfold PGSIZE in *. lia.
    + cbn beta. intros r s2 (-> & t2 & l2 & ll2 & K2 & E2 & L2 & P2).
      assert (mapped_ok s t l va pa perm (i + 1) s2 t2 l2 ll2) as MO.
      { split; [done|by eapply extends_trans|lia|]. intros v Hv. rewrite P2 by done. rewrite P1 by done.
        by rewrite mapped_step by lia. }
      destruct (va + i * PGSIZE =? last) eqn:El; to_prop.
      * split; [done|]. exists t2, l2, ll2. replace n with (i + 1); [done|]. unfold last, PGSIZE in El. lia.
      * assert (i + 1 < n) by (unfold last, PGSIZE in El; lia).
        split.
        -- exists (i + 1), t2, l2, ll2. split; [|split; [lia|done]]. change MAXVA with 274877906944 in *.
           unfold u64, PGSIZE in *. rewrite !Z.mod_small by lia. f_equal; lia.
        -- cbn [fst]. unfold last. change MAXVA with 274877906944 in *. unfold u64, PGSIZE in *.
           rewrite Z.mod_small by lia. dlia.
  - exists 0, t, l, ll. split; [f_equal; lia|]. split; [lia|].
    split; [done|apply extends_refl|lia|]. intros v Hv. unfold mapped. rewrite decide_False by lia. done.
  - cbn [fst]. unfold last, PGSIZE. dlia.
Qed.

(** ** [uvmunmap] without freeing *)

Definition unmapped (old : Z -> Z) (va n v : Z) : Z :=
  if decide (va <= v < va + n * PGSIZE) then 0 else old v.

Lemma unmapped_step old va i v : va mod PGSIZE = 0 -> 0 <= i ->
  (if decide (same_vpage v (va + i * PGSIZE)) then 0 else unmapped old va i v) = unmapped old va (i + 1) v.
Proof.
  intros Hva Hi. unfold unmapped, same_vpage, PGSIZE in *. repeat case_decide; try done; exfalso; dlia.
Qed.

Definition mapped_leaf (v : Z) : Prop :=
  tst v PTE_V = true /\ PTE_FLAGS v <> PTE_V /\ tst v PTE_SWAP = false.

Lemma pte_addr_of m t va : pt_rep m t -> tst (pte_of m t va) PTE_V = true ->
  exists r, pte_addr t va = Some r /\ r <> 0 /\ pte_of m t va = rd64 m r.
Proof.
  intros R Hv. unfold pte_of in *. destruct (pte_addr t va) as [r|] eqn:E; [|done].
  exists r. split; [done|]. split; [|done]. unfold pte_addr in E. apply fmap_Some in E as (p & Hp & ->).
  destruct (leaf_range _ _ _ _ R Hp) as ((_ & ?) & ? & _). lia.
Qed.

Lemma uvmunmap_ok fuel s t l ll va n : kinv s t l ll -> va mod PGSIZE = 0 -> 0 <= va -> 0 <= n ->
  va + n * PGSIZE <= MAXVA ->
  (forall i, 0 <= i < n -> mapped_leaf (pte_of (mem s) t (va + i * PGSIZE))) ->
  wp (uvmunmap fuel (root t) va n false) (fun _ s' => kinv s' t l ll /\ extends s t l s' t l /\
    forall v, 0 <= v < MAXVA -> pte_of (mem s') t v = unmapped (pte_of (mem s) t) va n v) s.
Proof.
  intros K Hal Hva Hn Hmax Hm. unfold uvmunmap. rewrite Hal. cbn [negb Z.eqb].
  assert (u64 (va + u64 (n * PGSIZE)) = va + n * PGSIZE) as ->.
  { change MAXVA with 274877906944 in Hmax. unfold u64, PGSIZE in *. rewrite (Z.mod_small (n * 4096)) by lia. apply Z.mod_small. lia. }
  replace (va + n * PGSIZE - va) with (n * PGSIZE) by lia. rewrite Z.div_mul by by unfold PGSIZE.
  eapply wp_mono; [apply (wp_for _ (fun k s' => kinv s' t l ll /\ extends s t l s' t l /\
    forall v, 0 <= v < MAXVA -> pte_of (mem s') t v = unmapped (pte_of (mem s) t) va k v))|].
  - split; [done|]. split; [apply extends_refl|]. intros v Hv. unfold unmapped. by rewrite decide_False by lia.
  - intros k s1 Hk (K1 & E1 & P1). rewrite Z2Nat.id in Hk by lia.
    assert (0 <= va + k * PGSIZE < MAXVA) as Hai by (unfold PGSIZE in *; lia).
    destruct (Hm k Hk) as (M1 & M2 & M3).
    assert (pte_of (mem s1) t (va + k * PGSIZE) = pte_of (mem s) t (va + k * PGSIZE)) as Ep.
    { rewrite P1 by done. unfold unmapped. by rewrite decide_False by lia. }
    rewrite <- Ep in M1, M2, M3.
    destruct (pte_addr_of (mem s1) t (va + k * PGSIZE)) as (r & Hr & Hr0 & Er); [apply K1|done|].
    apply wp_bind. eapply wp_mono; [apply walk_ok; [apply K1|done]|]. cbn beta. intros r' s1' [-> ->].
    rewrite Hr. cbn [from_option id]. apply Z.eqb_neq in Hr0 as ->. unfold load64. apply wp_bind, wp_gets.
    rewrite <- Er, M1. cbn [negb]. apply Z.eqb_neq in M2 as ->. rewrite M3. cbn [mwhen].
    apply wp_bind, wp_ret.
    eapply wp_mono; [apply (set_pte_ok s1 t l ll (va + k * PGSIZE)); done|]. cbn beta.
    intros _ s2 (K2 & E2 & _ & P2). split; [done|]. split; [by eapply extends_trans|].
    intros v Hv. rewrite P2 by done. rewrite P1 by done. by apply unmapped_step; lia.
  - cbn beta. intros _ s' (K' & E' & P'). rewrite Z2Nat.id in P' by lia. done.
Qed.

(** ** [walkaddr] *)

Definition user_page (v : Z) : Prop := tst v PTE_V = true /\ tst v PTE_U = true.

Lemma walkaddr_ok ka s t va : pt_rep (mem s) t -> 0 <= va < MAXVA ->
  user_page (pte_of (mem s) t va) ->
  wp (walkaddr ka (root t) va) (fun r s' => r = PTE2PA (pte_of (mem s) t va) /\ s' = s) s.
Proof.
  intros R Hva [H1 H2]. destruct (pte_addr_of _ _ _ R H1) as (r & Hr & Hr0 & Er).
  unfold walkaddr. apply wp_bind. eapply wp_mono; [by apply walk_ok|]. cbn beta. intros r' s' [-> ->].
  rewrite Hr. cbn [from_option id]. apply Z.eqb_neq in Hr0 as ->. unfold load64. apply wp_bind, wp_gets.
  rewrite <- Er, H1. cbn [negb andb]. rewrite H2. done.
Qed.

(** A page that is neither present nor swapped, or not the user's, is not
    translated. *)
Lemma walkaddr_none ka s t va : pt_rep (mem s) t -> 0 <= va < MAXVA ->
  (let v := pte_of (mem s) t va in
   (tst v PTE_V = false /\ tst v PTE_SWAP = false) \/ (tst v PTE_V = true /\ tst v PTE_U = false)) ->
  wp (walkaddr ka (root t) va) (fun r s' => r = 0 /\ s' = s) s.
Proof.
  intros R Hva Hv. cbn zeta in Hv. unfold walkaddr. apply wp_bind. eapply wp_mono; [by apply walk_ok|]. cbn beta.
  intros r' s' [-> ->]. unfold pte_of in Hv. destruct (pte_addr t va) as [r|] eqn:E; cbn [from_option id]; [|done].
  destruct (r =? 0); [done|]. unfold load64. apply wp_bind, wp_gets. cbn [from_option] in Hv.
  destruct Hv as [[-> ->]|[-> ->]]; done.
Qed.
End with_linker.

(** ** A concrete machine

    Two free pages, and a table whose only mapped page is the one at address 0. *)
Definition demo_tree : ptree := PT 0x80200000 {[0 := 0x80201000]} {[(0, 0) := 0x80202000]}.
Definition demo_flags : Z := PTE_R + PTE_W + PTE_U + PTE_V.
Definition demo_mem : memory :=
  wr64 (wr64 (wr64 (wr64 ∅ 0x80100000 0x80101000) 0x80200000 (dir_entry 0x80201000))
    0x80201000 (dir_entry 0x80202000)) 0x80202000 (leaf_pte 0x80300000 demo_flags).
Definition demo_kst : kst :=
  mkK demo_mem 0x80100000 ∅ None None None 0 (replicate 6 0) 0 0 0 0 0 (Bio.boot ∅ 1).

Lemma demo_rd64 a : 0 <= a -> a mod 8 = 0 -> rd64 demo_mem a =
  if decide (a = 0x80100000) then 0x80101000 else
  if decide (a = 0x80200000) then dir_entry 0x80201000 else
  if decide (a = 0x80201000) then dir_entry 0x80202000 else
  if decide (a = 0x80202000) then leaf_pte 0x80300000 demo_flags else 0.
Proof.
  intros Ha H8. unfold demo_mem.
  repeat case_decide; subst.
  - rewrite !rd64_wr64_ne by lia. by rewrite rd64_wr64_eq.
  - rewrite !rd64_wr64_ne by lia. by rewrite rd64_wr64_eq.
  - rewrite !rd64_wr64_ne by lia. by rewrite rd64_wr64_eq.
  - by rewrite rd64_wr64_eq.
  - rewrite !rd64_wr64_ne by dlia. by apply rd64_zero.
Qed.

Lemma demo_page p : ptpage demo_tree p -> p = 0x80200000 \/ p = 0x80201000 \/ p = 0x80202000.
Proof.
  intros [->|[[i Hi]|[k Hk]]]; [by left| |]; cbn in *.
  - apply lookup_singleton_Some in Hi as [_ <-]. auto.
  - apply lookup_singleton_Some in Hk as [_ <-]. auto.
Qed.

Lemma demo_rep : pt_rep demo_mem demo_tree.
Proof.
  split; cbn [root mid leaf demo_tree].
  - intros p [->|[->| ->]]%demo_page; done.
  - intros i Hi. unfold entry. rewrite demo_rd64 by dlia.
    destruct (decide (i = 0)) as [->|Hne]; [done|]. rewrite lookup_singleton_ne by done. cbn [points].
    repeat (case_decide; [lia|]). done.
  - intros i p j Hi Hj. apply lookup_singleton_Some in Hi as [<- <-]. unfold entry. rewrite demo_rd64 by dlia.
    destruct (decide (j = 0)) as [->|Hne]; [done|]. rewrite lookup_singleton_ne by congruence. cbn [points].
    repeat (case_decide; [lia|]). done.
  - intros i j p [[= <- <-] _]%lookup_singleton_Some. by exists 0x80201000.
  - by intros i [_ ?]%lookup_singleton_Some.
  - by intros i [_ ?]%lookup_singleton_Some.
  - intros i k p [_ <-]%lookup_singleton_Some. by intros [_ ?]%lookup_singleton_Some.
  - intros i j p [<- _]%lookup_singleton_Some. by intros [<- _]%lookup_singleton_Some.
  - intros i j p [<- _]%lookup_singleton_Some. by intros [<- _]%lookup_singleton_Some.
Qed.

Lemma demo_kinv : @kinv demo_linker demo_kst demo_tree [0x80100000; 0x80101000] [].
Proof.
  split; [split| |].
  - exact demo_rep.
  - split; cbn [mem freelist demo_kst].
    + cbn [flist]. rewrite !demo_rd64 by done. done.
    + repeat constructor; set_solver.
    + intros p Hp. assert (p = 0x80100000 \/ p = 0x80101000) as [-> | ->] by set_solver; done.
    + change (KMEM_LOCK ∉ (∅ : gset Z)). set_solver.
  - intros p Hp [-> | [-> | ->]]%demo_page; set_solver.
  - split; [|split].
    + split; try done; [constructor|set_solver|set_solver].
    + change (PAGE_LOCK ∉ (∅ : gset Z)). set_solver.
    + change (LRU_LOCK ∉ (∅ : gset Z)). set_solver.
  - change (PTE_LOCK ∉ (∅ : gset Z)). set_solver.
Qed.
