(* ===== verification/UserMem.v ===== *)
(** * User memory

    [copyout], [copyin] and [copyinstr] of [kernel/vm.c] move bytes between the
    kernel and the user addresses of a page table; mapping, translation and
    unmapping put together. *)

From Stdlib Require Import ZArith Lia.
From stdpp Require Import base numbers list gmap strings sets.
From S2P Require Import Prelude CString Riscv Spinlock Locks Dll Bio Kmem Lru Vm Pagetable.

#[local] Opaque memset wr64 rd64.

(** ** Bytes *)

Lemma rd8_put_bytes m a bs x : Forall (fun b => 0 <= b < 256) bs ->
  rd8 (put_bytes m a bs) x =
    if decide (a <= x < a + Z.of_nat (length bs)) then nth (Z.to_nat (x - a)) bs 0 else rd8 m x.
Proof.
  revert m a; induction bs as [|b bs IH]; intros m a Hb; cbn [put_bytes length].
  - by rewrite decide_False by lia.
  - apply Forall_cons in Hb as [Hb Hbs]. rewrite IH by done.
    repeat case_decide; try lia.
    + replace (Z.to_nat (x - a)) with (S (Z.to_nat (x - (a + 1)))) by lia. done.
    + replace x with a by lia. rewrite rd8_wr8_eq, Z.sub_diag. cbn. unfold u8. by apply Z.mod_small.
    + apply rd8_wr8_ne. lia.
Qed.

Lemma nth_bytes (m : memory) p n i : (i < n)%nat -> nth i (bytes m p n) 0 = rd8 m (p + Z.of_nat i).
Proof.
  revert p i; induction n as [|n IH]; intros p i Hi; [lia|]. rewrite bytes_S. destruct i as [|i]; cbn [nth].
  - f_equal. lia.
  - rewrite IH by lia. f_equal. lia.
Qed.

Lemma bytes_range (m : memory) p n : Forall (fun b => 0 <= b < 256) (bytes m p n).
Proof.
  revert p; induction n as [|n IH]; intros p; [constructor|]. rewrite bytes_S.
  constructor; [apply rd8_range|apply IH].
Qed.

(** ** A table is determined by the bytes of its pages *)

Definition same_tables (t : ptree) (m m' : memory) : Prop :=
  forall p a, ptpage t p -> in_page p a -> rd8 m' a = rd8 m a.

Lemma same_entry t m m' p k : same_tables t m m' -> ptpage t p -> 0 <= k < 512 ->
  entry m' p k = entry m p k.
Proof.
  intros H Hp Hk. unfold entry. apply rd64_ext. intros a Ha. apply (H p); [done|].
  unfold in_page, PGSIZE. lia.
Qed.

Lemma same_pte t m m' va : same_tables t m m' -> pte_of m' t va = pte_of m t va.
Proof.
  intros H. destruct (leaf t !! (PX 2 va, PX 1 va)) as [p|] eqn:E; [|by rewrite !pte_of_None].
  rewrite !(pte_of_leaf _ _ _ p) by done. apply (same_entry t); [done|right; right; by eexists|].
  apply PX_range. lia.
Qed.

Lemma same_rep t m m' : same_tables t m m' -> pt_rep m t -> pt_rep m' t.
Proof.
  intros H [P0 P1 P2 P3 D1 D2 D3 D4 D5]. split; try assumption.
  - intros i Hi. rewrite (same_entry t m) by (done || by left). by apply P1.
  - intros i p j Hp Hj. rewrite (same_entry t m); [by apply P2|done|right; left; by exists i|done].
Qed.

(** ** User addresses *)

(** The physical address of a user address. *)
Definition uaddr (m : memory) (t : ptree) (va : Z) : Z := PTE2PA (pte_of m t va) + va mod PGSIZE.

Lemma pte_of_page m t va va' : same_vpage va va' -> pte_of m t va = pte_of m t va'.
Proof.
  intros E. unfold pte_of, pte_addr. by rewrite !(PX_same_page _ va va') by (done || lia).
Qed.

Lemma vpage_down va : 0 <= va < 2 ^ 64 -> PGROUNDDOWN va = va - va mod PGSIZE /\
  same_vpage (PGROUNDDOWN va) va /\ 0 <= PGROUNDDOWN va <= va.
Proof.
  intros Hva. rewrite PGROUNDDOWN_spec by done. unfold same_vpage, PGSIZE. split; [done|]. split; dlia.
Qed.

Lemma uaddr_chunk m t va j : 0 <= j -> va mod PGSIZE + j < PGSIZE -> uaddr m t (va + j) = uaddr m t va + j.
Proof.
  intros Hj Hc. unfold uaddr. rewrite (pte_of_page m t (va + j) va).
  - unfold PGSIZE in *. assert ((va + j) mod 4096 = va mod 4096 + j) as -> by dlia. lia.
  - unfold same_vpage, PGSIZE in *. dlia.
Qed.

Lemma uaddr_same t m m' va : same_tables t m m' -> uaddr m' t va = uaddr m t va.
Proof. intros H. unfold uaddr. by rewrite (same_pte t m). Qed.

(** The chunk [copyin] and [copyout] move in one turn. *)
Definition chunk (va len : Z) : Z := Z.min (PGSIZE - (va - PGROUNDDOWN va)) len.

Lemma chunk_spec va len : 0 <= va < 2 ^ 64 -> 0 < len ->
  0 < chunk va len <= len /\ va mod PGSIZE + chunk va len <= PGSIZE /\
  (chunk va len < len -> PGROUNDDOWN va + PGSIZE = va + chunk va len).
Proof.
  intros Hva Hlen. unfold chunk. rewrite PGROUNDDOWN_spec by done. unfold PGSIZE. dlia.
Qed.

(** Kernel memory as a source and as a destination. *)
Definition kget (src n : Z) : M kst (list Z) := gets (fun s => bytes (mem s) src (Z.to_nat n)).
Definition kput (dst : Z) (bs : list Z) : M kst unit := setmem (fun m => put_bytes m dst bs).

(** [k] bytes copied: [to i] receives what [from i] held in [m]; nothing else
    changed. *)
Definition copied (m m' : memory) (from to : Z -> Z) (k : Z) : Prop :=
  (forall i, 0 <= i < k -> rd8 m' (to i) = rd8 m (from i)) /\
  (forall a, (forall i, 0 <= i < k -> a <> to i) -> rd8 m' a = rd8 m a).

(** One more chunk. *)
Lemma copied_chunk m m1 from to k n a b : copied m m1 from to k -> 0 <= k -> 0 <= n ->
  (forall j, 0 <= j < n -> from (k + j) = a + j /\ to (k + j) = b + j) ->
  (forall i j, 0 <= i < k + n -> 0 <= j < k + n -> to i = to j -> i = j) ->
  (forall i j, 0 <= i < k + n -> 0 <= j < k + n -> from i <> to j) ->
  copied m (put_bytes m1 b (bytes m1 a (Z.to_nat n))) from to (k + n).
Proof.
  intros [C1 C2] Hk Hn Hab Hinj Hdis.
  assert (forall x, rd8 (put_bytes m1 b (bytes m1 a (Z.to_nat n))) x =
    if decide (b <= x < b + n) then rd8 m1 (a + (x - b)) else rd8 m1 x) as Hp.
  { intros x. rewrite rd8_put_bytes by apply bytes_range. rewrite length_bytes, Z2Nat.id by lia.
    case_decide; [|done]. rewrite nth_bytes by lia. f_equal. lia. }
  assert (forall j, 0 <= j < n -> rd8 m1 (a + j) = rd8 m (from (k + j))) as Hsrc.
  { intros j Hj. destruct (Hab j Hj) as [<- _]. apply C2. intros i Hi. apply Hdis; lia. }
  split.
  - intros i Hi. rewrite Hp. case_decide as E.
    + set (j := to i - b) in *. assert (to (k + j) = to i) as Et.
      { destruct (Hab j ltac:(lia)) as [_ ->]. lia. }
      apply Hinj in Et; [|lia..]. rewrite Hsrc by lia. by rewrite Et.
    + destruct (decide (i < k)); [apply C1; lia|]. exfalso. apply E.
      destruct (Hab (i - k) ltac:(lia)) as [_ Et]. replace (k + (i - k)) with i in Et by lia. lia.
  - intros x Hx. rewrite Hp. rewrite decide_False.
    + apply C2. intros i Hi. apply Hx. lia.
    + intros Hin. destruct (Hab (x - b) ltac:(lia)) as [_ Et]. apply (Hx (k + (x - b))); [lia|]. lia.
Qed.

(** Turns needed for [len] bytes at [va]. *)
Definition turns (va len : Z) : nat :=
  if decide (len = 0) then 0 else Z.to_nat ((va mod PGSIZE + len + PGSIZE - 1) / PGSIZE).

Lemma turns_start va len : 0 <= len -> (turns va len < Z.to_nat (len / PGSIZE + 3))%nat.
Proof.
  intros Hl. unfold turns, PGSIZE. case_decide; [dlia|].
  assert ((va mod 4096 + len + 4096 - 1) / 4096 < len / 4096 + 3) by dlia.
  assert (0 <= len / 4096) by dlia. lia.
Qed.

Lemma turns_step va len d : 0 <= va < 2 ^ 64 -> 0 < len ->
  (chunk va len < len -> d = va + chunk va len) ->
  (turns d (len - chunk va len) < turns va len)%nat.
Proof.
  intros Hva Hl Hd. destruct (chunk_spec va len Hva Hl) as (C1 & C2 & C3).
  unfold turns. rewrite (decide_False (P := len = 0)) by lia.
  assert (0 < (va mod PGSIZE + len + PGSIZE - 1) / PGSIZE) by (unfold PGSIZE in *; dlia).
  case_decide; [lia|]. assert (chunk va len < len) as Hc by lia. rewrite Hd by done.
  specialize (C3 Hc). rewrite PGROUNDDOWN_spec in C3 by done. unfold PGSIZE in *. dlia.
Qed.

Section copy.
Context `{Linker} (ka : M kst Z).

Definition writable (v : Z) : Prop :=
  tst v PTE_V = true /\ tst v PTE_U = true /\ tst v PTE_W = true.

(** [copyout] to mapped, writable user memory copies every byte and nothing
    else. *)
Lemma copyout_ok s t dstva src len : pt_rep (mem s) t -> 0 <= dstva -> 0 <= len ->
  dstva + len <= MAXVA ->
  (forall i, 0 <= i < len -> writable (pte_of (mem s) t (dstva + i))) ->
  let to i := uaddr (mem s) t (dstva + i) in let from i := src + i in
  (forall i j, 0 <= i < len -> 0 <= j < len -> to i = to j -> i = j) ->
  (forall i j, 0 <= i < len -> 0 <= j < len -> from i <> to j) ->
  (forall i p, 0 <= i < len -> ptpage t p -> ~ in_page p (to i)) ->
  wp (copyout ka kget (root t) dstva src len) (fun r s' => r = 0 /\
    s' = set_mem (mem s') s /\ copied (mem s) (mem s') from to len) s.
Proof.
  intros R Hd Hlen Hmax Hw to from Hinj Hdis Hpt. unfold copyout.
  change MAXVA with 274877906944 in Hmax.
  apply (wp_loop _ (fun x s' => exists k d, x = (d, src + k, len - k) /\ 0 <= k <= len /\
      (k < len -> d = dstva + k) /\ s' = set_mem (mem s') s /\ copied (mem s) (mem s') from to k)
    (fun x _ => let '(d, _, n) := x in turns d n)).
  - intros x s1 (k & d & -> & Hk & Hdk & Es & Hc).
    destruct (len - k =? 0) eqn:E0; to_prop.
    { apply wp_ret. replace k with len in Hc by lia. done. }
    assert (k < len) as Hlt by lia. rewrite (Hdk Hlt) in *. clear d Hdk.
    assert (0 <= dstva + k < 2 ^ 64) as Hva by lia.
    destruct (vpage_down _ Hva) as (Ed & Esp & Eb).
    destruct (chunk_spec (dstva + k) (len - k) Hva ltac:(lia)) as (C1 & C2 & C3).
    fold (chunk (dstva + k) (len - k)). set (n := chunk (dstva + k) (len - k)) in *.
    assert ((MAXVA <=? PGROUNDDOWN (dstva + k)) = false) as ->
      by (apply Z.leb_gt; change MAXVA with 274877906944; lia).
    assert (same_tables t (mem s) (mem s1)) as Hst.
    { intros p a Hp Ha. apply Hc. intros i Hi ->. by apply (Hpt i p); [lia|..]. }
    pose proof (same_rep t _ _ Hst R) as R1.
    assert (pte_of (mem s1) t (PGROUNDDOWN (dstva + k)) = pte_of (mem s) t (dstva + k)) as Ep.
    { rewrite (same_pte t (mem s)) by done. by apply pte_of_page. }
    destruct (Hw k ltac:(lia)) as (W1 & W2 & W3). rewrite <- Ep in W1, W2, W3.
    destruct (pte_addr_of _ _ _ R1 W1) as (r & Hr & Hr0 & Er).
    apply wp_bind. eapply wp_mono; [apply walk_ok; [done|change MAXVA with 274877906944; lia]|].
    cbn beta. intros r' s1' [-> ->]. rewrite Hr. cbn [from_option id]. apply Z.eqb_neq in Hr0 as ->.
    unfold load64. apply wp_bind, wp_gets. rewrite <- Er, W1, W2, W3. cbn [negb orb].
    unfold kget, setmem. apply wp_bind, wp_gets, wp_bind, wp_modify, wp_ret.
    assert (PTE2PA (pte_of (mem s1) t (PGROUNDDOWN (dstva + k))) + (dstva + k - PGROUNDDOWN (dstva + k)) =
      to k) as ->.
    { rewrite Ep. unfold to, uaddr. lia. }
    split; [|apply turns_step; [done|lia|intros Hn; rewrite (C3 Hn); unfold u64; apply Z.mod_small; lia]].
    exists (k + n), (u64 (PGROUNDDOWN (dstva + k) + PGSIZE)).
    split; [f_equal; [f_equal|]; lia|]. split; [lia|].
    split; [intros Hn; rewrite (C3 ltac:(lia)); unfold u64; rewrite Z.mod_small; lia|].
    split; [rewrite Es; reflexivity|]. cbn [mem set_mem].
    apply copied_chunk; [done|lia|lia| | |].
    + intros j Hj. split; [unfold from; lia|]. unfold to.
      rewrite Z.add_assoc. apply uaddr_chunk; lia.
    + intros i j Hi Hj. apply Hinj; lia.
    + intros i j Hi Hj. apply Hdis; lia.
  - exists 0, dstva. split; [f_equal; [f_equal|]; lia|]. split; [lia|]. split; [lia|].
    split; [by destruct s|]. split; [lia|done].
  - by apply turns_start.
Qed.

(** [copyin] from mapped user memory. *)
Lemma copyin_ok s t dst srcva len : pt_rep (mem s) t -> 0 <= srcva -> 0 <= len ->
  srcva + len <= MAXVA ->
  (forall i, 0 <= i < len -> user_page (pte_of (mem s) t (srcva + i)) /\
     PTE2PA (pte_of (mem s) t (srcva + i)) <> 0) ->
  let from i := uaddr (mem s) t (srcva + i) in let to i := dst + i in
  (forall i j, 0 <= i < len -> 0 <= j < len -> from i <> to j) ->
  (forall i p, 0 <= i < len -> ptpage t p -> ~ in_page p (to i)) ->
  wp (copyin ka kput (root t) dst srcva len) (fun r s' => r = 0 /\
    s' = set_mem (mem s') s /\ copied (mem s) (mem s') from to len) s.
Proof.
  intros R Hd Hlen Hmax Hw from to Hdis Hpt. unfold copyin.
  change MAXVA with 274877906944 in Hmax.
  apply (wp_loop _ (fun x s' => exists k d, x = (dst + k, d, len - k) /\ 0 <= k <= len /\
      (k < len -> d = srcva + k) /\ s' = set_mem (mem s') s /\ copied (mem s) (mem s') from to k)
    (fun x _ => let '(_, d, n) := x in turns d n)).
  - intros x s1 (k & d & -> & Hk & Hdk & Es & Hc).
    destruct (len - k =? 0) eqn:E0; to_prop.
    { apply wp_ret. replace k with len in Hc by lia. done. }
    assert (k < len) as Hlt by lia. rewrite (Hdk Hlt) in *. clear d Hdk.
    assert (0 <= srcva + k < 2 ^ 64) as Hva by lia.
    destruct (vpage_down _ Hva) as (Ed & Esp & Eb).
    destruct (chunk_spec (srcva + k) (len - k) Hva ltac:(lia)) as (C1 & C2 & C3).
    fold (chunk (srcva + k) (len - k)). set (n := chunk (srcva + k) (len - k)) in *.
    assert (same_tables t (mem s) (mem s1)) as Hst.
    { intros p a Hp Ha. apply Hc. intros i Hi ->. by apply (Hpt i p); [lia|..]. }
    pose proof (same_rep t _ _ Hst R) as R1.
    assert (pte_of (mem s1) t (PGROUNDDOWN (srcva + k)) = pte_of (mem s) t (srcva + k)) as Ep.
    { rewrite (same_pte t (mem s)) by done. by apply pte_of_page. }
    destruct (Hw k ltac:(lia)) as (W1 & W2). rewrite <- Ep in W1, W2.
    apply wp_bind. eapply wp_mono; [apply walkaddr_ok; [done|change MAXVA with 274877906944; lia|done]|].
    cbn beta. intros r' s1' [-> ->]. apply Z.eqb_neq in W2 as ->.
    unfold kput, setmem. apply wp_bind, wp_gets, wp_bind, wp_modify, wp_ret.
    assert (PTE2PA (pte_of (mem s1) t (PGROUNDDOWN (srcva + k))) + (srcva + k - PGROUNDDOWN (srcva + k)) =
      from k) as ->.
    { rewrite Ep. unfold from, uaddr. lia. }
    split; [|apply turns_step; [done|lia|intros Hn; rewrite (C3 Hn); unfold u64; apply Z.mod_small; lia]].
    exists (k + n), (u64 (PGROUNDDOWN (srcva + k) + PGSIZE)).
    split; [f_equal; [f_equal|]; lia|]. split; [lia|].
    split; [intros Hn; rewrite (C3 ltac:(lia)); unfold u64; rewrite Z.mod_small; lia|].
    split; [rewrite Es; reflexivity|]. cbn [mem set_mem].
    apply copied_chunk; [done|lia|lia| | |].
    + intros j Hj. split; [|unfold to; lia]. unfold from.
      rewrite Z.add_assoc. apply uaddr_chunk; lia.
    + intros i j Hi Hj. unfold to. lia.
    + intros i j Hi Hj. apply Hdis; lia.
  - exists 0, srcva. split; [f_equal; [f_equal|]; lia|]. split; [lia|]. split; [lia|].
    split; [by destruct s|]. split; [lia|done].
  - by apply turns_start.
Qed.

(** C11: [copyout] followed by [copyin] of the same user range gives the kernel
    its bytes back.  Both return 0; [copyout] changes the user's bytes and
    nothing else, [copyin] the kernel's destination and nothing else. *)
Theorem copyout_copyin s t uva src dst len : pt_rep (mem s) t -> 0 <= uva -> 0 <= len ->
  uva + len <= MAXVA ->
  (forall i, 0 <= i < len -> writable (pte_of (mem s) t (uva + i)) /\
     PTE2PA (pte_of (mem s) t (uva + i)) <> 0) ->
  let u i := uaddr (mem s) t (uva + i) in
  (forall i j, 0 <= i < len -> 0 <= j < len -> u i = u j -> i = j) ->
  (forall i j, 0 <= i < len -> 0 <= j < len -> src + i <> u j /\ u j <> dst + i) ->
  (forall i p, 0 <= i < len -> ptpage t p -> ~ in_page p (u i) /\ ~ in_page p (dst + i)) ->
  wp (copyout ka kget (root t) uva src len) (fun r s1 => r = 0 /\
    copied (mem s) (mem s1) (fun i => src + i) u len /\
    wp (copyin ka kput (root t) dst uva len) (fun r s2 => r = 0 /\
      copied (mem s1) (mem s2) u (fun i => dst + i) len /\
      forall i, 0 <= i < len -> rd8 (mem s2) (dst + i) = rd8 (mem s) (src + i)) s1) s.
Proof.
  intros R Hu Hlen Hmax Hw u Hinj Hdis Hpt.
  eapply wp_mono; [apply (copyout_ok s t uva src len); try assumption|].
  - intros i Hi. exact (proj1 (Hw i Hi)).
  - intros i j Hi Hj. exact (proj1 (Hdis i j Hi Hj)).
  - intros i p Hi Hp. exact (proj1 (Hpt i p Hi Hp)).
  - cbn beta. intros r s1 (-> & _ & C1). split; [done|]. split; [done|].
    assert (same_tables t (mem s) (mem s1)) as Hst.
    { intros p a Hp Ha. apply C1. intros i Hi ->. by destruct (Hpt i p Hi Hp). }
    assert (forall i, uaddr (mem s1) t (uva + i) = u i) as Eu
      by (intros i; exact (uaddr_same t (mem s) (mem s1) (uva + i) Hst)).
    eapply wp_mono; [apply (copyin_ok s1 t dst uva len); try assumption|].
    + by apply (same_rep t (mem s)).
    + intros i Hi. destruct (Hw i Hi) as [(W1 & W2 & _) W3].
      unfold user_page. by rewrite !(same_pte t (mem s)).
    + intros i j Hi Hj. rewrite Eu. exact (proj2 (Hdis j i Hj Hi)).
    + intros i p Hi Hp. exact (proj2 (Hpt i p Hi Hp)).
    + cbn beta. intros r s2 (-> & _ & C2). split; [done|].
      assert (copied (mem s1) (mem s2) u (fun i => dst + i) len) as C2'.
      { destruct C2 as [X Y]. split; [|done]. intros i Hi. rewrite X by done. by rewrite Eu. }
      split; [done|]. intros i Hi. rewrite (proj1 C2' i Hi). by apply C1.
Qed.

(** C38: [copyin] does not check its address.  A user address at or above MAXVA
    makes [walkaddr] call [walk], whose range check panics, so the kernel stops
    instead of returning -1 (as [copyout] does). *)
Theorem copyin_panics s pt dst srcva len put : MAXVA <= PGROUNDDOWN srcva -> 0 < len ->
  panics (copyin ka put pt dst srcva len) "walk" s /\
  wp (copyout ka kget pt srcva dst len) (fun r s' => r = -1 /\ s' = s) s.
Proof.
  intros Hva Hlen. split.
  - unfold copyin. assert (exists k, Z.to_nat (len / PGSIZE + 3) = S k) as [k ->].
    { exists (Z.to_nat (len / PGSIZE + 2)). assert (0 <= len / PGSIZE) by (apply Z.div_pos; [lia|by unfold PGSIZE]). lia. }
    cbn [loop]. apply panics_bind_l.
    assert ((len =? 0) = false) as -> by (apply Z.eqb_neq; lia).
    apply panics_bind_l. unfold walkaddr. apply panics_bind_l. unfold walk.
    assert ((MAXVA <=? PGROUNDDOWN srcva) = true) as -> by by apply Z.leb_le. done.
  - unfold copyout. assert (exists k, Z.to_nat (len / PGSIZE + 3) = S k) as [k ->].
    { exists (Z.to_nat (len / PGSIZE + 2)). assert (0 <= len / PGSIZE) by (apply Z.div_pos; [lia|by unfold PGSIZE]). lia. }
    cbn [loop]. apply wp_bind.
    assert ((len =? 0) = false) as -> by (apply Z.eqb_neq; lia).
    assert ((MAXVA <=? PGROUNDDOWN srcva) = true) as -> by by apply Z.leb_le. done.
Qed.
End copy.

Lemma demo_pte va : 0 <= va < PGSIZE -> pte_of demo_mem demo_tree va = leaf_pte 0x80300000 demo_flags.
Proof.
  intros Hv. rewrite (pte_of_page _ _ va 0) by (unfold same_vpage, PGSIZE in *; dlia).
  transitivity (rd64 demo_mem 0x80202000); [done|]. by rewrite demo_rd64.
Qed.

Lemma demo_uaddr va : 0 <= va < PGSIZE -> uaddr demo_mem demo_tree va = 0x80300000 + va.
Proof. intros Hv. unfold uaddr. rewrite demo_pte by done. by rewrite Z.mod_small. Qed.

Lemma copyout_copyin_witness :
  wp (copyout (@kalloc demo_linker 3) kget (root demo_tree) 5 0x80500000 3) (fun r s1 => r = 0 /\
    wp (copyin (@kalloc demo_linker 3) kput (root demo_tree) 0x80600000 5 3) (fun r _ => r = 0) s1) demo_kst.
Proof.
  assert (forall i, 0 <= i < 3 -> uaddr demo_mem demo_tree (5 + i) = 0x80300005 + i) as E.
  { intros i Hi. rewrite demo_uaddr by (unfold PGSIZE; lia). lia. }
  eapply wp_mono; [apply (copyout_copyin (@kalloc demo_linker 3) demo_kst demo_tree 5 0x80500000 0x80600000 3)|].
  - exact demo_rep.
  - lia.
  - lia.
  - by unfold MAXVA.
  - intros i Hi. cbn [mem demo_kst]. rewrite demo_pte by (unfold PGSIZE; lia). done.
  - cbn [mem demo_kst]. intros i j Hi Hj. rewrite !E by done. lia.
  - cbn [mem demo_kst]. intros i j Hi Hj. rewrite !E by done. lia.
  - cbn [mem demo_kst]. intros i p Hi Hp. rewrite E by done. apply demo_page in Hp.
    unfold in_page, PGSIZE. lia.
  - cbn beta. intros r s1 (-> & _ & H). split; [done|]. eapply wp_mono; [exact H|]. cbn beta. by intros r s2 [-> _].
Defined.

Lemma copyin_panics_witness :
  panics (copyin (@kalloc demo_linker 3) kput (root demo_tree) 0x80600000 MAXVA 3) "walk" demo_kst.
Proof.
  pose proof (copyin_panics (@kalloc demo_linker 3) demo_kst (root demo_tree) 0x80600000 MAXVA 3 kput
    ltac:(by vm_compute) ltac:(lia)) as [H _].
  exact H.
Defined.
