(* ===== verification/Paging.v ===== *)
(** * Paging

    What mapping, translating and unmapping do together, and what eviction to
    swap does. *)

From Stdlib Require Import ZArith Lia.
From stdpp Require Import base numbers list gmap strings sets.
From S2P Require Import Prelude CString Riscv Spinlock Locks Dll Bio Kmem Lru Vm Pagetable.

#[local] Opaque memset wr64 rd64.

Section paging.
Context `{Linker}.

Definition user_perm (perm : Z) : Prop :=
  0 <= perm < 256 /\ tst perm PTE_U = true.

Lemma leaf_pte_facts pa perm : 0 <= pa < 2 ^ 56 -> pa mod PGSIZE = 0 -> user_perm perm ->
  user_page (leaf_pte pa perm) /\ PTE2PA (leaf_pte pa perm) = pa /\ mapped_leaf (leaf_pte pa perm).
Proof.
  intros Hpa Hal [Hp Hu]. unfold leaf_pte. rewrite <- Z.lor_assoc.
  set (f := Z.lor perm PTE_V).
  assert (0 <= f < 256) as Hf.
  { unfold f. split; [apply Z.lor_nonneg; split; [lia|by unfold PTE_V]|]. change 256 with (2 ^ 8).
    destruct (decide (Z.lor perm PTE_V = 0)) as [->|]; [done|].
    assert (0 <= Z.lor perm PTE_V) by (apply Z.lor_nonneg; split; [lia|by unfold PTE_V]).
    apply Z.log2_lt_pow2; [lia|]. rewrite Z.log2_lor by (lia || by unfold PTE_V).
    apply Z.max_lub_lt; [|by unfold PTE_V].
    destruct (decide (perm = 0)) as [->|]; [done|]. apply Z.log2_lt_pow2; lia. }
  assert (Z.testbit f 0 = true) as T0.
  { unfold f. rewrite Z.lor_spec. change PTE_V with 1. by rewrite orb_true_r. }
  assert (Z.testbit perm 4 = true) as T4p.
  { unfold tst in Hu. apply negb_true_iff, Z.eqb_neq in Hu. destruct (Z.testbit perm 4) eqn:E; [done|].
    exfalso. apply Hu. change PTE_U with (2 ^ 4). apply Z.bits_inj'. intros n Hn.
    rewrite Z.land_spec, Z.pow2_bits_eqb, Z.bits_0 by lia.
    destruct (Z.eqb_spec 4 n) as [<-|]; [by rewrite E|by rewrite andb_false_r]. }
  assert (Z.testbit f 4 = true) as T4 by (unfold f; by rewrite Z.lor_spec, T4p).
  assert (forall b, 0 <= b -> Z.testbit f b = true -> tst f (2 ^ b) = true) as Ht.
  { intros b Hb Tb. unfold tst. apply negb_true_iff, Z.eqb_neq. intros E.
    assert (Z.testbit (Z.land f (2 ^ b)) b = false) as X by by rewrite E, Z.bits_0.
    rewrite Z.land_spec, Tb, Z.pow2_bits_true in X by done. done. }
  split; [|split].
  - split; rewrite tst_pte; try done; try lia; [by apply (Ht 0)|by apply (Ht 4)].
  - apply PTE2PA_PA2PTE; [done|done|lia].
  - split; [rewrite tst_pte; try done; try lia; by apply (Ht 0)|]. split.
    + rewrite PTE_FLAGS_PA2PTE by lia. intros E. rewrite E in T4. done.
    + rewrite tst_pte; [|lia|lia|done]. unfold tst. apply negb_false_iff, Z.eqb_eq.
      apply Z.bits_inj'. intros n Hn. change PTE_SWAP with (2 ^ 8).
      rewrite Z.land_spec, Z.pow2_bits_eqb, Z.bits_0 by lia.
      destruct (Z.eqb_spec 8 n) as [<-|]; [|by rewrite andb_false_r].
      rewrite andb_true_r. destruct (decide (f = 0)) as [->|]; [done|].
      apply Z.bits_above_log2; [lia|]. apply Z.log2_lt_pow2; lia.
Qed.

(** C10: mapping, translating and unmapping agree.  When the pages are not
    mapped and the allocator has enough pages, [mappages] returns 0 after which
    [walkaddr] translates every address of the range to its physical page and
    every other address has the entry it had; [uvmunmap] of the range then
    clears exactly these entries.  The page table stays a tree disjoint from the
    free list throughout, and no other memory changes. *)
Theorem map_translate_unmap fuel ka s t l ll va n pa perm : kinv s t l ll ->
  va mod PGSIZE = 0 -> 0 <= va -> 1 <= n -> va + n * PGSIZE <= MAXVA ->
  pa mod PGSIZE = 0 -> 0 <= pa -> pa + n * PGSIZE <= PHYSTOP -> user_perm perm ->
  2 * n <= Z.of_nat (length l) ->
  (forall i, 0 <= i < n -> tst (pte_of (mem s) t (va + i * PGSIZE)) PTE_V = false) ->
  wp (mappages (S fuel) (root t) va (n * PGSIZE) pa perm) (fun r s1 => r = 0 /\
    exists t1 l1 ll1, kinv s1 t1 l1 ll1 /\ extends s t l s1 t1 l1 /\
    (forall i, 0 <= i < n -> wp (walkaddr ka (root t) (va + i * PGSIZE))
       (fun r s' => r = pa + i * PGSIZE /\ s' = s1) s1) /\
    (forall v, 0 <= v < MAXVA -> ~ (va <= v < va + n * PGSIZE) ->
       pte_of (mem s1) t1 v = pte_of (mem s) t v) /\
    wp (uvmunmap fuel (root t) va n false) (fun _ s2 => kinv s2 t1 l1 ll1 /\
      extends s1 t1 l1 s2 t1 l1 /\
      forall v, 0 <= v < MAXVA -> pte_of (mem s2) t1 v =
        if decide (va <= v < va + n * PGSIZE) then 0 else pte_of (mem s) t v) s1) s.
Proof.
  intros K Hal Hva Hn Hmax Hpal Hpa Hpm Hperm Hl Hun.
  assert (PHYSTOP < 2 ^ 56) as HPH by done.
  eapply wp_mono; [apply (mappages_ok fuel s t l ll va n pa perm); try assumption; try lia;
    try (destruct Hperm; lia)|]. cbn beta.
  intros r s1 (-> & t1 & l1 & ll1 & [K1 E1 _ P1]). split; [done|]. exists t1, l1, ll1.
  assert (root t = root t1) as Ert by (symmetry; apply E1).
  assert (forall i, 0 <= i < n -> 0 <= va + i * PGSIZE < MAXVA /\
    pte_of (mem s1) t1 (va + i * PGSIZE) = leaf_pte (pa + i * PGSIZE) perm) as Hpte.
  { intros i Hi. assert (0 <= va + i * PGSIZE < MAXVA) as Hb by (unfold PGSIZE in *; lia).
    split; [done|]. rewrite P1 by done. unfold mapped. rewrite decide_True by (unfold PGSIZE in *; lia).
    do 2 f_equal. replace (va + i * PGSIZE - va) with (i * PGSIZE) by lia. by rewrite Z.div_mul by by unfold PGSIZE. }
  assert (forall i, 0 <= i < n -> 0 <= pa + i * PGSIZE < 2 ^ 56 /\ (pa + i * PGSIZE) mod PGSIZE = 0) as Hpi.
  { intros i Hi. unfold PGSIZE in *. split; [lia|]. dlia. }
  split; [done|]. split; [done|]. split; [|split].
  - intros i Hi. destruct (Hpte i Hi) as [Hb Ep]. destruct (Hpi i Hi) as [Hq1 Hq2].
    destruct (leaf_pte_facts _ perm Hq1 Hq2 Hperm) as (U1 & U2 & _).
    rewrite Ert. eapply wp_mono; [apply walkaddr_ok; [apply K1|done|by rewrite Ep]|].
    cbn beta. intros r s' [-> ->]. by rewrite Ep, U2.
  - intros v Hv Hout. rewrite P1 by done. unfold mapped. by rewrite decide_False.
  - rewrite Ert. eapply wp_mono; [apply (uvmunmap_ok fuel s1 t1 l1 ll1 va n); try assumption; [lia|]|].
    + intros i Hi. destruct (Hpte i Hi) as [Hb Ep]. destruct (Hpi i Hi) as [Hq1 Hq2].
      rewrite Ep. by destruct (leaf_pte_facts _ perm Hq1 Hq2 Hperm) as (_ & _ & ?).
    + cbn beta. intros _ s2 (K2 & E2 & P2). split; [done|]. split; [done|]. intros v Hv.
      rewrite P2 by done. unfold unmapped. case_decide; [done|]. rewrite P1 by done. unfold mapped.
      by rewrite decide_False.
Qed.
End paging.

(** ** Swapped-out pages *)

Lemma PTE2PPN_swap_pte blkno flags : 0 <= blkno -> 0 <= flags < 1024 ->
  PTE2PPN (swap_pte blkno flags) = 4 * blkno.
Proof.
  intros Hb Hf. unfold PTE2PPN, swap_pte. rewrite !Z.shiftr_lor, Z.shiftr_land.
  rewrite (Z.shiftr_shiftl_l blkno) by lia. rewrite (Z.shiftr_div_pow2 flags) by lia.
  rewrite (Z.div_small flags) by done. rewrite Z.land_0_l, Z.lor_0_r.
  change (Z.shiftr PTE_SWAP 10) with 0. rewrite Z.lor_0_r, Z.shiftl_mul_pow2 by lia. lia.
Qed.

(** The entry [evictpage] stores does not name the slot it used.  It holds
    the slot number shifted by 12, the readers of swapped-out entries ([walkaddr],
    [uvmunmap], [uvmcopy]) take [PTE2PPN], a shift by 10, and get four times the
    number: only slot 0 survives, and from slot 2 on releasing it panics. *)
Theorem evict_slot_mismatch blkno flags s : 0 <= blkno < MAX_SWAP_PAGES -> 0 <= flags < 256 ->
  (i32 (PTE2PPN (swap_pte blkno flags)) = blkno <-> blkno = 0) /\
  (2 <= blkno -> panics (freeswap (i32 (PTE2PPN (swap_pte blkno flags)))) "freeswap: invalid blkno" s).
Proof.
  intros Hb Hf. set (slot := i32 _). change MAX_SWAP_PAGES with 6 in Hb.
  assert (slot = 4 * blkno) as E.
  { unfold slot. rewrite PTE2PPN_swap_pte by lia. unfold i32. rewrite Z.mod_small; lia. }
  rewrite E. split; [lia|]. intros H2. unfold freeswap.
  assert ((4 * blkno <? 0) || (MAX_SWAP_PAGES <=? 4 * blkno) = true) as ->; [|done].
  apply orb_true_iff. right. apply Z.leb_le. change MAX_SWAP_PAGES with 6. lia.
Qed.

(** A cache in which [bread] succeeds at once: nobody holds a buffer's lock and
    some buffer is unused. *)
Record quiet (s : bstate) (l : list Z) : Prop := {
  q_wf : bio_wf s l;
  q_free : lru_unused s l <> None;
  q_unlocked : forall b, b ∈ l -> sl_locked (lock (buf_of s b)) = 0;
}.

Lemma quiet_bread s l dv bno : quiet s l -> wp (bread dv bno) (fun _ _ => True) s.
Proof.
  intros [Hwf Hfree Hun]. pose proof (bget_wp s l dv bno Hwf) as Hg. unfold bread. apply wp_bind.
  assert (wp (bget dv bno) (fun _ _ => True) s) as Hw.
  { destruct (cached s l dv bno) as [b|] eqn:Ec; [|destruct (lru_unused s l) as [b|] eqn:Eu; [|done]].
    - eapply wp_mono; [apply Hg, Hun|done]. by apply cached_Some in Ec as [? _].
    - eapply wp_mono; [apply Hg, Hun|done].
      apply fmap_Some in Eu as ([i b'] & (Hl & _)%list_find_Some & ->).
      apply list_elem_of_lookup_2 in Hl. by rewrite elem_of_reverse in Hl. }
  eapply wp_mono; [exact Hw|]. cbn beta. intros b s1 _.
  apply wp_bind, wp_gets, wp_bind, wp_when; intros _; [|done].
  unfold virtio_disk_rw, upd. apply wp_bind, wp_modify, wp_modify. done.
Qed.

(** C40: writing a page to swap always stops the kernel.  [evictpage] passes
    [swapwrite] the page's physical address, and [swapwrite] has [either_copyin]
    look it up as an address of the current process.  Unless the process happens
    to map that number as an address of its own, the copy fails and the kernel
    panics. *)
Theorem swapwrite_panics ka s t l pa blkno : pt_rep (mem s) t -> cur_pagetable s = root t ->
  quiet (kbio s) l -> KERNBASE <= pa < PHYSTOP -> pa mod PGSIZE = 0 -> 0 <= blkno < MAX_SWAP_PAGES ->
  tst (pte_of (mem s) t pa) PTE_V = false -> tst (pte_of (mem s) t pa) PTE_SWAP = false ->
  panics (swapwrite ka pa blkno) "swapwrite: either_copyin failed" s.
Proof.
  intros R Hc Hq Hpa Hal Hb HV HS. unfold swapwrite.
  assert ((blkno <? 0) || (SWAPMAX / (PGSIZE / BSIZE) <=? blkno) = false) as ->.
  { change MAX_SWAP_PAGES with 6 in Hb. change (SWAPMAX / (PGSIZE / BSIZE)) with 7000.
    apply orb_false_iff. rewrite Z.ltb_ge, Z.leb_gt. lia. }
  change (Z.to_nat (PGSIZE / BSIZE)) with 4%nat. cbn [for_]. apply panics_bind_l.
  apply panics_bind_r, wp_modify. apply panics_bind_r. unfold onkbio. apply wp_zoom.
  eapply wp_mono; [eapply quiet_bread; exact Hq|]. cbn beta. intros b bs _.
  apply panics_bind_r. unfold either_copyin. apply wp_bind, wp_gets.
  change (cur_pagetable (set_kbio _ _)) with (cur_pagetable s). rewrite Hc.
  rewrite Z.mul_0_l, Z.add_0_r. unfold copyin. change (Z.to_nat (BSIZE / PGSIZE + 3)) with 3%nat. cbn [loop].
  apply wp_bind. change (BSIZE =? 0) with false. cbn iota. apply wp_bind.
  assert (0 <= pa < MAXVA) as Hva by (split; [unfold KERNBASE in *; lia|]; transitivity PHYSTOP; [lia|done]).
  assert (PGROUNDDOWN pa = pa) as ->.
  { rewrite PGROUNDDOWN_spec by (change MAXVA with 274877906944 in Hva; lia). unfold PGSIZE in *. lia. }
  eapply wp_mono; [apply walkaddr_none; [exact R|done|by left]|]. cbn beta.
  by intros r s' [-> ->].
Qed.

Lemma evict_slot_mismatch_witness : panics (freeswap (i32 (PTE2PPN (swap_pte 2 PTE_U))))
  "freeswap: invalid blkno" demo_kst.
Proof.
  pose proof (evict_slot_mismatch 2 PTE_U demo_kst ltac:(done) ltac:(done)) as [_ H]. apply H. lia.
Defined.

Lemma binit_quiet d pid : wp binit (fun _ s => held s = ∅ /\ exists l, quiet s l) (boot d pid).
Proof.
  eapply wp_mono; [apply binit_wp|]. cbn beta. intros _ s (Hwf & (_ & _ & Hh & _) & Hb). set (l := reverse _) in *.
  assert (forall i, i ∈ l -> refcnt (buf_of s i) = 0 /\ sl_locked (lock (buf_of s i)) = 0) as Hp.
  { intros i Hi. apply (wf_ids _ _ Hwf) in Hi. by injection (Hb i Hi) as _ _ _ _ -> ->. }
  split; [done|]. exists l. split; [done| |intros i Hi; by apply Hp].
  unfold lru_unused. intros E. apply fmap_None, list_find_None in E.
  rewrite Forall_forall in E. apply (E 0).
  - rewrite elem_of_reverse. apply (wf_ids _ _ Hwf). done.
  - rewrite (proj1 (Hp 0 ltac:(by apply (wf_ids _ _ Hwf)))). done.
Qed.

Lemma swapwrite_panics_witness : exists b, panics
  (swapwrite (@kalloc demo_linker 3) KERNBASE 1) "swapwrite: either_copyin failed"
  (set_cur_pagetable (root demo_tree) (set_kbio b demo_kst)).
Proof.
  assert (exists b l, quiet b l) as (b & l & Hq).
  { pose proof (binit_quiet ∅ 1) as Hw. revert Hw. generalize binit as m. generalize (boot ∅ 1) as s0.
    intros s0 m Hw. apply wp_exists in Hw as (u & b & _ & _ & l & Hq). by exists b, l. }
  exists b.
  apply (swapwrite_panics _ _ demo_tree l); [exact demo_rep|done|exact Hq|done..].
Defined.

Lemma map_translate_unmap_witness :
  wp (mappages (H := demo_linker) 4 (root demo_tree) 0x1000 PGSIZE 0x80400000 (PTE_R + PTE_U))
    (fun r s1 => r = 0 /\ wp (walkaddr (@kalloc demo_linker 3) (root demo_tree) 0x1000)
       (fun r _ => r = 0x80400000) s1) demo_kst.
Proof.
  eapply wp_mono; [apply (map_translate_unmap (H := demo_linker) 3 (@kalloc demo_linker 3) demo_kst demo_tree
    [0x80100000; 0x80101000] [] 0x1000 1 0x80400000 (PTE_R + PTE_U))|];
    [exact demo_kinv|try done..|].
  - intros i Hi. assert (i = 0) as -> by lia.
    transitivity (tst (rd64 demo_mem 0x80202008) PTE_V); [done|]. by rewrite demo_rd64.
  - cbn beta. intros r s1 (-> & t1 & l1 & ll1 & _ & _ & W & _). split; [done|].
    eapply wp_mono; [apply (W 0); lia|]. cbn beta. by intros r s2 [-> _].
Defined.
