(* ===== verification/Fs.v ===== *)
(** * The file system: blocks, inodes, directories, paths

    [kernel/fs.c] (but for [swapread] and [swapwrite], which are in [Vm.v]) with
    the structures of [fs.h] and [file.h].  The code is written against what it
    uses of the layers below, class [FsBase]: locks, the buffer cache and the log
    ([bread], [brelse], [log_write]), the bytes of a buffer, kernel memory, and
    [either_copyin]/[either_copyout].  [FsDisk.v] states what these promise. *)

From Stdlib Require Import ZArith Lia.
From stdpp Require Import base numbers list gmap strings sets.
From S2P Require Import Prelude CString Riscv Spinlock Locks Bio Block Log.

Class FsBase (S : Type) := {
  fb_locks :: HasLocks S;
  bread : Z -> Z -> M S Z;                       (* bread(dev, blockno) *)
  brelse : Z -> M S unit;
  log_write : Z -> M S unit;
  initlog : Z -> superblock -> M S unit;
  bdata : S -> Z -> block;                       (* bp->data *)
  set_bdata : Z -> block -> S -> S;
  kmem : S -> memory;                            (* memory at kernel addresses *)
  set_kmem : memory -> S -> S;
  (* either_copyout(user_dst, dst, bp->data + off, len) *)
  either_copyout : bool -> Z -> Z -> Z -> Z -> M S Z;
  (* either_copyin(bp->data + off, user_src, src, len) *)
  either_copyin : Z -> Z -> bool -> Z -> Z -> M S Z;
}.

(** ** [fs.h], [file.h], [stat.h] *)

Definition ROOTINO : Z := 1.
Definition FSMAGIC : Z := 0x10203040.
Definition NDIRECT : Z := 12.
Definition NINDIRECT : Z := BSIZE / 4.
Definition MAXFILE : Z := NDIRECT + NINDIRECT.
Definition sizeof_dinode : Z := 64.
Definition IPB : Z := BSIZE / sizeof_dinode.
Definition IBLOCK (i : Z) (sb : superblock) : Z := i / IPB + inodestart sb.
Definition BPB : Z := BSIZE * 8.
Definition BBLOCK (b : Z) (sb : superblock) : Z := b / BPB + bmapstart sb.
Definition DIRSIZ : Z := 14.
Definition sizeof_dirent : Z := 16.
Definition T_DIR : Z := 1.
Definition T_FILE : Z := 2.
Definition T_DEVICE : Z := 3.

(** [struct dinode], without its position in the block *)
Record dinode := mkDinode {
  di_type : Z; di_major : Z; di_minor : Z; di_nlink : Z; di_size : Z; di_addrs : list Z }.

(** [struct inode] *)
Record inode := mkInode {
  i_dev : Z; i_inum : Z; i_ref : Z; i_lock : sleeplock; i_valid : Z; i_d : dinode }.

Definition i_type ip := di_type (i_d ip).
Definition i_major ip := di_major (i_d ip).
Definition i_minor ip := di_minor (i_d ip).
Definition i_nlink ip := di_nlink (i_d ip).
Definition i_size ip := di_size (i_d ip).
Definition i_addrs ip := di_addrs (i_d ip).

Definition set_i_ref v ip := mkInode (i_dev ip) (i_inum ip) v (i_lock ip) (i_valid ip) (i_d ip).
Definition set_i_lock v ip := mkInode (i_dev ip) (i_inum ip) (i_ref ip) v (i_valid ip) (i_d ip).
Definition set_i_valid v ip := mkInode (i_dev ip) (i_inum ip) (i_ref ip) (i_lock ip) v (i_d ip).
Definition set_i_d v ip := mkInode (i_dev ip) (i_inum ip) (i_ref ip) (i_lock ip) (i_valid ip) v.
Definition set_di_type v d := mkDinode v (di_major d) (di_minor d) (di_nlink d) (di_size d) (di_addrs d).
Definition set_di_major v d := mkDinode (di_type d) v (di_minor d) (di_nlink d) (di_size d) (di_addrs d).
Definition set_di_minor v d := mkDinode (di_type d) (di_major d) v (di_nlink d) (di_size d) (di_addrs d).
Definition set_di_nlink v d := mkDinode (di_type d) (di_major d) (di_minor d) v (di_size d) (di_addrs d).
Definition set_di_size v d := mkDinode (di_type d) (di_major d) (di_minor d) (di_nlink d) v (di_addrs d).
Definition set_di_addr i v d :=
  mkDinode (di_type d) (di_major d) (di_minor d) (di_nlink d) (di_size d) (<[Z.to_nat i := v]> (di_addrs d)).

(** [struct stat] *)
Record stat := mkStat { st_dev : Z; st_ino : Z; st_type : Z; st_nlink : Z; st_size : Z }.

(** A [struct dinode] at offset [o] of a block. *)
Definition get_dinode (o : Z) (d : block) : dinode :=
  mkDinode (i16 (rdu 2 o d)) (i16 (rdu 2 (o + 2) d)) (i16 (rdu 2 (o + 4) d)) (i16 (rdu 2 (o + 6) d))
    (rdu 4 (o + 8) d) ((fun i => rdu 4 (o + 12 + 4 * Z.of_nat i) d) <$> seq 0 13).
Fixpoint put_addrs (o : Z) (a : list Z) (d : block) : block :=
  match a with
  | [] => d
  | x :: r => put_addrs (o + 4) r (wru 4 o x d)
  end.
Definition put_dinode (o : Z) (di : dinode) (d : block) : block :=
  put_addrs (o + 12) (di_addrs di) (wru 4 (o + 8) (di_size di) (wru 2 (o + 6) (di_nlink di)
    (wru 2 (o + 4) (di_minor di) (wru 2 (o + 2) (di_major di) (wru 2 o (di_type di) d))))).

Definition get_sb (d : block) : superblock :=
  mkSb (rdu 4 0 d) (rdu 4 4 d) (rdu 4 8 d) (rdu 4 12 d) (rdu 4 16 d) (rdu 4 20 d) (rdu 4 24 d) (rdu 4 28 d).

(** ** State: the superblock [sb], [itable], and [myproc()->cwd].  A pointer to an
    inode is its index in the table, NULL is [None]. *)
Record fstate (S : Type) := mkFs { base : S; sb : superblock; itable : gmap Z inode; cwd : Z }.
Arguments mkFs {S} _ _ _ _.
Arguments base {S} _.
Arguments sb {S} _.
Arguments itable {S} _.
Arguments cwd {S} _.

Definition ITABLE_LOCK : Z := 400.
Definition INODE_LOCK (i : Z) : Z := 401 + i.

Section fs_c.
Context {S : Type} `{FsBase S}.
Implicit Types s : fstate S.

Definition set_base (x : S) s : fstate S := mkFs x (sb s) (itable s) (cwd s).
Definition set_itable (x : gmap Z inode) s : fstate S := mkFs (base s) (sb s) x (cwd s).

#[export] #[refine] Instance fstate_locks : HasLocks (fstate S) := {
  held := fun s => held (base s);
  set_held := fun x s => set_base (set_held x (base s)) s;
  curpid := fun s => curpid (base s);
}.
Proof.
  - intros x s. cbn. apply held_set.
  - intros s. unfold set_base. rewrite set_held_held. by destruct s.
  - intros x y s. unfold set_base. cbn. by rewrite set_held_set.
Defined.

Definition lift {A} (m : M S A) : M (fstate S) A := zoom base set_base m.
Definition inode0 : inode := mkInode 0 0 0 (mkSleep 0 0 0) 0 (mkDinode 0 0 0 0 0 (replicate 13 0)).
Definition inode_of s (i : Z) : inode := default inode0 (itable s !! i).
Definition set_inode (i : Z) (ip : inode) s : fstate S := set_itable (<[i := ip]> (itable s)) s.
Definition upd_inode (i : Z) (f : inode -> inode) : M (fstate S) unit :=
  modify (fun s => set_inode i (f (inode_of s i)) s).
Definition get_ilock (i : Z) s : sleeplock := i_lock (inode_of s i).
Definition put_ilock (i : Z) (l : sleeplock) s : fstate S := set_inode i (set_i_lock l (inode_of s i)) s.
Definition buf_data (b : Z) : M (fstate S) block := gets (fun s => bdata (base s) b).
Definition set_buf_data (b : Z) (d : block) : M (fstate S) unit :=
  modify (fun s => set_base (set_bdata b d (base s)) s).
Definition onmem (f : memory -> memory) : M (fstate S) unit :=
  modify (fun s => set_base (set_kmem (f (kmem (base s))) (base s)) s).

(** ** Blocks *)

Definition readsb (dv : Z) : M (fstate S) unit :=
  bp ← lift (bread dv 1);
  d ← buf_data bp;
  modify (fun s => mkFs (base s) (get_sb d) (itable s) (cwd s));;
  lift (brelse bp).

Definition fsinit (dv : Z) : M (fstate S) unit :=
  readsb dv;;
  b ← gets sb;
  if negb (magic b =? FSMAGIC) then panic "invalid file system" else
  lift (initlog dv b).

Definition bzero (dv bno : Z) : M (fstate S) unit :=
  bp ← lift (bread dv bno);
  set_buf_data bp zero_block;;
  lift (log_write bp);;
  lift (brelse bp).

(** The bit of block [bi] of a bitmap block. *)
Definition bit_mask (bi : Z) : Z := Z.shiftl 1 (bi mod 8).
Definition byte_at (d : block) (i : Z) : Z := nth (Z.to_nat i) d 0.
Definition bit_clear (d : block) (bi : Z) : bool := Z.land (byte_at d (bi / 8)) (bit_mask bi) =? 0.
Definition set_byte (d : block) (i v : Z) : block := <[Z.to_nat i := u8 v]> d.

(** The inner loop of [balloc]: the first clear bit from [bi] on, in [n] turns. *)
Fixpoint find_clear (n : nat) (d : block) (b bi size : Z) : option Z :=
  match n with
  | O => None
  | Datatypes.S k =>
      if negb (b + bi <? size) then None
      else if bit_clear d bi then Some bi
      else find_clear k d b (bi + 1) size
  end.

Definition balloc (dv : Z) : M (fstate S) Z :=
  sz ← gets (fun s => sb_size (sb s));
  loop (Z.to_nat (sz / BPB + 2)) (fun b =>
    if negb (b <? sz) then mret (inr 0) else
    bp ← gets (fun s => BBLOCK b (sb s)) ≫= (fun n => lift (bread dv n));
    d ← buf_data bp;
    match find_clear (Z.to_nat BPB) d b 0 sz with
    | Some bi =>
        set_buf_data bp (set_byte d (bi / 8) (Z.lor (byte_at d (bi / 8)) (bit_mask bi)));;
        lift (log_write bp);;
        lift (brelse bp);;
        bzero dv (b + bi);;
        mret (inr (b + bi))
    | None =>
        lift (brelse bp);;
        mret (inl (b + BPB))
    end) 0.

Definition bfree (dv b : Z) : M (fstate S) unit :=
  bp ← gets (fun s => BBLOCK b (sb s)) ≫= (fun n => lift (bread dv n));
  let bi := b mod BPB in
  d ← buf_data bp;
  if bit_clear d bi then panic "freeing free block" else
  set_buf_data bp (set_byte d (bi / 8) (Z.land (byte_at d (bi / 8)) (Z.lnot (bit_mask bi))));;
  lift (log_write bp);;
  lift (brelse bp).

(** ** Inodes *)

Definition iinit : M (fstate S) unit :=
  initlock ITABLE_LOCK;;
  for_ (Z.to_nat NINODE) 0 1 (fun i => initsleeplock (put_ilock i) (INODE_LOCK i)).

(** The scan of [iget]: a hit, or the first free slot. *)
Fixpoint iget_scan (n : nat) (t : gmap Z inode) (dv inum i : Z) (empty : option Z) : Z + option Z :=
  match n with
  | O => inr empty
  | Datatypes.S k =>
      let ip := default inode0 (t !! i) in
      if (0 <? i_ref ip) && (i_dev ip =? dv) && (i_inum ip =? inum) then inl i
      else iget_scan k t dv inum (i + 1)
             (match empty with None => if i_ref ip =? 0 then Some i else None | _ => empty end)
  end.

Definition iget (dv inum : Z) : M (fstate S) Z :=
  acquire ITABLE_LOCK;;
  t ← gets itable;
  match iget_scan (Z.to_nat NINODE) t dv inum 0 None with
  | inl i =>
      upd_inode i (fun ip => set_i_ref (i32 (i_ref ip + 1)) ip);;
      release ITABLE_LOCK;;
      mret i
  | inr None => panic "iget: no inodes"
  | inr (Some i) =>
      upd_inode i (fun ip => mkInode dv inum 1 (i_lock ip) 0 (i_d ip));;
      release ITABLE_LOCK;;
      mret i
  end.

Definition ialloc (dv type : Z) : M (fstate S) (option Z) :=
  n ← gets (fun s => ninodes (sb s));
  loop (Z.to_nat n + 1) (fun inum =>
    if negb (inum <? n) then mret (inr None) else
    bp ← gets (fun s => IBLOCK inum (sb s)) ≫= (fun k => lift (bread dv k));
    d ← buf_data bp;
    let o := sizeof_dinode * (inum mod IPB) in
    if di_type (get_dinode o d) =? 0 then
      set_buf_data bp (wru 2 o type (splice d o (replicate (Z.to_nat sizeof_dinode) 0)));;
      lift (log_write bp);;
      lift (brelse bp);;
      i ← iget dv inum;
      mret (inr (Some i))
    else
      lift (brelse bp);;
      mret (inl (inum + 1))) 1.

Definition iupdate (ip : Z) : M (fstate S) unit :=
  i ← gets (fun s => inode_of s ip);
  bp ← gets (fun s => IBLOCK (i_inum i) (sb s)) ≫= (fun k => lift (bread (i_dev i) k));
  d ← buf_data bp;
  set_buf_data bp (put_dinode (sizeof_dinode * (i_inum i mod IPB)) (i_d i) d);;
  lift (log_write bp);;
  lift (brelse bp).

Definition idup (ip : Z) : M (fstate S) Z :=
  acquire ITABLE_LOCK;;
  upd_inode ip (fun i => set_i_ref (i32 (i_ref i + 1)) i);;
  release ITABLE_LOCK;;
  mret ip.

Definition ilock (ip : Z) : M (fstate S) unit :=
  i ← gets (fun s => inode_of s ip);
  if i_ref i <? 1 then panic "ilock" else
  acquiresleep (get_ilock ip) (put_ilock ip);;
  i ← gets (fun s => inode_of s ip);
  mwhen (i_valid i =? 0) (
    bp ← gets (fun s => IBLOCK (i_inum i) (sb s)) ≫= (fun k => lift (bread (i_dev i) k));
    d ← buf_data bp;
    let di := get_dinode (sizeof_dinode * (i_inum i mod IPB)) d in
    upd_inode ip (set_i_d di);;
    lift (brelse bp);;
    upd_inode ip (set_i_valid 1);;
    if di_type di =? 0 then panic "ilock: no type" else mret tt).

Definition iunlock (ip : Z) : M (fstate S) unit :=
  h ← holdingsleep (get_ilock ip);
  r ← gets (fun s => i_ref (inode_of s ip));
  if negb h || (r <? 1) then panic "iunlock" else
  releasesleep (get_ilock ip) (put_ilock ip).

(** ** Inode content *)

Definition addr_of (ip bn : Z) : M (fstate S) Z :=
  o ← gets (fun s => i_addrs (inode_of s ip) !! Z.to_nat bn); the o.
Definition set_addr (ip bn a : Z) : M (fstate S) unit :=
  upd_inode ip (fun i => set_i_d (set_di_addr bn a (i_d i)) i).

(** [a[j]] of an indirect block. *)
Definition ind_get (d : block) (j : Z) : Z := rdu 4 (4 * j) d.

Definition bmap (ip bn : Z) : M (fstate S) Z :=
  dv ← gets (fun s => i_dev (inode_of s ip));
  if bn <? NDIRECT then
    addr ← addr_of ip bn;
    if addr =? 0 then
      addr ← balloc dv;
      if addr =? 0 then mret 0 else
      set_addr ip bn addr;;
      mret addr
    else mret addr
  else
  let bn := bn - NDIRECT in
  if bn <? NINDIRECT then
    addr ← addr_of ip NDIRECT;
    addr ← (if addr =? 0 then
              addr ← balloc dv;
              mwhen (negb (addr =? 0)) (set_addr ip NDIRECT addr);;
              mret addr
            else mret addr);
    if addr =? 0 then mret 0 else
    bp ← lift (bread dv addr);
    d ← buf_data bp;
    let addr := ind_get d bn in
    addr ← (if addr =? 0 then
              addr ← balloc dv;
              mwhen (negb (addr =? 0)) (
                d ← buf_data bp;
                set_buf_data bp (wru 4 (4 * bn) addr d);;
                lift (log_write bp));;
              mret addr
            else mret addr);
    lift (brelse bp);;
    mret addr
  else panic "bmap: out of range".

Definition itrunc (ip : Z) : M (fstate S) unit :=
  dv ← gets (fun s => i_dev (inode_of s ip));
  for_ (Z.to_nat NDIRECT) 0 1 (fun i =>
    a ← addr_of ip i;
    mwhen (negb (a =? 0)) (bfree dv a;; set_addr ip i 0));;
  a ← addr_of ip NDIRECT;
  mwhen (negb (a =? 0)) (
    bp ← lift (bread dv a);
    for_ (Z.to_nat NINDIRECT) 0 1 (fun j =>
      d ← buf_data bp;
      mwhen (negb (ind_get d j =? 0)) (bfree dv (ind_get d j)));;
    lift (brelse bp);;
    bfree dv a;;
    set_addr ip NDIRECT 0);;
  upd_inode ip (fun i => set_i_d (set_di_size 0 (i_d i)) i);;
  iupdate ip.

Definition iput (ip : Z) : M (fstate S) unit :=
  acquire ITABLE_LOCK;;
  i ← gets (fun s => inode_of s ip);
  mwhen ((i_ref i =? 1) && negb (i_valid i =? 0) && (i_nlink i =? 0)) (
    acquiresleep (get_ilock ip) (put_ilock ip);;
    release ITABLE_LOCK;;
    itrunc ip;;
    upd_inode ip (fun i => set_i_d (set_di_type 0 (i_d i)) i);;
    iupdate ip;;
    upd_inode ip (set_i_valid 0);;
    releasesleep (get_ilock ip) (put_ilock ip);;
    acquire ITABLE_LOCK);;
  upd_inode ip (fun i => set_i_ref (i32 (i_ref i - 1)) i);;
  release ITABLE_LOCK.

Definition iunlockput (ip : Z) : M (fstate S) unit := iunlock ip;; iput ip.

Definition stati (ip : Z) : M (fstate S) stat :=
  i ← gets (fun s => inode_of s ip);
  mret (mkStat (i_dev i) (i_inum i) (i_type i) (i_nlink i) (i_size i)).

(** [off], [n], [tot] and [m] are [uint]. *)
Definition readi (ip : Z) (user_dst : bool) (dst off n : Z) : M (fstate S) Z :=
  sz ← gets (fun s => i_size (inode_of s ip));
  if (sz <? off) || (u32 (off + n) <? off) then mret 0 else
  let n := if sz <? off + n then sz - off else n in
  loop (Z.to_nat (n / BSIZE + 3)) (fun '(tot, off, dst) =>
    if negb (tot <? n) then mret (inr (i32 tot)) else
    addr ← bmap ip (off / BSIZE);
    if addr =? 0 then mret (inr (i32 tot)) else
    dv ← gets (fun s => i_dev (inode_of s ip));
    bp ← lift (bread dv addr);
    let m := Z.min (n - tot) (BSIZE - off mod BSIZE) in
    r ← lift (either_copyout user_dst dst bp (off mod BSIZE) m);
    if r =? -1 then lift (brelse bp);; mret (inr (-1)) else
    lift (brelse bp);;
    mret (inl (tot + m, u32 (off + m), u64 (dst + m)))) (0, off, dst).

Definition writei (ip : Z) (user_src : bool) (src off n : Z) : M (fstate S) Z :=
  sz ← gets (fun s => i_size (inode_of s ip));
  if (sz <? off) || (u32 (off + n) <? off) then mret (-1) else
  if MAXFILE * BSIZE <? off + n then mret (-1) else
  r ← loop (Z.to_nat (n / BSIZE + 3)) (fun '(tot, off, src) =>
    if negb (tot <? n) then mret (inr (tot, off)) else
    addr ← bmap ip (off / BSIZE);
    if addr =? 0 then mret (inr (tot, off)) else
    dv ← gets (fun s => i_dev (inode_of s ip));
    bp ← lift (bread dv addr);
    let m := Z.min (n - tot) (BSIZE - off mod BSIZE) in
    r ← lift (either_copyin bp (off mod BSIZE) user_src src m);
    if r =? -1 then lift (brelse bp);; mret (inr (tot, off)) else
    lift (log_write bp);;
    lift (brelse bp);;
    mret (inl (tot + m, u32 (off + m), u64 (src + m)))) (0, off, src);
  let '(tot, off) := (r : Z * Z) in
  sz ← gets (fun s => i_size (inode_of s ip));
  mwhen (sz <? off) (upd_inode ip (fun i => set_i_d (set_di_size off (i_d i)) i));;
  iupdate ip;;
  mret (i32 tot).

(** ** Directories.  [de] is the address of the local [struct dirent]. *)

Definition namecmp (m : memory) (s t : Z) : Z := strncmp m s t DIRSIZ.

(** [de.inum] *)
Definition de_inum (m : memory) (de : Z) : Z := rd8 m de + 256 * rd8 m (de + 1).

Section locals.
Context (de : Z).

(** The result is the inode and the offset for [poff]. *)
Definition dirlookup (dp name : Z) : M (fstate S) (option (Z * Z)) :=
  d ← gets (fun s => inode_of s dp);
  if negb (i_type d =? T_DIR) then panic "dirlookup not DIR" else
  loop (Z.to_nat (i_size d / sizeof_dirent + 2)) (fun off =>
    sz ← gets (fun s => i_size (inode_of s dp));
    if negb (off <? sz) then mret (inr None) else
    r ← readi dp false de off sizeof_dirent;
    if negb (r =? sizeof_dirent) then panic "dirlookup read" else
    m ← gets (fun s => kmem (base s));
    if de_inum m de =? 0 then mret (inl (u32 (off + sizeof_dirent))) else
    if namecmp m name (de + 2) =? 0 then
      dv ← gets (fun s => i_dev (inode_of s dp));
      ip ← iget dv (de_inum m de);
      mret (inr (Some (ip, off)))
    else mret (inl (u32 (off + sizeof_dirent)))) 0.

(** The first free entry, or the end of the directory. *)
Definition dir_free (dp : Z) : M (fstate S) Z :=
  n ← gets (fun s => i_size (inode_of s dp));
  loop (Z.to_nat (n / sizeof_dirent + 2)) (fun off =>
    sz ← gets (fun s => i_size (inode_of s dp));
    if negb (off <? sz) then mret (inr off) else
    r ← readi dp false de off sizeof_dirent;
    if negb (r =? sizeof_dirent) then panic "dirlink read" else
    m ← gets (fun s => kmem (base s));
    if de_inum m de =? 0 then mret (inr off) else mret (inl (off + sizeof_dirent))) 0.

Definition dirlink (dp name inum : Z) : M (fstate S) Z :=
  o ← dirlookup dp name;
  match o with
  | Some (ip, _) => iput ip;; mret (-1)
  | None =>
      off ← dir_free dp;
      onmem (fun m => strncpy m (de + 2) name DIRSIZ);;
      onmem (fun m => wr8 (wr8 m de inum) (de + 1) (inum / 256));;
      r ← writei dp false de off sizeof_dirent;
      mret (if negb (r =? sizeof_dirent) then -1 else 0)
  end.

(** ** Paths *)

Definition SLASH : Z := 47.

(** [while (P( *path)) path++;] *)
Fixpoint skip_while (fuel : nat) (P : Z -> bool) (m : memory) (path : Z) : option Z :=
  match fuel with
  | O => None
  | Datatypes.S f => if P (rd8 m path) then skip_while f P m (path + 1) else Some path
  end.

(** The rest of the path with the new memory; [None] when the fuel runs out.
    The null pointer is 0. *)
Definition skipelem (fuel : nat) (m : memory) (path name : Z) : option (Z * memory) :=
  path ← skip_while fuel (fun c => c =? SLASH) m path;
  if rd8 m path =? 0 then Some (0, m) else
  let s := path in
  path ← skip_while fuel (fun c => negb (c =? SLASH) && negb (c =? 0)) m path;
  let len := i32 (path - s) in
  let m := if DIRSIZ <=? len then memmove m name s DIRSIZ
           else wr8 (memmove m name s len) (name + len) 0 in
  path ← skip_while fuel (fun c => c =? SLASH) m path;
  Some (path, m).

Definition namex (fuel : nat) (path : Z) (nameiparent : bool) (name : Z) : M (fstate S) (option Z) :=
  c ← gets (fun s => rd8 (kmem (base s)) path);
  ip ← (if c =? SLASH then iget ROOTDEV ROOTINO else (d ← gets cwd; idup d));
  loop fuel (fun '(path, ip) =>
    r ← gets (fun s => skipelem fuel (kmem (base s)) path name);
    match r with
    | None => nofuel
    | Some (path, m) =>
        onmem (fun _ => m);;
        if path =? 0 then
          if (nameiparent : bool) then iput ip;; mret (inr None) else mret (inr (Some ip))
        else
        ilock ip;;
        ty ← gets (fun s => i_type (inode_of s ip));
        if negb (ty =? T_DIR) then iunlockput ip;; mret (inr None) else
        c ← gets (fun s => rd8 (kmem (base s)) path);
        if (nameiparent : bool) && (c =? 0) then iunlock ip;; mret (inr (Some ip)) else
        nxt ← dirlookup ip name;
        match nxt with
        | None => iunlockput ip;; mret (inr None)
        | Some (nip, _) => iunlockput ip;; mret (inl (path, nip))
        end
    end) (path, ip).

Definition namei (fuel : nat) (path name : Z) : M (fstate S) (option Z) := namex fuel path false name.
Definition nameiparent (fuel : nat) (path name : Z) : M (fstate S) (option Z) := namex fuel path true name.
End locals.
End fs_c.
