(* ===== verification/FsPath.v ===== *)
(** * Path names

    [skipelem] of [kernel/fs.c] against what path names mean: the non-empty parts
    of the string between slashes. *)

From Stdlib Require Import ZArith Lia.
From stdpp Require Import base numbers list gmap strings.
From S2P Require Import Prelude CString Riscv Fs.

(** The pieces between slashes, and the non-empty ones. *)
Fixpoint split (bs : list Z) : list (list Z) :=
  match bs with
  | [] => [[]]
  | c :: r =>
      if c =? SLASH then [] :: split r
      else match split r with
           | [] => [[c]]
           | w :: ws => (c :: w) :: ws
           end
  end.
Definition parts (bs : list Z) : list (list Z) := filter (fun w => w <> []) (split bs).

(** The longest prefix satisfying [P], and what follows. *)
Fixpoint span (P : Z -> bool) (bs : list Z) : list Z * list Z :=
  match bs with
  | [] => ([], [])
  | c :: r => if P c then let '(a, b) := span P r in (c :: a, b) else ([], bs)
  end.

Definition is_slash (c : Z) : bool := c =? SLASH.
Definition in_elem (c : Z) : bool := negb (c =? SLASH) && negb (c =? 0).

Lemma span_app P bs : bs = (span P bs).1 ++ (span P bs).2.
Proof.
  induction bs as [|c r IH]; cbn; [done|]. destruct (P c); [|done].
  destruct (span P r) as [a b]. cbn in *. by rewrite <- IH.
Qed.

Lemma span_fst P bs : Forall (fun c => P c = true) (span P bs).1.
Proof.
  induction bs as [|c r IH]; cbn; [done|]. destruct (P c) eqn:E; [|done].
  destruct (span P r) as [a b]. by constructor.
Qed.

Lemma span_snd P bs : match (span P bs).2 with c :: _ => P c = false | [] => True end.
Proof.
  induction bs as [|c r IH]; cbn; [done|]. destruct (P c) eqn:E; [|done]. by destruct (span P r).
Qed.

(** ** Scanning a string in memory *)

Lemma skip_while_spec P m p bs fuel : cstring m p bs -> P 0 = false -> (length bs < fuel)%nat ->
  let '(a, b) := span P bs in
  skip_while fuel P m p = Some (p + Z.of_nat (length a)) /\ cstring m (p + Z.of_nat (length a)) b.
Proof.
  revert p fuel; induction bs as [|c r IH]; intros p fuel Hs HP Hf; (destruct fuel as [|f]; [cbn in Hf; lia|]);
    cbn [span skip_while length] in *.
  - assert (rd8 m p = 0) as -> by (destruct Hs as (_ & _ & Hz); cbn in Hz; by rewrite Z.add_0_r in Hz).
    rewrite HP, Z.add_0_r. done.
  - apply cstring_cons in Hs as Hs'. destruct Hs' as (-> & Hc & Hr). destruct (P c) eqn:E.
    + specialize (IH (p + 1) f Hr HP ltac:(lia)). destruct (span P r) as [a b].
      destruct IH as [-> IH]. cbn [length]. replace (p + Z.of_nat (S (length a))) with (p + 1 + Z.of_nat (length a)) by lia. done.
    + cbn [length]. rewrite Z.add_0_r. done.
Qed.

Lemma cstring_frame m m' p bs : cstring m p bs ->
  (forall a, p <= a <= p + Z.of_nat (length bs) -> rd8 m' a = rd8 m a) -> cstring m' p bs.
Proof.
  intros (Hb & Hf & Hz) Hm. split; [|split; [done|]].
  - rewrite <- Hb at 2. apply bytes_ext. intros i Hi. apply Hm. lia.
  - rewrite Hm by lia. done.
Qed.

Lemma cstring_app m p a b : cstring m p (a ++ b) -> bytes m p (length a) = a /\ Forall (fun c => c <> 0) a.
Proof.
  revert p; induction a as [|c a IH]; intros p Hs; [done|].
  cbn [app] in Hs. apply cstring_cons in Hs as (Hc & H0 & Hs). apply IH in Hs as [Hb Hf].
  cbn [length]. rewrite bytes_S, Hb, Hc. split; [done|by constructor].
Qed.

(** ** Parts *)

Lemma parts_slash c r : is_slash c = true -> parts (c :: r) = parts r.
Proof. unfold is_slash, parts. cbn [split]. intros ->. by rewrite filter_cons_False by (intros X; by apply X). Qed.

Lemma parts_slashes a b : Forall (fun c => is_slash c = true) a -> parts (a ++ b) = parts b.
Proof. induction 1; [done|]. cbn [app]. by rewrite parts_slash. Qed.

Lemma split_word w r : Forall (fun c => in_elem c = true) w ->
  match r with c :: _ => is_slash c = true | [] => True end ->
  split (w ++ r) = w :: match r with [] => [] | _ :: r' => split r' end.
Proof.
  intros Hw Hr. induction Hw as [|c w Hc _ IH]; cbn [app split].
  - destruct r as [|c r]; [done|]. cbn [split]. unfold is_slash in Hr. by rewrite Hr.
  - unfold in_elem in Hc. to_prop. assert ((c =? SLASH) = false) as -> by by apply Z.eqb_neq. by rewrite IH.
Qed.

Lemma parts_word w r : Forall (fun c => in_elem c = true) w -> w <> [] ->
  match r with c :: _ => is_slash c = true | [] => True end -> parts (w ++ r) = w :: parts r.
Proof.
  intros Hw Hn Hr. unfold parts. rewrite split_word by done. rewrite filter_cons_True by done. f_equal.
  destruct r as [|c r]; [done|]. cbn [split]. unfold is_slash in Hr. rewrite Hr. by rewrite filter_cons_False by (intros X; by apply X).
Qed.

(** ** [skipelem] *)

(** What [name] holds for a path element: its first DIRSIZ bytes, and a NUL when
    there is room. *)
Definition name_is (m : memory) (name : Z) (e : list Z) : Prop :=
  bytes m name (Nat.min (length e) (Z.to_nat DIRSIZ)) = take (Z.to_nat DIRSIZ) e /\
  (Z.of_nat (length e) < DIRSIZ -> rd8 m (name + Z.of_nat (length e)) = 0).

Lemma set_name_ok m name s e : bytes m s (length e) = e -> Z.of_nat (length e) < 2 ^ 32 ->
  let len := Z.of_nat (length e) in
  let m' := if DIRSIZ <=? len then memmove m name s DIRSIZ else wr8 (memmove m name s len) (name + len) 0 in
  name_is m' name e /\ forall a, ~ (name <= a < name + DIRSIZ) -> rd8 m' a = rd8 m a.
Proof.
  intros Hb Hl len m'. unfold name_is. change (Z.to_nat DIRSIZ) with 14%nat.
  unfold m', DIRSIZ, len in *; clear m' len. destruct (14 <=? Z.of_nat (length e)) eqn:E; to_prop.
  - split; [split; [|lia]|].
    + rewrite Nat.min_r by lia. rewrite <- Hb at 1. unfold bytes. rewrite <- fmap_take, take_seq, Nat.min_l by lia.
      apply list_fmap_ext. intros i x [-> Hi]%lookup_seq. rewrite rd8_memmove by done.
      rewrite decide_True by lia. f_equal. lia.
    + intros a Ha. rewrite rd8_memmove by done. by rewrite decide_False.
  - split; [split|].
    + rewrite Nat.min_l, take_ge by lia. transitivity (bytes m s (length e)); [|done]. apply bytes_ext. intros i Hi.
      rewrite rd8_wr8_ne, rd8_memmove by lia. rewrite decide_True by lia. f_equal. lia.
    + intros _. apply rd8_wr8_eq.
    + intros a Ha. rewrite rd8_wr8_ne, rd8_memmove by lia. by rewrite decide_False by lia.
Qed.

(** C24: path parsing.  On a path [bs] of less than 2^31 bytes (the length of an element is an
    [int]), whose bytes [name] does not overlap,
    [skipelem] returns null exactly when the path has no element left; otherwise
    it stores the first element in [name] (cut to DIRSIZ bytes, NUL-terminated
    when shorter), and returns a pointer to a string that has the remaining
    elements and does not start with a slash.  Memory outside [name] is not
    touched. *)
Theorem skipelem_spec fuel m path name bs : cstring m path bs -> 0 < path ->
  Z.of_nat (length bs) < 2 ^ 31 -> (length bs < fuel)%nat ->
  name + DIRSIZ <= path \/ path + Z.of_nat (length bs) < name ->
  match parts bs with
  | [] => skipelem fuel m path name = Some (0, m)
  | e :: es => exists p' m' rest, skipelem fuel m path name = Some (p', m') /\ p' <> 0 /\
      cstring m' p' rest /\ parts rest = es /\ hd 0 rest <> SLASH /\ name_is m' name e /\
      forall a, ~ (name <= a < name + DIRSIZ) -> rd8 m' a = rd8 m a
  end.
Proof.
  intros Hs Hp Hl Hf Hd. unfold skipelem.
  pose proof (skip_while_spec is_slash m path bs fuel Hs eq_refl Hf) as H1.
  pose proof (span_app is_slash bs) as A1. pose proof (span_fst is_slash bs) as F1.
  pose proof (span_snd is_slash bs) as N1.
  destruct (span is_slash bs) as [sl r1]. cbn [fst snd] in *. destruct H1 as [E1 S1].
  rewrite A1, parts_slashes by done. rewrite A1, length_app in Hl, Hf, Hd.
  change (fun c : Z => c =? SLASH) with is_slash. rewrite E1. cbn [mbind option_bind].
  set (p1 := path + Z.of_nat (length sl)) in *.
  destruct r1 as [|c0 r1'].
  { assert (rd8 m p1 = 0) as -> by (destruct S1 as (_ & _ & Hz); cbn in Hz; by rewrite Z.add_0_r in Hz). done. }
  apply cstring_cons in S1 as S1'. destruct S1' as (-> & Hc0 & _). apply Z.eqb_neq in Hc0 as Hc0'. rewrite Hc0'.
  set (r1 := c0 :: r1') in *.
  pose proof (skip_while_spec in_elem m p1 r1 fuel S1 eq_refl ltac:(lia)) as H2.
  pose proof (span_app in_elem r1) as A2. pose proof (span_fst in_elem r1) as F2.
  pose proof (span_snd in_elem r1) as N2.
  assert ((span in_elem r1).1 <> []) as Hne.
  { unfold r1. cbn [span]. unfold in_elem, is_slash in *. rewrite N1, Hc0'. cbn. by destruct (span _ r1'). }
  destruct (span in_elem r1) as [e r2]. cbn [fst snd] in *. destruct H2 as [E2 S2].
  fold in_elem. rewrite E2. cbn [mbind option_bind]. set (p2 := p1 + Z.of_nat (length e)) in *.
  replace (p2 - p1) with (Z.of_nat (length e)) by lia.
  assert (i32 (Z.of_nat (length e)) = Z.of_nat (length e)) as Elen by (apply i32_id; rewrite A2, length_app in Hl; lia). rewrite Elen.
  assert (match r2 with c :: _ => is_slash c = true | [] => True end) as Hr2.
  { destruct r2 as [|c r2]; [done|]. apply cstring_cons in S2 as (_ & Hc & _). unfold in_elem in N2.
    apply Z.eqb_neq in Hc. rewrite Hc in N2. cbn in N2. rewrite andb_true_r in N2. by apply negb_false_iff in N2. }
  rewrite A2 in S1 |- *. rewrite parts_word by done. apply cstring_app in S1 as [Hb _].
  rewrite A2, length_app in Hl, Hf, Hd.
  destruct (set_name_ok m name p1 e Hb ltac:(lia)) as [Hnm Hfr].
  set (m' := if DIRSIZ <=? Z.of_nat (length e) then _ else _) in *.
  assert (cstring m' p2 r2) as S2'.
  { apply (cstring_frame m); [done|]. intros a Ha. apply Hfr. lia. }
  pose proof (skip_while_spec is_slash m' p2 r2 fuel S2' eq_refl ltac:(lia)) as H3.
  pose proof (span_app is_slash r2) as A3. pose proof (span_fst is_slash r2) as F3.
  pose proof (span_snd is_slash r2) as N3.
  destruct (span is_slash r2) as [sl' r3]. cbn [fst snd] in *. destruct H3 as [E3 S3].
  rewrite E3. cbn [mbind option_bind]. eexists _, m', r3. split; [reflexivity|]. split; [lia|]. split; [done|].
  split; [by rewrite A3, parts_slashes|]. split; [|done].
  destruct r3 as [|c r3]; [done|]. cbn. unfold is_slash in N3. by apply Z.eqb_neq.
Qed.

(** The second example of the comment on [skipelem]: "///a//bb". *)
Lemma skipelem_spec_witness : exists p' m', skipelem 20 (mem_of_list 100 [47; 47; 47; 97; 47; 47; 98; 98; 0]) 100 50 =
  Some (p', m') /\ name_is m' 50 [97].
Proof.
  pose proof (skipelem_spec 20 (mem_of_list 100 [47; 47; 47; 97; 47; 47; 98; 98; 0]) 100 50
    [47; 47; 47; 97; 47; 47; 98; 98]) as H.
  cbn [parts] in H. destruct H as (p' & m' & rest & E & _ & _ & _ & _ & Hn & _); [|lia|cbn; lia|cbn; lia|left; by vm_compute|].
  - split; [reflexivity|]. split; [repeat constructor; lia|reflexivity].
  - by exists p', m'.
Defined.
