(* ===== verification/Trap.v ===== *)
(** * Traps

    [kernel/trap.c]: system calls, page faults and device interrupts from user space
    ([usertrap]), interrupts of the kernel ([kerneltrap]), the timer ([clockintr]) and the way
    back to user space ([usertrapret]).  The control and status registers of the hart and the
    running process, as [trap.c] sees it, are explicit state; memory and the page tables are
    those of [Vm.v]. *)

From Stdlib Require Import ZArith Lia.
From stdpp Require Import base numbers list gmap strings sets.
From S2P Require Import Prelude CString Riscv Spinlock Locks Dll Bio Block Kmem Vm.

(** Supervisor registers ([riscv.h]); [tp] holds the hart's number. *)
Record csrs := mkCsr {
  c_sstatus : Z; c_scause : Z; c_sepc : Z; c_stval : Z; c_stvec : Z; c_satp : Z; c_tp : Z; c_time : Z; c_stimecmp : Z }.
Definition w_sstatus v c := mkCsr v (c_scause c) (c_sepc c) (c_stval c) (c_stvec c) (c_satp c) (c_tp c) (c_time c) (c_stimecmp c).
Definition w_sepc v c := mkCsr (c_sstatus c) (c_scause c) v (c_stval c) (c_stvec c) (c_satp c) (c_tp c) (c_time c) (c_stimecmp c).
Definition w_stvec v c := mkCsr (c_sstatus c) (c_scause c) (c_sepc c) (c_stval c) v (c_satp c) (c_tp c) (c_time c) (c_stimecmp c).
Definition w_stimecmp v c := mkCsr (c_sstatus c) (c_scause c) (c_sepc c) (c_stval c) (c_stvec c) (c_satp c) (c_tp c) (c_time c) v.

(** The fields of [struct proc] and of its trapframe that [trap.c] uses. *)
Record uproc := mkU {
  u_killed : Z; u_kstack : Z; u_pagetable : Z;
  tf_kernel_satp : Z; tf_kernel_sp : Z; tf_kernel_trap : Z; tf_epc : Z; tf_kernel_hartid : Z }.
Definition set_u_killed v u := mkU v (u_kstack u) (u_pagetable u) (tf_kernel_satp u) (tf_kernel_sp u) (tf_kernel_trap u) (tf_epc u) (tf_kernel_hartid u).
Definition set_epc v u := mkU (u_killed u) (u_kstack u) (u_pagetable u) (tf_kernel_satp u) (tf_kernel_sp u) (tf_kernel_trap u) v (tf_kernel_hartid u).
Definition set_kernel satp sp trap hart u := mkU (u_killed u) (u_kstack u) (u_pagetable u) satp sp trap (tf_epc u) hart.

(** [rest] is everything [trap.c] does not look at. *)
Record tstate (S : Type) := mkT { csr : csrs; cur : option uproc; ticks : Z; km : kst; rest : S }.
Arguments mkT {S} _ _ _ _ _.
Arguments csr {S} _.
Arguments cur {S} _.
Arguments ticks {S} _.
Arguments km {S} _.
Arguments rest {S} _.
Definition set_csr {S} x (s : tstate S) := mkT x (cur s) (ticks s) (km s) (rest s).
Definition set_cur {S} x (s : tstate S) := mkT (csr s) x (ticks s) (km s) (rest s).
Definition set_ticks {S} x (s : tstate S) := mkT (csr s) (cur s) x (km s) (rest s).
Definition set_km {S} x (s : tstate S) := mkT (csr s) (cur s) (ticks s) x (rest s).

#[export] #[refine] Instance tstate_locks {S} : HasLocks (tstate S) := {
  held := fun s => held (km s);
  set_held := fun x s => set_km (set_held x (km s)) s;
  curpid := fun s => curpid (km s);
}.
Proof.
  - intros x s. apply held_set.
  - intros s. unfold set_km. rewrite set_held_held. by destruct s.
  - intros x y s. unfold set_km. cbn [km]. by rewrite set_held_set.
Defined.

(** What [trap.c] calls elsewhere. *)
Class TrapEnv (S : Type) := {
  kernelvec : Z; uservec : Z; userret : Z; usertrap_addr : Z;   (* addresses of code *)
  syscall : M (tstate S) unit;
  exit : Z -> M (tstate S) unit;
  yield : M (tstate S) unit;
  wakeup_ticks : M (tstate S) unit;                             (* wakeup(&ticks) *)
  uartintr : M (tstate S) unit;
  virtio_disk_intr : M (tstate S) unit;
  plic_claim : M (tstate S) Z;
  plic_complete : Z -> M (tstate S) unit;
}.

Definition TICKS_LOCK : Z := 700.
Definition TIMER : Z := 0x8000000000000005.
Definition EXTERNAL : Z := 0x8000000000000009.

(** ** A page fault (lines 69 to 116 of [usertrap]): whether the process may go on *)
Section fault.
Context `{Linker} (fuel : nat).
Let ka := kalloc fuel.

Definition page_fault (pagetable va : Z) : M kst bool :=
  pte ← walk ka pagetable va false;
  v ← (if pte =? 0 then mret 0 else load64 pte);
  if negb (pte =? 0) && tst v PTE_SWAP then
    mm ← ka;
    mm ← (if mm =? 0 then
            ok ← evictpage ka fuel;
            if negb ok then mret 0 else ka
          else mret mm);
    if mm =? 0 then mret false else
    v ← load64 pte;
    let blkno := i32 (PTE2PPN v) in
    swapread ka mm blkno;;
    freeswap blkno;;
    v ← load64 pte;
    let flags := Z.land (PTE_FLAGS v) (Z.lor (Z.lor (Z.lor PTE_R PTE_W) PTE_X) PTE_U) in
    set_pte pte (Z.lor (Z.lor (PA2PTE mm) (Z.land flags (Z.lnot PTE_SWAP))) PTE_V);;
    let i := mm / PGSIZE in
    pg ← gets (fun s => page_of s i);
    mwhen ((in_lru pg =? 0) && (is_page_table pg =? 0) && (va <? MAXVA)) (lru_add i pagetable va true);;
    mret true
  else mret false.
End fault.

Section trap_c.
Context {S : Type} `{TrapEnv S} `{Linker} (fuel : nat).
Implicit Types s : tstate S.

Definition rcsr {A} (f : csrs -> A) : M (tstate S) A := gets (fun s => f (csr s)).
Definition wcsr (f : csrs -> csrs) : M (tstate S) unit := modify (fun s => set_csr (f (csr s)) s).
Definition myproc : M (tstate S) uproc := o ← gets cur; the o.
Definition updproc (f : uproc -> uproc) : M (tstate S) unit := modify (fun s => set_cur (f <$> cur s) s).
Definition intr_on : M (tstate S) unit := wcsr (fun c => w_sstatus (Z.lor (c_sstatus c) SSTATUS_SIE) c).
Definition intr_off : M (tstate S) unit := wcsr (fun c => w_sstatus (Z.ldiff (c_sstatus c) SSTATUS_SIE) c).
Definition intr_get : M (tstate S) bool := rcsr (fun c => tst (c_sstatus c) SSTATUS_SIE).

Definition trapinit : M (tstate S) unit := initlock TICKS_LOCK.
Definition trapinithart : M (tstate S) unit := wcsr (w_stvec kernelvec).

Definition clockintr : M (tstate S) unit :=
  hart ← rcsr c_tp;
  mwhen (hart =? 0) (
    acquire TICKS_LOCK;;
    modify (fun s => set_ticks (u32 (ticks s + 1)) s);;
    wakeup_ticks;;
    release TICKS_LOCK);;
  wcsr (fun c => w_stimecmp (u64 (c_time c + 1000000)) c).

(** 2 for the timer, 1 for another device, 0 for an unknown cause. *)
Definition devintr : M (tstate S) Z :=
  scause ← rcsr c_scause;
  if scause =? EXTERNAL then
    irq ← plic_claim;
    (if irq =? UART0_IRQ then uartintr
     else if irq =? VIRTIO0_IRQ then virtio_disk_intr
     else mret tt);;
    mwhen (negb (irq =? 0)) (plic_complete irq);;
    mret 1
  else if scause =? TIMER then clockintr;; mret 2
  else mret 0.

(** The result is the jump into the trampoline: its address and argument. *)
Definition usertrapret : M (tstate S) (Z * Z) :=
  p ← myproc;
  intr_off;;
  wcsr (w_stvec (TRAMPOLINE + (uservec - trampoline)));;
  c ← gets csr;
  updproc (set_kernel (c_satp c) (u_kstack p + PGSIZE) usertrap_addr (c_tp c));;
  x ← rcsr c_sstatus;
  wcsr (w_sstatus (Z.lor (Z.ldiff x SSTATUS_SPP) SSTATUS_SPIE));;
  p ← myproc;
  wcsr (w_sepc (tf_epc p));;
  mret (TRAMPOLINE + (userret - trampoline), MAKE_SATP (u_pagetable p)).

Definition usertrap : M (tstate S) (Z * Z) :=
  x ← rcsr c_sstatus;
  if tst x SSTATUS_SPP then panic "usertrap: not from user mode" else
  wcsr (w_stvec kernelvec);;
  p ← myproc;
  epc ← rcsr c_sepc;
  updproc (set_epc epc);;
  scause ← rcsr c_scause;
  which_dev ← (
    if scause =? 8 then
      mwhen (negb (u_killed p =? 0)) (exit (-1));;
      updproc (fun u => set_epc (u64 (tf_epc u + 4)) u);;
      intr_on;;
      syscall;;
      mret 0
    else if (scause =? 13) || (scause =? 15) then
      va ← rcsr c_stval;
      ok ← zoom km set_km (page_fault fuel (u_pagetable p) va);
      mwhen (negb ok) (updproc (set_u_killed 1));;
      mret 0
    else
      d ← devintr;
      mwhen (d =? 0) (updproc (set_u_killed 1));;
      mret d);
  p ← myproc;
  mwhen (negb (u_killed p =? 0)) (exit (-1));;
  mwhen (which_dev =? 2) yield;;
  usertrapret.

Definition kerneltrap : M (tstate S) unit :=
  sepc ← rcsr c_sepc;
  sstatus ← rcsr c_sstatus;
  if negb (tst sstatus SSTATUS_SPP) then panic "kerneltrap: not from supervisor mode" else
  ie ← intr_get;
  if (ie : bool) then panic "kerneltrap: interrupts enabled" else
  which_dev ← devintr;
  if which_dev =? 0 then panic "kerneltrap" else
  p ← gets cur;
  mwhen ((which_dev =? 2) && bool_decide (p <> None)) yield;;
  wcsr (w_sepc sepc);;
  wcsr (w_sstatus sstatus).
End trap_c.
