(* ===== verification/TrapSpec.v ===== *)
(** * What traps do

    [usertrap] and [kerneltrap] of [Trap.v]: system calls and device interrupts return to where
    they came from, other faults end the process; and the faults that stop the kernel. *)

From Stdlib Require Import ZArith Lia.
From stdpp Require Import base numbers list gmap strings sets.
From S2P Require Import Prelude CString Riscv Spinlock Locks Dll Bio Block Kmem Vm Pagetable Paging Trap.

(** The outcome of code that does not return. *)
Definition gone {S A} (o : outcome S unit) : outcome S A :=
  match o with
  | Panic e s => Panic e s
  | Block s => Block s
  | NoFuel => NoFuel
  | _ => Undef
  end.
Definition returns {S A} (o : outcome S A) : bool := match o with Ret _ _ => true | _ => false end.

Lemma gone_bind {S A} (m : M S unit) (k : unit -> M S A) s : returns (m s) = false -> (m ≫= k) s = gone (m s).
Proof. unfold mbind, M_bind. by destruct (m s). Qed.

Lemma tst_bit x n : 0 <= n -> tst x (Z.shiftl 1 n) = Z.testbit x n.
Proof.
  intros Hn. unfold tst. rewrite Z.shiftl_1_l. destruct (Z.testbit x n) eqn:E.
  - apply negb_true_iff, Z.eqb_neq. intros E0. apply (f_equal (fun y => Z.testbit y n)) in E0.
    rewrite Z.land_spec, Z.pow2_bits_true, E, Z.bits_0 in E0 by done. done.
  - apply negb_false_iff, Z.eqb_eq, Z.bits_inj'. intros k Hk. rewrite Z.land_spec, Z.pow2_bits_eqb, Z.bits_0 by done.
    destruct (Z.eqb_spec n k) as [<-|]; [by rewrite E|by rewrite andb_false_r].
Qed.

(** What [trap.c] relies on: the handlers return, [exit] does not, and [wakeup] gives back
    the locks it takes. *)
Class TrapOk (S : Type) `{TrapEnv S} := {
  t_exit : forall v s, returns (exit v s) = false;
  t_yield : forall s, wp yield (fun _ s' => cur s' = cur s) s;
  t_wakeup : forall s, wp wakeup_ticks (fun _ s' => held s' = held s /\ csr s' = csr s /\ cur s' = cur s /\ ticks s' = ticks s) s;
  t_uart : forall s, wp uartintr (fun _ s' => csr s' = csr s /\ cur s' = cur s /\ ticks s' = ticks s) s;
  t_virtio : forall s, wp virtio_disk_intr (fun _ s' => csr s' = csr s /\ cur s' = cur s /\ ticks s' = ticks s) s;
  t_claim : forall s, wp plic_claim (fun _ s' => csr s' = csr s /\ cur s' = cur s /\ ticks s' = ticks s) s;
  t_complete : forall irq s, wp (plic_complete irq) (fun _ s' => csr s' = csr s /\ cur s' = cur s /\ ticks s' = ticks s) s;
}.

Section trap.
Context {S : Type} `{T : TrapOk S} `{Linker} (fuel : nat).
Implicit Types s : tstate S.

(** ** Interrupts *)

Lemma clockintr_ok s : TICKS_LOCK ∉ held s ->
  wp clockintr (fun _ s' => cur s' = cur s /\ csr s' = w_stimecmp (u64 (c_time (csr s) + 1000000)) (csr s) /\
    ticks s' = if c_tp (csr s) =? 0 then u32 (ticks s + 1) else ticks s) s.
Proof.
  intros Hl. unfold clockintr, rcsr, wcsr. apply wp_bind, wp_gets. destruct (c_tp (csr s) =? 0) eqn:E; cbn [mwhen].
  - apply wp_bind, wp_bind, wp_acquire; [done|]. apply wp_bind, wp_modify, wp_bind. eapply wp_mono; [apply t_wakeup|]. cbn beta.
    intros _ s1 (E1 & E2 & E3 & E4). apply wp_release; [rewrite E1; cbn; set_solver|]. apply wp_modify. cbn. by rewrite E2, E3, E4.
  - apply wp_bind, wp_ret, wp_modify. done.
Qed.

(** Which interrupts are known. *)
Definition known_irq (scause : Z) : Z := if scause =? EXTERNAL then 1 else if scause =? TIMER then 2 else 0.

Lemma devintr_ok s : TICKS_LOCK ∉ held s ->
  wp devintr (fun d s' => d = known_irq (c_scause (csr s)) /\ cur s' = cur s /\
    c_sepc (csr s') = c_sepc (csr s) /\ c_sstatus (csr s') = c_sstatus (csr s) /\
    ticks s' = if (d =? 2) && (c_tp (csr s) =? 0) then u32 (ticks s + 1) else ticks s) s.
Proof.
  intros Hl. unfold devintr, known_irq, rcsr. apply wp_bind, wp_gets. destruct (c_scause (csr s) =? EXTERNAL).
  - apply wp_bind. eapply wp_mono; [apply t_claim|]. cbn beta. intros irq s1 (E1 & E2 & E3). apply wp_bind.
    eapply (wp_mono _ (fun _ s2 => csr s2 = csr s /\ cur s2 = cur s /\ ticks s2 = ticks s)).
    { repeat case_match; [eapply wp_mono; [apply t_uart|]|eapply wp_mono; [apply t_virtio|]|by apply wp_ret];
        cbn beta; intros _ s2 (F1 & F2 & F3); split_and!; congruence. }
    intros _ s2 (F1 & F2 & F3). apply wp_bind. apply wp_when; intros _.
    + eapply wp_mono; [apply t_complete|]. cbn beta. intros _ s3 (G1 & G2 & G3). apply wp_ret. cbn. rewrite G1, F1. split_and!; congruence.
    + apply wp_ret. cbn. rewrite F1. done.
  - destruct (c_scause (csr s) =? TIMER); [|by apply wp_ret]. apply wp_bind. eapply wp_mono; [by apply clockintr_ok|]. cbn beta.
    intros _ s1 (E1 & E2 & E3). apply wp_ret. rewrite E2, E3. done.
Qed.

(** C37: kernel interrupts are transparent.  [kerneltrap] panics unless it comes from supervisor
    mode with interrupts off and for a known interrupt; otherwise it handles the interrupt and
    returns with [sepc] and [sstatus] exactly as it found them, even when a timer interrupt made
    the hart run other processes in between. *)
Theorem kerneltrap_transparent s : let c := csr s in TICKS_LOCK ∉ held s ->
  (tst (c_sstatus c) SSTATUS_SPP = false -> panics kerneltrap "kerneltrap: not from supervisor mode" s) /\
  (tst (c_sstatus c) SSTATUS_SPP = true -> tst (c_sstatus c) SSTATUS_SIE = true -> panics kerneltrap "kerneltrap: interrupts enabled" s) /\
  (tst (c_sstatus c) SSTATUS_SPP = true -> tst (c_sstatus c) SSTATUS_SIE = false ->
    if decide (known_irq (c_scause c) = 0) then panics kerneltrap "kerneltrap" s
    else wp kerneltrap (fun _ s' => c_sepc (csr s') = c_sepc c /\ c_sstatus (csr s') = c_sstatus c /\ cur s' = cur s) s).
Proof using T.
  intros c Hl. unfold kerneltrap, rcsr, intr_get, wcsr. split; [|split].
  - intros E. apply panics_bind_r, wp_gets, panics_bind_r, wp_gets. fold c. by rewrite E.
  - intros E1 E2. apply panics_bind_r, wp_gets, panics_bind_r, wp_gets. fold c. rewrite E1. cbn [negb].
    apply panics_bind_r, wp_gets. fold c. by rewrite E2.
  - intros E1 E2. case_decide as Ek.
    + apply panics_bind_r, wp_gets, panics_bind_r, wp_gets. fold c. rewrite E1. cbn [negb].
      apply panics_bind_r, wp_gets. fold c. rewrite E2. apply panics_bind_r. eapply wp_mono; [by apply devintr_ok|]. cbn beta.
      intros d s1 (-> & _). fold c. by rewrite Ek.
    + apply wp_bind, wp_gets, wp_bind, wp_gets. fold c. rewrite E1. cbn [negb]. apply wp_bind, wp_gets. fold c. rewrite E2.
      apply wp_bind. eapply wp_mono; [by apply devintr_ok|]. cbn beta. intros d s1 (-> & E3 & _). fold c.
      rewrite (proj2 (Z.eqb_neq _ 0) Ek). apply wp_bind, wp_gets, wp_bind. apply wp_when; intros _.
      * eapply wp_mono; [apply t_yield|]. cbn beta. intros _ s2 E4. apply wp_bind, wp_modify, wp_modify. cbn. by rewrite E4, E3.
      * by apply wp_bind, wp_modify, wp_modify.
Qed.

(** ** Back to user space *)

(** The hart is ready for the jump [r] to the trampoline on behalf of process [u]: user mode
    with interrupts enabled after [sret], interrupts off until then, traps to [uservec], and a
    trapframe that brings the next trap back here. *)
Record to_user s (u : uproc) (r : Z * Z) : Prop := {
  tu_mode : Z.testbit (c_sstatus (csr s)) 8 = false /\ Z.testbit (c_sstatus (csr s)) 5 = true /\ Z.testbit (c_sstatus (csr s)) 1 = false;
  tu_pc : c_sepc (csr s) = tf_epc u;
  tu_vec : c_stvec (csr s) = TRAMPOLINE + (uservec - trampoline);
  tu_frame : cur s = Some (set_kernel (c_satp (csr s)) (u_kstack u + PGSIZE) usertrap_addr (c_tp (csr s)) u);
  tu_jump : r = (TRAMPOLINE + (userret - trampoline), MAKE_SATP (u_pagetable u));
}.

Lemma user_sstatus x : let y := Z.lor (Z.ldiff (Z.ldiff x SSTATUS_SIE) SSTATUS_SPP) SSTATUS_SPIE in
  Z.testbit y 8 = false /\ Z.testbit y 5 = true /\ Z.testbit y 1 = false.
Proof.
  intros y. unfold y, SSTATUS_SPP, SSTATUS_SPIE, SSTATUS_SIE. rewrite !Z.lor_spec, !Z.ldiff_spec, !Z.shiftl_1_l.
  rewrite !Z.pow2_bits_eqb by lia. cbn [Z.eqb Pos.eqb negb]. by rewrite !andb_false_r, orb_true_r.
Qed.

Lemma usertrapret_ok s u : cur s = Some u -> wp usertrapret (fun r s' => to_user s' u r) s.
Proof.
  intros Hu. unfold usertrapret, myproc, wcsr, rcsr, intr_off, updproc. apply wp_bind, wp_bind, wp_gets. rewrite Hu. apply wp_ret.
  apply wp_bind, wp_modify, wp_bind, wp_modify, wp_bind, wp_gets, wp_bind, wp_modify, wp_bind, wp_gets, wp_bind, wp_modify, wp_bind, wp_bind, wp_gets.
  cbn. rewrite Hu. apply wp_ret, wp_bind, wp_modify, wp_ret.
  split; [exact (user_sstatus _)|done..].
Qed.

(** The state in which the system call runs. *)
Definition at_syscall s (u : uproc) : tstate S :=
  let c := w_stvec kernelvec (csr s) in
  set_cur (Some (set_epc (u64 (c_sepc c + 4)) u)) (set_csr (w_sstatus (Z.lor (c_sstatus c) SSTATUS_SIE) c) s).

(** C36: traps from user space that the process survives.  A system call runs with interrupts
    on and the saved program counter past the [ecall]; whatever state it leaves, if the
    process is not killed, [usertrap] resumes it in user mode at its saved program counter with
    its own page table.  A device interrupt resumes the process at the interrupted
    instruction, after giving up the hart if it was the timer. *)
Theorem usertrap_resumes s u : let c := csr s in cur s = Some u -> tst (c_sstatus c) SSTATUS_SPP = false -> u_killed u = 0 -> TICKS_LOCK ∉ held s ->
  (c_scause c = 8 -> forall Q, wp syscall Q (at_syscall s u) -> (forall s1, Q tt s1 -> exists u1, cur s1 = Some u1 /\ u_killed u1 = 0) ->
    wp (usertrap fuel) (fun r s' => exists s1 u1, Q tt s1 /\ cur s1 = Some u1 /\ to_user s' u1 r) s) /\
  (known_irq (c_scause c) <> 0 -> wp (usertrap fuel) (fun r s' => to_user s' (set_epc (c_sepc c) u) r) s).
Proof using T.
  intros c Hu Hm Hk Hl. split.
  - intros Hc Q HQ Hq. unfold usertrap, rcsr, wcsr, updproc, myproc, intr_on. apply wp_bind, wp_gets. fold c. rewrite Hm.
    apply wp_bind, wp_modify, wp_bind, wp_bind, wp_gets. cbn. rewrite Hu. apply wp_ret, wp_bind, wp_gets, wp_bind, wp_modify, wp_bind, wp_gets. cbn.
    fold c. rewrite Hc, Hk. cbn [Z.eqb Pos.eqb negb mwhen]. apply wp_bind, wp_bind, wp_ret, wp_bind, wp_modify, wp_bind, wp_modify, wp_bind. cbn. rewrite Hu.
    eapply wp_mono; [exact HQ|]. cbn beta. intros [] s1 H1. destruct (Hq s1 H1) as (u1 & E1 & E2). apply wp_ret, wp_bind, wp_bind, wp_gets. rewrite E1.
    apply wp_ret. rewrite E2. apply wp_bind, wp_ret, wp_bind, wp_ret. eapply wp_mono; [by apply usertrapret_ok|]. cbn beta. eauto.
  - intros Hi. assert (c_scause c <> 8 /\ c_scause c <> 13 /\ c_scause c <> 15) as (N1 & N2 & N3) by (repeat split; intros E; by rewrite E in Hi).
    unfold usertrap, rcsr, wcsr, updproc, myproc. apply wp_bind, wp_gets. fold c. rewrite Hm.
    apply wp_bind, wp_modify, wp_bind, wp_bind, wp_gets. cbn. rewrite Hu. apply wp_ret, wp_bind, wp_gets, wp_bind, wp_modify, wp_bind, wp_gets. cbn.
    fold c. rewrite (proj2 (Z.eqb_neq _ 8) N1), (proj2 (Z.eqb_neq _ 13) N2), (proj2 (Z.eqb_neq _ 15) N3). cbn [orb].
    apply wp_bind, wp_bind. eapply wp_mono; [by apply devintr_ok|]. cbn beta. intros d s1 (-> & E1 & _). cbn in E1 |- *. fold c.
    rewrite (proj2 (Z.eqb_neq _ 0) Hi). cbn [mwhen]. apply wp_bind, wp_ret, wp_ret, wp_bind, wp_bind, wp_gets. rewrite E1, Hu. apply wp_ret. cbn. rewrite Hk.
    apply wp_bind, wp_ret, wp_bind. apply wp_when; intros _.
    + eapply wp_mono; [apply t_yield|]. cbn beta. intros _ s2 E2. apply usertrapret_ok. by rewrite E2, E1, Hu.
    + apply usertrapret_ok. by rewrite E1, Hu.
Qed.

(** ** Faults *)

(** The state after the entry of [usertrap]. *)
Definition entered s (u : uproc) : tstate S := set_cur (Some (set_epc (c_sepc (csr s)) u)) (set_csr (w_stvec kernelvec (csr s)) s).

Lemma usertrap_fault s u : let c := csr s in cur s = Some u -> tst (c_sstatus c) SSTATUS_SPP = false ->
  c_scause c = 13 \/ c_scause c = 15 ->
  usertrap fuel s = (ok ← zoom km set_km (page_fault fuel (u_pagetable u) (c_stval c));
    mwhen (negb ok) (updproc (set_u_killed 1));;
    p ← myproc; mwhen (negb (u_killed p =? 0)) (exit (-1));; usertrapret) (entered s u).
Proof.
  intros c Hu Hm Hc. unfold usertrap, rcsr, wcsr, updproc, myproc. unfold mbind, M_bind, gets, modify. fold c. rewrite Hm. cbn. rewrite Hu. cbn. fold c.
  assert ((c_scause c =? 8) = false /\ (c_scause c =? 13) || (c_scause c =? 15) = true) as [-> ->] by (destruct Hc as [-> | ->]; done).
  assert (set_cur (set_epc (c_sepc c) <$> cur s) (set_csr (w_stvec kernelvec c) s) = entered s u) as -> by (by rewrite Hu).
  change (c_stval (csr (entered s u))) with (c_stval c). destruct (zoom _ _ _ _) as [[] s1| | | |]; cbn; done.
Qed.

Lemma exit_leaves {A} x z (k : unit -> M (tstate S) A) : x = z -> (exit (-1) ≫= k) x = gone (exit (-1) z).
Proof using T. intros ->. apply gone_bind, t_exit. Qed.

(** C38: bad accesses end the process.  A load or store fault at an address below MAXVA whose
    page-table entry, if any, is not that of a swapped-out page, marks the process killed and
    enters [exit(-1)]; so does a trap for any unknown reason.  Memory is not touched. *)
Theorem usertrap_kills s u t : let c := csr s in cur s = Some u -> tst (c_sstatus c) SSTATUS_SPP = false -> TICKS_LOCK ∉ held s ->
  ((c_scause c = 13 \/ c_scause c = 15) /\ pt_rep (mem (km s)) t /\ u_pagetable u = root t /\ 0 <= c_stval c < MAXVA /\
     tst (pte_of (mem (km s)) t (c_stval c)) PTE_SWAP = false \/
   c_scause c <> 8 /\ c_scause c <> 13 /\ c_scause c <> 15 /\ known_irq (c_scause c) = 0) ->
  exists s1, usertrap fuel s = gone (exit (-1) s1) /\ u_killed <$> cur s1 = Some 1 /\ km s1 = km s.
Proof using T.
  intros c Hu Hm Hl [(Hc & R & Hpt & Hva & Hsw)|(N1 & N2 & N3 & Hi)].
  - exists (set_cur (Some (set_u_killed 1 (set_epc (c_sepc c) u))) (entered s u)). split; [|done].
    rewrite (usertrap_fault s u Hu Hm Hc). fold c.
    assert (page_fault fuel (u_pagetable u) (c_stval c) (km s) = Ret false (km s)) as Ef.
    { unfold page_fault. rewrite Hpt. assert (wp (walk (kalloc fuel) (root t) (c_stval c) false) (fun r x => r = default 0 (pte_addr t (c_stval c)) /\ x = km s) (km s)) as Hw by by apply walk_ok.
      apply wp_exists in Hw as (r & x & Ew & -> & ->). rewrite (bind_Ret _ _ _ _ _ Ew). unfold pte_of in Hsw.
      destruct (pte_addr t (c_stval c)) as [r|]; cbn [default from_option id] in *; [|done].
      destruct (Z.eqb_spec r 0); [done|]. rewrite (bind_Ret (load64 r) _ (km s) (rd64 (mem (km s)) r) (km s) eq_refl). rewrite Hsw. by rewrite andb_false_r. }
    assert (zoom km set_km (page_fault fuel (u_pagetable u) (c_stval c)) (entered s u) = Ret false (entered s u)) as Ez
      by (unfold zoom; change (km (entered s u)) with (km s); by rewrite Ef).
    rewrite (bind_Ret _ _ _ _ _ Ez). unfold updproc, myproc, mbind, M_bind, gets, modify. cbn. by apply exit_leaves.
  - unfold usertrap, rcsr, wcsr, updproc, myproc.
    assert (wp devintr (fun d s' => d = 0 /\ s' = entered s u) (entered s u)) as Hd.
    { unfold devintr, rcsr. apply wp_bind, wp_gets. change (c_scause (csr (entered s u))) with (c_scause c). unfold known_irq in Hi.
      destruct (c_scause c =? EXTERNAL); [done|]. destruct (c_scause c =? TIMER); [done|]. by apply wp_ret. }
    apply wp_exists in Hd as (d & s1 & Ed & -> & ->).
    exists (set_cur (Some (set_u_killed 1 (set_epc (c_sepc c) u))) (entered s u)). split; [|done].
    unfold mbind, M_bind, gets, modify. fold c. rewrite Hm. cbn. rewrite Hu. cbn. fold c.
    rewrite (proj2 (Z.eqb_neq _ 8) N1), (proj2 (Z.eqb_neq _ 13) N2), (proj2 (Z.eqb_neq _ 15) N3). cbn [orb].
    assert (set_cur (set_epc (c_sepc c) <$> cur s) (set_csr (w_stvec kernelvec c) s) = entered s u) as -> by (by rewrite Hu).
    rewrite Ed. cbn. by apply exit_leaves.
Qed.

(** A user program can stop the kernel.  A load or store at an address at or above MAXVA
    faults, and [usertrap] passes the address to [walk], which panics, instead of killing the
    process. *)
Theorem fault_above_maxva_panics s u : let c := csr s in cur s = Some u -> tst (c_sstatus c) SSTATUS_SPP = false ->
  c_scause c = 13 \/ c_scause c = 15 -> MAXVA <= c_stval c -> panics (usertrap fuel) "walk" s.
Proof.
  intros c Hu Hm Hc Hva. unfold panics. rewrite (usertrap_fault s u Hu Hm Hc). fold c. unfold zoom, page_fault, walk.
  rewrite (proj2 (Z.leb_le MAXVA (c_stval c)) Hva). done.
Qed.
End trap.

(** ** Bringing a page back from swap *)

(** Memory changed inside a page that is no table of [t]. *)
Lemma rep_outside m m' t p : pt_rep m t -> pg_ok p -> ~ ptpage t p -> (forall a, ~ in_page p a -> rd8 m' a = rd8 m a) ->
  pt_rep m' t /\ forall va, 0 <= va -> pte_of m' t va = pte_of m t va.
Proof.
  intros R Hp Hn Ho. assert (forall P k, ptpage t P -> 0 <= k < 512 -> entry m' P k = entry m P k) as He.
  { intros P k HP Hk. pose proof (pt_pages _ _ R P HP) as [H1 H2]. destruct Hp as [H3 H4]. unfold entry. apply rd64_ext. intros a Ha. apply Ho.
    unfold in_page, PGSIZE in *. intros Hin. apply Hn. assert (P = p) as <- by dlia. done. }
  split.
  - destruct R as [R1 R2 R3 R4 R5 R6 R7 R8 R9]. split; try done.
    + intros i Hi. rewrite He; [by apply R2|by left|done].
    + intros i q j Hq Hj. rewrite He; [by eapply R3|right; left; by exists i|done].
  - intros va Hva. unfold pte_of, pte_addr. destruct (leaf t !! (PX 2 va, PX 1 va)) as [q|] eqn:E; [|done]. cbn.
    apply He; [right; right; by exists (PX 2 va, PX 1 va)|by apply PX_range].
Qed.

(** C39: page-in always stops the kernel.  When a process touches a page that was swapped out,
    [usertrap] allocates a page [p] and calls [swapread], which has [either_copyout] look up
    the physical address [p] as an address of the process.  Unless the process happens to map
    that address, the copy fails and the kernel panics. *)
Theorem page_in_panics `{Linker} n s t p l bl va r : pinv s t (p :: l) -> cur_pagetable s = root t -> 0 <= va < MAXVA ->
  pte_addr t va = Some r -> tst (rd64 (mem s) r) PTE_SWAP = true -> 0 <= i32 (PTE2PPN (rd64 (mem s) r)) < SWAPMAX / (PGSIZE / BSIZE) ->
  quiet (kbio s) bl -> tst (pte_of (mem s) t p) PTE_V = false ->
  panics (page_fault (S n) (root t) va) "swapread: either_copyout failed" s.
Proof.
  intros [R Hf Hdis] Hc Hva Hr Hsw Hblk Hq Hpte. assert (is_page p) as Hip by (apply (fr_page _ _ Hf); by constructor).
  pose proof (is_page_pg_ok p Hip) as Hpk. assert (~ ptpage t p) as Hnp by (apply Hdis; by constructor).
  assert (r <> 0) as Hr0.
  { unfold pte_addr in Hr. apply fmap_Some in Hr as (q & Hq' & ->). pose proof (leaf_page _ _ _ _ R Hq') as [_ ?]. pose proof (PX_range 0 va ltac:(lia)). lia. }
  unfold page_fault. apply panics_bind_r. eapply wp_mono; [by apply walk_ok|]. cbn beta. intros x s0 [-> ->]. rewrite Hr. cbn [default from_option id].
  rewrite (proj2 (Z.eqb_neq r 0) Hr0). apply panics_bind_r, wp_gets. rewrite Hsw. cbn [negb andb].
  apply panics_bind_r. eapply wp_mono; [by apply (kalloc_ok n s p l Hf)|]. cbn beta. intros x s1 (-> & Hf1 & Es1).
  assert (p <> 0) as Hp0 by (destruct Hpk; lia). rewrite (proj2 (Z.eqb_neq p 0) Hp0). apply panics_bind_r, wp_ret. rewrite (proj2 (Z.eqb_neq p 0) Hp0).
  destruct (rep_outside (mem s) (mem s1) t p R Hpk Hnp) as [R1 Hp1].
  { intros a Ha. rewrite Es1. cbn. by apply memset_outside. }
  assert (rd64 (mem s1) r = rd64 (mem s) r) as Er by (specialize (Hp1 va ltac:(lia)); unfold pte_of in Hp1; by rewrite Hr in Hp1).
  apply panics_bind_r, wp_gets. rewrite Er. cbv zeta. apply panics_bind_l. unfold swapread. set (blk := i32 _) in *.
  assert ((blk <? 0) || (SWAPMAX / (PGSIZE / BSIZE) <=? blk) = false) as -> by (apply orb_false_iff; rewrite Z.ltb_ge, Z.leb_gt; lia).
  change (Z.to_nat (PGSIZE / BSIZE)) with 4%nat. cbn [for_]. apply panics_bind_l, panics_bind_r, wp_modify, panics_bind_r. unfold onkbio. apply wp_zoom.
  assert (kbio s1 = kbio s) as Eb by by rewrite Es1. cbn [kbio set_nr_sectors_read]. rewrite Eb.
  eapply wp_mono; [eapply quiet_bread; exact Hq|]. cbn beta. intros b bs _. apply panics_bind_r. unfold either_copyout. apply wp_bind, wp_gets.
  assert (cur_pagetable s1 = root t) as Ec by (rewrite Es1; exact Hc). cbn [cur_pagetable set_kbio set_nr_sectors_read]. rewrite Ec, Z.mul_0_l, Z.add_0_r.
  unfold copyout. change (Z.to_nat (BSIZE / PGSIZE + 3)) with 3%nat. cbn [loop]. apply wp_bind. change (BSIZE =? 0) with false. cbn iota.
  destruct Hip as (Hal & [Hlo Hhi] & Hp1'). assert (0 <= p < MAXVA) as Hpva by (destruct Hpk; split; [lia|]; transitivity PHYSTOP; [lia|done]).
  assert (PGROUNDDOWN p = p) as -> by (rewrite PGROUNDDOWN_spec by (change MAXVA with 274877906944 in Hpva; lia); unfold PGSIZE in *; lia).
  rewrite (proj2 (Z.leb_gt MAXVA p)) by lia. set (s2 := set_kbio _ _). change (mem s1) with (mem s2) in R1, Hp1.
  apply wp_bind. eapply wp_mono; [by apply walk_ok|]. cbn beta. intros x s3 [-> ->]. specialize (Hp1 p ltac:(lia)). rewrite <- Hp1 in Hpte. unfold pte_of in Hpte.
  destruct (pte_addr t p) as [q|]; cbn [default from_option id] in *; [|by apply wp_ret].
  destruct (q =? 0); [by apply wp_ret|]. apply wp_bind, wp_gets. rewrite Hpte. cbn [negb orb]. by apply wp_ret.
Qed.

(** ** Runs *)

#[export] Instance toy_trap : TrapEnv unit := {
  kernelvec := 0x80005000; uservec := 0x80006000; userret := 0x8000609c; usertrap_addr := 0x80002000;
  syscall := mret tt; exit := fun _ => Prelude.block; yield := mret tt; wakeup_ticks := mret tt;
  uartintr := mret tt; virtio_disk_intr := mret tt; plic_claim := mret 10; plic_complete := fun _ => mret tt;
}.
#[export] Instance toy_trap_ok : TrapOk unit.
Proof. by split. Qed.

Definition toy_proc : uproc := mkU 0 0x3fffffd000 (root demo_tree) 0 0 0 0 0.
Definition toy_trap_state (sstatus scause stval : Z) : tstate unit :=
  mkT (mkCsr sstatus scause 100 stval 0 0 0 5000 0) (Some toy_proc) 0 demo_kst tt.

Lemma toy_unlocked a b c : TICKS_LOCK ∉ held (toy_trap_state a b c).
Proof. change (TICKS_LOCK ∉ (∅ : gset Z)). set_solver. Qed.

Lemma kerneltrap_transparent_witness : wp kerneltrap (fun _ s' => c_sepc (csr s') = 100 /\ c_sstatus (csr s') = SSTATUS_SPP)
  (toy_trap_state SSTATUS_SPP TIMER 0).
Proof.
  pose proof (kerneltrap_transparent (toy_trap_state SSTATUS_SPP TIMER 0) (toy_unlocked _ _ _)) as (_ & _ & H).
  specialize (H eq_refl eq_refl). rewrite decide_False in H by done. eapply wp_mono; [exact H|]. cbn beta. by intros _ s' (-> & -> & _).
Defined.

Lemma usertrap_resumes_witness : wp (usertrap (H0 := demo_linker) 3) (fun r s' => c_sepc (csr s') = 104 /\ snd r = MAKE_SATP (root demo_tree))
  (toy_trap_state 0 8 0).
Proof.
  pose proof (usertrap_resumes (H0 := demo_linker) 3 (toy_trap_state 0 8 0) toy_proc eq_refl eq_refl eq_refl (toy_unlocked _ _ _)) as [H _].
  specialize (H eq_refl (fun _ s1 => cur s1 = Some (set_epc 104 toy_proc)) eq_refl). eapply wp_mono; [apply H; eauto|]. cbn beta.
  intros r s' (s1 & u1 & E1 & E2 & [_ -> _ _ ->]). rewrite E1 in E2. by injection E2 as <-.
Defined.

Lemma usertrap_kills_witness : exists s1, usertrap (H0 := demo_linker) 3 (toy_trap_state 0 13 0x1000) = gone (exit (-1) s1) /\ u_killed <$> cur s1 = Some 1.
Proof.
  destruct (usertrap_kills (H0 := demo_linker) 3 (toy_trap_state 0 13 0x1000) toy_proc demo_tree eq_refl eq_refl (toy_unlocked _ _ _)) as (s1 & E1 & E2 & _).
  - left. split; [by left|]. split; [exact demo_rep|]. split; [done|]. split; [done|].
    transitivity (tst (rd64 demo_mem 0x80202008) PTE_SWAP); [done|]. by rewrite demo_rd64.
  - exists s1. exact (conj E1 E2).
Defined.

Lemma fault_above_maxva_panics_witness : panics (usertrap (H0 := demo_linker) 3) "walk" (toy_trap_state 0 15 MAXVA).
Proof. apply (fault_above_maxva_panics (H0 := demo_linker) 3 _ toy_proc); [done|done|by right|done]. Defined.

Lemma page_in_panics_witness : exists s, panics (page_fault (H := demo_linker) 3 (root demo_tree) 0x1000) "swapread: either_copyout failed" s.
Proof.
  assert (exists b l, quiet b l /\ held b = ∅) as (b & l & Hq & Hh).
  { pose proof (binit_quiet ∅ 1) as Hw. revert Hw. generalize binit as m. generalize (boot ∅ 1) as s0.
    intros s0 m Hw. apply wp_exists in Hw as (u & b & _ & Hh & l & Hq). by exists b, l. }
  set (s0 := set_cur_pagetable (root demo_tree) (set_kbio b demo_kst)).
  assert (@pinv demo_linker s0 demo_tree [0x80100000; 0x80101000]) as I0.
  { destruct (ki_p _ _ _ _ demo_kinv) as [R [Fl Fd Fp Fk] Dj]. split; [exact R| |exact Dj]. split; [exact Fl|exact Fd|exact Fp|].
    change (KMEM_LOCK ∉ held b). rewrite Hh. set_solver. }
  pose proof (store_leaf_inv (H := demo_linker) s0 demo_tree _ 0x1000 0x80202008 PTE_SWAP I0 eq_refl) as I1.
  eexists. eapply (page_in_panics (H := demo_linker) 2 _ demo_tree 0x80100000 [0x80101000] l 0x1000 0x80202008 I1); try done.
Defined.
