(* ===== verification/Boot.v ===== *)
(** * Start-up

    [kernel/start.c], [kernel/main.c] and [kernel/plic.c], with [kvminit] and [kvminithart] of
    [vm.c]: how each hart gets from machine mode on [stack0] to the scheduler.  A hart's control
    registers and the registers of the interrupt controller are explicit; the initialisations of
    the other components are the calls of [main], in order ([Kmem.v], [Bio.v], [Fs.v], ... say
    what they do).  The harts run interleaved, one call at a time. *)

From Stdlib Require Import ZArith Lia.
From stdpp Require Import base numbers list gmap relations sets.
From S2P Require Import Prelude Riscv.

(** ** Registers *)

Definition MSTATUS_MPP_MASK : Z := Z.shiftl 3 11.
Definition MSTATUS_MPP_S : Z := Z.shiftl 1 11.
Definition SIE_SEIE : Z := Z.shiftl 1 9.
Definition SIE_STIE : Z := Z.shiftl 1 5.
Definition SIE_SSIE : Z := Z.shiftl 1 1.
Definition MIE_STIE : Z := Z.shiftl 1 5.

(** [mode] is the privilege (3 machine, 1 supervisor, 0 user), [pc] where the hart runs. *)
Record regs := Regs {
  mode : Z; pc : Z; mstatus : Z; mepc : Z; satp : Z; medeleg : Z; mideleg : Z; sie : Z; pmpaddr0 : Z; pmpcfg0 : Z;
  mie : Z; menvcfg : Z; mcounteren : Z; time : Z; stimecmp : Z; mhartid : Z; tp : Z; stvec : Z;
}.

Definition w_mstatus v r := Regs (mode r) (pc r) v (mepc r) (satp r) (medeleg r) (mideleg r) (sie r) (pmpaddr0 r) (pmpcfg0 r) (mie r) (menvcfg r) (mcounteren r) (time r) (stimecmp r) (mhartid r) (tp r) (stvec r).
Definition w_mepc v r := Regs (mode r) (pc r) (mstatus r) v (satp r) (medeleg r) (mideleg r) (sie r) (pmpaddr0 r) (pmpcfg0 r) (mie r) (menvcfg r) (mcounteren r) (time r) (stimecmp r) (mhartid r) (tp r) (stvec r).
Definition w_satp v r := Regs (mode r) (pc r) (mstatus r) (mepc r) v (medeleg r) (mideleg r) (sie r) (pmpaddr0 r) (pmpcfg0 r) (mie r) (menvcfg r) (mcounteren r) (time r) (stimecmp r) (mhartid r) (tp r) (stvec r).
Definition w_medeleg v r := Regs (mode r) (pc r) (mstatus r) (mepc r) (satp r) v (mideleg r) (sie r) (pmpaddr0 r) (pmpcfg0 r) (mie r) (menvcfg r) (mcounteren r) (time r) (stimecmp r) (mhartid r) (tp r) (stvec r).
Definition w_mideleg v r := Regs (mode r) (pc r) (mstatus r) (mepc r) (satp r) (medeleg r) v (sie r) (pmpaddr0 r) (pmpcfg0 r) (mie r) (menvcfg r) (mcounteren r) (time r) (stimecmp r) (mhartid r) (tp r) (stvec r).
Definition w_sie v r := Regs (mode r) (pc r) (mstatus r) (mepc r) (satp r) (medeleg r) (mideleg r) v (pmpaddr0 r) (pmpcfg0 r) (mie r) (menvcfg r) (mcounteren r) (time r) (stimecmp r) (mhartid r) (tp r) (stvec r).
Definition w_pmpaddr0 v r := Regs (mode r) (pc r) (mstatus r) (mepc r) (satp r) (medeleg r) (mideleg r) (sie r) v (pmpcfg0 r) (mie r) (menvcfg r) (mcounteren r) (time r) (stimecmp r) (mhartid r) (tp r) (stvec r).
Definition w_pmpcfg0 v r := Regs (mode r) (pc r) (mstatus r) (mepc r) (satp r) (medeleg r) (mideleg r) (sie r) (pmpaddr0 r) v (mie r) (menvcfg r) (mcounteren r) (time r) (stimecmp r) (mhartid r) (tp r) (stvec r).
Definition w_mie v r := Regs (mode r) (pc r) (mstatus r) (mepc r) (satp r) (medeleg r) (mideleg r) (sie r) (pmpaddr0 r) (pmpcfg0 r) v (menvcfg r) (mcounteren r) (time r) (stimecmp r) (mhartid r) (tp r) (stvec r).
Definition w_menvcfg v r := Regs (mode r) (pc r) (mstatus r) (mepc r) (satp r) (medeleg r) (mideleg r) (sie r) (pmpaddr0 r) (pmpcfg0 r) (mie r) v (mcounteren r) (time r) (stimecmp r) (mhartid r) (tp r) (stvec r).
Definition w_mcounteren v r := Regs (mode r) (pc r) (mstatus r) (mepc r) (satp r) (medeleg r) (mideleg r) (sie r) (pmpaddr0 r) (pmpcfg0 r) (mie r) (menvcfg r) v (time r) (stimecmp r) (mhartid r) (tp r) (stvec r).
Definition w_stimecmp v r := Regs (mode r) (pc r) (mstatus r) (mepc r) (satp r) (medeleg r) (mideleg r) (sie r) (pmpaddr0 r) (pmpcfg0 r) (mie r) (menvcfg r) (mcounteren r) (time r) v (mhartid r) (tp r) (stvec r).
Definition w_tp v r := Regs (mode r) (pc r) (mstatus r) (mepc r) (satp r) (medeleg r) (mideleg r) (sie r) (pmpaddr0 r) (pmpcfg0 r) (mie r) (menvcfg r) (mcounteren r) (time r) (stimecmp r) (mhartid r) v (stvec r).
Definition w_stvec v r := Regs (mode r) (pc r) (mstatus r) (mepc r) (satp r) (medeleg r) (mideleg r) (sie r) (pmpaddr0 r) (pmpcfg0 r) (mie r) (menvcfg r) (mcounteren r) (time r) (stimecmp r) (mhartid r) (tp r) v.

(** The instruction: to the mode in [mstatus]'s previous-privilege field, at [mepc]. *)
Definition mret r := Regs (Z.land (Z.shiftr (mstatus r) 11) 3) (mepc r) (mstatus r) (mepc r) (satp r) (medeleg r) (mideleg r) (sie r) (pmpaddr0 r) (pmpcfg0 r) (mie r) (menvcfg r) (mcounteren r) (time r) (stimecmp r) (mhartid r) (tp r) (stvec r).

(** ** start.c *)

Definition timerinit (r : regs) : regs :=
  let r := w_mie (Z.lor (mie r) MIE_STIE) r in
  let r := w_menvcfg (Z.lor (menvcfg r) (Z.shiftl 1 63)) r in
  let r := w_mcounteren (Z.lor (mcounteren r) 2) r in
  w_stimecmp (u64 (time r + 1000000)) r.

(** [main_addr] is the address of [main]. *)
Definition start (main_addr : Z) (r : regs) : regs :=
  let x := mstatus r in
  let x := Z.ldiff x MSTATUS_MPP_MASK in
  let x := Z.lor x MSTATUS_MPP_S in
  let r := w_mstatus x r in
  let r := w_mepc main_addr r in
  let r := w_satp 0 r in
  let r := w_medeleg 0xffff r in
  let r := w_mideleg 0xffff r in
  let r := w_sie (Z.lor (Z.lor (Z.lor (sie r) SIE_SEIE) SIE_STIE) SIE_SSIE) r in
  let r := w_pmpaddr0 0x3fffffffffffff r in
  let r := w_pmpcfg0 0xf r in
  let r := timerinit r in
  let id := i32 (mhartid r) in
  let r := w_tp (u64 id) r in
  mret r.

(** ** plic.c *)

Definition PLIC_SENABLE (hart : Z) : Z := PLIC + 0x2080 + hart * 0x100.
Definition PLIC_SPRIORITY (hart : Z) : Z := PLIC + 0x201000 + hart * 0x2000.
Definition PLIC_SCLAIM (hart : Z) : Z := PLIC + 0x201004 + hart * 0x2000.
Definition IRQS : Z := Z.lor (Z.shiftl 1 UART0_IRQ) (Z.shiftl 1 VIRTIO0_IRQ).

Definition cpuid (r : regs) : Z := i32 (tp r).
Definition plicinit (p : gmap Z Z) : gmap Z Z :=
  <[PLIC + VIRTIO0_IRQ * 4 := 1]> (<[PLIC + UART0_IRQ * 4 := 1]> p).
Definition plicinithart (r : regs) (p : gmap Z Z) : gmap Z Z :=
  let hart := cpuid r in
  <[PLIC_SPRIORITY hart := 0]> (<[PLIC_SENABLE hart := IRQS]> p).

(** ** main.c *)

Inductive call :=
| consoleinit | printfinit | banner | kinit | kvminit | kvminithart | procinit | trapinit | trapinithart | plicinit_ | plicinithart_
| binit | iinit | fileinit | virtio_disk_init | userinit | set_started | wait_started | hart_banner.
#[export] Instance call_eq_dec : EqDecision call.
Proof. solve_decision. Defined.

Definition first_calls : list call :=
  [consoleinit; printfinit; banner; kinit; kvminit; kvminithart; procinit; trapinit; trapinithart; plicinit_; plicinithart_;
   binit; iinit; fileinit; virtio_disk_init; userinit].
Definition other_calls : list call := [hart_banner; kvminithart; trapinithart; plicinithart_].
(** The calls of [main] up to [scheduler]. *)
Definition main (id : Z) : list call :=
  if id =? 0 then first_calls ++ [set_started] else wait_started :: other_calls.

(** What the harts share: [started], [kernel_pagetable], the controller's registers, and the
    calls made so far. *)
Record shared := Shared { started : Z; kernel_pagetable : Z; plic : gmap Z Z; calls : list (Z * call) }.

Section boot.
Context (main_addr kernelvec kvmmake : Z).

(** A call by a hart with registers [r]; [None] while it spins. *)
Definition do_call (c : call) (r : regs) (g : shared) : option (regs * shared) :=
  let log := calls g ++ [(cpuid r, c)] in
  match c with
  | kvminit => Some (r, Shared (started g) kvmmake (plic g) log)
  | kvminithart => Some (w_satp (MAKE_SATP (kernel_pagetable g)) r, Shared (started g) (kernel_pagetable g) (plic g) log)
  | trapinithart => Some (w_stvec kernelvec r, Shared (started g) (kernel_pagetable g) (plic g) log)
  | plicinit_ => Some (r, Shared (started g) (kernel_pagetable g) (plicinit (plic g)) log)
  | plicinithart_ => Some (r, Shared (started g) (kernel_pagetable g) (plicinithart r (plic g)) log)
  | set_started => Some (r, Shared 1 (kernel_pagetable g) (plic g) (calls g))
  | wait_started => if started g =? 0 then None else Some (r, g)
  | _ => Some (r, Shared (started g) (kernel_pagetable g) (plic g) log)
  end.

(** A hart in [start], or in [main] with the calls before [scheduler] that are left. *)
Inductive stage := InStart | InMain (rest : list call).
Record machine := Machine { harts : list (regs * stage); glob : shared }.

Inductive step : machine -> machine -> Prop :=
| s_start l h r g : l !! h = Some (r, InStart) ->
    step (Machine l g) (Machine (<[h := (start main_addr r, InMain (main (cpuid (start main_addr r))))]> l) g)
| s_call l h r c rest g r' g' : l !! h = Some (r, InMain (c :: rest)) -> do_call c r g = Some (r', g') ->
    step (Machine l g) (Machine (<[h := (r', InMain rest)]> l) g').

(** Reset: every hart in [start] with its number, nothing started. *)
Definition reset (m : machine) : Prop :=
  (forall h r st, harts m !! h = Some (r, st) -> st = InStart /\ mhartid r = Z.of_nat h) /\ (length (harts m) <= Z.to_nat NCPU)%nat /\ started (glob m) = 0 /\ calls (glob m) = [].

(** ** [start] *)

Lemma mpp_supervisor x : Z.land (Z.shiftr (Z.lor (Z.ldiff x MSTATUS_MPP_MASK) MSTATUS_MPP_S) 11) 3 = 1.
Proof.
  apply Z.bits_inj'. intros n Hn. rewrite Z.land_spec, Z.shiftr_spec, Z.lor_spec, Z.ldiff_spec by done. unfold MSTATUS_MPP_MASK, MSTATUS_MPP_S. rewrite !Z.shiftl_spec by lia.
  replace (n + 11 - 11) with n by lia. destruct (decide (n = 0)) as [->|]; [cbn; by rewrite !orb_true_r|]. destruct (decide (n = 1)) as [->|]; [cbn; by rewrite andb_false_r|].
  assert (Z.testbit 3 n = false) as -> by (apply Z.bits_above_log2; cbn; lia). assert (Z.testbit 1 n = false) as -> by (apply Z.bits_above_log2; cbn; lia). by rewrite andb_false_r.
Qed.

(** What [start] sets up for [main]. *)
Definition in_supervisor (h : nat) (r : regs) : Prop :=
  mode r = 1 /\ pc r = main_addr /\ tp r = Z.of_nat h /\ medeleg r = 0xffff /\ mideleg r = 0xffff /\ Z.testbit (mie r) 5 = true /\ Z.testbit (sie r) 5 = true /\ Z.testbit (sie r) 9 = true.

Lemma start_ok h r : (h < Z.to_nat NCPU)%nat -> mhartid r = Z.of_nat h -> in_supervisor h (start main_addr r).
Proof.
  intros Hh Hid. change (Z.to_nat NCPU) with 8%nat in Hh. unfold in_supervisor, start. cbn -[MSTATUS_MPP_MASK MSTATUS_MPP_S Z.land Z.lor Z.ldiff Z.shiftr Z.testbit u64 i32]. split; [apply mpp_supervisor|].
  split; [done|]. split; [rewrite Hid, i32_id by lia; unfold u64; apply Z.mod_small; lia|]. rewrite !Z.lor_spec. unfold MIE_STIE, SIE_STIE, SIE_SEIE. split; [done|]. split; [done|].
  split; [cbn; apply orb_true_r|]. split; [cbn; by rewrite orb_true_r|]. cbn. by rewrite orb_true_r.
Qed.
Lemma supervisor_cpuid h r : (h < Z.to_nat NCPU)%nat -> in_supervisor h r -> cpuid r = Z.of_nat h.
Proof. intros Hh (_ & _ & E & _). change (Z.to_nat NCPU) with 8%nat in Hh. unfold cpuid. rewrite E. apply i32_id. lia. Qed.

(** ** The interleaved boot *)

Definition irqs_on (h : nat) (p : gmap Z Z) : Prop := p !! PLIC_SENABLE (Z.of_nat h) = Some IRQS /\ p !! PLIC_SPRIORITY (Z.of_nat h) = Some 0.
Definition irqs_prio (p : gmap Z Z) : Prop := p !! (PLIC + UART0_IRQ * 4) = Some 1 /\ p !! (PLIC + VIRTIO0_IRQ * 4) = Some 1.

(** Hart [h] in [main], after the calls [done]. *)
Record hart_ok (p : list call) (g : shared) (h : nat) (r : regs) (done rest : list call) : Prop := {
  ho_super : in_supervisor h r;
  ho_main : done ++ rest = main (Z.of_nat h);
  ho_satp : kvminithart ∈ done -> satp r = MAKE_SATP kvmmake;
  ho_stvec : trapinithart ∈ done -> stvec r = kernelvec;
  ho_plic : plicinithart_ ∈ done -> irqs_on h (plic g);
  ho_started : h <> 0%nat -> done <> [] -> started g <> 0;
  ho_first : h = 0%nat -> done = p ++ if started g =? 0 then [] else [set_started];
}.
Definition hart_inv (p : list call) (g : shared) (h : nat) (x : regs * stage) : Prop :=
  match x.2 with
  | InStart => mhartid x.1 = Z.of_nat h /\ (h = 0%nat -> p = [] /\ started g = 0)
  | InMain rest => exists done, hart_ok p g h x.1 done rest
  end.
(** [p] are the calls hart 0 has made, [q] those of the others. *)
Record glob_ok (p : list call) (q : list (Z * call)) (g : shared) : Prop := {
  go_calls : calls g = map (pair 0) p ++ q;
  go_first : Forall (fun x => x.1 <> 0) q;
  go_wait : started g = 0 -> q = [];
  go_started : started g <> 0 -> p = first_calls;
  go_prefix : exists l, p ++ l = first_calls;
  go_kpt : kvminit ∈ p -> kernel_pagetable g = kvmmake;
  go_prio : plicinit_ ∈ p -> irqs_prio (plic g);
}.
Definition boot_inv (m : machine) : Prop :=
  (length (harts m) <= Z.to_nat NCPU)%nat /\ exists p q, glob_ok p q (glob m) /\ forall h x, harts m !! h = Some x -> hart_inv p (glob m) h x.

Lemma reset_inv m : reset m -> boot_inv m.
Proof.
  intros (H1 & H2 & H3 & H4). split; [done|]. exists [], []. split.
  - split; [by rewrite H4|constructor|done|by rewrite H3|by exists first_calls|intros HH; by apply not_elem_of_nil in HH..].
  - intros h [r st] Hx. destruct (H1 h r st Hx) as [-> E]. by split.
Qed.

Lemma step_start m h r : boot_inv m -> harts m !! h = Some (r, InStart) ->
  boot_inv (Machine (<[h := (start main_addr r, InMain (main (cpuid (start main_addr r))))]> (harts m)) (glob m)).
Proof.
  intros (Hl & p & q & Hg & Hh) Hr. assert (h < Z.to_nat NCPU)%nat as Hlt by (apply lookup_lt_Some in Hr; lia). split; [cbn; by rewrite length_insert|]. exists p, q. split; [done|].
  intros h' x Hx. cbn [harts glob] in *. destruct (decide (h' = h)) as [->|Hne].
  - rewrite list_lookup_insert_eq in Hx by (by apply lookup_lt_Some in Hr). injection Hx as <-. pose proof (Hh h _ Hr) as [E H0]. pose proof (start_ok h r Hlt E) as Hs.
    rewrite (supervisor_cpuid h _ Hlt Hs). exists []. split; try done; try (by intros HH; apply not_elem_of_nil in HH). cbn. intros E0. destruct (H0 E0) as [-> ->]. done.
  - rewrite list_lookup_insert_ne in Hx by done. by apply Hh.
Qed.

(** What a call changes. *)
Lemma do_call_regs c r g r' g' h : do_call c r g = Some (r', g') ->
  (in_supervisor h r -> in_supervisor h r') /\ satp r' = (if decide (c = kvminithart) then MAKE_SATP (kernel_pagetable g) else satp r) /\ stvec r' = (if decide (c = trapinithart) then kernelvec else stvec r).
Proof. destruct c; cbn; try (by intros [= <- <-]). destruct (started g =? 0); [done|]. by intros [= <- <-]. Qed.
Lemma do_call_glob c r g r' g' : do_call c r g = Some (r', g') ->
  kernel_pagetable g' = (if decide (c = kvminit) then kvmmake else kernel_pagetable g) /\
  plic g' = (if decide (c = plicinit_) then plicinit (plic g) else if decide (c = plicinithart_) then plicinithart r (plic g) else plic g) /\
  started g' = (if decide (c = set_started) then 1 else started g) /\
  calls g' = (if decide (c = set_started \/ c = wait_started) then calls g else calls g ++ [(cpuid r, c)]) /\
  (c = wait_started -> started g <> 0).
Proof.
  destruct c; cbn [do_call]; try (intros [= <- <-]; cbn; split_and!; try done; by rewrite decide_False by naive_solver).
  destruct (Z.eqb_spec (started g) 0); [done|]. intros [= <- <-]. cbn. split_and!; try done.
Qed.

(** The order of hart 0's calls. *)
Lemma first_order p c rest : p ++ c :: rest = first_calls ++ [set_started] ->
  (c = kvminithart -> kvminit ∈ p) /\ c <> wait_started /\ (c = set_started -> p = first_calls /\ rest = []) /\ (c <> set_started -> exists l, (p ++ [c]) ++ l = first_calls).
Proof.
  intros H. assert (c ∈ first_calls ++ [set_started]) as Hin by (rewrite <- H; set_solver). unfold first_calls in *. cbn [app] in *.
  do 17 (destruct p as [|? p]; [cbn [app] in H; injection H; intros; subst; split_and!; intros; try done; try set_solver; by eexists|cbn [app] in H; injection H; clear H; intros H; intros ->]).
  by destruct p.
Qed.

(** The controller's registers of different harts are apart. *)
Lemma irqs_on_hart h r p : (h < Z.to_nat NCPU)%nat -> cpuid r = Z.of_nat h -> irqs_on h (plicinithart r p).
Proof.
  intros Hh E. change (Z.to_nat NCPU) with 8%nat in Hh. unfold irqs_on, plicinithart. rewrite E. split; [|apply lookup_insert_eq].
  rewrite lookup_insert_ne; [apply lookup_insert_eq|unfold PLIC_SENABLE, PLIC_SPRIORITY; lia].
Qed.
Lemma irqs_on_other h k r p : (h < Z.to_nat NCPU)%nat -> (k < Z.to_nat NCPU)%nat -> k <> h -> cpuid r = Z.of_nat h -> irqs_on k p -> irqs_on k (plicinithart r p).
Proof.
  intros Hh Hk Hne E [H1 H2]. change (Z.to_nat NCPU) with 8%nat in *. unfold irqs_on, plicinithart. rewrite E. unfold PLIC_SENABLE, PLIC_SPRIORITY in *.
  split; rewrite !lookup_insert_ne by lia; done.
Qed.
Lemma irqs_prio_hart h r p : (h < Z.to_nat NCPU)%nat -> cpuid r = Z.of_nat h -> irqs_prio p -> irqs_prio (plicinithart r p).
Proof.
  intros Hh E [H1 H2]. change (Z.to_nat NCPU) with 8%nat in *. unfold irqs_prio, plicinithart. rewrite E. unfold PLIC_SENABLE, PLIC_SPRIORITY, UART0_IRQ, VIRTIO0_IRQ in *.
  split; rewrite !lookup_insert_ne by lia; done.
Qed.

(** A call of hart 0: nobody else is past [wait_started]. *)
Lemma step_first p q g r c rest r' g' : glob_ok p q g -> hart_inv p g 0 (r, InMain (c :: rest)) -> do_call c r g = Some (r', g') ->
  started g = 0 /\ exists p', glob_ok p' q g' /\ hart_inv p' g' 0 (r', InMain rest).
Proof.
  intros Hg [done Hd] Hc. destruct (do_call_regs _ _ _ _ _ 0%nat Hc) as (R1 & R2 & R3). destruct (do_call_glob _ _ _ _ _ Hc) as (G1 & G2 & G3 & G4 & _). cbn [fst] in Hd.
  pose proof (supervisor_cpuid 0 r ltac:(vm_compute; lia) (ho_super _ _ _ _ _ _ Hd)) as Eid. pose proof (ho_main _ _ _ _ _ _ Hd) as Hm. pose proof (ho_first _ _ _ _ _ _ Hd eq_refl) as Hf. change (main (Z.of_nat 0)) with (first_calls ++ [set_started]) in Hm.
  destruct (Z.eqb_spec (started g) 0) as [Es|Es].
  2:{ exfalso. rewrite (go_started _ _ _ Hg Es) in Hf. rewrite Hf in Hm. apply (f_equal length) in Hm. rewrite !length_app in Hm. unfold first_calls in Hm. cbn in Hm. lia. }
  split; [done|]. rewrite app_nil_r in Hf. subst done. destruct (first_order _ _ _ Hm) as (O1 & O2 & O3 & O4).
  destruct Hg as [K1 K2 K3 K4 [l K5] K6 K7]. destruct Hd as [D1 D2 D3 D4 D5 D6 D7]. destruct (decide (c = set_started)) as [->|Hns].
  - destruct (O3 eq_refl) as [-> ->]. exists first_calls. split.
    + split; rewrite ?G1, ?G2, ?G3, ?G4; try done. by exists [].
    + exists (first_calls ++ [set_started]). cbn [fst]. split; rewrite ?R2, ?R3, ?G2, ?G3; try done; [by apply R1|..].
      * intros H. apply D3. set_solver.
      * intros H. apply D4. set_solver.
      * intros H. apply D5. set_solver.
  - exists (p ++ [c]). split.
    + split; rewrite ?G1, ?G2, ?G3, ?G4; try done.
      * rewrite decide_False by naive_solver. by rewrite K1, (K3 Es), Eid, map_app, !app_nil_r.
      * destruct (O4 Hns) as [l' E']. by exists l'.
      * intros H. destruct (decide (c = kvminit)); [done|]. apply K6. set_solver.
      * intros H. destruct (decide (c = plicinit_)) as [->|]; [unfold plicinit, irqs_prio; split; [rewrite lookup_insert_ne by done; apply lookup_insert_eq|apply lookup_insert_eq]|].
        assert (irqs_prio (plic g)) by (apply K7; set_solver). destruct (decide (c = plicinithart_)); [|done]. by apply (irqs_prio_hart 0); [vm_compute; lia|..].
    + exists (p ++ [c]). cbn [fst]. split; rewrite ?R2, ?R3, ?G2, ?G3; try done.
      * by apply R1.
      * by rewrite <- app_assoc.
      * intros H. destruct (decide (c = kvminithart)) as [->|]; [by rewrite K6 by auto|]. apply D3. set_solver.
      * intros H. destruct (decide (c = trapinithart)); [done|]. apply D4. set_solver.
      * intros H. destruct (decide (c = plicinit_)) as [->|].
        { assert (irqs_on 0 (plic g)) as [H1 H2] by (apply D5; set_solver). split; unfold plicinit; by rewrite !lookup_insert_ne by done. }
        destruct (decide (c = plicinithart_)); [by apply irqs_on_hart; [vm_compute; lia|]|]. apply D5. set_solver.
      * intros _. by rewrite Es, app_nil_r.
Qed.
Lemma idle_others p g p' g' h x : started g = 0 -> h <> 0%nat -> hart_inv p g h x -> hart_inv p' g' h x.
Proof.
  intros Es Hh. destruct x as [r [|rest]]; [by intros [? _]|]. intros [done [D1 D2 D3 D4 D5 D6 D7]]. assert (done = []) as -> by (destruct done; [done|]; by destruct (D6 Hh)).
  exists []. split; try done; intros HH; by apply not_elem_of_nil in HH.
Qed.

(** A call of another hart: hart 0 has finished. *)
Lemma step_other p q g h r c rest r' g' : (h < Z.to_nat NCPU)%nat -> glob_ok p q g -> hart_inv p g h (r, InMain (c :: rest)) -> h <> 0%nat -> do_call c r g = Some (r', g') ->
  exists q', glob_ok p q' g' /\ hart_inv p g' h (r', InMain rest) /\ (forall k x, (k < Z.to_nat NCPU)%nat -> k <> h -> hart_inv p g k x -> hart_inv p g' k x).
Proof.
  intros Hh Hg [done Hd] Hne Hc. destruct (do_call_regs _ _ _ _ _ h Hc) as (R1 & R2 & R3). destruct (do_call_glob _ _ _ _ _ Hc) as (G1 & G2 & G3 & G4 & G5). cbn [fst] in Hd.
  pose proof (supervisor_cpuid h r Hh (ho_super _ _ _ _ _ _ Hd)) as Eid. destruct Hd as [D1 D2 D3 D4 D5 D6 D7]. destruct Hg as [K1 K2 K3 K4 K5 K6 K7].
  assert (main (Z.of_nat h) = wait_started :: other_calls) as Em by (unfold main; destruct (Z.eqb_spec (Z.of_nat h) 0); [lia|done]). rewrite Em in D2.
  assert (c ∈ wait_started :: other_calls) as Hin by (rewrite <- D2; set_solver). assert (started g <> 0) as Es by (destruct done; [injection D2 as -> _; by apply G5|by apply D6]).
  pose proof (K4 Es) as ->. assert (kernel_pagetable g = kvmmake) as Ek by (apply K6; unfold first_calls; set_solver). assert (irqs_prio (plic g)) as Hp by (apply K7; unfold first_calls; set_solver).
  assert (c <> kvminit /\ c <> plicinit_ /\ c <> set_started) as (N1 & N2 & N3) by (unfold other_calls in Hin; set_solver).
  rewrite decide_False in G1 by done. rewrite decide_False in G2 by done. rewrite decide_False in G3 by done. assert (irqs_prio (plic g')) as Hp' by (rewrite G2; destruct (decide (c = plicinithart_)); [by apply (irqs_prio_hart h)|done]).
  exists (if decide (c = wait_started) then q else q ++ [(Z.of_nat h, c)]). split_and!.
  - split; rewrite ?G1, ?G3; try done.
    + rewrite G4. destruct (decide (c = wait_started)); [by rewrite decide_True by auto|]. rewrite decide_False by naive_solver. by rewrite K1, Eid, <- app_assoc.
    + destruct (decide (c = wait_started)); [done|]. apply Forall_app. split; [done|]. apply Forall_singleton. cbn. lia.
  - exists (done ++ [c]). cbn [fst]. split; rewrite ?R2, ?R3, ?G3; try done.
    + by apply R1.
    + by rewrite <- app_assoc, Em.
    + intros H. destruct (decide (c = kvminithart)) as [->|]; [by rewrite Ek|]. apply D3. set_solver.
    + intros H. destruct (decide (c = trapinithart)); [done|]. apply D4. set_solver.
    + intros H. rewrite G2. destruct (decide (c = plicinithart_)); [by apply irqs_on_hart|]. apply D5. set_solver.
  - intros k [rk [|rk']] Hk Hkh; unfold hart_inv; cbn [fst snd]; rewrite ?G3; [done|]. intros [dk [E1 E2 E3 E4 E5 E6 E7]]. exists dk. split; rewrite ?G3; try done.
    intros H. specialize (E5 H). rewrite G2. destruct (decide (c = plicinithart_)); [by apply (irqs_on_other h)|done].
Qed.

Lemma boot_step m m' : boot_inv m -> step m m' -> boot_inv m'.
Proof.
  intros HI Hst. destruct Hst as [l h r g Hr|l h r c rest g r' g' Hr Hc]; [by apply (step_start (Machine l g))|]. destruct HI as (Hl & p & q & Hg & Hh). cbn [harts glob] in *.
  pose proof (lookup_lt_Some _ _ _ Hr) as Hlt. pose proof (Hh h _ Hr) as Hme. split; [cbn; by rewrite length_insert|]. cbn [harts glob].
  assert (exists p' q', glob_ok p' q' g' /\ hart_inv p' g' h (r', InMain rest) /\ forall k x, (k < Z.to_nat NCPU)%nat -> k <> h -> hart_inv p g k x -> hart_inv p' g' k x) as (p' & q' & Hg' & Hme' & Ho).
  { destruct (decide (h = 0%nat)) as [->|Hne].
    - destruct (step_first p q g r c rest r' g' Hg Hme Hc) as (Es & p' & Hg' & Hme'). exists p', q. split_and!; [done|done|]. intros k x _ Hk. by apply idle_others.
    - destruct (step_other p q g h r c rest r' g') as (q' & ?); [lia|done..|]. by exists p, q'. }
  exists p', q'. split; [done|]. intros k x Hx. destruct (decide (k = h)) as [->|Hk].
  - rewrite list_lookup_insert_eq in Hx by done. by injection Hx as <-.
  - rewrite list_lookup_insert_ne in Hx by done. pose proof (lookup_lt_Some _ _ _ Hx). apply Ho; [lia|done|]. by apply Hh.
Qed.

Lemma boot_steps m m' : boot_inv m -> rtc step m m' -> boot_inv m'.
Proof. intros HI Hst. induction Hst as [|m1 m2 m3 H12 _ IH]; [done|]. by apply IH, (boot_step m1). Qed.

(** Every call goes through, but the wait of the other harts before hart 0 is ready. *)
Lemma do_call_goes c r g : c <> wait_started \/ started g <> 0 -> exists r' g', do_call c r g = Some (r', g').
Proof. intros H. destruct c; cbn; try by do 2 eexists. destruct (Z.eqb_spec (started g) 0); [naive_solver|by do 2 eexists]. Qed.

Lemma boot_finished p q g h r : (h < Z.to_nat NCPU)%nat -> glob_ok p q g -> hart_inv p g h (r, InMain []) -> started g <> 0 /\ in_supervisor h r /\ satp r = MAKE_SATP kvmmake /\ stvec r = kernelvec /\ irqs_on h (plic g).
Proof.
  intros Hh Hg [done Hd]. cbn [fst] in Hd. destruct Hd as [D1 D2 D3 D4 D5 D6 D7]. rewrite app_nil_r in D2. subst done.
  assert (kvminithart ∈ main (Z.of_nat h) /\ trapinithart ∈ main (Z.of_nat h) /\ plicinithart_ ∈ main (Z.of_nat h) /\ main (Z.of_nat h) <> []) as (M1 & M2 & M3 & M4).
  { unfold main. destruct (Z.of_nat h =? 0); (split; [|split; [|split; [|done]]]); apply (bool_decide_unpack _); vm_compute; exact I. }
  split; [|split; [done|split; [by apply D3|split; [by apply D4|by apply D5]]]]. destruct (decide (h = 0%nat)) as [->|Hne]; [|by apply D6].
  intros Es. specialize (D7 eq_refl). rewrite Es in D7. rewrite app_nil_r in D7. destruct (go_prefix _ _ _ Hg) as [l El]. rewrite <- D7 in El.
  apply (f_equal length) in El. rewrite length_app in El. vm_compute in El. lia.
Qed.

(** While a hart is not in the scheduler, some hart can go on. *)
Lemma boot_goes m h r st : boot_inv m -> harts m !! h = Some (r, st) -> st <> InMain [] -> exists m', step m m'.
Proof.
  intros (Hl & p & q & Hg & Hh) Hr Hst. destruct m as [l g]. cbn [harts glob] in *. pose proof (lookup_lt_Some _ _ _ Hr) as Hlt. destruct (lookup_lt_is_Some_2 l 0%nat) as [[r0 st0] H0]; [lia|].
  pose proof (Hh 0%nat _ H0) as Hi0. destruct st0 as [|[|c0 rest0]].
  - eexists. by apply s_start.
  - destruct (boot_finished p q g 0%nat r0) as (Es & _); [lia|done|done|]. destruct st as [|[|c rest]]; [eexists; by apply s_start|done|].
    destruct (do_call_goes c r g) as (r' & g' & E); [by right|]. eexists. by eapply s_call.
  - destruct Hi0 as [done [_ D2 _ _ _ _ _]]. cbn [fst] in D2. destruct (first_order _ _ _ D2) as (_ & N & _). destruct (do_call_goes c0 r0 g) as (r' & g' & E); [by left|]. eexists. by eapply s_call.
Qed.
End boot.

(** ** Properties *)

(** C21: the boot of up to NCPU harts, in any interleaving.  A hart that has reached the scheduler
    runs in supervisor mode from [main] with its number in [tp], interrupts delegated and the
    timer enabled, paging on with the kernel's page table, the kernel's trap vector installed, and
    the controller set to pass it the interrupts of the serial port and the disk; and hart 0 has
    by then made all its initialisations, in order, before any call of another hart.  The boot
    does not hang: while a hart is not in the scheduler, some hart can go on. *)
Theorem boot_ready (main_addr kernelvec kvmmake : Z) m0 m : reset m0 -> rtc (step main_addr kernelvec kvmmake) m0 m ->
  (forall h r, harts m !! h = Some (r, InMain []) ->
    in_supervisor main_addr h r /\ satp r = MAKE_SATP kvmmake /\ stvec r = kernelvec /\ irqs_on h (plic (glob m)) /\ irqs_prio (plic (glob m)) /\
    exists q, calls (glob m) = map (pair 0) first_calls ++ q /\ Forall (fun x => x.1 <> 0) q) /\
  (forall h r st, harts m !! h = Some (r, st) -> st <> InMain [] -> exists m', step main_addr kernelvec kvmmake m m').
Proof.
  intros H0 Hst. pose proof (boot_steps main_addr kernelvec kvmmake m0 m (reset_inv _ _ _ _ H0) Hst) as HI. split; [|intros h r st; by apply boot_goes].
  destruct HI as (Hl & p & q & Hg & Hh). intros h r Hr. pose proof (lookup_lt_Some _ _ _ Hr). destruct (boot_finished main_addr kernelvec kvmmake p q (glob m) h r) as (Es & A1 & A2 & A3 & A4); [lia|done|by apply Hh|].
  destruct Hg as [K1 K2 K3 K4 K5 K6 K7]. rewrite (K4 Es) in K1, K7. split_and!; try done; [apply K7; unfold first_calls; set_solver..|]. by exists q.
Qed.
(** Two harts, just reset: the second has no way to overtake the first. *)
Lemma boot_ready_witness :
  let r h := Regs 3 0 0 0 0 0 0 0 0 0 0 0 0 0 0 h 0 0 in
  let m := Machine [(r 0, InStart); (r 1, InStart)] (Shared 0 0 ∅ []) in
  exists m', step 0x80000000 0x80001000 0x87fff000 m m'.
Proof.
  intros r m. refine (proj2 (boot_ready 0x80000000 0x80001000 0x87fff000 m m _ (rtc_refl _ _)) 1%nat (r 1) InStart _ _); [|done|done].
  split; [|split; [vm_compute; lia|done]]. intros [|[|h]] x st E; cbn in E; by (injection E as <- <-) || done.
Defined.
