(* ===== verification/Proc.v ===== *)
(** * Processes

    [kernel/proc.c] with [struct proc] of [proc.h]: the process table, creation
    and destruction of processes, sleeping and waking, the scheduler's choice.
    [either_copyin], [either_copyout] and [proc_mapstacks] are in [Vm.v].

    What [proc.c] calls in other files is class [ProcEnv].  Code runs on one hart
    for the process [curproc]; [sched()], where the hart switches to another
    process, is the outcome [Block] with the state at that point, and what a
    process does after it is switched to again is a definition of its own
    ([yield_return], [sleep_return]). *)

From Stdlib Require Import ZArith Lia.
From stdpp Require Import base numbers list gmap strings sets.
From S2P Require Import Prelude CString Riscv Spinlock Locks.

Inductive procstate := UNUSED | USED | SLEEPING | RUNNABLE | RUNNING | ZOMBIE.
#[export] Instance procstate_eq_dec : EqDecision procstate.
Proof. solve_decision. Defined.

(** [struct proc].  [chan], pointers and file pointers are addresses with 0 for
    null; a pointer to a process is its index in [proc[]]; [name] is the string in
    the array. *)
Record proc := mkProc {
  state : procstate; chan : Z; p_killed : Z; xstate : Z; pid : Z; parent : option Z;
  kstack : Z; sz : Z; pagetable : Z; trapframe : Z; context : list Z;
  ofile : list Z; p_cwd : Z; p_name : list Z }.

Definition set_state v p := mkProc v (chan p) (p_killed p) (xstate p) (pid p) (parent p) (kstack p) (sz p) (pagetable p) (trapframe p) (context p) (ofile p) (p_cwd p) (p_name p).
Definition set_chan v p := mkProc (state p) v (p_killed p) (xstate p) (pid p) (parent p) (kstack p) (sz p) (pagetable p) (trapframe p) (context p) (ofile p) (p_cwd p) (p_name p).
Definition set_killed v p := mkProc (state p) (chan p) v (xstate p) (pid p) (parent p) (kstack p) (sz p) (pagetable p) (trapframe p) (context p) (ofile p) (p_cwd p) (p_name p).
Definition set_xstate v p := mkProc (state p) (chan p) (p_killed p) v (pid p) (parent p) (kstack p) (sz p) (pagetable p) (trapframe p) (context p) (ofile p) (p_cwd p) (p_name p).
Definition set_pid v p := mkProc (state p) (chan p) (p_killed p) (xstate p) v (parent p) (kstack p) (sz p) (pagetable p) (trapframe p) (context p) (ofile p) (p_cwd p) (p_name p).
Definition set_parent v p := mkProc (state p) (chan p) (p_killed p) (xstate p) (pid p) v (kstack p) (sz p) (pagetable p) (trapframe p) (context p) (ofile p) (p_cwd p) (p_name p).
Definition set_kstack v p := mkProc (state p) (chan p) (p_killed p) (xstate p) (pid p) (parent p) v (sz p) (pagetable p) (trapframe p) (context p) (ofile p) (p_cwd p) (p_name p).
Definition set_sz v p := mkProc (state p) (chan p) (p_killed p) (xstate p) (pid p) (parent p) (kstack p) v (pagetable p) (trapframe p) (context p) (ofile p) (p_cwd p) (p_name p).
Definition set_pagetable v p := mkProc (state p) (chan p) (p_killed p) (xstate p) (pid p) (parent p) (kstack p) (sz p) v (trapframe p) (context p) (ofile p) (p_cwd p) (p_name p).
Definition set_trapframe v p := mkProc (state p) (chan p) (p_killed p) (xstate p) (pid p) (parent p) (kstack p) (sz p) (pagetable p) v (context p) (ofile p) (p_cwd p) (p_name p).
Definition set_context v p := mkProc (state p) (chan p) (p_killed p) (xstate p) (pid p) (parent p) (kstack p) (sz p) (pagetable p) (trapframe p) v (ofile p) (p_cwd p) (p_name p).
Definition set_ofile i v p := mkProc (state p) (chan p) (p_killed p) (xstate p) (pid p) (parent p) (kstack p) (sz p) (pagetable p) (trapframe p) (context p) (<[Z.to_nat i := v]> (ofile p)) (p_cwd p) (p_name p).
Definition set_cwd v p := mkProc (state p) (chan p) (p_killed p) (xstate p) (pid p) (parent p) (kstack p) (sz p) (pagetable p) (trapframe p) (context p) (ofile p) v (p_name p).
Definition set_name v p := mkProc (state p) (chan p) (p_killed p) (xstate p) (pid p) (parent p) (kstack p) (sz p) (pagetable p) (trapframe p) (context p) (ofile p) (p_cwd p) v.

(** [proc[]] is static storage. *)
Definition proc0 : proc :=
  mkProc UNUSED 0 0 0 0 None 0 0 0 0 (replicate 14 0) (replicate (Z.to_nat NOFILE) 0) 0 [].

(** What [proc.c] uses of [kalloc.c], [vm.c], [file.c], [fs.c] and [log.c]. *)
Class ProcEnv (S : Type) := {
  pe_locks :: HasLocks S;
  forkret : Z;                               (* address of forkret *)
  initcode_addr : Z;                         (* address of initcode[] *)
  trampoline_addr : Z;
  pmem : S -> memory;                        (* physical memory *)
  set_pmem : memory -> S -> S;
  kalloc : M S Z;
  kfree : Z -> M S unit;
  uvmcreate : M S Z;
  mappages : Z -> Z -> Z -> Z -> Z -> M S Z;
  uvmunmap : Z -> Z -> Z -> bool -> M S unit;
  uvmfree : Z -> Z -> M S unit;
  uvmcopy : Z -> Z -> Z -> M S Z;
  uvmalloc : Z -> Z -> Z -> Z -> M S Z;
  uvmdealloc : Z -> Z -> Z -> M S Z;
  uvmfirst : Z -> Z -> Z -> M S unit;
  copyout_int : Z -> Z -> Z -> M S Z;        (* copyout(pagetable, addr, &x, sizeof(int)) *)
  filedup : Z -> M S Z;
  fileclose : Z -> M S unit;
  idup : Z -> M S Z;
  iput : Z -> M S unit;
  begin_op : M S unit;
  end_op : M S unit;
  namei_root : M S Z;                        (* namei of the root directory *)
}.

(** [proc[]], [initproc], [nextpid], and the process running on this hart. *)
Record pstate (S : Type) := mkP {
  env : S; procs : gmap Z proc; initproc : option Z; nextpid : Z; curproc : option Z }.
Arguments mkP {S} _ _ _ _ _.
Arguments env {S} _.
Arguments procs {S} _.
Arguments initproc {S} _.
Arguments nextpid {S} _.
Arguments curproc {S} _.

Definition PLOCK (p : Z) : Z := 500 + p.
Definition WAIT_LOCK : Z := 600.
Definition PID_LOCK : Z := 601.

Definition initcode_size : Z := 52.
Definition TF_EPC : Z := 24.
Definition TF_SP : Z := 48.
Definition TF_A0 : Z := 112.
Definition sizeof_trapframe : Z := 288.

(** The address of [proc[p]], used as a channel. *)
Definition proc_chan (p : Z) : Z := 1000 + p.

Section proc_c.
Context {S : Type} `{ProcEnv S}.
Implicit Types s : pstate S.

Definition set_env (x : S) s : pstate S := mkP x (procs s) (initproc s) (nextpid s) (curproc s).
Definition set_procs (x : gmap Z proc) s : pstate S := mkP (env s) x (initproc s) (nextpid s) (curproc s).
Definition set_nextpid (x : Z) s : pstate S := mkP (env s) (procs s) (initproc s) x (curproc s).
Definition set_curproc (x : option Z) s : pstate S := mkP (env s) (procs s) (initproc s) (nextpid s) x.

#[export] #[refine] Instance pstate_locks : HasLocks (pstate S) := {
  held := fun s => held (env s);
  set_held := fun x s => set_env (set_held x (env s)) s;
  curpid := fun s => curpid (env s);
}.
Proof.
  - intros x s. cbn. apply held_set.
  - intros s. unfold set_env. rewrite set_held_held. by destruct s.
  - intros x y s. unfold set_env. cbn. by rewrite set_held_set.
Defined.

Definition lift {A} (m : M S A) : M (pstate S) A := zoom env set_env m.
Definition proc_of s (p : Z) : proc := default proc0 (procs s !! p).
Definition set_proc (p : Z) (x : proc) s : pstate S := set_procs (<[p := x]> (procs s)) s.
Definition upd_proc (p : Z) (f : proc -> proc) : M (pstate S) unit :=
  modify (fun s => set_proc p (f (proc_of s p)) s).
Definition pget {A} (p : Z) (f : proc -> A) : M (pstate S) A := gets (fun s => f (proc_of s p)).
Definition myproc : M (pstate S) Z := c ← gets curproc; the c.

Definition procinit : M (pstate S) unit :=
  initlock PID_LOCK;;
  initlock WAIT_LOCK;;
  for_ (Z.to_nat NPROC) 0 1 (fun p =>
    initlock (PLOCK p);;
    upd_proc p (set_state UNUSED);;
    upd_proc p (set_kstack (KSTACK p))).

Definition allocpid : M (pstate S) Z :=
  acquire PID_LOCK;;
  n ← gets nextpid;
  modify (fun s => set_nextpid (i32 (nextpid s + 1)) s);;
  release PID_LOCK;;
  mret n.

Definition proc_freepagetable (pt size : Z) : M (pstate S) unit :=
  lift (uvmunmap pt TRAMPOLINE 1 false);;
  lift (uvmunmap pt TRAPFRAME 1 false);;
  lift (uvmfree pt size).

Definition proc_pagetable (p : Z) : M (pstate S) Z :=
  pt ← lift uvmcreate;
  if pt =? 0 then mret 0 else
  r ← lift (mappages pt TRAMPOLINE PGSIZE trampoline_addr (Z.lor PTE_R PTE_X));
  if r <? 0 then lift (uvmfree pt 0);; mret 0 else
  tf ← pget p trapframe;
  r ← lift (mappages pt TRAPFRAME PGSIZE tf (Z.lor PTE_R PTE_W));
  if r <? 0 then
    lift (uvmunmap pt TRAMPOLINE 1 false);;
    lift (uvmfree pt 0);;
    mret 0
  else mret pt.

Definition freeproc (p : Z) : M (pstate S) unit :=
  x ← pget p (fun x => x);
  mwhen (negb (trapframe x =? 0)) (lift (kfree (trapframe x)));;
  upd_proc p (set_trapframe 0);;
  mwhen (negb (pagetable x =? 0)) (proc_freepagetable (pagetable x) (sz x));;
  upd_proc p (set_pagetable 0);;
  upd_proc p (set_sz 0);;
  upd_proc p (set_pid 0);;
  upd_proc p (set_parent None);;
  upd_proc p (set_name []);;
  upd_proc p (set_chan 0);;
  upd_proc p (set_killed 0);;
  upd_proc p (set_xstate 0);;
  upd_proc p (set_state UNUSED).

(** The search of [allocproc]: it returns with the lock of the slot held. *)
Definition find_unused : M (pstate S) (option Z) :=
  loop (Z.to_nat NPROC + 1) (fun p =>
    if NPROC <=? p then mret (inr None) else
    acquire (PLOCK p);;
    st ← pget p state;
    if decide (st = UNUSED) then mret (inr (Some p)) else
    release (PLOCK p);;
    mret (inl (p + 1))) 0.

Definition allocproc : M (pstate S) (option Z) :=
  o ← find_unused;
  match o with
  | None => mret None
  | Some p =>
      i ← allocpid;
      upd_proc p (set_pid i);;
      upd_proc p (set_state USED);;
      tf ← lift kalloc;
      upd_proc p (set_trapframe tf);;
      if tf =? 0 then freeproc p;; release (PLOCK p);; mret None else
      pt ← proc_pagetable p;
      upd_proc p (set_pagetable pt);;
      if pt =? 0 then freeproc p;; release (PLOCK p);; mret None else
      ks ← pget p kstack;
      upd_proc p (set_context (<[0%nat := forkret]> (<[1%nat := ks + PGSIZE]> (replicate 14 0))));;
      mret (Some p)
  end.

Definition store_tf (p off v : Z) : M (pstate S) unit :=
  tf ← pget p trapframe;
  modify (fun s => set_env (set_pmem (wr64 (pmem (env s)) (tf + off) v) (env s)) s).

Definition userinit : M (pstate S) unit :=
  o ← allocproc;
  modify (fun s => mkP (env s) (procs s) o (nextpid s) (curproc s));;
  p ← the o;
  pt ← pget p pagetable;
  lift (uvmfirst pt initcode_addr initcode_size);;
  upd_proc p (set_sz PGSIZE);;
  store_tf p TF_EPC 0;;
  store_tf p TF_SP PGSIZE;;
  upd_proc p (set_name [105; 110; 105; 116; 99; 111; 100; 101]);;
  c ← lift namei_root;
  upd_proc p (set_cwd c);;
  upd_proc p (set_state RUNNABLE);;
  release (PLOCK p).

(** [sz] and [n] are added as [uint64] values. *)
Definition growproc (n : Z) : M (pstate S) Z :=
  p ← myproc;
  size ← pget p sz;
  pt ← pget p pagetable;
  if 0 <? n then
    r ← lift (uvmalloc pt size (u64 (size + n)) PTE_W);
    if r =? 0 then mret (-1) else upd_proc p (set_sz r);; mret 0
  else if n <? 0 then
    r ← lift (uvmdealloc pt size (u64 (size + n)));
    upd_proc p (set_sz r);; mret 0
  else upd_proc p (set_sz size);; mret 0.

Definition fork : M (pstate S) Z :=
  p ← myproc;
  o ← allocproc;
  match o with
  | None => mret (-1)
  | Some np =>
      x ← pget p (fun x => x);
      npt ← pget np pagetable;
      r ← lift (uvmcopy (pagetable x) npt (sz x));
      if r <? 0 then freeproc np;; release (PLOCK np);; mret (-1) else
      upd_proc np (set_sz (sz x));;
      ntf ← pget np trapframe;
      modify (fun s => set_env (set_pmem (memmove (pmem (env s)) ntf (trapframe x) sizeof_trapframe) (env s)) s);;
      store_tf np TF_A0 0;;
      for_ (Z.to_nat NOFILE) 0 1 (fun i =>
        f ← pget p (fun y => nth (Z.to_nat i) (ofile y) 0);
        mwhen (negb (f =? 0)) (g ← lift (filedup f); upd_proc np (set_ofile i g)));;
      c ← lift (idup (p_cwd x));
      upd_proc np (set_cwd c);;
      upd_proc np (set_name (take 15 (p_name x)));;
      n ← pget np pid;
      release (PLOCK np);;
      acquire WAIT_LOCK;;
      upd_proc np (set_parent (Some p));;
      release WAIT_LOCK;;
      acquire (PLOCK np);;
      upd_proc np (set_state RUNNABLE);;
      release (PLOCK np);;
      mret n
  end.

(** ** Sleeping, waking, the scheduler *)

Definition wakeup (ch : Z) : M (pstate S) unit :=
  for_ (Z.to_nat NPROC) 0 1 (fun p =>
    me ← gets curproc;
    mwhen (negb (bool_decide (Some p = me))) (
      acquire (PLOCK p);;
      x ← pget p (fun x => x);
      mwhen (bool_decide (state x = SLEEPING) && (chan x =? ch)) (upd_proc p (set_state RUNNABLE));;
      release (PLOCK p))).

(** [sched()]: the hart holds one lock per nested [push_off], with interrupts
    off while it holds any. *)
Definition sched : M (pstate S) unit :=
  p ← myproc;
  hd ← gets held;
  st ← pget p state;
  if negb (bool_decide (PLOCK p ∈ (hd : gset Z))) then panic "sched p->lock" else
  if negb (bool_decide (size (hd : gset Z) = 1%nat)) then panic "sched locks" else
  if bool_decide (st = RUNNING) then panic "sched running" else
  block.

Definition yield_enter : M (pstate S) unit :=
  p ← myproc;
  acquire (PLOCK p);;
  upd_proc p (set_state RUNNABLE);;
  sched.
Definition yield_return : M (pstate S) unit := p ← myproc; release (PLOCK p).

Definition sleep_enter (ch lk : Z) : M (pstate S) unit :=
  p ← myproc;
  acquire (PLOCK p);;
  release lk;;
  upd_proc p (set_chan ch);;
  upd_proc p (set_state SLEEPING);;
  sched.
Definition sleep_return (lk : Z) : M (pstate S) unit :=
  p ← myproc;
  upd_proc p (set_chan 0);;
  release (PLOCK p);;
  acquire lk.

(** One turn of the scheduler's loop over the table, up to [swtch]; the result
    says whether the hart now runs [p]. *)
Definition scheduler_turn (p : Z) : M (pstate S) bool :=
  acquire (PLOCK p);;
  st ← pget p state;
  if decide (st = RUNNABLE) then
    upd_proc p (set_state RUNNING);;
    modify (set_curproc (Some p));;
    mret true
  else release (PLOCK p);; mret false.
(** Back from [swtch]. *)
Definition scheduler_back (p : Z) : M (pstate S) unit :=
  modify (set_curproc None);;
  release (PLOCK p).

(** ** Exit and wait *)

Definition reparent (p : Z) : M (pstate S) unit :=
  for_ (Z.to_nat NPROC) 0 1 (fun pp =>
    par ← pget pp parent;
    mwhen (bool_decide (par = Some p)) (
      ini ← gets initproc;
      upd_proc pp (set_parent ini);;
      i ← the ini;
      wakeup (proc_chan i))).

Definition exit (status : Z) : M (pstate S) unit :=
  p ← myproc;
  ini ← gets initproc;
  if bool_decide (ini = Some p) then panic "init exiting" else
  for_ (Z.to_nat NOFILE) 0 1 (fun fd =>
    f ← pget p (fun x => nth (Z.to_nat fd) (ofile x) 0);
    mwhen (negb (f =? 0)) (lift (fileclose f);; upd_proc p (set_ofile fd 0)));;
  lift begin_op;;
  c ← pget p p_cwd;
  lift (iput c);;
  lift end_op;;
  upd_proc p (set_cwd 0);;
  acquire WAIT_LOCK;;
  reparent p;;
  par ← pget p parent;
  pp ← the par;
  wakeup (proc_chan pp);;
  acquire (PLOCK p);;
  upd_proc p (set_xstate status);;
  upd_proc p (set_state ZOMBIE);;
  release WAIT_LOCK;;
  sched;;
  panic "zombie exit".

Definition setkilled (p : Z) : M (pstate S) unit :=
  acquire (PLOCK p);;
  upd_proc p (set_killed 1);;
  release (PLOCK p).

Definition killed (p : Z) : M (pstate S) Z :=
  acquire (PLOCK p);;
  k ← pget p p_killed;
  release (PLOCK p);;
  mret k.

(** One pass over the table; it leaves [wait] with the child's pid or -1, or
    reports whether there are children. *)
Definition wait_scan (p addr : Z) : M (pstate S) (bool + Z) :=
  loop (Z.to_nat NPROC + 1) (fun '(pp, havekids) =>
    if NPROC <=? pp then mret (inr (inl havekids)) else
    par ← pget pp parent;
    if negb (bool_decide (par = Some p)) then mret (inl (pp + 1, havekids)) else
    acquire (PLOCK pp);;
    x ← pget pp (fun x => x);
    if decide (state x = ZOMBIE) then
      pt ← pget p pagetable;
      r ← (if negb (addr =? 0) then lift (copyout_int pt addr (xstate x)) else mret 0);
      if r <? 0 then
        release (PLOCK pp);; release WAIT_LOCK;; mret (inr (inr (-1)))
      else
        freeproc pp;;
        release (PLOCK pp);;
        release WAIT_LOCK;;
        mret (inr (inr (pid x)))
    else
      release (PLOCK pp);;
      mret (inl (pp + 1, true))) (0, false).

(** After [sleep] returns, [wait] goes round its loop again. *)
Definition wait_turn (addr : Z) : M (pstate S) Z :=
  p ← myproc;
  r ← wait_scan p addr;
  match r with
  | inr v => mret v
  | inl havekids =>
      k ← (if (havekids : bool) then killed p else mret 0);
      if negb havekids || negb (k =? 0) then release WAIT_LOCK;; mret (-1) else
      sleep_enter (proc_chan p) WAIT_LOCK;; mret (-1)
  end.
Definition wait (addr : Z) : M (pstate S) Z := acquire WAIT_LOCK;; wait_turn addr.

Definition kill (i : Z) : M (pstate S) Z :=
  loop (Z.to_nat NPROC + 1) (fun p =>
    if NPROC <=? p then mret (inr (-1)) else
    acquire (PLOCK p);;
    x ← pget p (fun x => x);
    if pid x =? i then
      upd_proc p (set_killed 1);;
      mwhen (bool_decide (state x = SLEEPING)) (upd_proc p (set_state RUNNABLE));;
      release (PLOCK p);;
      mret (inr 0)
    else
      release (PLOCK p);;
      mret (inl (p + 1))) 0.
End proc_c.
