(* ===== verification/ProcSpec.v ===== *)
(** * What the process operations do

    [wakeup], [sleep], [kill] and [wait] of [Proc.v], on any environment. *)

From Stdlib Require Import ZArith Lia.
From stdpp Require Import base numbers list gmap strings sets.
From S2P Require Import Prelude CString Riscv Spinlock Locks Proc.

(** [wakeup] of one process. *)
Definition wake_one (ch : Z) (x : proc) : proc :=
  if bool_decide (state x = SLEEPING) && (chan x =? ch) then set_state RUNNABLE x else x.

Section spec.
Context {S : Type} `{ProcEnv S}.
Implicit Types s : pstate S.

(** Two states with the same processes but for those of [P]. *)
Record same_but (P : Z -> Prop) s s' : Prop := {
  sb_procs : forall q, ~ P q -> proc_of s' q = proc_of s q;
  sb_rest : env s' = env s /\ initproc s' = initproc s /\ nextpid s' = nextpid s /\ curproc s' = curproc s;
}.

Lemma proc_of_set p x s q : proc_of (set_proc p x s) q = if decide (p = q) then x else proc_of s q.
Proof. unfold proc_of, set_proc. cbn. rewrite lookup_insert. by case_decide. Qed.
Lemma proc_of_held X s q : proc_of (set_held X s) q = proc_of s q.
Proof. done. Qed.
Lemma set_proc_held p x X s : set_proc p x (set_held X s) = set_held X (set_proc p x s).
Proof. done. Qed.
Lemma held_set_proc p x s : held (set_proc p x s) = held s.
Proof. done. Qed.
Lemma set_proc_id p s : procs s !! p <> None -> set_proc p (proc_of s p) s = s.
Proof.
  intros Hn. unfold set_proc, set_procs, proc_of. destruct (procs s !! p) as [x|] eqn:E; [|done].
  cbn. rewrite insert_id by done. by destruct s.
Qed.

Lemma set_proc_twice p x y s : set_proc p y (set_proc p x s) = set_proc p y s.
Proof. unfold set_proc, set_procs. cbn. by rewrite insert_insert_eq. Qed.

(** Running [f] on [proc[p]] with its lock held. *)
Lemma locked_update p (f : proc -> proc) s (Q : unit -> pstate S -> Prop) (c : proc -> bool) :
  PLOCK p ∉ held s ->
  Q tt (if c (proc_of s p) then set_proc p (f (proc_of s p)) s else s) ->
  wp (acquire (PLOCK p);; x ← pget p (fun x => x); mwhen (c x) (upd_proc p f);; release (PLOCK p)) Q s.
Proof.
  intros Hl HQ. apply wp_bind, wp_acquire; [done|]. apply wp_bind, wp_gets. rewrite proc_of_held.
  apply wp_bind. destruct (c (proc_of s p)); cbn [mwhen].
  - apply wp_modify. rewrite set_proc_held. apply wp_release; [rewrite held_set; set_solver|].
    rewrite held_set, set_held_set, proc_of_held, held_acq_rel by done.
    change (held s) with (held (set_proc p (f (proc_of s p)) s)). by rewrite set_held_held.
  - apply wp_ret. apply wp_release; [rewrite held_set; set_solver|].
    rewrite held_set, set_held_set, held_acq_rel by done. by rewrite set_held_held.
Qed.

(** [wakeup] makes runnable exactly the processes that sleep on the channel, the
    caller excepted, and changes nothing else. *)
Lemma wakeup_ok ch s : (forall q, 0 <= q < NPROC -> curproc s <> Some q -> PLOCK q ∉ held s) ->
  wp (wakeup ch) (fun _ s' => (env s' = env s /\ initproc s' = initproc s /\ nextpid s' = nextpid s /\
      curproc s' = curproc s) /\
    forall q, proc_of s' q = if decide (0 <= q < NPROC /\ curproc s <> Some q)
      then wake_one ch (proc_of s q) else proc_of s q) s.
Proof.
  intros Hl. unfold wakeup.
  eapply wp_mono; [apply (wp_for _ (fun k s' => (env s' = env s /\ initproc s' = initproc s /\
      nextpid s' = nextpid s /\ curproc s' = curproc s) /\
    forall q, proc_of s' q = if decide (0 <= q < k /\ curproc s <> Some q)
      then wake_one ch (proc_of s q) else proc_of s q))|].
  - split; [done|]. intros q. by rewrite decide_False by lia.
  - intros k s' Hk ((E1 & E2 & E3 & E4) & Hp). rewrite Z.add_0_l, Z.mul_1_r.
    change (Z.of_nat (Z.to_nat NPROC)) with NPROC in Hk.
    apply wp_bind, wp_gets, wp_when; intros Hme.
    + apply negb_true_iff, bool_decide_eq_false in Hme. rewrite E4 in Hme.
      apply (locked_update k (set_state RUNNABLE) s' _ (fun x => bool_decide (state x = SLEEPING) && (chan x =? ch))).
      { change (held s') with (held (env s')). rewrite E1. apply Hl; [lia|congruence]. }
      assert (proc_of s' k = proc_of s k) as Ek by (rewrite Hp; by rewrite decide_False by lia).
      rewrite Ek. fold (wake_one ch (proc_of s k)). set (b := bool_decide _ && _).
      assert (forall q, proc_of (if b then set_proc k (set_state RUNNABLE (proc_of s k)) s' else s') q =
        if decide (k = q) then wake_one ch (proc_of s k) else proc_of s' q) as Eb.
      { intros q. unfold wake_one. fold b. destruct b; [apply proc_of_set|]. case_decide; [by subst|done]. }
      split; [by destruct b|]. intros q. rewrite Eb. case_decide as Eq.
      * subst q. rewrite decide_True by (split; [lia|congruence]). done.
      * rewrite Hp. destruct (decide (0 <= q < k /\ _)) as [[? ?]|Hn];
          [rewrite decide_True by (split; [lia|done])|rewrite decide_False; [|intros [? ?]; apply Hn; split; [lia|done]]]; done.
    + apply negb_false_iff, bool_decide_eq_true in Hme. rewrite E4 in Hme. split; [done|]. intros q. rewrite Hp.
      destruct (decide (0 <= q < k /\ _)) as [[? ?]|Hn];
        [rewrite decide_True by (split; [lia|done])|rewrite decide_False; [|intros [? Hq]; apply Hn; split; [|done]]]; [done..|].
      assert (q <> k) by (intros ->; by apply Hq). lia.
  - cbn beta. change (Z.of_nat (Z.to_nat NPROC)) with NPROC. done.
Qed.

(** A routine that switches to another process in a state satisfying [Q]. *)
Definition blocks {A} (m : M (pstate S) A) (Q : pstate S -> Prop) s : Prop :=
  match m s with Block s' => Q s' | _ => False end.

Lemma blocks_bind_r {A B} (m : M (pstate S) A) (k : A -> M (pstate S) B) Q s :
  wp m (fun a s' => blocks (k a) Q s') s -> blocks (m ≫= k) Q s.
Proof. unfold wp, blocks, mbind, M_bind. by destruct (m s). Qed.
Lemma blocks_bind_l {A B} (m : M (pstate S) A) (k : A -> M (pstate S) B) Q s :
  blocks m Q s -> blocks (m ≫= k) Q s.
Proof. unfold blocks, mbind, M_bind. by destruct (m s). Qed.
Lemma blocks_mono {A} (m : M (pstate S) A) (P Q : pstate S -> Prop) s :
  blocks m P s -> (forall s', P s' -> Q s') -> blocks m Q s.
Proof. unfold blocks. destruct (m s); auto. Qed.

Lemma sched_blocks p s : curproc s = Some p -> held s = {[PLOCK p]} -> state (proc_of s p) <> RUNNING ->
  blocks sched (fun s' => s' = s) s.
Proof.
  intros Hc Hh Hr. unfold sched, myproc. apply blocks_bind_r, wp_bind, wp_gets. rewrite Hc. apply wp_ret.
  apply blocks_bind_r, wp_gets, blocks_bind_r, wp_gets. rewrite Hh.
  rewrite (bool_decide_true (PLOCK p ∈ _)) by set_solver. rewrite size_singleton, (bool_decide_true (1 = 1)%nat) by done.
  rewrite bool_decide_false by done. done.
Qed.

Lemma sleep_ok p ch lk s : curproc s = Some p -> held s = {[lk]} -> lk <> PLOCK p ->
  blocks (sleep_enter ch lk) (fun s' => s' = set_held {[PLOCK p]}
    (set_proc p (set_state SLEEPING (set_chan ch (proc_of s p))) s)) s.
Proof.
  intros Hc Hh Hne. unfold sleep_enter, myproc. apply blocks_bind_r, wp_bind, wp_gets. rewrite Hc. apply wp_ret.
  apply blocks_bind_r, wp_acquire; [rewrite Hh; set_solver|].
  apply blocks_bind_r, wp_release; [rewrite held_set, Hh; set_solver|].
  rewrite held_set, set_held_set, Hh. replace (({[PLOCK p]} ∪ {[lk]}) ∖ {[lk]}) with ({[PLOCK p]} : gset Z) by set_solver.
  apply blocks_bind_r, wp_modify, blocks_bind_r, wp_modify.
  match goal with |- blocks _ _ ?x => assert (x = set_held {[PLOCK p]}
    (set_proc p (set_state SLEEPING (set_chan ch (proc_of s p))) s)) as -> end.
  { rewrite !set_proc_held, !proc_of_held, !proc_of_set, decide_True by done.
    unfold set_proc, set_procs, set_env. cbn. by rewrite insert_insert_eq. }
  apply (sched_blocks p); [done|apply held_set|].
  rewrite proc_of_held, proc_of_set, decide_True by done. done.
Qed.

(** C30: [sleep(chan, lk)].  Called with [lk] as the only lock, it gives the hart
    away with the process SLEEPING on the channel and its own lock the only one
    held; called with any other lock held too it panics. *)
Theorem sleep_spec p ch lk others s : curproc s = Some p -> held s = {[lk]} ∪ others ->
  lk <> PLOCK p -> lk ∉ others -> PLOCK p ∉ others ->
  if decide (others = ∅) then
    blocks (sleep_enter ch lk) (fun s' => held s' = {[PLOCK p]} /\
      state (proc_of s' p) = SLEEPING /\ chan (proc_of s' p) = ch /\
      forall q, q <> p -> proc_of s' q = proc_of s q) s
  else panics (sleep_enter ch lk) "sched locks" s.
Proof.
  intros Hc Hh Hne Hlo Hpo. case_decide as Ho.
  - subst others. rewrite union_empty_r_L in Hh.
    eapply blocks_mono; [by apply (sleep_ok p)|]. cbn beta. intros s' ->.
    rewrite held_set, !proc_of_held. split; [done|]. rewrite proc_of_set, decide_True by done.
    split; [done|]. split; [done|]. intros q Hq. rewrite proc_of_held, proc_of_set. by rewrite decide_False.
  - unfold sleep_enter, myproc. apply panics_bind_r, wp_bind, wp_gets. rewrite Hc. apply wp_ret.
    apply panics_bind_r, wp_acquire; [rewrite Hh; set_solver|].
    apply panics_bind_r, wp_release; [rewrite held_set, Hh; set_solver|].
    rewrite held_set, set_held_set, Hh.
    replace (({[PLOCK p]} ∪ ({[lk]} ∪ others)) ∖ {[lk]}) with ({[PLOCK p]} ∪ others : gset Z) by set_solver.
    apply panics_bind_r, wp_modify, panics_bind_r, wp_modify.
    unfold sched, myproc. apply panics_bind_r, wp_bind, wp_gets.
    match goal with |- context [curproc ?x] => change (curproc x) with (curproc s) end.
    rewrite Hc. apply wp_ret. apply panics_bind_r, wp_gets, panics_bind_r, wp_gets.
    rewrite !set_proc_held, held_set. rewrite (bool_decide_true (PLOCK p ∈ _)) by set_solver. cbn [negb].
    rewrite (bool_decide_false (size _ = 1%nat)); [done|]. rewrite size_union by set_solver.
    rewrite size_singleton. assert (size others <> 0%nat); [|lia]. by rewrite size_empty_iff, leibniz_equiv_iff.
Qed.

(** ** [wait] *)

Definition kid s (p q : Z) : Prop := parent (proc_of s q) = Some p.
#[export] Instance kid_dec s p q : Decision (kid s p q).
Proof. unfold kid. apply _. Defined.
Definition kids s (p : Z) : list Z := filter (kid s p) (seqZ 0 NPROC).
Definition zombies s (p : Z) : list Z := filter (fun q => state (proc_of s q) = ZOMBIE) (kids s p).

(** The memory [freeproc] gives back. *)
Definition release_memory (x : proc) : M S unit :=
  mwhen (negb (trapframe x =? 0)) (kfree (trapframe x));;
  mwhen (negb (pagetable x =? 0))
    (uvmunmap (pagetable x) TRAMPOLINE 1 false;; uvmunmap (pagetable x) TRAPFRAME 1 false;;
     uvmfree (pagetable x) (sz x)).

(** What is left of a process after [freeproc]. *)
Definition freed (x : proc) : proc :=
  mkProc UNUSED 0 0 0 0 None (kstack x) 0 0 0 (context x) (ofile x) (p_cwd x) [].

Lemma wp_lift {A} (m : M S A) (Q : A -> pstate S -> Prop) s :
  wp m (fun a e => Q a (set_env e s)) (env s) -> wp (lift m) Q s.
Proof. apply wp_zoom. Qed.

Lemma wp_lift_when b (m : M S unit) (Q : unit -> pstate S -> Prop) s :
  wp (mwhen b m) (fun a e => Q a (set_env e s)) (env s) -> wp (mwhen b (lift m)) Q s.
Proof. destruct b; cbn [mwhen]; [apply wp_lift|]. intros HQ. apply wp_ret. unfold wp in HQ. cbn in HQ. by destruct s. Qed.

Lemma freeproc_ok z s (P : S -> Prop) : wp (release_memory (proc_of s z)) (fun _ e => P e) (env s) ->
  wp (freeproc z) (fun _ s' => exists e, P e /\ s' = set_env e (set_proc z (freed (proc_of s z)) s)) s.
Proof.
  intros Hm. unfold freeproc. apply wp_bind, wp_gets. set (x := proc_of s z) in *.
  unfold release_memory in Hm. apply wp_bind_inv in Hm.
  apply wp_bind, wp_lift_when. eapply wp_mono; [exact Hm|]. cbn beta. intros _ e1 Hm1.
  apply wp_bind, wp_modify. apply wp_bind.
  assert (wp (mwhen (negb (pagetable x =? 0)) (proc_freepagetable (pagetable x) (sz x)))
    (fun _ s' => exists e, P e /\ s' = set_env e (set_proc z (set_trapframe 0 x) s))
    (set_proc z (set_trapframe 0 (proc_of (set_env e1 s) z)) (set_env e1 s))) as Hf.
  { change (proc_of (set_env e1 s) z) with x. destruct (negb (pagetable x =? 0)); cbn [mwhen] in *.
    - unfold proc_freepagetable. apply wp_bind, wp_lift. apply wp_bind_inv in Hm1.
      eapply wp_mono; [exact Hm1|]. cbn beta. intros _ e2 Hm2. apply wp_bind_inv in Hm2.
      apply wp_bind, wp_lift. eapply wp_mono; [exact Hm2|]. cbn beta. intros _ e3 Hm3.
      apply wp_lift. eapply wp_mono; [exact Hm3|]. cbn beta. intros _ e4 HP. by exists e4.
    - apply wp_ret. by exists e1. }
  eapply wp_mono; [exact Hf|]. cbn beta. intros _ s1 (e & HP & ->).
  do 8 apply wp_bind, wp_modify. apply wp_modify. exists e. split; [done|].
  cbv beta. change (set_env e (set_proc z (set_trapframe 0 x) s)) with (set_proc z (set_trapframe 0 x) (set_env e s)).
  repeat rewrite set_proc_twice. repeat (rewrite proc_of_set, decide_True by done). done.
Qed.

Lemma filter_none (P : Z -> Prop) `{!forall q, Decision (P q)} l : (forall q, q ∈ l -> ~ P q) -> filter P l = [].
Proof.
  induction l as [|a l IH]; intros Hn; [done|]. rewrite filter_cons, decide_False by (apply Hn; set_solver).
  apply IH. set_solver.
Qed.

Lemma filter_seqZ_first (P : Z -> Prop) `{!forall q, Decision (P q)} n k : 0 <= k < n -> P k ->
  (forall q, 0 <= q < k -> ~ P q) -> exists r, filter P (seqZ 0 n) = k :: r.
Proof.
  intros Hk HP Hn. replace n with (k + (1 + (n - k - 1))) by lia.
  rewrite seqZ_app by lia. rewrite (seqZ_app (0 + k) 1) by lia. rewrite filter_app.
  rewrite filter_none by (intros q Hq%elem_of_seqZ; apply Hn; lia).
  change (seqZ (0 + k) 1) with [0 + k]. rewrite Z.add_0_l. cbn [app]. rewrite filter_cons_True by done. eauto.
Qed.

(** The child [z] is reaped: its slot is free, its memory has been given back in [e], everything
    else is as before. *)
Record reaped s (z : Z) (e : S) s' : Prop := {
  re_z : proc_of s' z = freed (proc_of s z);
  re_others : forall q, q <> z -> proc_of s' q = proc_of s q;
  re_held : held s' = ∅;
  re_mem : exists e', release_memory (proc_of s z) e = Ret tt e' /\ env s' = set_held ∅ e';
}.

(** [wait]'s [copyout] of the exit status of [z], to the address the caller [p] gave. *)
Definition give_status s (p z addr : Z) : M S Z :=
  if negb (addr =? 0) then copyout_int (pagetable (proc_of s p)) addr (xstate (proc_of s z)) else mret 0.

(** What [wait] holds when it looks at the child [z]. *)
Definition wait_locks (z : Z) : gset Z := {[PLOCK z]} ∪ {[WAIT_LOCK]}.

(** How [wait] ends with the exited child [z]: the copy of the status failed and nothing else
    happens, or the child is reaped. *)
Definition collected s (p z addr : Z) (r : Z) s' : Prop :=
  exists v e, give_status s p z addr (set_held (wait_locks z) (env s)) = Ret v e /\
    if v <? 0 then r = -1 /\ s' = set_env (set_held ∅ e) s
    else r = pid (proc_of s z) /\ reaped s z e s'.

(** The operations of [vm.c] that [wait] calls return with the locks they were called with. *)
Definition collectable s (p z addr : Z) : Prop :=
  wp (give_status s p z addr) (fun v e => held e = wait_locks z /\
      (0 <= v -> wp (release_memory (proc_of s z)) (fun _ e' => held e' = wait_locks z) e))
    (set_held (wait_locks z) (env s)).

Lemma filter_filter_and (P Q : Z -> Prop) `{!forall q, Decision (P q), !forall q, Decision (Q q)} (l : list Z) :
  filter Q (filter P l) = filter (fun q => P q /\ Q q) l.
Proof.
  induction l as [|a l IH]; [done|]. rewrite (filter_cons P), (filter_cons (fun q => P q /\ Q q)).
  destruct (decide (P a)); [rewrite filter_cons|]; repeat case_decide; try tauto; by rewrite IH.
Qed.

Lemma zombies_first s p k : 0 <= k < NPROC -> kid s p k -> state (proc_of s k) = ZOMBIE ->
  (forall q, 0 <= q < k -> ~ (kid s p q /\ state (proc_of s q) = ZOMBIE)) -> exists r, zombies s p = k :: r.
Proof.
  intros Hk H1 H2 Hn. unfold zombies, kids. rewrite filter_filter_and. by apply filter_seqZ_first.
Qed.

Lemma zombies_none s p : (forall q, 0 <= q < NPROC -> ~ (kid s p q /\ state (proc_of s q) = ZOMBIE)) ->
  zombies s p = [].
Proof.
  intros Hn. unfold zombies, kids. rewrite filter_filter_and. apply filter_none.
  intros q Hq%elem_of_seqZ. apply Hn. lia.
Qed.

Lemma kids_nonempty s p : kids s p <> [] <-> exists q, 0 <= q < NPROC /\ kid s p q.
Proof.
  unfold kids. split.
  - intros Hn. destruct (filter (kid s p) (seqZ 0 NPROC)) as [|q r] eqn:E; [done|].
    assert (q ∈ filter (kid s p) (seqZ 0 NPROC)) as Hq by (rewrite E; set_solver).
    apply list_elem_of_filter in Hq as [Hq Hs%elem_of_seqZ]. exists q. split; [lia|done].
  - intros (q & Hq & Hk) E. assert (q ∈ filter (kid s p) (seqZ 0 NPROC)) as Hin.
    { apply list_elem_of_filter. split; [done|]. apply elem_of_seqZ. lia. }
    rewrite E in Hin. set_solver.
Qed.

(** The branch of [wait] that has found an exited child. *)
Lemma reap_ok z v s : held s = wait_locks z -> PLOCK z <> WAIT_LOCK ->
  wp (release_memory (proc_of s z)) (fun _ e => held e = wait_locks z) (env s) ->
  wp (freeproc z;; release (PLOCK z);; release WAIT_LOCK;;
      mret (inr (inr v)) : M (pstate S) ((Z * bool) + (bool + Z)))
    (fun r s' => r = inr (inr v) /\ reaped s z (env s) s') s.
Proof.
  intros Hh Hne Hm. apply wp_exists in Hm as ([] & e' & Em & He'). apply wp_bind. eapply wp_mono.
  { apply (freeproc_ok z s (fun e => e = e')). unfold wp. by rewrite Em. }
  cbn beta. intros _ s1 (e & -> & ->). set (s1 := set_env e' _).
  assert (held s1 = wait_locks z) as Hh1 by exact He'. unfold wait_locks in *.
  apply wp_bind, wp_release; [rewrite Hh1; set_solver|].
  apply wp_bind, wp_release; [rewrite held_set, Hh1; set_solver|]. apply wp_ret. split; [done|].
  rewrite held_set, set_held_set, Hh1.
  replace ((({[PLOCK z]} ∪ {[WAIT_LOCK]}) ∖ {[PLOCK z]}) ∖ {[WAIT_LOCK]}) with (∅ : gset Z) by set_solver. split.
  - rewrite proc_of_held. unfold s1. change (proc_of (set_env e' (set_proc z (freed (proc_of s z)) s)) z)
      with (proc_of (set_proc z (freed (proc_of s z)) s) z). by rewrite proc_of_set, decide_True.
  - intros q Hq. rewrite proc_of_held. unfold s1. change (proc_of (set_env e' (set_proc z (freed (proc_of s z)) s)) q)
      with (proc_of (set_proc z (freed (proc_of s z)) s) q). by rewrite proc_of_set, decide_False.
  - apply held_set.
  - by exists e'.
Qed.

(** The whole body of the loop for it, from the [copyout] on. *)
Lemma collect_ok p z addr s : held s = {[WAIT_LOCK]} -> PLOCK z <> WAIT_LOCK -> collectable s p z addr ->
  wp (r ← (if negb (addr =? 0) then lift (copyout_int (pagetable (proc_of s p)) addr (xstate (proc_of s z))) else mret 0);
      if r <? 0 then release (PLOCK z);; release WAIT_LOCK;; mret (inr (inr (-1)))
      else freeproc z;; release (PLOCK z);; release WAIT_LOCK;; mret (inr (inr (pid (proc_of s z))))
      : M (pstate S) ((Z * bool) + (bool + Z)))
    (fun r s' => exists v, r = inr (inr v) /\ collected s p z addr v s') (set_held (wait_locks z) s).
Proof.
  intros Hh Hne Hc. unfold collectable in Hc. apply wp_exists in Hc as (v & e & Ev & He & Hmem). apply wp_bind.
  apply (wp_mono _ (fun r s' => r = v /\ s' = set_env e s)).
  { unfold give_status in Ev. destruct (negb (addr =? 0)).
    - apply wp_lift. unfold wp. change (env (set_held (wait_locks z) s)) with (set_held (wait_locks z) (env s)). by rewrite Ev.
    - injection Ev as <- <-. by apply wp_ret. }
  cbn beta. intros ? s1 [-> ->]. assert (held (set_env e s) = wait_locks z) as Hh1 by exact He.
  destruct (v <? 0) eqn:Ev0; to_prop.
  - unfold wait_locks in *. apply wp_bind, wp_release; [rewrite Hh1; set_solver|].
    apply wp_bind, wp_release; [rewrite held_set, Hh1; set_solver|]. apply wp_ret. exists (-1). split; [done|].
    exists v, e. split; [done|]. rewrite (proj2 (Z.ltb_lt v 0)) by done. split; [done|]. rewrite held_set, set_held_set, Hh1.
    replace ((({[PLOCK z]} ∪ {[WAIT_LOCK]}) ∖ {[PLOCK z]}) ∖ {[WAIT_LOCK]}) with (∅ : gset Z) by set_solver. done.
  - eapply wp_mono; [apply (reap_ok z _ (set_env e s) Hh1 Hne); by apply Hmem|]. cbn beta. intros r s' [-> R].
    eexists. split; [done|]. exists v, e. split; [done|]. rewrite (proj2 (Z.ltb_ge v 0)) by done. split; [done|].
    destruct R as [R1 R2 R3 R4]. by split.
Qed.

Lemma wait_scan_ok p addr s : held s = {[WAIT_LOCK]} -> (forall q, 0 <= q < NPROC -> PLOCK q <> WAIT_LOCK) ->
  (forall z r, zombies s p = z :: r -> collectable s p z addr) ->
  wp (wait_scan p addr) (fun r s' => match zombies s p with
    | z :: _ => exists v, r = inr v /\ collected s p z addr v s'
    | [] => (exists b, r = inl b /\ (b = true <-> kids s p <> [])) /\ s' = s end) s.
Proof.
  intros Hh Hlk Hmem. unfold wait_scan.
  apply (wp_loop _ (fun '(k, hk) s' => 0 <= k <= NPROC /\ s' = s /\
      (forall q, 0 <= q < k -> ~ (kid s p q /\ state (proc_of s q) = ZOMBIE)) /\
      (hk = true <-> exists q, 0 <= q < k /\ kid s p q)) (fun '(k, _) _ => Z.to_nat (NPROC - k))).
  - intros [k hk] s1 (Hk & -> & Hz & Ehk). destruct (NPROC <=? k) eqn:Ek; to_prop.
    { apply wp_ret. replace k with NPROC in * by lia. rewrite zombies_none by done.
      split; [|done]. exists hk. split; [done|]. by rewrite kids_nonempty. }
    apply wp_bind, wp_gets. destruct (decide (kid s p k)) as [Hkid|Hkid].
    2:{ rewrite (bool_decide_false (parent _ = _)) by done. cbn [negb]. apply wp_ret. split; [|lia].
        split; [lia|]. split; [done|]. split.
        - intros q Hq. destruct (decide (q = k)) as [->|]; [tauto|apply Hz; lia].
        - rewrite Ehk. split; intros (q & Hq & Hqk); exists q; (split; [|done]); [lia|].
          assert (q <> k) by congruence. lia. }
    rewrite (bool_decide_true (parent _ = _)) by done. cbn [negb].
    apply wp_bind, wp_acquire; [rewrite Hh; pose proof (Hlk k ltac:(lia)); set_solver|].
    rewrite Hh. apply wp_bind, wp_gets. rewrite proc_of_held. case_decide as Hst.
    + destruct (zombies_first s p k ltac:(lia) Hkid Hst Hz) as [r Er]. rewrite Er.
      apply wp_bind, wp_gets. rewrite proc_of_held.
      eapply wp_mono; [apply (collect_ok p k addr s Hh (Hlk k ltac:(lia)) (Hmem k r Er))|]. cbn beta. by intros r' s' (v & -> & C); eauto.
    + apply wp_bind, wp_release; [rewrite held_set; set_solver|]. rewrite held_set, set_held_set.
      rewrite held_acq_rel by (pose proof (Hlk k ltac:(lia)); set_solver).
      rewrite <- Hh, set_held_held. apply wp_ret. split; [|lia].
      split; [lia|]. split; [done|]. split.
      * intros q Hq. destruct (decide (q = k)) as [->|]; [tauto|apply Hz; lia].
      * split; [|done]. intros _. exists k. split; [lia|done].
  - split; [unfold NPROC; lia|]. split; [done|]. split; [lia|]. split; [done|]. intros (q & Hq & _). lia.
  - unfold NPROC. lia.
Qed.

Lemma killed_ok p s : PLOCK p ∉ held s ->
  wp (killed p) (fun r s' => r = p_killed (proc_of s p) /\ s' = s) s.
Proof.
  intros Hl. unfold killed. apply wp_bind, wp_acquire; [done|]. apply wp_bind, wp_gets, wp_bind, wp_release.
  - rewrite held_set. set_solver.
  - rewrite held_set, set_held_set, held_acq_rel, set_held_held by done. by apply wp_ret.
Qed.

(** C22: [wait], with any address for the exit status.  With an exited child, the status of the
    first one is copied to the address unless that is 0: when the copy fails, [wait] returns -1
    and the process table is as before; otherwise it frees the child's slot and memory and
    returns its pid, leaving every other process alone.  Without children, or when the caller has
    been killed, it returns -1 and changes nothing; otherwise it sleeps on the caller's own
    channel, so that [exit] of a child wakes it.  In no case does it return with a lock.  The
    operations of [vm.c] it calls ([copyout], [uvmunmap], [uvmfree], [kfree]) are assumed to
    return, with the locks they were called with ([collectable]). *)
Theorem wait_spec p addr s : curproc s = Some p -> 0 <= p < NPROC -> held s = ∅ ->
  (forall z r, zombies s p = z :: r -> collectable s p z addr) ->
  match zombies s p with
  | z :: _ => wp (wait addr) (collected s p z addr) s
  | [] =>
      if decide (kids s p = [] \/ p_killed (proc_of s p) <> 0)
      then wp (wait addr) (fun r s' => r = -1 /\ s' = s) s
      else blocks (wait addr) (fun s' => s' = set_held {[PLOCK p]}
             (set_proc p (set_state SLEEPING (set_chan (proc_chan p) (proc_of s p))) s)) s
  end.
Proof.
  intros Hc Hp Hh Hmem.
  assert (forall q, 0 <= q < NPROC -> PLOCK q <> WAIT_LOCK) as Hlk by (unfold PLOCK, WAIT_LOCK, NPROC; lia).
  set (s1 := set_held {[WAIT_LOCK]} s).
  assert (wp (acquire WAIT_LOCK) (fun _ s' => s' = s1) s) as Hacq.
  { apply wp_acquire; [rewrite Hh; set_solver|]. unfold s1. do 2 f_equal. rewrite Hh. set_solver. }
  assert (held s1 = {[WAIT_LOCK]}) as Hh1 by apply held_set.
  assert (set_held ∅ s1 = s) as Hback by (unfold s1; rewrite set_held_set, <- Hh; apply set_held_held).
  assert (wp (wait_scan p addr) (fun r s' => match zombies s p with
    | z :: _ => exists v, r = inr v /\ collected s p z addr v s'
    | [] => (exists b, r = inl b /\ (b = true <-> kids s p <> [])) /\ s' = s1 end) s1) as Hscan.
  { assert (forall z, set_held (wait_locks z) (env s1) = set_held (wait_locks z) (env s)) as Eh by (intros z; apply set_held_set).
    eapply wp_mono; [apply (wait_scan_ok p addr s1 Hh1 Hlk)|].
    - intros z r Hz. unfold collectable. rewrite Eh. exact (Hmem z r Hz).
    - cbn beta. change (zombies s1 p) with (zombies s p). change (kids s1 p) with (kids s p).
      intros r s'. destruct (zombies s p) as [|z r0]; [done|]. intros (v & -> & v1 & e & Ev & HC). exists v. split; [done|].
      exists v1, e. rewrite Eh in Ev. split; [exact Ev|]. destruct (v1 <? 0); [exact HC|]. destruct HC as [-> [R1 R2 R3 R4]]. by split. }
  unfold wait, wait_turn, myproc. destruct (zombies s p) as [|z r0].
  2:{ apply wp_bind. eapply wp_mono; [exact Hacq|]. cbn beta. intros _ ? ->.
      apply wp_bind, wp_bind, wp_gets. change (curproc s1) with (curproc s). rewrite Hc. apply wp_ret.
      apply wp_bind. eapply wp_mono; [exact Hscan|]. cbn beta. intros ? s' (v & -> & R). by apply wp_ret. }
  assert (PLOCK p ∉ held s1) as Hpl by (rewrite Hh1; pose proof (Hlk p Hp); set_solver).
  case_decide as Hd.
  - apply wp_bind. eapply wp_mono; [exact Hacq|]. cbn beta. intros _ ? ->.
    apply wp_bind, wp_bind, wp_gets. change (curproc s1) with (curproc s). rewrite Hc. apply wp_ret.
    apply wp_bind. eapply wp_mono; [exact Hscan|]. cbn beta. intros ? ? [(b & -> & Hb) ->].
    assert (wp (release WAIT_LOCK;; mret (-1) : M (pstate S) Z) (fun r s' => r = -1 /\ s' = s) s1) as Hend.
    { apply wp_bind, wp_release; [rewrite Hh1; set_solver|]. apply wp_ret. split; [done|].
      rewrite Hh1. replace ({[WAIT_LOCK]} ∖ {[WAIT_LOCK]}) with (∅ : gset Z) by set_solver. exact Hback. }
    destruct b.
    + apply wp_bind. eapply wp_mono; [by apply killed_ok|]. cbn beta. intros ? ? [-> ->].
      destruct Hd as [Hd|Hd]; [by destruct (proj1 Hb eq_refl)|].
      change (proc_of s1 p) with (proc_of s p). apply Z.eqb_neq in Hd as ->. exact Hend.
    + apply wp_bind, wp_ret. exact Hend.
  - apply blocks_bind_r. eapply wp_mono; [exact Hacq|]. cbn beta. intros _ ? ->.
    apply blocks_bind_r, wp_bind, wp_gets. change (curproc s1) with (curproc s). rewrite Hc. apply wp_ret.
    apply blocks_bind_r. eapply wp_mono; [exact Hscan|]. cbn beta. intros ? ? [(b & -> & Hb) ->].
    assert (b = true) as ->. { apply Hb. intros E. apply Hd. by left. }
    apply blocks_bind_r. eapply wp_mono; [by apply killed_ok|]. cbn beta. intros ? ? [-> ->].
    change (proc_of s1 p) with (proc_of s p).
    assert (p_killed (proc_of s p) = 0) as -> by (destruct (decide (p_killed (proc_of s p) = 0)); tauto).
    cbn [negb orb Z.eqb]. apply blocks_bind_l.
    eapply blocks_mono; [apply (sleep_ok p _ _ s1 Hc Hh1); pose proof (Hlk p Hp); congruence|].
    cbn beta. intros ? ->. unfold s1. by rewrite set_proc_held, proc_of_held, set_held_set.
Qed.
End spec.

(** ** Concrete runs

    An environment whose only state is the set of locks held: no memory is left to
    allocate and no file is open. *)
Record bare := mkBare { b_held : gset Z; b_mem : memory }.
#[export] #[refine] Instance bare_locks : HasLocks bare := {
  held := b_held; set_held := fun x s => mkBare x (b_mem s); curpid := fun _ => 1 }.
Proof. all: by intros; try destruct s. Defined.
#[export] Instance bare_env : ProcEnv bare := {
  forkret := 0; initcode_addr := 0; trampoline_addr := 0;
  pmem := b_mem; set_pmem := fun m s => mkBare (b_held s) m;
  kalloc := mret 0; kfree := fun _ => mret tt; uvmcreate := mret 0;
  mappages := fun _ _ _ _ _ => mret (-1); uvmunmap := fun _ _ _ _ => mret tt; uvmfree := fun _ _ => mret tt;
  uvmcopy := fun _ _ _ => mret (-1); uvmalloc := fun _ _ _ _ => mret 0; uvmdealloc := fun _ o _ => mret o;
  uvmfirst := fun _ _ _ => mret tt; copyout_int := fun _ a _ => mret (if a <? MAXVA then 0 else -1);
  filedup := fun f => mret f; fileclose := fun _ => mret tt; idup := fun i => mret i; iput := fun _ => mret tt;
  begin_op := mret tt; end_op := mret tt; namei_root := mret 0;
}.

(** Process 2 runs; process 5 is its child and has exited. *)
Definition demo_procs (x : gset Z) : pstate bare :=
  mkP (mkBare x ∅) {[ 2 := set_state RUNNING (set_pid 7 proc0);
                      5 := set_state ZOMBIE (set_pid 9 (set_parent (Some 2) proc0)) ]} (Some 0) 10 (Some 2).

Lemma sleep_spec_witness : blocks (sleep_enter 77 3)
  (fun s' => state (proc_of s' 2) = SLEEPING /\ held s' = {[PLOCK 2]}) (demo_procs {[3]}).
Proof.
  pose proof (sleep_spec 2 77 3 ∅ (demo_procs {[3]}) eq_refl ltac:(cbn; set_solver) ltac:(done)
    ltac:(set_solver) ltac:(set_solver)) as Hs.
  rewrite decide_True in Hs by done. eapply blocks_mono; [exact Hs|]. cbn beta. intros s' (H1 & H2 & _). done.
Defined.

Lemma wait_spec_witness :
  wp (wait 16) (fun r s' => r = 9 /\ state (proc_of s' 5) = UNUSED) (demo_procs ∅) /\
  wp (wait MAXVA) (fun r s' => r = -1 /\ state (proc_of s' 5) = ZOMBIE /\ held s' = ∅) (demo_procs ∅).
Proof.
  assert (zombies (demo_procs ∅) 2 = [5]) as Ez by (vm_compute; reflexivity). split.
  - pose proof (wait_spec 2 16 (demo_procs ∅) eq_refl ltac:(done) eq_refl) as Hw. rewrite Ez in Hw. eapply wp_mono; [apply Hw|].
    + intros z r [= <- <-]. by split.
    + cbn beta. intros r s' (v & e & [= <- <-] & -> & [R1 _ _ _]). split; [reflexivity|]. rewrite R1. reflexivity.
  - pose proof (wait_spec 2 MAXVA (demo_procs ∅) eq_refl ltac:(done) eq_refl) as Hw. rewrite Ez in Hw. eapply wp_mono; [apply Hw|].
    + intros z r [= <- <-]. by split.
    + cbn beta. intros r s' (v & e & [= <- <-] & -> & ->). done.
Defined.
