(* ===== verification/Sleep.v ===== *)
(** * Sleep and wakeup of concurrent processes

    The protocol of [sleep] and [wakeup] ([kernel/proc.c]) around a condition
    protected by a lock [lk], as [pipe.c], [log.c] and [sleeplock.c] use it: any
    number of processes run

      acquire(lk); while(!cond) sleep(chan, lk); release(lk);

    and one sets the condition and runs [wakeup(chan)] with [lk] held.  The steps
    are the code between lock operations and interleave freely; a lock is given
    to one process at a time. *)

From Stdlib Require Import ZArith Lia.
From stdpp Require Import base numbers list gmap strings sets.
From S2P Require Import Prelude Riscv Spinlock Locks Proc ProcSpec.

(** Where a waiting process is. *)
Inductive wpc :=
| Idle                      (* before acquire(lk) *)
| Testing                   (* holds lk, about to test the condition *)
| Entering                  (* in sleep: holds lk, about to acquire p->lock *)
| Both                      (* in sleep: holds lk and p->lock *)
| Committed                 (* in sleep: released lk, holds p->lock *)
| Asleep                    (* in sched: state set, p->lock released by the scheduler *)
| Resumed                   (* switched to again, holds p->lock *)
| Returning                 (* in sleep: released p->lock, about to acquire lk *)
| Through.                  (* saw the condition, released lk *)

(** Where the waking process is. *)
Inductive kpc :=
| KIdle                     (* before acquire(lk) *)
| KHolds                    (* holds lk, the condition not set yet *)
| KScan (i : Z)             (* in wakeup, about to acquire the lock of process i *)
| KAt (i : Z)               (* in wakeup, holds lk and the lock of process i *)
| KDone.                    (* released lk *)

#[export] Instance wpc_eq_dec : EqDecision wpc.
Proof. solve_decision. Defined.
#[export] Instance kpc_eq_dec : EqDecision kpc.
Proof. solve_decision. Defined.

Record conf := mkConf {
  cond : bool;
  tab : Z -> proc;          (* the process table *)
  wat : Z -> wpc;           (* where process p, 0 <= p < NPROC, is *)
  kat : kpc }.

Section protocol.
Context (ch : Z).

Definition upd {A} (f : Z -> A) (p : Z) (v : A) : Z -> A := fun q => if decide (q = p) then v else f q.
Definition is_proc (p : Z) : Prop := 0 <= p < NPROC.

Definition w_holds_lk (w : wpc) : bool :=
  match w with Testing | Entering | Both => true | _ => false end.
Definition w_holds_plock (w : wpc) : bool :=
  match w with Both | Committed | Resumed => true | _ => false end.
Definition k_holds_lk (k : kpc) : bool :=
  match k with KHolds | KScan _ | KAt _ => true | _ => false end.

(** The lock [lk], and the lock of process [p], are free. *)
Definition lk_free (c : conf) : Prop :=
  k_holds_lk (kat c) = false /\ forall q, is_proc q -> w_holds_lk (wat c q) = false.
Definition plock_free (c : conf) (p : Z) : Prop := w_holds_plock (wat c p) = false /\ kat c <> KAt p.

Definition w_set (c : conf) (p : Z) (w : wpc) (x : proc) : conf :=
  mkConf (cond c) (upd (tab c) p x) (upd (wat c) p w) (kat c).
Definition w_to (c : conf) (p : Z) (w : wpc) : conf := w_set c p w (tab c p).
Definition k_to (c : conf) (k : kpc) : conf := mkConf (cond c) (tab c) (wat c) k.

Inductive step : conf -> conf -> Prop :=
| w_acquire p c : is_proc p -> wat c p = Idle -> lk_free c -> step c (w_to c p Testing)
| w_pass p c : is_proc p -> wat c p = Testing -> cond c = true -> step c (w_to c p Through)
| w_test p c : is_proc p -> wat c p = Testing -> cond c = false -> step c (w_to c p Entering)
| w_plock p c : is_proc p -> wat c p = Entering -> plock_free c p -> step c (w_to c p Both)
| w_unlock p c : is_proc p -> wat c p = Both -> step c (w_to c p Committed)
| w_sleep p c : is_proc p -> wat c p = Committed ->
    step c (w_set c p Asleep (set_state SLEEPING (set_chan ch (tab c p))))
| w_run p c : is_proc p -> wat c p = Asleep -> state (tab c p) = RUNNABLE -> plock_free c p ->
    step c (w_set c p Resumed (set_state RUNNING (tab c p)))
| w_tidy p c : is_proc p -> wat c p = Resumed -> step c (w_set c p Returning (set_chan 0 (tab c p)))
| w_again p c : is_proc p -> wat c p = Returning -> lk_free c -> step c (w_to c p Testing)
| k_acquire c : kat c = KIdle -> lk_free c -> step c (k_to c KHolds)
| k_set c : kat c = KHolds -> step c (mkConf true (tab c) (wat c) (KScan 0))
| k_plock i c : kat c = KScan i -> is_proc i -> plock_free c i -> step c (k_to c (KAt i))
| k_wake i c : kat c = KAt i ->
    step c (mkConf (cond c) (upd (tab c) i (wake_one ch (tab c i))) (wat c) (KScan (i + 1)))
| k_release c : kat c = KScan NPROC -> step c (k_to c KDone).

(** Every process is before its [acquire] and no process sleeps. *)
Definition initial (c : conf) : Prop :=
  cond c = false /\ kat c = KIdle /\ (forall p, is_proc p -> wat c p = Idle /\ state (tab c p) = RUNNING).

(** The first process [wakeup] has not looked at yet, once the condition is
    set. *)
Definition scan_from (k : kpc) : Z :=
  match k with KScan i | KAt i => i | KDone => NPROC | _ => 0 end.
Definition k_range (k : kpc) : Prop := match k with KScan i => 0 <= i <= NPROC | KAt i => 0 <= i < NPROC | _ => True end.

(** A process on its way to sleep. *)
Definition going (w : wpc) : bool := match w with Entering | Both => true | _ => false end.

Record inv (c : conf) : Prop := {
  i_kr : k_range (kat c);
  i_excl : forall p q, is_proc p -> is_proc q -> w_holds_lk (wat c p) = true -> w_holds_lk (wat c q) = true -> p = q;
  i_exclk : forall p, is_proc p -> w_holds_lk (wat c p) = true -> k_holds_lk (kat c) = false;
  i_plock : forall p, is_proc p -> w_holds_plock (wat c p) = true -> kat c <> KAt p;
  i_asleep : forall p, is_proc p -> state (tab c p) = SLEEPING -> wat c p = Asleep /\ chan (tab c p) = ch;
  i_states : forall p, is_proc p -> wat c p = Asleep -> state (tab c p) = SLEEPING \/ state (tab c p) = RUNNABLE;
  i_cond : cond c = true <-> (exists i, kat c = KScan i \/ kat c = KAt i) \/ kat c = KDone;
  i_going : forall p, is_proc p -> cond c = true -> going (wat c p) = false;
  i_late : forall p, is_proc p -> cond c = true -> wat c p = Committed \/ state (tab c p) = SLEEPING ->
    scan_from (kat c) <= p;
}.

Lemma wake_one_state x : state (wake_one ch x) = SLEEPING -> state x = SLEEPING /\ chan x <> ch.
Proof.
  unfold wake_one. destruct (bool_decide (state x = SLEEPING)) eqn:E; cbn [andb].
  - apply bool_decide_eq_true in E. destruct (chan x =? ch) eqn:Ec; to_prop; [done|]. auto.
  - apply bool_decide_eq_false in E. done.
Qed.

Lemma wake_one_awake x : state x = SLEEPING \/ state x = RUNNABLE ->
  state (wake_one ch x) = SLEEPING \/ state (wake_one ch x) = RUNNABLE.
Proof. unfold wake_one. destruct (_ && _); auto. Qed.

(** A waiter's step. *)
Lemma inv_set c p w x : inv c -> is_proc p ->
  (w_holds_lk w = true -> w_holds_lk (wat c p) = true \/ lk_free c) ->
  (w_holds_plock w = true -> kat c <> KAt p) ->
  (state x = SLEEPING -> w = Asleep /\ chan x = ch) ->
  (w = Asleep -> state x = SLEEPING \/ state x = RUNNABLE) ->
  (cond c = true -> going w = false) ->
  (cond c = true -> w = Committed \/ state x = SLEEPING -> scan_from (kat c) <= p) ->
  inv (w_set c p w x).
Proof.
  intros [I1 I2 I3 I4 I5 I6 I7 I8 I9] Hp HA HB HC HD HE HF.
  split; cbn [cond tab wat kat w_set]; unfold upd; try done.
  - intros q r Hq Hr. repeat case_decide; subst; try done; intros H1 H2.
    + destruct (HA H1) as [K|[_ K]]; [by apply I2|]. by rewrite K in H2.
    + destruct (HA H2) as [K|[_ K]]; [by apply I2|]. by rewrite K in H1.
    + by apply I2.
  - intros q Hq. case_decide; subst; [|by apply I3]. intros H1.
    destruct (HA H1) as [K|[K _]]; [by apply (I3 p)|done].
  - intros q Hq. case_decide; subst; [done|by apply I4].
  - intros q Hq. case_decide; subst; [done|by apply I5].
  - intros q Hq. case_decide; subst; [done|by apply I6].
  - intros q Hq. case_decide; subst; [done|by apply I8].
  - intros q Hq. case_decide; subst; [done|by apply I9].
Qed.

(** A step of the waking process that leaves the table alone. *)
Lemma inv_k c b k : inv c -> k_range k ->
  (k_holds_lk k = true -> k_holds_lk (kat c) = true \/ lk_free c) ->
  (forall p, k = KAt p -> w_holds_plock (wat c p) = false) ->
  (b = true <-> (exists i, k = KScan i \/ k = KAt i) \/ k = KDone) ->
  (b = true -> (cond c = true /\ scan_from k <= scan_from (kat c) \/ kat c = KHolds /\ scan_from k <= 0) \/
     forall p, is_proc p -> going (wat c p) = false /\ (wat c p = Committed \/ state (tab c p) = SLEEPING ->
       scan_from k <= p)) ->
  inv (mkConf b (tab c) (wat c) k).
Proof.
  intros [I1 I2 I3 I4 I5 I6 I7 I8 I9] Hr HA HB HC HD. split; cbn [cond tab wat kat]; try done.
  - intros p Hp Hw. destruct (k_holds_lk k) eqn:E; [|done].
    destruct (HA eq_refl) as [H|[_ H]]; [by rewrite (I3 p Hp Hw) in H|by rewrite H in Hw].
  - intros p Hp Hw E. by rewrite (HB p E) in Hw.
  - intros p Hp Hb. destruct (HD Hb) as [[[H _]|[H _]]|H]; [by apply I8| |by apply H].
    destruct (going (wat c p)) eqn:E; [|done]. assert (w_holds_lk (wat c p) = true) as Hl by by destruct (wat c p).
    apply I3 in Hl; [|done]. by rewrite H in Hl.
  - intros p Hp Hb Hc. destruct (HD Hb) as [[[H1 H2]|[H1 H2]]|H]; [|unfold is_proc in Hp; lia|by apply H].
    etransitivity; [exact H2|by apply I9].
Qed.

(** [wakeup] looks at a process with that process's lock held. *)
Lemma inv_wake c i : inv c -> kat c = KAt i ->
  inv (mkConf (cond c) (upd (tab c) i (wake_one ch (tab c i))) (wat c) (KScan (i + 1))).
Proof.
  intros [I1 I2 I3 I4 I5 I6 I7 I8 I9] Hk. rewrite Hk in *. cbn in I1.
  split; cbn [cond tab wat kat]; unfold upd; try done.
  - cbn. lia.
  - intros p Hp. case_decide; subst; [|by apply I5]. intros Hs%wake_one_state. destruct Hs as [Hs Hc].
    by apply I5 in Hs as [_ ?].
  - intros p Hp. case_decide; subst; [|by apply I6]. intros Ha. by apply wake_one_awake, I6.
  - rewrite I7. split; intros _; left; [exists (i + 1)|exists i]; auto.
  - intros p Hp Hc Hs. assert (p <> i) as Hne.
    { intros ->. rewrite decide_True in Hs by done. destruct Hs as [Hs|Hs%wake_one_state].
      - apply (I4 i Hp); [by rewrite Hs|done].
      - destruct Hs as [Hs Hn]. by apply I5 in Hs as [_ ?]. }
    rewrite decide_False in Hs by done. specialize (I9 p Hp Hc Hs). cbn in *. lia.
Qed.

Lemma proto_step c c' : inv c -> step c c' -> inv c'.
Proof.
  intros I Hs. pose proof I as [I1 I2 I3 I4 I5 I6 I7 I8 I9].
  destruct Hs as [p c Hp Hw Hf|p c Hp Hw Hc|p c Hp Hw Hc|p c Hp Hw Hf|p c Hp Hw|p c Hp Hw
    |p c Hp Hw Hr Hf|p c Hp Hw|p c Hp Hw Hf|c Hk Hf|c Hk|i c Hk Hp Hf|i c Hk|c Hk].
  1-9: pose proof (I4 p Hp) as J4; pose proof (I5 p Hp) as J5; pose proof (I8 p Hp) as J8;
    pose proof (I9 p Hp) as J9; rewrite Hw in J4, J5, J8, J9; unfold w_to; apply inv_set; try done; auto.
  all: try (by (intros [Ha _]%J5)).
  all: try (by (intros ? [?|[? _]%J5])).
  all: try (by intros; congruence).
  all: try (by rewrite Hw; auto).
  all: try (by intros _; apply Hf).
  all: try (by intros Hc; destruct (J8 Hc)).
  all: try (by intros Hc; specialize (J8 Hc)).
  - by intros _ [?|?].
  - apply inv_k; rewrite ?Hk; try done; [by right| |].
    + rewrite I7, Hk. split; intros [(i & [?|?])|?]; done.
    + rewrite I7, Hk. intros [(i & [?|?])|?]; done.
  - apply inv_k; rewrite ?Hk; try done; [by left| |].
    + split; [|done]. intros _. left. exists 0. by left.
    + intros _. left. right. split; [done|]. by cbn.
  - apply inv_k; rewrite ?Hk; try done; [by left| | |].
    + intros p [= <-]. by apply Hf.
    + rewrite I7, Hk. split; intros _; left; exists i; auto.
    + intros Hc. left. left. done.
  - apply inv_wake; done.
  - apply inv_k; rewrite ?Hk; try done.
    + rewrite I7, Hk. split; intros _; [by right|]. left. exists NPROC. by left.
    + intros Hc. left. left. done.
Qed.

Lemma initial_inv c : initial c -> inv c.
Proof.
  intros (Hc & Hk & Hw). split; rewrite ?Hk, ?Hc; try done.
  - intros p q Hp Hq. by rewrite (proj1 (Hw p Hp)).
  - intros p Hp Hs. by rewrite (proj2 (Hw p Hp)) in Hs.
  - intros p Hp Ha. by rewrite (proj1 (Hw p Hp)) in Ha.
  - split; [done|]. intros [(i & [?|?])|?]; done.
Qed.

(** C12: no wakeup is lost.  Whatever the interleaving, once the waking process
    has set the condition and left [wakeup] no process sleeps on the channel or
    is on its way to sleep there: every one that waits is runnable or awake. *)
Theorem no_lost_wakeup c c' p : initial c -> rtc step c c' -> kat c' = KDone -> is_proc p ->
  state (tab c' p) <> SLEEPING /\ going (wat c' p) = false /\ wat c' p <> Committed.
Proof.
  intros Hi Hr Hk Hp. assert (inv c') as [I1 I2 I3 I4 I5 I6 I7 I8 I9].
  { clear Hk. apply initial_inv in Hi. induction Hr as [|c c1 c2 Hs _ IH]; [done|]. apply IH. by eapply proto_step. }
  assert (cond c' = true) as Hc by (apply I7; by right).
  split; [|split]; [| by apply I8|]; intros Hs.
  - specialize (I9 p Hp Hc (or_intror Hs)). rewrite Hk in I9. unfold is_proc in Hp. cbn in I9. lia.
  - specialize (I9 p Hp Hc (or_introl Hs)). rewrite Hk in I9. unfold is_proc in Hp. cbn in I9. lia.
Qed.

(** [wakeup] runs to its end when no process holds its own lock. *)
Lemma scan_all n i c : kat c = KScan i -> 0 <= i -> i + Z.of_nat n = NPROC ->
  (forall q, w_holds_plock (wat c q) = false) ->
  exists c', rtc step c c' /\ kat c' = KDone.
Proof.
  revert i c; induction n as [|n IH]; intros i c Hk Hi Hn Hf.
  - exists (k_to c KDone). split; [|done]. apply rtc_once, k_release. rewrite Hk. f_equal. lia.
  - destruct (IH (i + 1) (mkConf (cond c) (upd (tab c) i (wake_one ch (tab c i))) (wat c) (KScan (i + 1))))
      as (c' & Hr & Hd); [done|lia|lia|done|].
    exists c'. split; [|done]. eapply rtc_l; [apply (k_plock i); [done|unfold is_proc; lia|]|].
    + split; [apply Hf|by rewrite Hk].
    + eapply rtc_l; [|exact Hr]. by apply (k_wake i (k_to c (KAt i))).
Qed.
End protocol.

(** Process 3 goes to sleep before the condition is set. *)
Lemma no_lost_wakeup_witness : exists c c', initial c /\ rtc (step 77) c c' /\ kat c' = KDone /\
  state (tab c' 3) <> SLEEPING.
Proof.
  set (c := mkConf false (fun _ => set_state RUNNING proc0) (fun _ => Idle) KIdle).
  assert (initial c) as Hi by done.
  assert (is_proc 3) as H3 by (unfold is_proc, NPROC; lia).
  assert (exists c1, rtc (step 77) c c1 /\ kat c1 = KScan 0 /\ forall q, w_holds_plock (wat c1 q) = false)
    as (c1 & Hr1 & Hk1 & Hf1).
  { eexists. split.
    - eapply rtc_l; [by apply (w_acquire 77 3)|].
      eapply rtc_l; [by apply (w_test 77 3)|].
      eapply rtc_l; [by apply (w_plock 77 3)|].
      eapply rtc_l; [by apply (w_unlock 77 3)|].
      eapply rtc_l; [by apply (w_sleep 77 3)|].
      eapply rtc_l; [apply (k_acquire 77); [done|split; [done|]]|].
      { intros q _. cbn. unfold upd. by repeat case_decide. }
      eapply rtc_l; [by apply (k_set 77)|]. apply rtc_refl.
    - split; [done|]. intros q. cbn. unfold upd. by repeat case_decide. }
  destruct (scan_all 77 (Z.to_nat NPROC) 0 c1 Hk1 ltac:(lia) eq_refl Hf1) as (c' & Hr2 & Hd).
  exists c, c'. assert (rtc (step 77) c c') as Hr by by etransitivity.
  split; [exact Hi|]. split; [exact Hr|]. split; [exact Hd|].
  apply (no_lost_wakeup 77 c c' 3 Hi Hr Hd H3).
Defined.
