(* ===== verification/Pipe.v ===== *)
(** * Pipes

    [kernel/pipe.c] but for [pipealloc], which is in [File.v].  The bytes of a
    pipe are a ring of PIPESIZE bytes between two [uint] counters.  A reader or a
    writer runs with the pipe's lock held until it returns or sleeps; [pipewrite]
    and [piperead] are therefore segments, from the call or from waking up to the
    next return ([inr] with the result) or sleep ([inl] with what the process keeps
    meanwhile). *)

From Stdlib Require Import ZArith Lia.
From stdpp Require Import base numbers list gmap strings sets.
From S2P Require Import Prelude Riscv Spinlock Locks.

Definition PIPESIZE : Z := 512.

(** [struct pipe]; its lock is [PIPE_LOCK]. *)
Record pipe := mkPipe { pdata : list Z; nread : Z; nwrite : Z; readopen : Z; writeopen : Z }.
Definition PIPE_LOCK : Z := 700.

(** What [pipe.c] uses of [proc.c], [vm.c] and [kalloc.c]: [killed(myproc())],
    [copyin] of one byte ([None] when it fails), [copyout] of one byte, [kfree]. *)
Class PipeEnv (S : Type) := {
  pi_locks :: HasLocks S;
  pkilled : M S Z;
  copyin1 : Z -> M S (option Z);
  copyout1 : Z -> Z -> M S Z;
  kfree_pipe : M S unit;
}.

Record pipest (S : Type) := mkPi { penv : S; pip : pipe }.
Arguments mkPi {S} _ _.
Arguments penv {S} _.
Arguments pip {S} _.

Section pipe_c.
Context {S : Type} `{PipeEnv S}.
Implicit Types s : pipest S.

#[export] #[refine] Instance pipest_locks : HasLocks (pipest S) := {
  held := fun s => held (penv s);
  set_held := fun x s => mkPi (set_held x (penv s)) (pip s);
  curpid := fun s => curpid (penv s);
}.
Proof.
  - intros x s. cbn. apply held_set.
  - intros s. rewrite set_held_held. by destruct s.
  - intros x y s. cbn. by rewrite set_held_set.
Defined.

Definition lift {A} (m : M S A) : M (pipest S) A := zoom penv (fun e s => mkPi e (pip s)) m.
Definition upd_pipe (f : pipe -> pipe) : M (pipest S) unit := modify (fun s => mkPi (penv s) (f (pip s))).
Definition getp {A} (f : pipe -> A) : M (pipest S) A := gets (fun s => f (pip s)).

Definition set_open (w : bool) (v : Z) (p : pipe) : pipe :=
  if w then mkPipe (pdata p) (nread p) (nwrite p) (readopen p) v
  else mkPipe (pdata p) (nread p) (nwrite p) v (writeopen p).

Definition pipeclose (writable : bool) : M (pipest S) unit :=
  acquire PIPE_LOCK;;
  upd_pipe (set_open writable 0);;
  wakeup PIPE_LOCK;;
  p ← getp (fun p => p);
  if (readopen p =? 0) && (writeopen p =? 0) then
    release PIPE_LOCK;;
    lift kfree_pipe
  else release PIPE_LOCK.

(** [pi->data[pi->nwrite++ % PIPESIZE] = ch] *)
Definition push_byte (ch : Z) (p : pipe) : pipe :=
  mkPipe (<[Z.to_nat (nwrite p mod PIPESIZE) := ch]> (pdata p)) (nread p) (u32 (nwrite p + 1))
    (readopen p) (writeopen p).
(** [pi->data[pi->nread % PIPESIZE]], and [pi->nread++] *)
Definition front_byte (p : pipe) : Z := nth (Z.to_nat (nread p mod PIPESIZE)) (pdata p) 0.
Definition pop_byte (p : pipe) : pipe :=
  mkPipe (pdata p) (u32 (nread p + 1)) (nwrite p) (readopen p) (writeopen p).

(** [pipewrite] with [i] bytes written so far. *)
Definition pipewrite_from (addr n i : Z) : M (pipest S) (Z + Z) :=
  acquire PIPE_LOCK;;
  r ← loop (Z.to_nat (n - i) + 1) (fun i =>
    if negb (i <? n) then mret (inr (inr i)) else
    ro ← getp readopen;
    k ← (if ro =? 0 then mret 1 else lift pkilled);
    if negb (k =? 0) then release PIPE_LOCK;; mret (inr (inl (inr (-1)))) else
    p ← getp (fun p => p);
    if nwrite p =? u32 (nread p + PIPESIZE) then
      wakeup PIPE_LOCK;;
      release PIPE_LOCK;;
      mret (inr (inl (inl i)))
    else
      c ← lift (copyin1 (addr + i));
      match c with
      | None => mret (inr (inr i))
      | Some ch => upd_pipe (push_byte ch);; mret (inl (i + 1))
      end) i;
  match r with
  | inl out => mret out
  | inr i => wakeup PIPE_LOCK;; release PIPE_LOCK;; mret (inr i)
  end.
Definition pipewrite (addr n : Z) : M (pipest S) (Z + Z) := pipewrite_from addr n 0.

(** The copying loop of [piperead]. *)
Definition piperead_copy (addr n : Z) : M (pipest S) Z :=
  loop (Z.to_nat n + 1) (fun i =>
    if negb (i <? n) then mret (inr i) else
    p ← getp (fun p => p);
    if nread p =? nwrite p then mret (inr i) else
    upd_pipe pop_byte;;
    r ← lift (copyout1 (addr + i) (front_byte p));
    if r =? -1 then mret (inr i) else mret (inl (i + 1))) 0.

Definition piperead (addr n : Z) : M (pipest S) (unit + Z) :=
  acquire PIPE_LOCK;;
  p ← getp (fun p => p);
  if (nread p =? nwrite p) && negb (writeopen p =? 0) then
    k ← lift pkilled;
    if negb (k =? 0) then release PIPE_LOCK;; mret (inr (-1)) else
    release PIPE_LOCK;;
    mret (inl tt)
  else
    i ← piperead_copy addr n;
    wakeup PIPE_LOCK;;
    release PIPE_LOCK;;
    mret (inr i).
End pipe_c.
