(* ===== verification/PipeFifo.v ===== *)
(** * A pipe is a bounded queue of bytes

    The ring of [Pipe.v] represents a list of at most PIPESIZE bytes; a writer
    appends to it and a reader takes from its front, whatever the order in which
    the segments of readers and writers run. *)

From Stdlib Require Import ZArith Lia.
From stdpp Require Import base numbers list gmap strings sets.
From S2P Require Import Prelude Riscv Spinlock Locks Pipe.

(** The pipe holds the bytes [q]; the counters wrap around at 2^32. *)
Record pipe_rep (p : pipe) (q : list Z) : Prop := {
  pr_len : Z.of_nat (length q) <= PIPESIZE;
  pr_data : length (pdata p) = Z.to_nat PIPESIZE;
  pr_nread : 0 <= nread p < 2 ^ 32;
  pr_nwrite : nwrite p = u32 (nread p + Z.of_nat (length q));
  pr_bytes : forall k c, q !! k = Some c ->
    nth (Z.to_nat ((nread p + Z.of_nat k) mod PIPESIZE)) (pdata p) 0 = c;
}.

Lemma u32_ring x : u32 x mod PIPESIZE = x mod PIPESIZE.
Proof. unfold u32, PIPESIZE. change (2 ^ 32) with 4294967296. dlia. Qed.

(** Different places of the queue are different places of the ring. *)
Lemma ring_inj r i j : 0 <= i < PIPESIZE -> 0 <= j < PIPESIZE ->
  (r + i) mod PIPESIZE = (r + j) mod PIPESIZE -> i = j.
Proof. unfold PIPESIZE. intros. dlia. Qed.

Lemma pipe_empty p q : pipe_rep p q -> (nread p =? nwrite p) = bool_decide (q = []).
Proof.
  intros [H1 _ H2 H3 _]. unfold PIPESIZE in H1. rewrite H3. unfold u32 in *. change (2 ^ 32) with 4294967296 in *.
  destruct q as [|c q]; [rewrite bool_decide_true by done|rewrite bool_decide_false by done]; cbn [length] in *.
  - apply Z.eqb_eq. dlia.
  - apply Z.eqb_neq. dlia.
Qed.

Lemma pipe_full p q : pipe_rep p q ->
  (nwrite p =? u32 (nread p + PIPESIZE)) = bool_decide (Z.of_nat (length q) = PIPESIZE).
Proof.
  intros [H1 _ H2 H3 _]. unfold PIPESIZE in *. rewrite H3. unfold u32 in *. change (2 ^ 32) with 4294967296 in *.
  case_bool_decide; [apply Z.eqb_eq|apply Z.eqb_neq]; dlia.
Qed.

Lemma push_byte_ok p q ch : pipe_rep p q -> Z.of_nat (length q) < PIPESIZE ->
  pipe_rep (push_byte ch p) (q ++ [ch]).
Proof.
  intros [H1 Hd H2 H3 H4] Hl. split; cbn [push_byte pdata nread nwrite].
  - rewrite length_app. cbn. lia.
  - by rewrite length_insert.
  - done.
  - rewrite H3, length_app. cbn [length]. unfold u32. rewrite Zplus_mod_idemp_l. f_equal. lia.
  - intros k c Hk.
    assert (Z.to_nat (nwrite p mod PIPESIZE) = Z.to_nat ((nread p + Z.of_nat (length q)) mod PIPESIZE)) as ->
      by by rewrite H3, u32_ring.
    assert (0 <= (nread p + Z.of_nat (length q)) mod PIPESIZE < PIPESIZE) as Hb by by apply Z.mod_pos_bound.
    apply lookup_lt_Some in Hk as Hlt. rewrite length_app in Hlt. cbn in Hlt.
    rewrite nth_lookup. destruct (decide (k = length q)) as [->|Hne].
    + rewrite lookup_app_r, Nat.sub_diag in Hk by lia. cbn in Hk. injection Hk as ->.
      rewrite list_lookup_insert_eq by lia. done.
    + rewrite lookup_app_l in Hk by lia. rewrite list_lookup_insert_ne.
      * rewrite <- nth_lookup. by apply H4.
      * intros E. apply Hne. apply Nat2Z.inj. symmetry. apply (ring_inj (nread p)); [lia|lia|].
        assert (0 <= (nread p + Z.of_nat k) mod PIPESIZE < PIPESIZE) by by apply Z.mod_pos_bound. lia.
Qed.

Lemma pop_byte_ok p c q : pipe_rep p (c :: q) -> front_byte p = c /\ pipe_rep (pop_byte p) q.
Proof.
  intros [H1 Hd H2 H3 H4]. cbn [length] in *. split.
  - unfold front_byte. specialize (H4 0%nat c eq_refl). by rewrite Z.add_0_r in H4.
  - split; cbn [pop_byte pdata nread nwrite].
    + lia.
    + done.
    + unfold u32. by apply Z.mod_pos_bound.
    + rewrite H3. unfold u32. rewrite Zplus_mod_idemp_l. f_equal. lia.
    + intros k d Hk. rewrite <- (H4 (S k) d Hk). do 2 f_equal.
      unfold u32, PIPESIZE. change (2 ^ 32) with 4294967296. dlia.
Qed.

(** ** Segments *)

(** User memory as a map, on the states of the environment in which it behaves:
    the process is not killed, [copyin] and [copyout] succeed on mapped bytes. *)
Class UserOk (S : Type) `{PipeEnv S} := {
  Ok : S -> Prop;
  umem : S -> gmap Z Z;
  ok_held : forall x e, Ok e -> Ok (set_held x e) /\ umem (set_held x e) = umem e;
  ok_killed : forall e, Ok e ->
    wp pkilled (fun k e' => k = 0 /\ Ok e' /\ held e' = held e /\ umem e' = umem e) e;
  ok_copyin : forall a e, Ok e ->
    wp (copyin1 a) (fun c e' => c = umem e !! a /\ Ok e' /\ held e' = held e /\ umem e' = umem e) e;
  ok_copyout : forall a c e, Ok e -> is_Some (umem e !! a) ->
    wp (copyout1 a c) (fun r e' => r = 0 /\ Ok e' /\ held e' = held e /\ umem e' = <[a := c]> (umem e)) e;
}.

(** [n] mapped bytes at [a]. *)
Fixpoint ubytes (m : gmap Z Z) (a : Z) (n : nat) : list Z :=
  match n with
  | O => []
  | S k => default 0 (m !! a) :: ubytes m (a + 1) k
  end.

Lemma ubytes_snoc m a n : ubytes m a (S n) = ubytes m a n ++ [default 0 (m !! (a + Z.of_nat n))].
Proof.
  revert a; induction n as [|n IH]; intros a; [cbn; by rewrite Z.add_0_r|].
  cbn [ubytes app]. f_equal. cbn [ubytes] in IH. rewrite IH. do 4 f_equal. lia.
Qed.

Lemma length_ubytes m a n : length (ubytes m a n) = n.
Proof. revert a; induction n; intros a; cbn; auto. Qed.

Lemma ubytes_insert m a n x c : a + Z.of_nat n <= x -> ubytes (<[x := c]> m) a n = ubytes m a n.
Proof.
  revert a; induction n as [|n IH]; intros a Hx; [done|]. cbn [ubytes].
  rewrite lookup_insert_ne by lia. rewrite IH by lia. done.
Qed.

Section fifo.
Context {S : Type} `{UserOk S}.
Implicit Types s : pipest S.

(** Between segments: nobody holds the pipe's lock. *)
Definition idle s (q : list Z) : Prop := Ok (penv s) /\ PIPE_LOCK ∉ held s /\ pipe_rep (pip s) q.

(** Inside a segment that started in [s0]. *)
Definition inside s0 s (q : list Z) : Prop :=
  Ok (penv s) /\ held s = {[PIPE_LOCK]} ∪ held s0 /\ pipe_rep (pip s) q /\
  readopen (pip s) = readopen (pip s0) /\ writeopen (pip s) = writeopen (pip s0).

Lemma enter_ok s q (Q : unit -> pipest S -> Prop) : idle s q ->
  (forall s', inside s s' q -> umem (penv s') = umem (penv s) -> pip s' = pip s -> Q tt s') -> wp (acquire PIPE_LOCK) Q s.
Proof.
  intros (H1 & H2 & H3) HQ. apply wp_acquire; [done|].
  destruct (ok_held ({[PIPE_LOCK]} ∪ held s) (penv s) H1) as [O1 O2].
  apply HQ; [split; [done|split; [apply held_set|done]]|done|done].
Qed.

Lemma leave_ok s0 s q (Q : unit -> pipest S -> Prop) : PIPE_LOCK ∉ held s0 -> inside s0 s q ->
  (forall s', idle s' q -> held s' = held s0 -> umem (penv s') = umem (penv s) -> pip s' = pip s -> Q tt s') ->
  wp (release PIPE_LOCK) Q s.
Proof.
  intros Hn (H1 & H2 & H3 & _) HQ. apply wp_release; [rewrite H2; set_solver|].
  destruct (ok_held (held s ∖ {[PIPE_LOCK]}) (penv s) H1) as [O1 O2].
  assert (held s ∖ {[PIPE_LOCK]} = held s0) as E by (rewrite H2; set_solver).
  apply HQ; [split; [done|split; [rewrite held_set; set_solver|done]]|by rewrite held_set|done|done].
Qed.

Lemma lift_ok {A} (m : M S A) s0 s q (P : A -> S -> Prop) (Q : A -> pipest S -> Prop) : inside s0 s q ->
  wp m (fun a e' => P a e' /\ Ok e' /\ held e' = held (penv s)) (penv s) ->
  (forall a s', inside s0 s' q -> P a (penv s') -> pip s' = pip s -> Q a s') -> wp (lift m) Q s.
Proof.
  intros (H1 & H2 & H3 & H4) Hm HQ. apply wp_zoom. eapply wp_mono; [exact Hm|]. cbn beta.
  intros a e' (HP & HO & Hh). apply HQ; [|done|done]. split; [done|]. split; [|done].
  cbn. rewrite Hh. exact H2.
Qed.

Lemma pipe_step_ok s0 s q q' f (Q : unit -> pipest S -> Prop) : inside s0 s q ->
  (pipe_rep (pip s) q -> pipe_rep (f (pip s)) q') ->
  readopen (f (pip s)) = readopen (pip s) -> writeopen (f (pip s)) = writeopen (pip s) ->
  (forall s', inside s0 s' q' -> penv s' = penv s -> pip s' = f (pip s) -> Q tt s') -> wp (upd_pipe f) Q s.
Proof.
  intros (H1 & H2 & H3 & H4 & H5) Hf E1 E2 HQ. apply wp_modify, HQ; [|done|done].
  split; [done|]. split; [done|]. split; [auto|]. cbn. by rewrite E1, E2.
Qed.

(** A writer's segment: it appends the next bytes of the user's buffer, and sleeps
    only when the pipe is full. *)
Lemma pipewrite_ok s q addr n i : idle s q -> 0 <= i -> readopen (pip s) <> 0 ->
  (forall a, addr <= a < addr + n -> is_Some (umem (penv s) !! a)) ->
  wp (pipewrite_from addr n i) (fun r s' => exists k,
    let bs := ubytes (umem (penv s)) (addr + i) k in
    idle s' (q ++ bs) /\ held s' = held s /\ umem (penv s') = umem (penv s) /\
    readopen (pip s') = readopen (pip s) /\ writeopen (pip s') = writeopen (pip s) /\
    (k = 0%nat \/ i + Z.of_nat k <= n) /\
    match r with
    | inl j => j = i + Z.of_nat k /\ Z.of_nat (length (q ++ bs)) = PIPESIZE
    | inr j => j = i + Z.of_nat k /\ n <= j
    end) s.
Proof.
  intros Hi Hi0 Hro Hu. unfold pipewrite_from. pose proof Hi as (_ & Hnl & _).
  apply wp_bind. apply (enter_ok _ _ _ Hi). intros s1 I1 U1 P1.
  apply wp_bind.
  apply (wp_loop _ (fun j s2 => exists k, j = i + Z.of_nat k /\ (k = 0%nat \/ j <= n) /\
      inside s s2 (q ++ ubytes (umem (penv s)) (addr + i) k) /\ umem (penv s2) = umem (penv s))
    (fun j _ => Z.to_nat (n - j))).
  - intros j s2 (k & -> & Hkn & I2 & U2). destruct (i + Z.of_nat k <? n) eqn:Ej; to_prop; cbn [negb].
    2:{ apply wp_ret. unfold wakeup. apply wp_bind, wp_ret, wp_bind.
        apply (leave_ok s _ _ _ Hnl I2). intros s3 I3 Hh U3 P3. apply wp_ret. exists k. cbn zeta.
        rewrite U3, U2, P3. destruct I2 as (_ & _ & _ & -> & ->). repeat split; try done; try apply I3. }
    apply wp_bind, wp_gets. assert (readopen (pip s2) = readopen (pip s)) as Er by apply I2.
    rewrite Er. apply Z.eqb_neq in Hro as Hro'. rewrite Hro'. apply wp_bind.
    apply (lift_ok _ s s2 _ (fun k e' => k = 0 /\ umem e' = umem (penv s2)) _ I2).
    { eapply wp_mono; [apply ok_killed, I2|]. cbn beta. tauto. }
    intros a s3 I3 (-> & U3) P3. cbn [negb Z.eqb].
    apply wp_bind, wp_gets. rewrite (pipe_full _ _ (proj1 (proj2 (proj2 I3)))).
    case_bool_decide as Hfull.
    + unfold wakeup. apply wp_bind, wp_ret, wp_bind. apply (leave_ok s _ _ _ Hnl I3). intros s4 I4 Hh U4 P4.
      apply wp_ret, wp_ret. exists k. cbn zeta. rewrite U4, U3, U2, P4. destruct I3 as (_ & _ & _ & -> & ->).
      repeat split; try done; try apply I4.
    + apply wp_bind. apply (lift_ok _ s s3 _ (fun c e' => c = umem (penv s3) !! (addr + (i + Z.of_nat k)) /\ umem e' = umem (penv s3)) _ I3).
      { eapply wp_mono; [apply ok_copyin, I3|]. cbn beta. tauto. }
      intros c s4 I4 (-> & U4) P4. rewrite U3, U2 in *.
      destruct (Hu (addr + (i + Z.of_nat k)) ltac:(lia)) as [ch Hch]. rewrite Hch.
      apply wp_bind. apply (pipe_step_ok s s4 _ (q ++ ubytes (umem (penv s)) (addr + i) (Datatypes.S k)) _ _ I4); [|done|done|].
      * intros R. rewrite ubytes_snoc, app_assoc. replace (addr + i + Z.of_nat k) with (addr + (i + Z.of_nat k)) by lia.
        rewrite Hch. apply push_byte_ok; [done|]. destruct R as [R _ _ _ _]. lia.
      * intros s5 I5 E5 _. apply wp_ret. split; [|lia]. exists (Datatypes.S k). split; [lia|]. split; [right; lia|]. split; [done|].
        by rewrite E5, U4.
  - exists 0%nat. cbn [ubytes]. rewrite app_nil_r. split; [lia|]. split; [by left|]. done.
  - lia.
Qed.

(** The copying loop of [piperead] hands out the front of the queue. *)
Lemma piperead_copy_ok s0 s q addr n : inside s0 s q -> 0 <= n ->
  (forall a, addr <= a < addr + n -> is_Some (umem (penv s) !! a)) ->
  wp (piperead_copy addr n) (fun j s' => let k := Nat.min (Z.to_nat n) (length q) in
    j = Z.of_nat k /\ inside s0 s' (drop k q) /\ ubytes (umem (penv s')) addr k = take k q /\
    forall a, ~ (addr <= a < addr + j) -> umem (penv s') !! a = umem (penv s) !! a) s.
Proof.
  intros I0 Hn Hu. unfold piperead_copy.
  apply (wp_loop _ (fun j s2 => exists k, j = Z.of_nat k /\ (k <= length q)%nat /\ j <= n /\
      inside s0 s2 (drop k q) /\ ubytes (umem (penv s2)) addr k = take k q /\
      forall a, ~ (addr <= a < addr + j) -> umem (penv s2) !! a = umem (penv s) !! a)
    (fun j _ => Z.to_nat (n - j))).
  - intros j s2 (k & -> & Hk & Hkn & I2 & B2 & F2).
    destruct (Z.of_nat k <? n) eqn:Ej; to_prop; cbn [negb].
    2:{ apply wp_ret. replace (Nat.min (Z.to_nat n) (length q)) with k by lia. done. }
    apply wp_bind, wp_gets. rewrite (pipe_empty _ _ (proj1 (proj2 (proj2 I2)))). case_bool_decide as He.
    { apply wp_ret. apply (f_equal length) in He. rewrite length_drop in He. cbn in He.
      replace (Nat.min (Z.to_nat n) (length q)) with k by lia. done. }
    destruct (drop k q) as [|c q'] eqn:Ed; [done|].
    assert (q !! k = Some c) as Hc by (rewrite <- (Nat.add_0_r k), <- lookup_drop, Ed; done).
    assert (drop (Datatypes.S k) q = q') as Ed' by (rewrite (drop_S _ _ _ Hc) in Ed; by injection Ed).
    apply lookup_lt_Some in Hc as Hlt.
    apply wp_bind. apply (pipe_step_ok s0 s2 _ q' _ _ I2); [intros R; by apply (pop_byte_ok _ c)|done|done|].
    intros s3 I3 E3 P3. apply wp_bind.
    assert (front_byte (pip s2) = c) as -> by (apply (pop_byte_ok _ c q'), I2).
    apply (lift_ok _ s0 s3 _ (fun r e' => r = 0 /\ umem e' = <[addr + Z.of_nat k := c]> (umem (penv s3))) _ I3).
    { eapply wp_mono; [apply ok_copyout; [apply I3|]|cbn beta; tauto]. rewrite E3.
      rewrite F2 by lia. apply Hu. lia. }
    intros r s4 I4 (-> & U4) P4. cbn [Z.eqb]. apply wp_ret. split; [|lia]. exists (Datatypes.S k).
    split; [lia|]. split; [lia|]. split; [lia|]. rewrite Ed'. split; [done|]. rewrite U4, E3. split.
    + rewrite ubytes_snoc, ubytes_insert by lia. rewrite B2, lookup_insert_eq. cbn. symmetry. by apply take_S_r.
    + intros a Ha. rewrite lookup_insert_ne by lia. apply F2. lia.
  - exists 0%nat. rewrite drop_0. split; [done|]. split; [lia|]. split; [lia|]. done.
  - lia.
Qed.

(** A reader's segment: it takes bytes from the front of the queue, and sleeps
    only when there is none and a writer remains. *)
Lemma piperead_ok s q addr n : idle s q -> 0 <= n ->
  (forall a, addr <= a < addr + n -> is_Some (umem (penv s) !! a)) ->
  wp (piperead addr n) (fun r s' => held s' = held s /\ readopen (pip s') = readopen (pip s) /\
    match r with
    | inl _ => q = [] /\ writeopen (pip s) <> 0 /\ idle s' q
    | inr j => let k := Nat.min (Z.to_nat n) (length q) in
        j = Z.of_nat k /\ idle s' (drop k q) /\ ubytes (umem (penv s')) addr k = take k q
    end) s.
Proof.
  intros Hi Hn Hu. unfold piperead. pose proof Hi as (_ & Hnl & _).
  apply wp_bind. apply (enter_ok _ _ _ Hi). intros s1 I1 U1 P1.
  apply wp_bind, wp_gets. rewrite (pipe_empty _ _ (proj1 (proj2 (proj2 I1)))), P1.
  destruct (bool_decide (q = []) && negb (writeopen (pip s) =? 0)) eqn:E; to_prop.
  - apply bool_decide_eq_true in H1. apply wp_bind.
    apply (lift_ok _ s s1 _ (fun k e' => k = 0) _ I1).
    { eapply wp_mono; [apply ok_killed, I1|]. cbn beta. tauto. }
    intros a s2 I2 -> P2. cbn [negb Z.eqb]. apply wp_bind, (leave_ok s _ _ _ Hnl I2).
    intros s3 I3 Hh _ P3. apply wp_ret. split; [done|]. rewrite P3. split; [apply I2|done].
  - apply wp_bind. eapply wp_mono; [apply (piperead_copy_ok s s1 q addr n I1 Hn)|].
    { intros a Ha. rewrite U1. by apply Hu. }
    cbn beta zeta. intros j s2 (-> & I2 & B2 & _). unfold wakeup. apply wp_bind, wp_ret, wp_bind.
    apply (leave_ok s _ _ _ Hnl I2). intros s3 I3 Hh U3 P3. apply wp_ret. split; [done|]. rewrite P3. split; [apply I2|].
    cbn zeta. by rewrite U3.
Qed.

(** ** Runs

    Segments of any number of readers and writers, one after the other: [w] are
    the bytes the writers' results report as written, in order, [r] those the
    readers found in their buffers. *)
Inductive run : list Z -> list Z -> pipest S -> Prop :=
| run_start s : idle s [] -> readopen (pip s) <> 0 -> run [] [] s
| run_write w r s addr n i k res s' : run w r s -> 0 <= i ->
    (forall a, addr <= a < addr + n -> is_Some (umem (penv s) !! a)) ->
    pipewrite_from addr n i s = Ret res s' ->
    res = inl (i + Z.of_nat k) \/ res = inr (i + Z.of_nat k) ->
    run (w ++ ubytes (umem (penv s)) (addr + i) k) r s'
| run_wait w r s addr n s' : run w r s -> 0 <= n ->
    (forall a, addr <= a < addr + n -> is_Some (umem (penv s) !! a)) ->
    piperead addr n s = Ret (inl tt) s' -> run w r s'
| run_read w r s addr n k s' : run w r s -> 0 <= n ->
    (forall a, addr <= a < addr + n -> is_Some (umem (penv s) !! a)) ->
    piperead addr n s = Ret (inr (Z.of_nat k)) s' ->
    run w (r ++ ubytes (umem (penv s')) addr k) s'.

Lemma run_queue w r s : run w r s -> exists q, w = r ++ q /\ idle s q /\ readopen (pip s) <> 0.
Proof.
  induction 1 as [s Hi Hr|w r s addr n i k res s' _ (q & -> & Hi & Hr) Hi0 Hu E Hres
    |w r s addr n s' _ (q & -> & Hi & Hr) Hn Hu E|w r s addr n k s' _ (q & -> & Hi & Hr) Hn Hu E].
  - by exists [].
  - pose proof (pipewrite_ok s q addr n i Hi Hi0 Hr Hu) as Hw. unfold wp in Hw. rewrite E in Hw.
    destruct Hw as (k' & Hq & _ & _ & Er & _ & _ & Hj). assert (k' = k) as ->.
    { destruct Hres as [-> | ->]; destruct Hj as [Hj _]; lia. }
    exists (q ++ ubytes (umem (penv s)) (addr + i) k). rewrite app_assoc, Er. done.
  - pose proof (piperead_ok s q addr n Hi Hn Hu) as Hw. unfold wp in Hw. rewrite E in Hw.
    destruct Hw as (_ & Er & _ & _ & Hi'). exists q. by rewrite Er.
  - pose proof (piperead_ok s q addr n Hi Hn Hu) as Hw. unfold wp in Hw. rewrite E in Hw.
    destruct Hw as (_ & Er & Hk & Hi' & Hb). apply Nat2Z.inj in Hk. rewrite <- Hk in *.
    exists (drop k q). rewrite Hb, <- app_assoc, take_drop, Er. done.
Qed.

(** C6: a pipe is a FIFO queue.  However the segments of readers and writers
    interleave, the bytes read are a prefix of the bytes written, and what is
    between them, at most PIPESIZE bytes, is in the ring.  The next segment of a
    writer or reader always finishes: the writer with its bytes appended or asleep
    on a full pipe, the reader with the oldest bytes or asleep on an empty one. *)
Theorem pipe_fifo w r s : run w r s -> exists q, w = r ++ q /\ Z.of_nat (length q) <= PIPESIZE /\ idle s q /\
  forall addr n, 0 <= n -> (forall a, addr <= a < addr + n -> is_Some (umem (penv s) !! a)) ->
    wp (pipewrite addr n) (fun res s' => exists k, idle s' (q ++ ubytes (umem (penv s)) addr k) /\
      match res with
      | inl j => j = Z.of_nat k /\ Z.of_nat (length q) + j = PIPESIZE
      | inr j => j = Z.of_nat k /\ j = n end) s /\
    wp (piperead addr n) (fun res s' => match res with
      | inl _ => q = [] /\ idle s' []
      | inr j => j = Z.min n (Z.of_nat (length q)) /\ idle s' (drop (Z.to_nat j) q) end) s.
Proof.
  intros (q & -> & Hi & Hr)%run_queue. exists q. split; [done|]. split; [apply Hi|]. split; [done|].
  intros addr n Hn Hu. split.
  - unfold pipewrite. eapply wp_mono; [apply (pipewrite_ok s q addr n 0 Hi ltac:(lia) Hr Hu)|]. cbn beta zeta.
    intros res s' (k & Hq & _ & _ & _ & _ & Hk & Hj). exists k. rewrite Z.add_0_r in *. split; [done|].
    destruct res as [j|j]; destruct Hj as [-> Hj]; (split; [lia|]); [|lia].
    rewrite length_app, length_ubytes in Hj. lia.
  - eapply wp_mono; [apply (piperead_ok s q addr n Hi Hn Hu)|]. cbn beta zeta.
    intros [?|j] s' (_ & _ & Hj); [destruct Hj as (-> & _ & Hj); done|]. destruct Hj as (-> & Hj & _).
    split; [lia|]. by rewrite Nat2Z.id.
Qed.
End fifo.

(** ** A concrete environment: one process whose memory is a map. *)
Record upipe := mkUp { up_held : gset Z; up_mem : gmap Z Z }.
#[export] #[refine] Instance upipe_locks : HasLocks upipe := {
  held := up_held; set_held := fun x s => mkUp x (up_mem s); curpid := fun _ => 1 }.
Proof. all: by intros; try destruct s. Defined.
#[export] Instance upipe_env : PipeEnv upipe := {
  pkilled := mret 0;
  copyin1 := fun a => gets (fun s => up_mem s !! a);
  copyout1 := fun a c s => match up_mem s !! a with
    | Some _ => Ret 0 (mkUp (up_held s) (<[a := c]> (up_mem s)))
    | None => Ret (-1) s end;
  kfree_pipe := mret tt;
}.
#[export] #[refine] Instance upipe_ok : UserOk upipe := { Ok := fun _ => True; umem := up_mem }.
Proof.
  - done.
  - done.
  - done.
  - intros a c e _ [x Hx]. unfold wp. cbn. by rewrite Hx.
Defined.

Definition pipe0 : pipe := mkPipe (replicate 512 0) (2 ^ 32 - 1) (2 ^ 32 - 1) 1 1.
Definition demo_pipe : pipest upipe := mkPi (mkUp ∅ (list_to_map [(10, 97); (11, 98); (12, 99); (20, 0); (21, 0)])) pipe0.

(** Three bytes in, two out, across the wrap-around of the counters. *)
Lemma pipe_fifo_witness : exists s q, [97; 98; 99] = [97; 98] ++ q /\ idle s q.
Proof.
  assert (idle demo_pipe []) as H0.
  { split; [done|]. split; [cbn; set_solver|]. split; try done; by cbn. }
  assert (exists s1, pipewrite_from 10 3 0 demo_pipe = Ret (inr 3) s1 /\
    exists s2, piperead 20 2 s1 = Ret (inr 2) s2 /\ ubytes (umem (penv s2)) 20 2 = [97; 98] /\
    umem (penv s1) = umem (penv demo_pipe)) as (s1 & E1 & s2 & E2 & B2 & U1).
  { eexists. split; [vm_compute; reflexivity|]. eexists. split; [vm_compute; reflexivity|]. split; vm_compute; reflexivity. }
  assert (run [97; 98; 99] [97; 98] s2) as Hr.
  { rewrite <- B2. change [97; 98; 99] with ([] ++ ubytes (umem (penv demo_pipe)) (10 + 0) 3).
    apply (run_read _ [] s1 20 2 2); [|lia| |exact E2].
    - eapply (run_write [] [] demo_pipe 10 3 0 3 _ s1); [by apply run_start|lia| |exact E1|by right].
      intros a Ha. assert (a = 10 \/ a = 11 \/ a = 12) as [-> | [-> | ->]] by lia; by eexists.
    - intros a Ha. rewrite U1. assert (a = 20 \/ a = 21) as [-> | ->] by lia; by eexists. }
  destruct (pipe_fifo _ _ _ Hr) as (q & Hq & _ & Hi & _). by exists s2, q.
Defined.
