(* ===== verification/Ring.v ===== *)
(** * Ring buffers

    A list of bytes in an array that is used as a ring, starting at a counter: what the console,
    the serial port and other bounded queues of the kernel keep between two counters. *)

From Stdlib Require Import ZArith Lia.
From stdpp Require Import base numbers list.
From S2P Require Import Prelude.

Definition ring_at (N : Z) (buf : list Z) (i : Z) : Z := nth (Z.to_nat (i mod N)) buf 0.
Definition ring_set (N : Z) (buf : list Z) (i c : Z) : list Z := <[Z.to_nat (i mod N) := c]> buf.

(** The ring holds [q] from counter [r] on. *)
Record ring (N : Z) (buf : list Z) (r : Z) (q : list Z) : Prop := {
  rg_size : length buf = Z.to_nat N;
  rg_len : Z.of_nat (length q) <= N;
  rg_get : forall k c, q !! k = Some c -> ring_at N buf (r + Z.of_nat k) = c;
}.

Section ring.
Context (N : Z) (HN : 0 < N).

Lemma ring_empty buf r : length buf = Z.to_nat N -> ring N buf r [].
Proof using HN. intros H. split; [done|cbn; lia|by intros]. Qed.

Lemma ring_same buf r r' q : ring N buf r q -> r' mod N = r mod N -> ring N buf r' q.
Proof using HN.
  intros [H1 H2 H3] E. split; try done. intros k c Hk. rewrite <- (H3 k c Hk). unfold ring_at. do 2 f_equal.
  rewrite Z.add_mod, E, <- Z.add_mod by lia. done.
Qed.

Lemma ring_push buf r q c : ring N buf r q -> Z.of_nat (length q) < N ->
  ring N (ring_set N buf (r + Z.of_nat (length q)) c) r (q ++ [c]).
Proof using HN.
  intros [H1 H2 H3] Hl. split.
  - unfold ring_set. by rewrite length_insert.
  - rewrite length_app. cbn. lia.
  - intros k d Hk. assert (forall i, 0 <= i mod N < N) as Hm by (intros; by apply Z.mod_pos_bound).
    pose proof (Hm (r + Z.of_nat (length q))). pose proof (Hm (r + Z.of_nat k)). unfold ring_at, ring_set. rewrite nth_lookup.
    destruct (decide (k = length q)) as [->|Hne].
    + rewrite list_lookup_insert_eq by lia. rewrite lookup_app_r, Nat.sub_diag in Hk by lia. cbn in *. congruence.
    + pose proof (lookup_lt_Some _ _ _ Hk) as Hlt. rewrite length_app in Hlt. cbn in Hlt. rewrite lookup_app_l in Hk by lia.
      rewrite list_lookup_insert_ne; [rewrite <- nth_lookup; by apply (H3 k d)|].
      intros E. apply Hne. assert ((r + Z.of_nat (length q)) mod N = (r + Z.of_nat k) mod N) as Em by lia.
      apply Nat2Z.inj. pose proof (Z.div_mod (r + Z.of_nat (length q)) N ltac:(lia)). pose proof (Z.div_mod (r + Z.of_nat k) N ltac:(lia)).
      set (x := (r + Z.of_nat (length q)) / N) in *. set (y := (r + Z.of_nat k) / N) in *.
      assert (Z.of_nat (length q) - Z.of_nat k = N * (x - y)) by lia. assert (x - y = 0) by nia. lia.
Qed.

Lemma ring_pop buf r c q : ring N buf r (c :: q) -> ring_at N buf r = c /\ ring N buf (r + 1) q.
Proof using HN.
  intros [H1 H2 H3]. cbn in H2. split; [rewrite <- (H3 0%nat c eq_refl); f_equal; lia|]. split; [done|lia|].
  intros k d Hk. rewrite <- (H3 (S k) d Hk). f_equal. lia.
Qed.

(** Dropping what was added last. *)
Lemma ring_cut buf r q1 q2 : ring N buf r (q1 ++ q2) -> ring N buf r q1.
Proof using HN.
  intros [H1 H2 H3]. rewrite length_app in H2. split; [done|lia|]. intros k c Hk. apply H3. by apply lookup_app_l_Some.
Qed.

Lemma ring_last buf r q c : ring N buf r (q ++ [c]) -> ring_at N buf (r + Z.of_nat (length q)) = c.
Proof using HN. intros [_ _ H3]. apply H3. rewrite lookup_app_r, Nat.sub_diag by lia. done. Qed.
End ring.

Lemma ring_at_mod N buf i j : i mod N = j mod N -> ring_at N buf i = ring_at N buf j.
Proof. unfold ring_at. by intros ->. Qed.
Lemma ring_set_mod N buf i j c : i mod N = j mod N -> ring_set N buf i c = ring_set N buf j c.
Proof. unfold ring_set. by intros ->. Qed.
