(* ===== verification/Uart.v ===== *)
(** * The serial port

    [kernel/uart.c] but for [uartintr], which is in [Console.v]: the transmit buffer of 32
    characters between two [uint64] counters.  The chip is a parameter: its registers are read
    and written through class [UartEnv]. *)

From Stdlib Require Import ZArith Lia.
From stdpp Require Import base numbers list gmap strings sets.
From S2P Require Import Prelude Riscv Spinlock Locks Ring.

Definition RHR : Z := 0.
Definition THR : Z := 0.
Definition IER : Z := 1.
Definition IER_RX_ENABLE : Z := Z.shiftl 1 0.
Definition IER_TX_ENABLE : Z := Z.shiftl 1 1.
Definition FCR : Z := 2.
Definition FCR_FIFO_ENABLE : Z := Z.shiftl 1 0.
Definition FCR_FIFO_CLEAR : Z := Z.shiftl 3 1.
Definition ISR : Z := 2.
Definition LCR : Z := 3.
Definition LCR_EIGHT_BITS : Z := Z.shiftl 3 0.
Definition LCR_BAUD_LATCH : Z := Z.shiftl 1 7.
Definition LSR : Z := 5.
Definition LSR_RX_READY : Z := Z.shiftl 1 0.
Definition LSR_TX_IDLE : Z := Z.shiftl 1 5.
Definition UART_TX_BUF_SIZE : Z := 32.
Definition UART_LOCK : Z := 800.
(** The channel [&uart_tx_r]. *)
Definition UART_CHAN : Z := 810.

(** The chip's registers and the interrupt nesting of the hart. *)
Class UartEnv (S : Type) := {
  ue_locks :: HasLocks S;
  ReadReg : Z -> M S Z;
  WriteReg : Z -> Z -> M S unit;
  push_off : M S unit;
  pop_off : M S unit;
  uwakeup : Z -> M S unit;          (* wakeup(chan) *)
}.

Record ust (S : Type) := mkUart { uenv : S; tx_buf : list Z; tx_w : Z; tx_r : Z; panicked : Z }.
Arguments mkUart {S} _ _ _ _ _.
Arguments uenv {S} _.
Arguments tx_buf {S} _.
Arguments tx_w {S} _.
Arguments tx_r {S} _.
Arguments panicked {S} _.

Section uart_c.
Context {S : Type} `{UartEnv S}.
Implicit Types s : ust S.

Definition set_uenv (x : S) s : ust S := mkUart x (tx_buf s) (tx_w s) (tx_r s) (panicked s).

#[export] #[refine] Instance ust_locks : HasLocks (ust S) := {
  held := fun s => held (uenv s);
  set_held := fun x s => set_uenv (set_held x (uenv s)) s;
  curpid := fun s => curpid (uenv s);
}.
Proof.
  - intros x s. apply held_set.
  - intros s. unfold set_uenv. rewrite set_held_held. by destruct s.
  - intros x y s. unfold set_uenv. cbn [uenv]. by rewrite set_held_set.
Defined.

Definition chip {A} (m : M S A) : M (ust S) A := zoom uenv set_uenv m.

Definition uartinit : M (ust S) unit :=
  chip (WriteReg IER 0x00);;
  chip (WriteReg LCR LCR_BAUD_LATCH);;
  chip (WriteReg 0 0x03);;
  chip (WriteReg 1 0x00);;
  chip (WriteReg LCR LCR_EIGHT_BITS);;
  chip (WriteReg FCR (Z.lor FCR_FIFO_ENABLE FCR_FIFO_CLEAR));;
  chip (WriteReg IER (Z.lor IER_TX_ENABLE IER_RX_ENABLE));;
  initlock UART_LOCK.

(** One turn of [uartstart]: whether to go on. *)
Definition uartstart_turn : M (ust S) bool :=
  s ← gets (fun s => s);
  if tx_w s =? tx_r s then chip (ReadReg ISR);; mret false else
  lsr ← chip (ReadReg LSR);
  if negb (tst lsr LSR_TX_IDLE) then mret false else
  c ← gets (fun s => ring_at UART_TX_BUF_SIZE (tx_buf s) (tx_r s));
  modify (fun s => mkUart (uenv s) (tx_buf s) (tx_w s) (u64 (tx_r s + 1)) (panicked s));;
  chip (uwakeup UART_CHAN);;
  chip (WriteReg THR c);;
  mret true.

(** At most all characters of the buffer are sent. *)
Definition uartstart : M (ust S) unit :=
  loop (Z.to_nat UART_TX_BUF_SIZE + 1) (fun _ : unit =>
    more ← uartstart_turn;
    mret (if (more : bool) then inl tt else inr tt)) tt.

(** From the call, or from waking up in [sleep] with the lock held, to the return or the next
    [sleep]. *)
Definition uartputc_turn (c : Z) : M (ust S) unit :=
  s ← gets (fun s => s);
  if tx_w s =? u64 (tx_r s + UART_TX_BUF_SIZE) then sleep UART_CHAN else
  modify (fun s => mkUart (uenv s) (ring_set UART_TX_BUF_SIZE (tx_buf s) (tx_w s) (u8 c)) (u64 (tx_w s + 1)) (tx_r s) (panicked s));;
  uartstart;;
  release UART_LOCK.

(** A hart spins when the kernel has panicked. *)
Definition uartputc (c : Z) : M (ust S) unit :=
  acquire UART_LOCK;;
  p ← gets panicked;
  if negb (p =? 0) then block else
  uartputc_turn c.

(** [fuel] bounds the turns of the wait for the chip. *)
Definition uartputc_sync (fuel : nat) (c : Z) : M (ust S) unit :=
  chip push_off;;
  p ← gets panicked;
  if negb (p =? 0) then block else
  loop fuel (fun _ : unit =>
    lsr ← chip (ReadReg LSR);
    mret (if tst lsr LSR_TX_IDLE then inr tt else inl tt)) tt;;
  chip (WriteReg THR (u8 c));;
  chip pop_off.

Definition uartgetc : M (ust S) Z :=
  lsr ← chip (ReadReg LSR);
  if tst lsr 0x01 then chip (ReadReg RHR) else mret (-1).
End uart_c.
