(* ===== verification/Console.v ===== *)
(** * The console

    [kernel/console.c] and [uartintr] of [uart.c]: line editing on a buffer of 128 characters
    with three [uint] counters, reading whole lines, echo.  [consoleread] is a segment, from the
    call or from waking up to the return ([inr]) or the next [sleep] ([inl]). *)

From Stdlib Require Import ZArith Lia.
From stdpp Require Import base numbers list gmap strings sets.
From S2P Require Import Prelude Riscv Spinlock Locks Ring Uart.

Definition BACKSPACE : Z := 0x100.
(** [C(x)] *)
Definition ctrl (x : Z) : Z := x - 64.
Definition INPUT_BUF_SIZE : Z := 128.
Definition CONS_LOCK : Z := 801.
(** The channel [&cons.r]. *)
Definition CONS_CHAN : Z := 811.
(** The index of the console in [devsw]. *)
Definition CONSOLE : Z := 1.
Definition NL : Z := 10.
Definition CR : Z := 13.
Definition DEL : Z := 0x7f.
Definition CTRL_D : Z := ctrl 68.
Definition CTRL_H : Z := ctrl 72.
Definition CTRL_P : Z := ctrl 80.
Definition CTRL_U : Z := ctrl 85.

(** [cons] without its lock. *)
Record cons := mkCons { cbuf : list Z; c_r : Z; c_w : Z; c_e : Z }.

Class ConsEnv (S : Type) `{UartEnv S} := {
  copyin_char : bool -> Z -> M S (option Z);       (* either_copyin(&c, user_src, src, 1) *)
  copyout_char : bool -> Z -> Z -> M S Z;          (* either_copyout(user_dst, dst, &c, 1) *)
  ckilled : M S Z;
  procdump : M S unit;
  set_devsw : Z -> M S unit;                       (* devsw[i] = the two functions below *)
}.

Record cst (S : Type) := mkC { cu : ust S; con : cons }.
Arguments mkC {S} _ _.
Arguments cu {S} _.
Arguments con {S} _.

Section console_c.
Context {S : Type} `{ConsEnv S} (fuel : nat).
Implicit Types s : cst S.

Definition set_cu (x : ust S) s : cst S := mkC x (con s).

#[export] #[refine] Instance cst_locks : HasLocks (cst S) := {
  held := fun s => held (cu s);
  set_held := fun x s => set_cu (set_held x (cu s)) s;
  curpid := fun s => curpid (cu s);
}.
Proof.
  - intros x s. apply held_set.
  - intros s. unfold set_cu. rewrite set_held_held. by destruct s.
  - intros x y s. unfold set_cu. cbn [cu]. by rewrite set_held_set.
Defined.

Definition onuart {A} (m : M (ust S) A) : M (cst S) A := zoom cu set_cu m.
Definition updcon (f : cons -> cons) : M (cst S) unit := modify (fun s => mkC (cu s) (f (con s))).
Definition getcon {A} (f : cons -> A) : M (cst S) A := gets (fun s => f (con s)).

Definition set_r v c := mkCons (cbuf c) v (c_w c) (c_e c).
Definition set_w v c := mkCons (cbuf c) (c_r c) v (c_e c).
Definition set_e v c := mkCons (cbuf c) (c_r c) (c_w c) v.
Definition put_e ch c := mkCons (ring_set INPUT_BUF_SIZE (cbuf c) (c_e c) (u8 ch)) (c_r c) (c_w c) (u32 (c_e c + 1)).

Definition consputc (c : Z) : M (cst S) unit :=
  if c =? BACKSPACE then
    onuart (uartputc_sync fuel 8);; onuart (uartputc_sync fuel 32);; onuart (uartputc_sync fuel 8)
  else onuart (uartputc_sync fuel c).

(** [uartputc] may sleep: the rest of the write goes on afterwards. *)
Definition consolewrite (user_src : bool) (src n : Z) : M (cst S) Z :=
  loop (Z.to_nat n + 1) (fun i =>
    if negb (i <? n) then mret (inr i) else
    o ← onuart (chip (copyin_char user_src (u64 (src + i))));
    match o with
    | None => mret (inr i)
    | Some c => onuart (uartputc c);; mret (inl (i + 1))
    end) 0.

(** The loop of [consoleread], entered with the lock held: [n] bytes are missing of
    [target]. *)
Definition consoleread_from (user_dst : bool) (target n dst : Z) : M (cst S) ((Z * Z) + Z) :=
  loop (Z.to_nat n + 1) (fun '(n, dst) =>
    if negb (0 <? n) then release CONS_LOCK;; mret (inr (inr (i32 (target - n)))) else
    k ← getcon (fun c => c);
    if c_r k =? c_w k then
      d ← onuart (chip ckilled);
      if negb (d =? 0) then release CONS_LOCK;; mret (inr (inr (-1)))
      else release CONS_LOCK;; mret (inr (inl (n, dst)))
    else
    let c := ring_at INPUT_BUF_SIZE (cbuf k) (c_r k) in
    updcon (fun k => set_r (u32 (c_r k + 1)) k);;
    if c =? CTRL_D then
      mwhen (n <? u32 target) (updcon (fun k => set_r (u32 (c_r k - 1)) k));;
      release CONS_LOCK;; mret (inr (inr (i32 (target - n))))
    else
    r ← onuart (chip (copyout_char user_dst dst (u8 c)));
    if r =? -1 then release CONS_LOCK;; mret (inr (inr (i32 (target - n)))) else
    let n := n - 1 in
    if c =? NL then release CONS_LOCK;; mret (inr (inr (i32 (target - n))))
    else mret (inl (n, u64 (dst + 1)))) (n, dst).

Definition consoleread (user_dst : bool) (dst n : Z) : M (cst S) ((Z * Z) + Z) :=
  acquire CONS_LOCK;;
  consoleread_from user_dst n n dst.

(** The loop of control-U; the buffer bounds its turns. *)
Definition kill_line : M (cst S) unit :=
  loop (Z.to_nat INPUT_BUF_SIZE + 1) (fun _ : unit =>
    k ← getcon (fun c => c);
    if (c_e k =? c_w k) || (ring_at INPUT_BUF_SIZE (cbuf k) (u32 (c_e k - 1)) =? NL) then mret (inr tt) else
    updcon (fun k => set_e (u32 (c_e k - 1)) k);;
    consputc BACKSPACE;;
    mret (inl tt)) tt.

Definition consoleintr (c : Z) : M (cst S) unit :=
  acquire CONS_LOCK;;
  (if c =? CTRL_P then onuart (chip procdump)
   else if c =? CTRL_U then kill_line
   else if (c =? CTRL_H) || (c =? DEL) then
     k ← getcon (fun c => c);
     mwhen (negb (c_e k =? c_w k)) (updcon (fun k => set_e (u32 (c_e k - 1)) k);; consputc BACKSPACE)
   else
     k ← getcon (fun c => c);
     mwhen (negb (c =? 0) && (u32 (c_e k - c_r k) <? INPUT_BUF_SIZE)) (
       let c := if c =? CR then NL else c in
       consputc c;;
       updcon (put_e c);;
       k ← getcon (fun c => c);
       mwhen ((c =? NL) || (c =? CTRL_D) || (u32 (c_e k - c_r k) =? INPUT_BUF_SIZE))
         (updcon (fun k => set_w (c_e k) k);; onuart (chip (uwakeup CONS_CHAN)))));;
  release CONS_LOCK.

(** [nin] bounds the characters taken from the chip. *)
Definition uartintr (nin : nat) : M (cst S) unit :=
  loop nin (fun _ : unit =>
    c ← onuart uartgetc;
    if c =? -1 then mret (inr tt) else
    consoleintr c;; mret (inl tt)) tt;;
  acquire UART_LOCK;;
  onuart uartstart;;
  release UART_LOCK.

Definition consoleinit : M (cst S) unit :=
  initlock CONS_LOCK;;
  onuart uartinit;;
  onuart (chip (set_devsw CONSOLE)).
End console_c.
