(* ===== verification/ConsoleSpec.v ===== *)
(** * Line editing and output queues

    The console of [Console.v] as its users see it: finished lines and the line being edited are
    two lists of characters, and the transmit buffer of [Uart.v] is a queue. *)

From Stdlib Require Import ZArith Lia.
From stdpp Require Import base numbers list gmap strings sets.
From S2P Require Import Prelude Riscv Spinlock Locks Ring Uart Console.

(** What the drivers rely on in the chip: what it has sent, and that it becomes ready for the
    next character after at most [B] looks at its status. *)
Class UartOk (S : Type) `{UartEnv S} (B : nat) := {
  up : S -> Prop;
  sent : S -> list Z;
  ready : S -> Prop;
  busy : S -> nat;
  u_busy : forall e, up e -> (busy e <= B)%nat;
  u_held : forall x e, up e -> up (set_held x e) /\ sent (set_held x e) = sent e;
  u_lsr : forall e, up e -> wp (ReadReg LSR) (fun v e' => up e' /\ held e' = held e /\ sent e' = sent e /\
    if tst v LSR_TX_IDLE then ready e' else (busy e' < busy e)%nat) e;
  u_isr : forall e, up e -> wp (ReadReg ISR) (fun _ e' => up e' /\ held e' = held e /\ sent e' = sent e) e;
  u_thr : forall c e, up e -> ready e -> wp (WriteReg THR c) (fun _ e' => up e' /\ held e' = held e /\ sent e' = sent e ++ [c]) e;
  u_push : forall e, up e -> wp push_off (fun _ e' => up e' /\ held e' = held e /\ sent e' = sent e) e;
  u_wakeup : forall ch e, up e -> wp (uwakeup ch) (fun _ e' => up e' /\ held e' = held e /\ sent e' = sent e /\ (ready e -> ready e')) e;
  u_pop : forall e, up e -> wp pop_off (fun _ e' => up e' /\ held e' = held e /\ sent e' = sent e) e;
}.

Section uart.
Context {S : Type} `{UO : UartOk S B}.
Implicit Types s : ust S.

Definition tx_state s := (tx_buf s, tx_w s, tx_r s, panicked s).

Lemma wp_chip {A} (m : M S A) s (P : A -> S -> Prop) (Q : A -> ust S -> Prop) : wp m P (uenv s) ->
  (forall a s', P a (uenv s') -> tx_state s' = tx_state s -> Q a s') -> wp (chip m) Q s.
Proof. intros Hm HQ. apply wp_zoom. eapply wp_mono; [exact Hm|]. cbn beta. intros a e He. by apply HQ. Qed.

(** The buffer holds [q]; the counters wrap around at 2^64. *)
Record tx_rep s (q : list Z) : Prop := {
  tr_ring : ring UART_TX_BUF_SIZE (tx_buf s) (tx_r s) q;
  tr_r : 0 <= tx_r s < 2 ^ 64;
  tr_w : tx_w s = u64 (tx_r s + Z.of_nat (length q));
}.

Lemma tx_rep_same s s' q : tx_rep s q -> tx_state s' = tx_state s -> tx_rep s' q.
Proof. intros [H1 H2 H3] E. injection E as E1 E2 E3 _. split; by rewrite ?E1, ?E2, ?E3. Qed.

Lemma u64_mod32 x : u64 x mod UART_TX_BUF_SIZE = x mod UART_TX_BUF_SIZE.
Proof. unfold u64, UART_TX_BUF_SIZE. dlia. Qed.

Lemma tx_counts s q : tx_rep s q ->
  (tx_w s =? tx_r s) = bool_decide (q = []) /\
  (tx_w s =? u64 (tx_r s + UART_TX_BUF_SIZE)) = bool_decide (Z.of_nat (length q) = UART_TX_BUF_SIZE).
Proof.
  intros [H1 H2 H3]. pose proof (rg_len _ _ _ _ H1) as Hl. rewrite H3. unfold u64, UART_TX_BUF_SIZE in *. split.
  - destruct q; [rewrite bool_decide_true by done|rewrite bool_decide_false by done]; cbn [length] in *; [apply Z.eqb_eq|apply Z.eqb_neq]; dlia.
  - case_bool_decide; [apply Z.eqb_eq|apply Z.eqb_neq]; dlia.
Qed.

(** One character leaves the buffer, or the loop ends. *)
Lemma uartstart_turn_ok s q : up (uenv s) -> tx_rep s q ->
  wp uartstart_turn (fun more s' => up (uenv s') /\ held s' = held s /\ panicked s' = panicked s /\
    exists q', tx_rep s' q' /\ sent (uenv s') ++ q' = sent (uenv s) ++ q /\ (more = true -> length q = Datatypes.S (length q'))) s.
Proof.
  intros U T. destruct (tx_counts s q T) as [Ee _]. unfold uartstart_turn. apply wp_bind, wp_gets. rewrite Ee. case_bool_decide as Eq.
  - apply wp_bind, (wp_chip _ _ _ _ (u_isr _ U)). intros _ s1 (U1 & H1 & S1) E. pose proof (tx_rep_same _ _ _ T E) as T1. apply wp_ret. split; [done|]. split; [done|]. injection E as _ _ _ E4.
    split; [done|]. exists q. split; [done|]. split; [by rewrite S1|done].
  - apply wp_bind, (wp_chip _ _ _ _ (u_lsr _ U)). intros v s1 (U1 & H1 & S1 & Hv) E. destruct (tst v LSR_TX_IDLE); cbn [negb].
    + pose proof (tx_rep_same _ _ _ T E) as T1. destruct q as [|c q]; [done|]. destruct T1 as [R1 R2 R3].
      destruct (ring_pop UART_TX_BUF_SIZE eq_refl _ _ _ _ R1) as [Ec R1']. apply wp_bind, wp_gets. rewrite Ec. apply wp_bind, wp_modify, wp_bind.
      eapply wp_chip; [exact (u_wakeup UART_CHAN (uenv s1) U1)|]. intros _ s1' (U1' & H1' & S1' & Hv') E2'. apply wp_bind.
      eapply wp_chip; [exact (u_thr c (uenv s1') U1' (Hv' Hv))|]. intros _ s2 (U2 & H2 & S2) E2. apply wp_ret. injection E as E1 E3 E4 E5.
      rewrite E2' in E2. clear E2'. assert (held s1' = held s1) as H1'' by exact H1'. injection E2 as F1 F2 F3 F4.
      split; [done|]. split; [exact (eq_trans H2 (eq_trans H1'' H1))|]. split; [congruence|]. exists q. split; [|split; [by rewrite S2, S1', S1, <- app_assoc|done]].
      split; rewrite ?F1, ?F2, ?F3.
      * apply (ring_same UART_TX_BUF_SIZE eq_refl _ (tx_r s1 + 1)); [done|apply u64_mod32].
      * unfold u64. by apply Z.mod_pos_bound.
      * rewrite R3. unfold u64. cbn [length]. rewrite Zplus_mod_idemp_l. f_equal. lia.
    + pose proof (tx_rep_same _ _ _ T E) as T1. apply wp_ret. split; [done|]. split; [done|]. injection E as E1 E2 E3 E4. split; [done|]. exists q.
      split; [done|]. split; [by rewrite S1|done].
Qed.

Lemma uartstart_ok s q : up (uenv s) -> tx_rep s q ->
  wp uartstart (fun _ s' => up (uenv s') /\ held s' = held s /\ panicked s' = panicked s /\
    exists q', tx_rep s' q' /\ sent (uenv s') ++ q' = sent (uenv s) ++ q) s.
Proof.
  intros U T. pose proof (rg_len _ _ _ _ (tr_ring _ _ T)) as Hl.
  set (I := fun s' q' => up (uenv s') /\ held s' = held s /\ panicked s' = panicked s /\ tx_rep s' q' /\ sent (uenv s') ++ q' = sent (uenv s) ++ q).
  cut (forall fuel s' q', I s' q' -> (length q' < fuel)%nat ->
    wp (loop fuel (fun _ : unit => more ← uartstart_turn; mret (if (more : bool) then inl tt else inr tt)) tt) (fun _ s2 => exists q2, I s2 q2) s').
  { intros Hc. eapply wp_mono; [apply (Hc _ s q); [by split|unfold UART_TX_BUF_SIZE in *; lia]|]. cbn beta. intros _ s2 (q2 & ? & ? & ? & ? & ?). split_and!; eauto. }
  induction fuel as [|fuel IH]; intros s1 q1 (U1 & H1 & P1 & T1 & S1) Hlt; [lia|]. cbn [loop]. apply wp_bind, wp_bind.
  eapply wp_mono; [by apply uartstart_turn_ok|]. cbn beta. intros [] s2 (U2 & H2 & P2 & q2 & T2 & S2 & Hm); apply wp_ret.
  - apply (IH s2 q2); [|specialize (Hm eq_refl); lia]. split_and!; congruence || done.
  - apply wp_ret. exists q2. split_and!; congruence || done.
Qed.

(** C27: serial output is a queue.  With the chip working, a character given to [uartputc] goes
    behind those waiting in the buffer, [uartstart] passes on characters from its front, and
    none is lost, repeated or reordered: what the chip has sent followed by what is still
    buffered is what it was before followed by the new character.  With the buffer full,
    [uartputc] sleeps and leaves everything as it is. *)
Theorem uart_tx_fifo s q c : up (uenv s) -> tx_rep s q -> UART_LOCK ∉ held s -> panicked s = 0 ->
  if decide (Z.of_nat (length q) = UART_TX_BUF_SIZE)
  then exists s', uartputc c s = Block s' /\ tx_rep s' q /\ sent (uenv s') = sent (uenv s)
  else wp (uartputc c) (fun _ s' => held s' = held s /\ exists q', tx_rep s' q' /\ sent (uenv s') ++ q' = sent (uenv s) ++ q ++ [u8 c]) s.
Proof using UO.
  intros U T Hl Hp. set (s1 := set_held ({[UART_LOCK]} ∪ held s) s).
  destruct (u_held ({[UART_LOCK]} ∪ held s) (uenv s) U) as [U1 S1]. assert (tx_rep s1 q) as T1 by by apply (tx_rep_same s).
  destruct (tx_counts s1 q T1) as [_ Ef]. case_decide as Hq.
  - rewrite bool_decide_true in Ef by done. exists s1. split; [|by split].
    assert (wp (acquire UART_LOCK) (fun _ x => x = s1) s) as Ha by by apply wp_acquire. apply wp_exists in Ha as (u & x & Ea & ->).
    unfold uartputc. rewrite (bind_Ret _ _ _ _ _ Ea). rewrite (bind_Ret (gets panicked) _ _ (panicked s1) s1 eq_refl).
    change (panicked s1) with (panicked s). rewrite Hp. cbn [Z.eqb negb]. unfold uartputc_turn.
    rewrite (bind_Ret (gets (fun s => s)) _ s1 s1 s1 eq_refl). by rewrite Ef.
  - rewrite bool_decide_false in Ef by done. unfold uartputc. apply wp_bind, wp_acquire; [done|]. apply wp_bind, wp_gets. fold s1.
    change (panicked s1) with (panicked s). rewrite Hp. cbn [Z.eqb negb]. unfold uartputc_turn. apply wp_bind, wp_gets. rewrite Ef.
    assert (up (uenv s1) /\ sent (uenv s1) = sent (uenv s) /\ held s1 = {[UART_LOCK]} ∪ held s) as (U1' & S1' & Hh1) by (split_and!; [done|done|apply held_set]).
    clearbody s1. apply wp_bind, wp_modify. destruct T1 as [R1 R2 R3]. pose proof (rg_len _ _ _ _ R1) as Hlen.
    set (s2 := mkUart _ _ _ _ _). assert (tx_rep s2 (q ++ [u8 c])) as T2.
    { split; cbn.
      - rewrite R3, (ring_set_mod _ _ (u64 (tx_r s1 + Z.of_nat (length q))) (tx_r s1 + Z.of_nat (length q))) by apply u64_mod32. apply ring_push; [done|done|lia].
      - done.
      - rewrite R3, length_app. unfold u64. cbn [length]. rewrite Zplus_mod_idemp_l. f_equal. lia. }
    apply wp_bind. eapply wp_mono; [apply (uartstart_ok s2 _ U1' T2)|]. cbn beta. intros _ s3 (U3 & H3 & P3 & q3 & T3 & S3).
    assert (held s3 = {[UART_LOCK]} ∪ held s) as Hh by (rewrite H3; exact Hh1).
    apply wp_release; [rewrite Hh; set_solver|]. rewrite Hh, held_acq_rel by done. cbn. split; [apply held_set|]. exists q3. split; [by apply (tx_rep_same s3)|].
    destruct (u_held (held (uenv s)) (uenv s3) U3) as [_ ->]. rewrite S3. cbn. by rewrite S1'.
Qed.
End uart.

(** ** Line editing *)

(** What a key does to the finished lines [q] and the line being edited [l], and what is
    sent to the screen: the echo, or the process list [dump] for control-P. *)
Definition rubout : list Z := [8; 32; 8].
Definition key (dump : list Z) (c : Z) (q l : list Z) : list Z * list Z * list Z :=
  if c =? CTRL_P then (q, l, dump)
  else if c =? CTRL_U then (q, [], concat (replicate (length l) rubout))
  else if (c =? CTRL_H) || (c =? DEL) then
    match l with [] => (q, [], []) | _ => (q, removelast l, rubout) end
  else if negb (c =? 0) && (Z.of_nat (length q + length l) <? INPUT_BUF_SIZE) then
    let c := if c =? CR then NL else c in
    if (c =? NL) || (c =? CTRL_D) || (Z.of_nat (length q + length l) + 1 =? INPUT_BUF_SIZE)
    then (q ++ l ++ [c], [], [c]) else (q, l ++ [c], [c])
  else (q, l, []).

(** The buffer of [cons] holds [q] between [r] and [w] and [l] between [w] and [e]; the
    counters wrap around at 2^32. *)
Record cons_rep (k : cons) (q l : list Z) : Prop := {
  cr_ring : ring INPUT_BUF_SIZE (cbuf k) (c_r k) (q ++ l);
  cr_r : 0 <= c_r k < 2 ^ 32;
  cr_w : c_w k = u32 (c_r k + Z.of_nat (length q));
  cr_e : c_e k = u32 (c_r k + Z.of_nat (length q + length l));
  cr_line : Forall (fun c => c <> NL) l;
}.

Lemma u32_mod128 x : u32 x mod INPUT_BUF_SIZE = x mod INPUT_BUF_SIZE.
Proof. unfold u32, INPUT_BUF_SIZE. dlia. Qed.

Lemma cons_len k q l : cons_rep k q l -> 0 <= Z.of_nat (length q + length l) <= 128.
Proof. intros [H _ _ _ _]. pose proof (rg_len _ _ _ _ H) as Hl. rewrite length_app in Hl. unfold INPUT_BUF_SIZE in Hl. lia. Qed.

(** The tests of the code. *)
Lemma cons_counts k q l : cons_rep k q l ->
  (c_e k =? c_w k) = bool_decide (l = []) /\ (c_r k =? c_w k) = bool_decide (q = []) /\
  u32 (c_e k - c_r k) = Z.of_nat (length q + length l).
Proof.
  intros R. pose proof (cons_len _ _ _ R) as Hl. destruct R as [_ H2 H3 H4 _]. rewrite H3, H4. unfold u32. split; [|split].
  - destruct l; [rewrite bool_decide_true by done|rewrite bool_decide_false by done]; cbn [length] in *; [apply Z.eqb_eq|apply Z.eqb_neq]; dlia.
  - destruct q; [rewrite bool_decide_true by done|rewrite bool_decide_false by done]; cbn [length] in *; [apply Z.eqb_eq|apply Z.eqb_neq]; dlia.
  - dlia.
Qed.

Lemma cons_erase k q l c : cons_rep k q (l ++ [c]) ->
  ring_at INPUT_BUF_SIZE (cbuf k) (u32 (c_e k - 1)) = c /\ cons_rep (set_e (u32 (c_e k - 1)) k) q l.
Proof.
  intros R. pose proof (cons_len _ _ _ R) as Hl. destruct R as [H1 H2 H3 H4 H5]. rewrite app_assoc in H1.
  rewrite length_app in *. cbn [length] in *. split.
  - rewrite <- (ring_last INPUT_BUF_SIZE eq_refl _ _ _ _ H1). apply ring_at_mod. rewrite u32_mod128, H4, length_app. unfold u32, INPUT_BUF_SIZE. dlia.
  - split; cbn; try done.
    + by apply (ring_cut INPUT_BUF_SIZE eq_refl _ _ _ [c]).
    + rewrite H4. unfold u32. rewrite Zminus_mod_idemp_l. f_equal. lia.
    + by apply Forall_app in H5 as [? _].
Qed.

Lemma cons_put k q l c : cons_rep k q l -> Z.of_nat (length q + length l) < INPUT_BUF_SIZE -> 0 <= c < 256 ->
  ring INPUT_BUF_SIZE (cbuf (put_e c k)) (c_r k) (q ++ l ++ [c]) /\ c_e (put_e c k) = u32 (c_r k + Z.of_nat (length q + length l) + 1).
Proof.
  intros [H1 H2 H3 H4 H5] Hl Hc. cbn. unfold u8. rewrite Z.mod_small by lia. split.
  - rewrite (ring_set_mod _ _ (c_e k) (c_r k + Z.of_nat (length (q ++ l)))) by (rewrite H4, u32_mod128, length_app; done).
    rewrite app_assoc. apply ring_push; [done|done|]. by rewrite length_app.
  - rewrite H4. unfold u32. rewrite Zplus_mod_idemp_l. done.
Qed.

(** Everything of a console's state but the counters. *)
Class ConsOk (S : Type) `{UO : UartOk S B} `{!ConsEnv S} := {
  umem : S -> gmap Z Z;
  k_held : forall x e, umem (set_held x e) = umem e;
  k_copyout : forall u a c e, up e -> is_Some (umem e !! a) ->
    wp (copyout_char u a c) (fun r e' => r = 0 /\ up e' /\ held e' = held e /\ umem e' = <[a := c]> (umem e)) e;
  k_killed : forall e, up e -> wp ckilled (fun _ e' => up e' /\ held e' = held e /\ umem e' = umem e) e;
  k_dump : forall e, up e -> wp procdump (fun _ e' => up e' /\ held e' = held e /\ exists dump, sent e' = sent e ++ dump) e;
}.

(** ** Reading lines

    The bytes a read of [n] takes from the finished lines [q], what is left of them, and whether
    the read is done: after [n] bytes, after a newline, or at a control-D, which is left for the
    next read if this one already has bytes ([got]). *)
Fixpoint read_line (got : bool) (n : nat) (q : list Z) : list Z * list Z * bool :=
  match n, q with
  | O, _ => ([], q, true)
  | _, [] => ([], [], false)
  | S n, c :: q' =>
      if c =? CTRL_D then ([], if got then q else q', true)
      else if c =? NL then ([c], q', true)
      else let '(d, r, fin) := read_line true n q' in (c :: d, r, fin)
  end.

Fixpoint put_umem (m : gmap Z Z) (a : Z) (d : list Z) : gmap Z Z :=
  match d with
  | [] => m
  | c :: d => put_umem (<[a := c]> m) (a + 1) d
  end.

Lemma cons_pop k c q l : cons_rep k (c :: q) l ->
  ring_at INPUT_BUF_SIZE (cbuf k) (c_r k) = c /\ cons_rep (set_r (u32 (c_r k + 1)) k) q l.
Proof.
  intros R. pose proof (cons_len _ _ _ R) as Hl. destruct R as [H1 H2 H3 H4 H5]. destruct (ring_pop INPUT_BUF_SIZE eq_refl _ _ _ _ H1) as [Ec R1].
  split; [done|]. cbn [length] in *. split; cbn [set_r cbuf c_r c_w c_e]; try done.
  - apply (ring_same INPUT_BUF_SIZE eq_refl _ (c_r k + 1)); [done|]. apply u32_mod128.
  - unfold u32. by apply Z.mod_pos_bound.
  - rewrite H3. unfold u32. rewrite Zplus_mod_idemp_l. f_equal. lia.
  - rewrite H4. unfold u32. rewrite Zplus_mod_idemp_l. f_equal. lia.
Qed.

Section console.
Context {S : Type} `{CO : ConsOk S} (fuel : nat) (Hfuel : (B < fuel)%nat).
Implicit Types s : cst S.

Definition cenv s : S := uenv (cu s).
(** The console's output has worked up to here: [s] differs from [s0] by [out] on the line. *)
Record echoed s0 s (out : list Z) : Prop := {
  ec_up : up (cenv s);
  ec_held : held s = held s0;
  ec_ok : panicked (cu s) = 0;
  ec_sent : sent (cenv s) = sent (cenv s0) ++ out;
}.

Lemma echoed_trans s0 s1 s2 o1 o2 : echoed s0 s1 o1 -> echoed s1 s2 o2 -> echoed s0 s2 (o1 ++ o2).
Proof. intros [A1 A2 A3 A4] [B1 B2 B3 B4]. split; [done|congruence|done|]. by rewrite B4, A4, app_assoc. Qed.

Lemma putc_sync_ok c s : up (cenv s) -> panicked (cu s) = 0 -> 0 <= c < 256 ->
  wp (onuart (uartputc_sync fuel c)) (fun _ s' => echoed s s' [c] /\ con s' = con s) s.
Proof using CO Hfuel.
  intros U Hp Hc. apply wp_zoom. unfold uartputc_sync. apply wp_bind. eapply wp_chip; [by apply u_push|]. intros _ s1 (U1 & H1 & S1) E1.
  assert (panicked s1 = 0) as P1 by (injection E1; intros; congruence). apply wp_bind, wp_gets. rewrite P1. cbn [Z.eqb negb].
  apply wp_bind. eapply (wp_mono _ (fun _ (s2 : ust S) => up (uenv s2) /\ held (uenv s2) = held (uenv s1) /\ sent (uenv s2) = sent (uenv s1) /\ ready (uenv s2) /\ tx_state s2 = tx_state s1)).
  { apply (wp_loop _ (fun _ (s2 : ust S) => up (uenv s2) /\ held (uenv s2) = held (uenv s1) /\ sent (uenv s2) = sent (uenv s1) /\ tx_state s2 = tx_state s1) (fun _ (s2 : ust S) => busy (uenv s2))).
    - intros _ s2 (U2 & H2 & S2 & E2). apply wp_bind. eapply wp_chip; [by apply u_lsr|]. intros v s3 (U3 & H3 & S3 & Hv) E3. apply wp_ret.
      destruct (tst v LSR_TX_IDLE); split_and!; congruence || done.
    - done.
    - pose proof (u_busy _ U1). lia. }
  cbn beta. intros _ s2 (U2 & H2 & S2 & Rd & E2). unfold u8. rewrite Z.mod_small by lia. apply wp_bind. eapply wp_chip; [by apply u_thr|]. intros _ s3 (U3 & H3 & S3) E3.
  eapply wp_chip; [by apply u_pop|]. intros _ s4 (U4 & H4 & S4) E4. split; [|done]. split.
  - done.
  - cbn. unfold cenv in *. congruence.
  - cbn. assert (panicked s4 = panicked s3 /\ panicked s3 = panicked s2 /\ panicked s2 = panicked s1) as (-> & -> & ->); [|done].
    unfold tx_state in *. split_and!; congruence.
  - unfold cenv. cbn. congruence.
Qed.

Definition echo_of (c : Z) : list Z := if c =? BACKSPACE then rubout else [c].

Lemma consputc_ok c s : up (cenv s) -> panicked (cu s) = 0 -> 0 <= c < 256 \/ c = BACKSPACE ->
  wp (consputc fuel c) (fun _ s' => echoed s s' (echo_of c) /\ con s' = con s) s.
Proof using CO Hfuel.
  intros U Hp Hc. unfold consputc, echo_of. destruct (Z.eqb_spec c BACKSPACE) as [->|Hne]; [|destruct Hc; [by apply putc_sync_ok|done]].
  apply wp_bind. eapply wp_mono; [apply (putc_sync_ok 8); (done || lia)|]. cbn beta. intros _ s1 [E1 C1].
  apply wp_bind. eapply wp_mono; [apply (putc_sync_ok 32); (apply E1 || lia)|]. cbn beta. intros _ s2 [E2 C2].
  eapply wp_mono; [apply (putc_sync_ok 8); (apply E2 || lia)|]. cbn beta. intros _ s3 [E3 C3].
  split; [|congruence]. change rubout with ([8] ++ [32] ++ [8]). eapply echoed_trans; [exact E1|]. by eapply echoed_trans.
Qed.

Lemma echoed_cu a b a' b' o : cu a' = cu a -> cu b' = cu b -> echoed a b o -> echoed a' b' o.
Proof.
  intros E1 E2 [A1 A2 A3 A4]. split; unfold cenv in *; rewrite ?E1, ?E2; try done.
  change (held (cu b') = held (cu a')). by rewrite E1, E2.
Qed.

Lemma echoed_refl s : up (cenv s) -> panicked (cu s) = 0 -> echoed s s [].
Proof. intros U P. split; [done|done|done|by rewrite app_nil_r]. Qed.

(** One rubout, with the counter moved back. *)
Lemma rubout_ok s q l c : up (cenv s) -> panicked (cu s) = 0 -> cons_rep (con s) q (l ++ [c]) ->
  wp (updcon (fun k => set_e (u32 (c_e k - 1)) k);; consputc fuel BACKSPACE)
    (fun _ s' => echoed s s' rubout /\ cons_rep (con s') q l) s.
Proof using CO Hfuel.
  intros U P R. destruct (cons_erase _ _ _ _ R) as [_ R1]. unfold updcon. apply wp_bind, wp_modify.
  eapply wp_mono; [apply consputc_ok; [done|done|by right]|]. cbn beta. intros _ s1 [E1 C1]. split; [by eapply echoed_cu; [| |exact E1]|].
  rewrite C1. exact R1.
Qed.

Lemma kill_line_ok s q l : up (cenv s) -> panicked (cu s) = 0 -> cons_rep (con s) q l ->
  wp (kill_line fuel) (fun _ s' => echoed s s' (concat (replicate (length l) rubout)) /\ cons_rep (con s') q []) s.
Proof using CO Hfuel.
  intros U P R. unfold kill_line. pose proof (cons_len _ _ _ R) as Hlen. set (body := fun _ : unit => _).
  cut (forall fu l s1, up (cenv s1) -> panicked (cu s1) = 0 -> cons_rep (con s1) q l -> (length l < fu)%nat ->
    wp (loop fu body tt) (fun _ s2 => echoed s1 s2 (concat (replicate (length l) rubout)) /\ cons_rep (con s2) q []) s1).
  { intros Hc. apply (Hc _ l s U P R). unfold INPUT_BUF_SIZE. lia. }
  induction fu as [|fu IH]; intros l1 s1 U1 P1 R1 Hlt; [lia|]. destruct (cons_counts _ _ _ R1) as (Ee & _ & _). cbn [loop]. unfold body at 1.
  apply wp_bind. unfold getcon. apply wp_bind, wp_gets. rewrite Ee. destruct l1 as [|x l0 _] using rev_ind.
  - rewrite bool_decide_true by done. cbn [orb]. apply wp_ret, wp_ret. split; [by apply echoed_refl|done].
  - rewrite bool_decide_false by (by destruct l0). destruct (cons_erase _ _ _ _ R1) as [Ex _].
    pose proof (cr_line _ _ _ R1) as Hnl. apply Forall_app in Hnl as [_ [Hx _]%Forall_cons]. rewrite Ex, (proj2 (Z.eqb_neq x NL) Hx). cbn [orb].
    pose proof (rubout_ok s1 q l0 x U1 P1 R1) as Hr. apply wp_bind_inv in Hr. apply wp_bind. eapply wp_mono; [exact Hr|]. cbn beta. intros _ s2 Hr2.
    apply wp_bind. eapply wp_mono; [exact Hr2|]. cbn beta. intros _ s3 [E3 R3]. apply wp_ret. rewrite length_app in Hlt. cbn in Hlt.
    eapply wp_mono; [apply (IH l0 s3); [apply E3|apply E3|done|lia]|]. cbn beta. intros _ s4 [E4 R4]. split; [|done].
    rewrite length_app, Nat.add_1_r. cbn [replicate concat]. by eapply echoed_trans.
Qed.

(** C25: line editing.  With the output working, each key pressed at the console changes the
    finished lines [q] and the edited line [l] exactly as [key] says, and echoes its answer:
    ordinary characters are appended while there is room, backspace and delete erase the last
    one, control-U the whole line, a carriage return counts as newline, and newline, control-D
    or a full buffer finish the line; control-P sends a process list ([dump], as [procdump]
    prints it) and edits nothing; finished lines are never edited any more. *)
Theorem consoleintr_edits s q l c : up (cenv s) -> panicked (cu s) = 0 -> CONS_LOCK ∉ held s -> cons_rep (con s) q l -> 0 <= c < 256 ->
  wp (consoleintr fuel c) (fun _ s' => exists dump, let '(q', l', out) := key dump c q l in
    cons_rep (con s') q' l' /\ held s' = held s /\ sent (cenv s') = sent (cenv s) ++ out) s.
Proof using CO Hfuel.
  intros U P Hl R Hc. unfold consoleintr. apply wp_bind, wp_acquire; [done|]. set (s1 := set_held _ s).
  destruct (u_held ({[CONS_LOCK]} ∪ held s) (cenv s) U) as [U1 S1].
  assert (up (cenv s1) /\ panicked (cu s1) = 0 /\ cons_rep (con s1) q l /\ held s1 = {[CONS_LOCK]} ∪ held s /\ sent (cenv s1) = sent (cenv s)) as (U1' & P1 & R1 & H1 & E1).
  { split_and!; try done. apply held_set. }
  clearbody s1. clear U1 S1 R. apply wp_bind.
  eapply (wp_mono _ (fun _ s2 => exists dump, let '(q', l', out) := key dump c q l in echoed s1 s2 out /\ cons_rep (con s2) q' l')).
  2:{ cbn beta. intros _ s2 [dump Hk].
      assert (held s2 = held s1 /\ up (cenv s2)) as [A2 A1] by (destruct (key dump c q l) as [[q' l'] out]; destruct Hk as [[? ? ? ?] ?]; done).
      apply wp_release; [rewrite A2, H1; set_solver|]. rewrite A2, H1, held_acq_rel by done. exists dump.
      destruct (key dump c q l) as [[q' l'] out]. destruct Hk as [[_ _ _ A4] R2]. split; [done|]. split; [apply held_set|].
      destruct (u_held (held s) (cenv s2) A1) as [_ E]. change (cenv (set_held (held s) s2)) with (set_held (held s) (cenv s2)). by rewrite E, A4, E1. }
  unfold key. destruct (c =? CTRL_P).
  { apply wp_zoom. eapply wp_chip; [by apply k_dump|]. intros _ u (A1 & A2 & dump & A3) At. exists dump. split; [|done]. split; try done.
    injection At; intros; cbn; congruence. }
  match goal with |- wp _ (fun _ s2 => exists _, ?K) _ => eapply (wp_mono _ (fun _ s2 => K)); [|by intros _ s2 Hs2; exists []] end.
  destruct (c =? CTRL_U); [by apply kill_line_ok|]. destruct (cons_counts _ _ _ R1) as (Ee & _ & En). unfold getcon.
  destruct ((c =? CTRL_H) || (c =? DEL)).
  { apply wp_bind, wp_gets. rewrite Ee. destruct l as [|x l0 _] using rev_ind.
    - rewrite bool_decide_true by done. apply wp_ret. split; [by apply echoed_refl|done].
    - rewrite bool_decide_false by (by destruct l0). cbn [negb mwhen]. rewrite removelast_last.
      eapply wp_mono; [by apply (rubout_ok s1 q l0 x)|]. cbn beta. intros _ s2 Hs. destruct (l0 ++ [x]) eqn:E; [by destruct l0|]. exact Hs. }
  apply wp_bind, wp_gets. rewrite En. destruct (negb (c =? 0) && (Z.of_nat (length q + length l) <? INPUT_BUF_SIZE)) eqn:Eb; cbn [mwhen].
  2:{ apply wp_ret. split; [by apply echoed_refl|done]. }
  to_prop. set (ch := if c =? CR then NL else c). assert (0 <= ch < 256) as Hch by (unfold ch, NL; destruct (c =? CR); lia).
  apply wp_bind. eapply wp_mono; [apply consputc_ok; [done|done|by left]|]. cbn beta. intros _ s2 [E2 C2]. rewrite <- C2 in R1.
  assert (echo_of ch = [ch]) as Ech by (unfold echo_of; by rewrite (proj2 (Z.eqb_neq ch BACKSPACE)) by (unfold BACKSPACE; lia)). rewrite Ech in E2.
  destruct (cons_put _ _ _ ch R1) as [G1 G2]; [lia|done|]. unfold updcon. apply wp_bind, wp_modify, wp_bind, wp_gets.
  destruct R1 as [K1 K2 K3 K4 K5]. cbn [con]. rewrite G2. change (c_r (put_e ch (con s2))) with (c_r (con s2)).
  assert (u32 (u32 (c_r (con s2) + Z.of_nat (length q + length l) + 1) - c_r (con s2)) = Z.of_nat (length q + length l) + 1) as ->.
  { unfold u32. unfold INPUT_BUF_SIZE in *. dlia. }
  destruct ((ch =? NL) || (ch =? CTRL_D) || (Z.of_nat (length q + length l) + 1 =? INPUT_BUF_SIZE)) eqn:Ew; cbn [mwhen].
  - apply wp_bind, wp_modify, wp_zoom. eapply wp_chip; [apply u_wakeup; apply E2|]. intros _ u (A1 & A2 & A3 & _) At. split.
    { destruct E2 as [D1 D2 D3 D4]. split; [done|exact (eq_trans A2 D2)| |exact (eq_trans A3 D4)]. injection At; intros; cbn; congruence. }
    split; cbn [con set_cu set_w cbuf c_r c_w c_e put_e].
    + by rewrite app_nil_r.
    + done.
    + cbn in G2. rewrite G2, !length_app. cbn [length]. f_equal. lia.
    + cbn in G2. rewrite G2, !length_app. cbn [length]. f_equal. lia.
    + constructor.
  - apply wp_ret. split; [by eapply echoed_cu; [| |exact E2]|]. apply orb_false_iff in Ew as [[Ew1 Ew2]%orb_false_iff Ew3]. to_prop. split; try done.
    + cbn [con]. rewrite G2, length_app. cbn [length]. f_equal. change (c_r (put_e ch (con s2))) with (c_r (con s2)). lia.
    + apply Forall_app. split; [done|]. by constructor.
Qed.
End console.

Section reading.
Context {S : Type} `{CO : ConsOk S}.
Implicit Types s : cst S.

(** The end of a read. *)
Lemma cons_leave {A} (v : A) s0 s (Q : A -> cst S -> Prop) : CONS_LOCK ∉ held s0 -> held s = {[CONS_LOCK]} ∪ held s0 ->
  (forall s', con s' = con s -> held s' = held s0 -> umem (cenv s') = umem (cenv s) -> Q v s') -> wp (release CONS_LOCK;; mret v) Q s.
Proof.
  intros Hn Hh HQ. apply wp_bind, wp_release; [rewrite Hh; set_solver|]. rewrite Hh, held_acq_rel by done. apply wp_ret, HQ; [done|apply held_set|].
  apply (k_held (held s0) (cenv s)).
Qed.

Lemma loop_S {T L A} n (f : L -> M T (L + A)) x :
  loop (Datatypes.S n) f x = (r ← f x; match r with inl y => loop n f y | inr a => mret a end).
Proof. done. Qed.

(** The loop, [m] bytes before its end. *)
Lemma consoleread_loop (u : bool) s0 target m : CONS_LOCK ∉ held s0 -> forall q l dst s, up (cenv s) -> held s = {[CONS_LOCK]} ∪ held s0 ->
  cons_rep (con s) q l -> Forall (fun c => 0 <= c < 256) q -> Z.of_nat m <= target < 2 ^ 31 -> 0 <= dst -> dst + Z.of_nat m < 2 ^ 64 ->
  (forall i, dst <= i < dst + Z.of_nat m -> is_Some (umem (cenv s) !! i)) ->
  wp (consoleread_from u target (Z.of_nat m) dst) (fun r s' => let '(d, q', fin) := read_line (Z.of_nat m <? target) m q in
    cons_rep (con s') q' l /\ held s' = held s0 /\ umem (cenv s') = put_umem (umem (cenv s)) dst d /\
    if (fin : bool) then r = inr (target - Z.of_nat m + Z.of_nat (length d))
    else r = inl (Z.of_nat m - Z.of_nat (length d), dst + Z.of_nat (length d)) \/ r = inr (-1)) s.
Proof.
  intros Hn. unfold consoleread_from. rewrite Nat2Z.id, Nat.add_1_r. set (body := fun '(n, dst) => _).
  induction m as [|m IH]; intros q l dst s U Hh R Hq Ht Hd1 Hd2 Hm; rewrite loop_S; apply wp_bind; unfold body at 1.
  - cbn [Z.of_nat Z.ltb Z.compare negb]. apply (cons_leave _ s0); [done|done|]. intros s1 E1 E2 E3.
    apply wp_ret. cbn. rewrite E1, Z.sub_0_r, Z.add_0_r, i32_id by lia. done.
  - cbv beta iota. rewrite (proj2 (Z.ltb_lt 0 (Z.of_nat (Datatypes.S m)))) by lia. cbn [negb]. unfold getcon, updcon. apply wp_bind, wp_gets.
    destruct (cons_counts _ _ _ R) as (_ & Ee & _). rewrite Ee. destruct q as [|c q].
    { rewrite bool_decide_true by done. apply wp_bind, wp_zoom. eapply wp_chip; [by apply k_killed|]. intros k s1 (U1 & H1 & M1) _. cbn [read_line].
      destruct (negb (k =? 0)); (apply (cons_leave _ s0); [done|exact (eq_trans H1 Hh)|]); intros s2 E1 E2 E3; apply wp_ret; rewrite E1, E3;
        (split; [done|]; split; [done|]; split; [exact M1|]); [by right|left]. cbn [length]. by rewrite Z.sub_0_r, Z.add_0_r. }
    rewrite bool_decide_false by done. destruct (cons_pop _ _ _ _ R) as [Ec R1]. cbv zeta. rewrite Ec. apply Forall_cons in Hq as [Hc Hq].
    apply wp_bind, wp_modify. set (s1 := mkC _ _). cbn [read_line]. destruct (Z.eqb_spec c CTRL_D) as [->|Hnd].
    { unfold u32 at 1. rewrite Z.mod_small by lia. destruct (Z.ltb_spec (Z.of_nat (Datatypes.S m)) target) as [Hlt|Hge]; cbn [mwhen].
      - apply wp_bind, wp_modify, (cons_leave _ s0); [done|exact Hh|]. intros s2 E1 E2 E3. apply wp_ret. rewrite E1, E3. rewrite i32_id by lia.
        split; [|split; [done|split; [done|cbn [length]; f_equal; lia]]]. cbn [con s1 set_r c_r].
        assert (u32 (u32 (c_r (con s) + 1) - 1) = c_r (con s)) as ->.
        { pose proof (cr_r _ _ _ R). unfold u32. rewrite Zminus_mod_idemp_l. rewrite Z.mod_small; lia. }
        by destruct (con s).
      - apply wp_bind, wp_ret, (cons_leave _ s0); [done|exact Hh|]. intros s2 E1 E2 E3. apply wp_ret. rewrite E1, E3. rewrite i32_id by lia.
        split; [done|]. split; [done|]. split; [done|]. cbn [length]. f_equal. lia. }
    apply wp_bind, wp_zoom. eapply wp_chip; [apply k_copyout; [done|apply Hm; lia]|]. intros r s2 (-> & U2 & H2 & M2) _. cbn [Z.eqb].
    unfold u8 in M2. rewrite Z.mod_small in M2 by lia. set (s3 := set_cu s2 s1). destruct (Z.eqb_spec c NL) as [->|Hnl].
    { apply (cons_leave _ s0); [done|exact (eq_trans H2 Hh)|]. intros s4 E1 E2 E3. apply wp_ret. rewrite E1, E3. rewrite i32_id by lia.
      split; [done|]. split; [done|]. split; [exact M2|]. cbn [length]. f_equal. lia. }
    apply wp_ret. replace (Z.of_nat (Datatypes.S m) - 1) with (Z.of_nat m) by lia.
    assert (u64 (dst + 1) = dst + 1) as -> by (unfold u64; rewrite Z.mod_small; lia).
    eapply wp_mono; [apply (IH q l (dst + 1) s3); [done|exact (eq_trans H2 Hh)|done|done|lia|lia|lia|]|].
    { intros i Hi. change (umem (cenv s3)) with (umem (uenv s2)). rewrite M2, lookup_insert_ne by lia. apply Hm. lia. }
    cbn beta. intros r s4. rewrite (proj2 (Z.ltb_lt (Z.of_nat m) target)) by lia. destruct (read_line true m q) as [[d q'] fin].
    intros (R4 & H4 & M4 & Hr). split; [done|]. split; [done|]. split; [rewrite M4; exact (f_equal (fun x => put_umem x (dst + 1) d) M2)|]. cbn [length].
    destruct fin; [rewrite Hr; f_equal; lia|]. destruct Hr as [-> | ->]; [left|by right]. do 2 f_equal; lia.
Qed.

(** C26: reading lines.  A read of [n] bytes from the console takes from the finished lines
    exactly what [read_line] says and puts it at the destination; it returns the number of
    bytes, or, when the finished lines run out, sleeps with the rest of the request (or fails
    if the process is killed).  A line being edited is never read. *)
Theorem consoleread_lines (u : bool) s q l dst n : up (cenv s) -> CONS_LOCK ∉ held s -> cons_rep (con s) q l -> Forall (fun c => 0 <= c < 256) q ->
  0 <= n < 2 ^ 31 -> 0 <= dst -> dst + n < 2 ^ 64 -> (forall i, dst <= i < dst + n -> is_Some (umem (cenv s) !! i)) ->
  wp (consoleread u dst n) (fun r s' => let '(d, q', fin) := read_line false (Z.to_nat n) q in
    cons_rep (con s') q' l /\ held s' = held s /\ umem (cenv s') = put_umem (umem (cenv s)) dst d /\
    if (fin : bool) then r = inr (Z.of_nat (length d))
    else r = inl (n - Z.of_nat (length d), dst + Z.of_nat (length d)) \/ r = inr (-1)) s.
Proof.
  intros U Hn R Hq Hr Hd1 Hd2 Hm. unfold consoleread. apply wp_bind, wp_acquire; [done|]. set (s1 := set_held _ s).
  destruct (u_held ({[CONS_LOCK]} ∪ held s) (cenv s) U) as [U1 _]. pose proof (k_held ({[CONS_LOCK]} ∪ held s) (cenv s)) as M1.
  pose proof (consoleread_loop u s n (Z.to_nat n) Hn q l dst s1) as Hw. rewrite Z2Nat.id in Hw by lia. rewrite Z.ltb_irrefl in Hw.
  eapply wp_mono; [apply Hw; try done; [apply held_set|lia|]|].
  - intros i Hi. change (cenv s1) with (set_held ({[CONS_LOCK]} ∪ held s) (cenv s)). rewrite M1. by apply Hm.
  - cbn beta. intros r s'. destruct (read_line false (Z.to_nat n) q) as [[d q'] fin]. rewrite Z.sub_diag, Z.add_0_l.
    intros (A1 & A2 & A3 & A4). split_and!; try done. rewrite A3. f_equal. exact M1.
Qed.
End reading.

(** ** A concrete chip

    It needs one look at its status after each character. *)
Module Demo.
Record toy := mkToy { t_held : gset Z; t_busy : nat; t_sent : list Z; t_mem : gmap Z Z }.

#[export] #[refine] Instance toy_locks : HasLocks toy := {
  held := t_held;
  set_held := fun x t => mkToy x (t_busy t) (t_sent t) (t_mem t);
  curpid := fun _ => 1;
}.
Proof. all: done || by intros []. Defined.

#[export] Instance toy_uart : UartEnv toy := {
  ReadReg := fun r t => if r =? LSR then
    match t_busy t with
    | O => Ret LSR_TX_IDLE t
    | S n => Ret 0 (mkToy (t_held t) n (t_sent t) (t_mem t))
    end else Ret 0 t;
  WriteReg := fun r c t => if r =? THR then Ret tt (mkToy (t_held t) 1 (t_sent t ++ [c]) (t_mem t)) else Ret tt t;
  push_off := mret tt;
  pop_off := mret tt;
  uwakeup := fun _ => mret tt;
}.

#[export] Instance toy_cons : ConsEnv toy := {
  copyin_char := fun _ a t => Ret (t_mem t !! a) t;
  copyout_char := fun _ a c t => match t_mem t !! a with
    | Some _ => Ret 0 (mkToy (t_held t) (t_busy t) (t_sent t) (<[a := c]> (t_mem t)))
    | None => Ret (-1) t
    end;
  ckilled := mret 0;
  procdump := fun t => Ret tt (mkToy (t_held t) (t_busy t) (t_sent t ++ [NL]) (t_mem t));
  set_devsw := fun _ => mret tt;
}.

#[export] #[refine] Instance toy_uart_ok : UartOk toy 1 := {
  up := fun t => (t_busy t <= 1)%nat;
  sent := t_sent;
  ready := fun t => t_busy t = O;
  busy := t_busy;
}.
Proof.
  - done.
  - intros x e He. by split.
  - intros e He. unfold wp. cbn. destruct (t_busy e) as [|n] eqn:E; cbn; (split_and!; [lia|done|done|]); [exact E|constructor].
  - done.
  - intros c e He Hr. unfold wp. cbn. split_and!; done || lia.
  - done.
  - done.
  - done.
Defined.

#[export] #[refine] Instance toy_cons_ok : ConsOk toy := { umem := t_mem }.
Proof.
  - done.
  - intros u a c e He [x Hx]. unfold wp. cbn. by rewrite Hx.
  - done.
  - intros e He. unfold wp. cbn. split_and!; [done|done|by eexists].
Defined.

(** A chip that is free, and memory of eight bytes at 0. *)
Definition chip0 : toy := mkToy ∅ 0 [] (list_to_map (map (fun i => (Z.of_nat i, 0)) (seq 0 8))).
Definition uart0 : ust toy := mkUart chip0 (<[0%nat := 65]> (replicate 32 0)) 1 0 0.
(** "hi", a newline and an unfinished "x" have been typed. *)
Definition typed : list Z := [104; 105; NL; 120].
Definition cons0 : cst toy := mkC uart0 (mkCons (typed ++ replicate 124 0) 0 3 4).

Lemma tx_rep0 : tx_rep uart0 [65].
Proof. split; [split; [done|done|]|cbn; lia|done]. by intros [|[]] c; cbn; intros [= <-]. Qed.

Lemma cons_rep0 : cons_rep (con cons0) [104; 105; NL] [120].
Proof.
  split; [split; [done|done|]|cbn; lia|done|done|repeat constructor; done].
  intros k c Hk. do 4 (destruct k as [|k]; [by injection Hk as <-|]). done.
Qed.
End Demo.
Import Demo.

Lemma uart_tx_fifo_witness : tx_rep Demo.uart0 [65] /\ wp (uartputc 66) (fun _ s' => held s' = held Demo.uart0 /\
  exists q', tx_rep s' q' /\ sent (uenv s') ++ q' = sent (uenv Demo.uart0) ++ [65] ++ [u8 66]) Demo.uart0.
Proof.
  split; [exact Demo.tx_rep0|]. pose proof (uart_tx_fifo Demo.uart0 [65] 66) as H. rewrite decide_False in H by done.
  apply H; [cbn; lia|exact Demo.tx_rep0|set_solver|done].
Defined.

Lemma consoleintr_edits_witness : wp (consoleintr 2 NL) (fun _ s' => exists dump : list Z,
  cons_rep (con s') ([104; 105; NL] ++ [120] ++ [NL]) [] /\ held s' = held Demo.cons0 /\ sent (cenv s') = sent (cenv Demo.cons0) ++ [NL]) Demo.cons0.
Proof.
  pose proof (consoleintr_edits 2 (Nat.lt_succ_diag_r 1) Demo.cons0 [104; 105; NL] [120] NL) as H.
  apply H; [cbn; lia|done|set_solver|exact Demo.cons_rep0|unfold NL; lia].
Defined.

Lemma consoleread_lines_witness : wp (consoleread true 0 8) (fun r s' =>
  cons_rep (con s') [] [120] /\ held s' = held Demo.cons0 /\
  umem (cenv s') = put_umem (umem (cenv Demo.cons0)) 0 [104; 105; NL] /\ r = inr 3) Demo.cons0.
Proof.
  pose proof (consoleread_lines true Demo.cons0 [104; 105; NL] [120] 0 8) as H.
  apply H; [cbn; lia|set_solver|exact Demo.cons_rep0|repeat constructor; unfold NL; lia|lia|lia|lia|].
  intros i Hi. assert (i = 0 \/ i = 1 \/ i = 2 \/ i = 3 \/ i = 4 \/ i = 5 \/ i = 6 \/ i = 7) as Hc by lia.
  destruct Hc as [->|[->|[->|[->|[->|[->|[->| ->]]]]]]]; by eexists.
Defined.
