(* ===== verification/Virtio.v ===== *)
(** * The disk driver

    [kernel/virtio_disk.c] with the structures of [virtio.h]: eight descriptors, the ring of
    requests for the device and the ring of answers.  The arrays are maps from indices, the two
    rings lists.  A descriptor's address is one of the places the driver has the device read or
    write ([addr]).  [virtio_disk_rw] is cut at its two [sleep]s: a segment runs with the
    driver's lock, which [sleep] gives up, from the call or from waking up to the return or the
    next [sleep].  The device's registers and the page allocator are class [VirtioEnv]. *)

From Stdlib Require Import ZArith Lia.
From stdpp Require Import base numbers list gmap strings sets.
From S2P Require Import Prelude Riscv Spinlock Locks Ring.

Definition VIRTIO_MMIO_MAGIC_VALUE : Z := 0x000.
Definition VIRTIO_MMIO_VERSION : Z := 0x004.
Definition VIRTIO_MMIO_DEVICE_ID : Z := 0x008.
Definition VIRTIO_MMIO_VENDOR_ID : Z := 0x00c.
Definition VIRTIO_MMIO_DEVICE_FEATURES : Z := 0x010.
Definition VIRTIO_MMIO_DRIVER_FEATURES : Z := 0x020.
Definition VIRTIO_MMIO_QUEUE_SEL : Z := 0x030.
Definition VIRTIO_MMIO_QUEUE_NUM_MAX : Z := 0x034.
Definition VIRTIO_MMIO_QUEUE_NUM : Z := 0x038.
Definition VIRTIO_MMIO_QUEUE_READY : Z := 0x044.
Definition VIRTIO_MMIO_QUEUE_NOTIFY : Z := 0x050.
Definition VIRTIO_MMIO_INTERRUPT_STATUS : Z := 0x060.
Definition VIRTIO_MMIO_INTERRUPT_ACK : Z := 0x064.
Definition VIRTIO_MMIO_STATUS : Z := 0x070.
Definition VIRTIO_MMIO_QUEUE_DESC_LOW : Z := 0x080.
Definition VIRTIO_MMIO_QUEUE_DESC_HIGH : Z := 0x084.
Definition VIRTIO_MMIO_DRIVER_DESC_LOW : Z := 0x090.
Definition VIRTIO_MMIO_DRIVER_DESC_HIGH : Z := 0x094.
Definition VIRTIO_MMIO_DEVICE_DESC_LOW : Z := 0x0a0.
Definition VIRTIO_MMIO_DEVICE_DESC_HIGH : Z := 0x0a4.
Definition VIRTIO_CONFIG_S_ACKNOWLEDGE : Z := 1.
Definition VIRTIO_CONFIG_S_DRIVER : Z := 2.
Definition VIRTIO_CONFIG_S_DRIVER_OK : Z := 4.
Definition VIRTIO_CONFIG_S_FEATURES_OK : Z := 8.
Definition VIRTIO_BLK_F_RO : Z := 5.
Definition VIRTIO_BLK_F_SCSI : Z := 7.
Definition VIRTIO_BLK_F_CONFIG_WCE : Z := 11.
Definition VIRTIO_BLK_F_MQ : Z := 12.
Definition VIRTIO_F_ANY_LAYOUT : Z := 27.
Definition VIRTIO_RING_F_INDIRECT_DESC : Z := 28.
Definition VIRTIO_RING_F_EVENT_IDX : Z := 29.
Definition NUM : Z := 8.
Definition VRING_DESC_F_NEXT : Z := 1.
Definition VRING_DESC_F_WRITE : Z := 2.
Definition VIRTIO_BLK_T_IN : Z := 0.
Definition VIRTIO_BLK_T_OUT : Z := 1.
Definition sizeof_blk_req : Z := 16.
Definition VDISK_LOCK : Z := 820.
(** The channel [&disk.free[0]]. *)
Definition FREE_CHAN : Z := 821.

(** [&disk.ops[i]], [&disk.info[i].status] and [b->data]. *)
Inductive addr := ANull | AOps (i : Z) | AStatus (i : Z) | AData (b : Z).
Record virtq_desc := mkDesc { d_addr : addr; d_len : Z; d_flags : Z; d_next : Z }.
Record virtio_blk_req := mkReq { rq_type : Z; rq_reserved : Z; rq_sector : Z }.

(** [struct disk]: the descriptors, [avail->idx], [avail->ring], [used->idx], the ids of
    [used->ring], [free], [used_idx], [info[].b], [info[].status] and [ops]. *)
Record disk := mkDisk {
  desc : gmap Z virtq_desc;
  a_idx : Z; a_ring : list Z;
  u_idx : Z; u_ring : list Z;
  free : gmap Z Z;
  used_idx : Z;
  info_b : gmap Z Z;
  info_status : gmap Z Z;
  ops : gmap Z virtio_blk_req;
}.

(** What the driver uses of [struct buf]. *)
Record vbuf := mkVbuf { b_disk : Z; b_blockno : Z; b_data : list Z }.

Class VirtioEnv (S : Type) := {
  ve_locks :: HasLocks S;
  mmio_read : Z -> M S Z;
  mmio_write : Z -> Z -> M S unit;
  vkalloc : M S Z;
  vwakeup : Z -> M S unit;
}.

Record vst (S : Type) := mkV { venv : S; dsk : disk; vbufs : gmap Z vbuf }.
Arguments mkV {S} _ _ _.
Arguments venv {S} _.
Arguments dsk {S} _.
Arguments vbufs {S} _.

Definition set_desc x d := mkDisk x (a_idx d) (a_ring d) (u_idx d) (u_ring d) (free d) (used_idx d) (info_b d) (info_status d) (ops d).
Definition set_avail i r d := mkDisk (desc d) i r (u_idx d) (u_ring d) (free d) (used_idx d) (info_b d) (info_status d) (ops d).
Definition set_used i r d := mkDisk (desc d) (a_idx d) (a_ring d) i r (free d) (used_idx d) (info_b d) (info_status d) (ops d).
Definition set_free x d := mkDisk (desc d) (a_idx d) (a_ring d) (u_idx d) (u_ring d) x (used_idx d) (info_b d) (info_status d) (ops d).
Definition set_used_idx x d := mkDisk (desc d) (a_idx d) (a_ring d) (u_idx d) (u_ring d) (free d) x (info_b d) (info_status d) (ops d).
Definition set_info_b x d := mkDisk (desc d) (a_idx d) (a_ring d) (u_idx d) (u_ring d) (free d) (used_idx d) x (info_status d) (ops d).
Definition set_info_status x d := mkDisk (desc d) (a_idx d) (a_ring d) (u_idx d) (u_ring d) (free d) (used_idx d) (info_b d) x (ops d).
Definition set_ops x d := mkDisk (desc d) (a_idx d) (a_ring d) (u_idx d) (u_ring d) (free d) (used_idx d) (info_b d) (info_status d) x.

(** Where a segment of [virtio_disk_rw] ends: in the [sleep] for descriptors, in the [sleep] for
    the device's answer with [idx[0]], or at the return. *)
Inductive rwpc := RwWaitDesc | RwWaitDone (i0 : Z) | RwReturn.

Section virtio_c.
Context {S : Type} `{VirtioEnv S}.
Implicit Types s : vst S.

Definition set_venv (x : S) s : vst S := mkV x (dsk s) (vbufs s).

#[export] #[refine] Instance vst_locks : HasLocks (vst S) := {
  held := fun s => held (venv s);
  set_held := fun x s => set_venv (set_held x (venv s)) s;
  curpid := fun s => curpid (venv s);
}.
Proof.
  - intros x s. apply held_set.
  - intros s. unfold set_venv. rewrite set_held_held. by destruct s.
  - intros x y s. unfold set_venv. cbn [venv]. by rewrite set_held_set.
Defined.

Definition hw {A} (m : M S A) : M (vst S) A := zoom venv set_venv m.
Definition getd {A} (f : disk -> A) : M (vst S) A := gets (fun s => f (dsk s)).
Definition updd (f : disk -> disk) : M (vst S) unit := modify (fun s => mkV (venv s) (f (dsk s)) (vbufs s)).
(** An element of an array; an index out of range is undefined behaviour. *)
Definition elem {A} (f : disk -> gmap Z A) (i : Z) : M (vst S) A := o ← getd (fun d => f d !! i); the o.
Definition getbuf (b : Z) : M (vst S) vbuf := o ← gets (fun s => vbufs s !! b); the o.
Definition set_bdisk (b v : Z) : M (vst S) unit :=
  x ← getbuf b;
  modify (fun s => mkV (venv s) (dsk s) (<[b := mkVbuf v (b_blockno x) (b_data x)]> (vbufs s))).

(** [features &= ~(1 << bit)] for each bit in turn. *)
Definition clear_bits (bits : list Z) (x : Z) : Z := fold_left (fun x b => Z.land x (Z.lnot (Z.shiftl 1 b))) bits x.
Definition zero_desc : virtq_desc := mkDesc ANull 0 0 0.
(** An array of NUM elements. *)
Definition arr {A} (x : A) : gmap Z A := list_to_map (map (fun i => (Z.of_nat i, x)) (seq 0 (Z.to_nat NUM))).

Definition virtio_disk_init : M (vst S) unit :=
  initlock VDISK_LOCK;;
  no_disk ← (
    magic ← hw (mmio_read VIRTIO_MMIO_MAGIC_VALUE);
    if negb (magic =? 0x74726976) then mret true else
    version ← hw (mmio_read VIRTIO_MMIO_VERSION);
    if negb (version =? 2) then mret true else
    device ← hw (mmio_read VIRTIO_MMIO_DEVICE_ID);
    if negb (device =? 2) then mret true else
    vendor ← hw (mmio_read VIRTIO_MMIO_VENDOR_ID);
    mret (negb (vendor =? 0x554d4551)));
  if (no_disk : bool) then panic "could not find virtio disk" else
  hw (mmio_write VIRTIO_MMIO_STATUS 0);;
  let status := Z.lor 0 VIRTIO_CONFIG_S_ACKNOWLEDGE in
  hw (mmio_write VIRTIO_MMIO_STATUS status);;
  let status := Z.lor status VIRTIO_CONFIG_S_DRIVER in
  hw (mmio_write VIRTIO_MMIO_STATUS status);;
  features ← hw (mmio_read VIRTIO_MMIO_DEVICE_FEATURES);
  let features := clear_bits [VIRTIO_BLK_F_RO; VIRTIO_BLK_F_SCSI; VIRTIO_BLK_F_CONFIG_WCE; VIRTIO_BLK_F_MQ;
    VIRTIO_F_ANY_LAYOUT; VIRTIO_RING_F_EVENT_IDX; VIRTIO_RING_F_INDIRECT_DESC] features in
  hw (mmio_write VIRTIO_MMIO_DRIVER_FEATURES (u32 features));;
  let status := Z.lor status VIRTIO_CONFIG_S_FEATURES_OK in
  hw (mmio_write VIRTIO_MMIO_STATUS status);;
  status ← hw (mmio_read VIRTIO_MMIO_STATUS);
  if negb (tst status VIRTIO_CONFIG_S_FEATURES_OK) then panic "virtio disk FEATURES_OK unset" else
  hw (mmio_write VIRTIO_MMIO_QUEUE_SEL 0);;
  ready ← hw (mmio_read VIRTIO_MMIO_QUEUE_READY);
  if negb (ready =? 0) then panic "virtio disk should not be ready" else
  max ← hw (mmio_read VIRTIO_MMIO_QUEUE_NUM_MAX);
  if max =? 0 then panic "virtio disk has no queue 0" else
  if max <? NUM then panic "virtio disk max queue too short" else
  pdesc ← hw vkalloc;
  pavail ← hw vkalloc;
  pused ← hw vkalloc;
  if (pdesc =? 0) || (pavail =? 0) || (pused =? 0) then panic "virtio disk kalloc" else
  updd (set_desc (arr zero_desc));;
  updd (set_avail 0 (replicate (Z.to_nat NUM) 0));;
  updd (set_used 0 (replicate (Z.to_nat NUM) 0));;
  hw (mmio_write VIRTIO_MMIO_QUEUE_NUM NUM);;
  hw (mmio_write VIRTIO_MMIO_QUEUE_DESC_LOW (u32 pdesc));;
  hw (mmio_write VIRTIO_MMIO_QUEUE_DESC_HIGH (u32 (Z.shiftr pdesc 32)));;
  hw (mmio_write VIRTIO_MMIO_DRIVER_DESC_LOW (u32 pavail));;
  hw (mmio_write VIRTIO_MMIO_DRIVER_DESC_HIGH (u32 (Z.shiftr pavail 32)));;
  hw (mmio_write VIRTIO_MMIO_DEVICE_DESC_LOW (u32 pused));;
  hw (mmio_write VIRTIO_MMIO_DEVICE_DESC_HIGH (u32 (Z.shiftr pused 32)));;
  hw (mmio_write VIRTIO_MMIO_QUEUE_READY 0x1);;
  for_ (Z.to_nat NUM) 0 1 (fun i => updd (fun d => set_free (<[i := 1]> (free d)) d));;
  hw (mmio_write VIRTIO_MMIO_STATUS (Z.lor status VIRTIO_CONFIG_S_DRIVER_OK)).

Definition alloc_desc : M (vst S) Z :=
  loop (Z.to_nat NUM + 1) (fun i =>
    if negb (i <? NUM) then mret (inr (-1)) else
    f ← elem free i;
    if negb (f =? 0) then
      updd (fun d => set_free (<[i := 0]> (free d)) d);;
      mret (inr i)
    else mret (inl (i + 1))) 0.

Definition free_desc (i : Z) : M (vst S) unit :=
  if NUM <=? i then panic "free_desc 1" else
  f ← elem free i;
  if negb (f =? 0) then panic "free_desc 2" else
  _ ← elem desc i;
  updd (fun d => set_desc (<[i := zero_desc]> (desc d)) d);;
  updd (fun d => set_free (<[i := 1]> (free d)) d);;
  hw (vwakeup FREE_CHAN).

(** Every turn frees a descriptor that was not free. *)
Definition free_chain (i : Z) : M (vst S) unit :=
  loop (Z.to_nat NUM + 1) (fun i =>
    d ← elem desc i;
    free_desc i;;
    mret (if tst (d_flags d) VRING_DESC_F_NEXT then inl (d_next d) else inr tt)) i.

Fixpoint free_all (idx : list Z) : M (vst S) unit :=
  match idx with
  | [] => mret tt
  | i :: idx => free_desc i;; free_all idx
  end.

(** The loop of [alloc3_desc], [n] turns before its end. *)
Fixpoint alloc_more (n : nat) (idx : list Z) : M (vst S) (option (list Z)) :=
  match n with
  | O => mret (Some idx)
  | Datatypes.S n =>
      i ← alloc_desc;
      if i <? 0 then free_all idx;; mret None else alloc_more n (idx ++ [i])
  end.
Definition alloc3_desc : M (vst S) (option (list Z)) := alloc_more 3 [].

(** From the check of [b->disk] on. *)
Definition rw_wait (b i0 : Z) : M (vst S) rwpc :=
  x ← getbuf b;
  if b_disk x =? 1 then release VDISK_LOCK;; mret (RwWaitDone i0) else
  _ ← elem info_b i0;
  updd (fun d => set_info_b (<[i0 := 0]> (info_b d)) d);;
  free_chain i0;;
  release VDISK_LOCK;;
  mret RwReturn.

(** The three descriptors of a request and its entry in the ring. *)
Definition rw_submit (b : Z) (write : bool) (sector i0 i1 i2 : Z) : M (vst S) unit :=
  updd (fun d => set_ops (<[i0 := mkReq (if write then VIRTIO_BLK_T_OUT else VIRTIO_BLK_T_IN) 0 sector]> (ops d)) d);;
  updd (fun d => set_desc (<[i0 := mkDesc (AOps i0) sizeof_blk_req VRING_DESC_F_NEXT i1]> (desc d)) d);;
  updd (fun d => set_desc (<[i1 := mkDesc (AData b) BSIZE
    (Z.lor (if write then 0 else VRING_DESC_F_WRITE) VRING_DESC_F_NEXT) i2]> (desc d)) d);;
  updd (fun d => set_info_status (<[i0 := 0xff]> (info_status d)) d);;
  updd (fun d => set_desc (<[i2 := mkDesc (AStatus i0) 1 VRING_DESC_F_WRITE 0]> (desc d)) d);;
  set_bdisk b 1;;
  updd (fun d => set_info_b (<[i0 := b]> (info_b d)) d);;
  updd (fun d => set_avail (a_idx d) (ring_set NUM (a_ring d) (a_idx d) i0) d);;
  updd (fun d => set_avail (u16 (a_idx d + 1)) (a_ring d) d);;
  hw (mmio_write VIRTIO_MMIO_QUEUE_NOTIFY 0).

(** From the call, or from waking up in the first [sleep]. *)
Definition virtio_disk_rw (b : Z) (write : bool) : M (vst S) rwpc :=
  x ← getbuf b;
  let sector := u32 (b_blockno x * (BSIZE / 512)) in
  acquire VDISK_LOCK;;
  idx ← alloc3_desc;
  match idx with
  | Some [i0; i1; i2] => rw_submit b write sector i0 i1 i2;; rw_wait b i0
  | _ => release VDISK_LOCK;; mret RwWaitDesc
  end.

(** From waking up in the second [sleep]. *)
Definition virtio_disk_rw_resume (b i0 : Z) : M (vst S) rwpc :=
  acquire VDISK_LOCK;;
  rw_wait b i0.

(** One turn of the loop of [virtio_disk_intr]. *)
Definition intr_turn : M (vst S) (unit + unit) :=
  d ← getd (fun d => d);
  if used_idx d =? u_idx d then mret (inr tt) else
  let id := ring_at NUM (u_ring d) (used_idx d) in
  st ← elem info_status id;
  if negb (st =? 0) then panic "virtio_disk_intr status" else
  b ← elem info_b id;
  set_bdisk b 0;;
  hw (vwakeup b);;
  updd (fun d => set_used_idx (u16 (used_idx d + 1)) d);;
  mret (inl tt).

(** The 16-bit counters are at most 2^16 - 1 apart. *)
Definition virtio_disk_intr : M (vst S) unit :=
  acquire VDISK_LOCK;;
  st ← hw (mmio_read VIRTIO_MMIO_INTERRUPT_STATUS);
  hw (mmio_write VIRTIO_MMIO_INTERRUPT_ACK (Z.land st 0x3));;
  loop (Z.to_nat (2 ^ 16)) (fun _ : unit => intr_turn) tt;;
  release VDISK_LOCK.
End virtio_c.
