(* ===== verification/VirtioDesc.v ===== *)
(** * Descriptors of the disk driver

    What the routines of [Virtio.v] on descriptors do: allocation, release, chains. *)

From Stdlib Require Import ZArith Lia.
From stdpp Require Import base numbers list gmap strings sets.
From S2P Require Import Prelude Riscv Spinlock Locks Ring Virtio.

(** The registers and [wakeup] leave the locks alone. *)
Class VirtioOk (S : Type) `{VirtioEnv S} := {
  v_read : forall r e, wp (mmio_read r) (fun _ e' => held e' = held e) e;
  v_write : forall r x e, wp (mmio_write r x) (fun _ e' => held e' = held e) e;
  v_wakeup : forall c e, wp (vwakeup c) (fun _ e' => held e' = held e) e;
}.

(** ** Routines *)

Definition mark {A} (v : A) (l : list Z) (m : gmap Z A) : gmap Z A := foldr (fun i m => <[i := v]> m) m l.

Lemma lookup_mark {A} (v : A) l m i : mark v l m !! i = if decide (i ∈ l) then Some v else m !! i.
Proof.
  induction l as [|j l IH]; [by rewrite decide_False by set_solver|]. change (mark v (j :: l) m) with (<[j := v]> (mark v l m)).
  destruct (decide (i = j)) as [->|Hne].
  - rewrite lookup_insert_eq. by rewrite decide_True by set_solver.
  - rewrite lookup_insert_ne, IH by done. destruct (decide (i ∈ l)); [rewrite decide_True by set_solver|rewrite decide_False by set_solver]; done.
Qed.

Lemma mark_cons {A} (v : A) l i m : mark v l (<[i := v]> m) = mark v (i :: l) m.
Proof.
  apply map_eq. intros j. rewrite !lookup_mark. destruct (decide (j = i)) as [->|Hne].
  - rewrite lookup_insert_eq, (decide_True (P := i ∈ i :: l)) by set_solver. by destruct (decide (i ∈ l)).
  - rewrite lookup_insert_ne by done. destruct (decide (j ∈ l)); [rewrite decide_True by set_solver|rewrite decide_False by set_solver]; done.
Qed.
Lemma mark_insert {A} (v : A) l i m : <[i := v]> (mark v l m) = mark v (l ++ [i]) m.
Proof.
  apply map_eq. intros j. rewrite lookup_mark. destruct (decide (j = i)) as [->|Hne].
  - rewrite lookup_insert_eq. by rewrite decide_True by set_solver.
  - rewrite lookup_insert_ne, lookup_mark by done. destruct (decide (j ∈ l)); [rewrite decide_True by set_solver|rewrite decide_False by set_solver]; done.
Qed.

Section routines.
Context {S : Type} `{VO : VirtioOk S}.
Implicit Types s : vst S.

(** The effect of a routine but for the device's registers and the processes. *)
Definition now s d v s' : Prop := dsk s' = d /\ vbufs s' = v /\ held s' = held s.

Lemma wp_hw {A} (m : M S A) s (Q : A -> vst S -> Prop) : wp m (fun _ e' => held e' = held (venv s)) (venv s) ->
  (forall a s', now s (dsk s) (vbufs s) s' -> Q a s') -> wp (hw m) Q s.
Proof. intros Hm HQ. apply wp_zoom. eapply wp_mono; [exact Hm|]. cbn beta. intros a e He. by apply HQ. Qed.

Lemma wp_elem {A} (f : disk -> gmap Z A) i x s (Q : A -> vst S -> Prop) : f (dsk s) !! i = Some x -> Q x s -> wp (elem f i) Q s.
Proof. intros Hx HQ. unfold elem, getd. apply wp_bind, wp_gets. by eapply wp_the. Qed.
Lemma wp_getbuf b x s (Q : vbuf -> vst S -> Prop) : vbufs s !! b = Some x -> Q x s -> wp (getbuf b) Q s.
Proof. intros Hx HQ. unfold getbuf. apply wp_bind, wp_gets. by eapply wp_the. Qed.
Lemma wp_updd f s (Q : unit -> vst S -> Prop) : Q tt (mkV (venv s) (f (dsk s)) (vbufs s)) -> wp (updd f) Q s.
Proof. done. Qed.

Definition in_range (i : Z) : Prop := 0 <= i < NUM.

(** [alloc_desc] finds a free descriptor unless there is none. *)
Lemma alloc_desc_ok s : (forall i, in_range i -> is_Some (free (dsk s) !! i)) ->
  wp alloc_desc (fun i s' => (i = -1 /\ s' = s /\ forall j, in_range j -> free (dsk s) !! j = Some 0) \/
    (in_range i /\ now s (set_free (<[i := 0]> (free (dsk s))) (dsk s)) (vbufs s) s' /\ exists f, f <> 0 /\ free (dsk s) !! i = Some f)) s.
Proof.
  intros Hr. unfold alloc_desc.
  apply (wp_loop _ (fun i s' => s' = s /\ 0 <= i <= NUM /\ forall j, 0 <= j < i -> free (dsk s) !! j = Some 0) (fun i _ => Z.to_nat (NUM - i))).
  - intros i s1 (-> & Hi & Hz). destruct (Z.ltb_spec i NUM) as [Hlt|Hge]; cbn [negb].
    + destruct (Hr i) as [f Hf]; [unfold in_range; lia|]. apply wp_bind. eapply wp_elem; [exact Hf|]. destruct (Z.eqb_spec f 0) as [->|Hf0]; cbn [negb].
      * apply wp_ret. split; [|lia]. split; [done|]. split; [lia|]. intros j Hj. destruct (decide (j = i)) as [->|]; [done|]. apply Hz. lia.
      * apply wp_bind, wp_updd, wp_ret. right. split; [unfold in_range; lia|]. split; [by split|eauto].
    + apply wp_ret. left. split; [done|]. split; [done|]. intros j Hj. apply Hz. unfold in_range in Hj. lia.
  - split; [done|]. unfold NUM. split; [lia|]. intros j Hj. lia.
  - unfold NUM. lia.
Qed.

Definition freed (i : Z) (d : disk) : disk := set_free (<[i := 1]> (free d)) (set_desc (<[i := zero_desc]> (desc d)) d).

Lemma free_desc_ok i s d : i < NUM -> free (dsk s) !! i = Some 0 -> desc (dsk s) !! i = Some d ->
  wp (free_desc i) (fun _ s' => now s (freed i (dsk s)) (vbufs s) s') s.
Proof.
  intros Hi Hf Hd. unfold free_desc. rewrite (proj2 (Z.leb_gt NUM i)) by lia. apply wp_bind. eapply wp_elem; [exact Hf|]. cbn [Z.eqb negb].
  apply wp_bind. eapply wp_elem; [exact Hd|]. apply wp_bind, wp_updd, wp_bind, wp_updd. apply wp_hw; [apply v_wakeup|].
  intros _ s' (E1 & E2 & E3). by split.
Qed.

Lemma now_trans s s1 s2 d1 v1 d2 v2 : now s d1 v1 s1 -> now s1 d2 v2 s2 -> now s d2 v2 s2.
Proof. intros (? & ? & E1) (? & ? & E2). split_and!; [done|done|by rewrite E2]. Qed.

(** Descriptors given back one after the other. *)
Lemma free_all_ok l : forall s, NoDup l -> (forall i, i ∈ l -> i < NUM /\ free (dsk s) !! i = Some 0 /\ is_Some (desc (dsk s) !! i)) ->
  wp (free_all l) (fun _ s' => now s (set_free (mark 1 l (free (dsk s))) (set_desc (mark zero_desc l (desc (dsk s))) (dsk s))) (vbufs s) s') s.
Proof.
  induction l as [|i l IH]; intros s Hnd Hl; cbn [free_all].
  - apply wp_ret. split; [by destruct (dsk s)|]. by split.
  - apply NoDup_cons in Hnd as [Hi Hnd]. destruct (Hl i) as (H1 & H2 & [d H3]); [set_solver|]. apply wp_bind.
    eapply wp_mono; [by eapply free_desc_ok|]. cbn beta. intros _ s1 N1. pose proof N1 as (E1 & E2 & E3).
    eapply wp_mono; [apply (IH s1); [done|]|].
    + intros j Hj. destruct (Hl j) as (A1 & A2 & A3); [set_solver|]. assert (j <> i) by congruence. rewrite E1. cbn.
      by rewrite !lookup_insert_ne by done.
    + cbn beta. intros _ s2 N2. eapply now_trans; [exact N1|]. rewrite E1, E2 in N2. destruct N2 as (F1 & F2 & F3). split; [|by split].
      rewrite F1. unfold freed, set_free, set_desc. cbn [desc free a_idx a_ring u_idx u_ring used_idx info_b info_status ops].
      by rewrite !mark_cons.
Qed.

(** [alloc3_desc]: distinct free descriptors, or none and nothing but unused descriptors
    changed. *)
Lemma alloc_more_ok s0 n : (forall i, in_range i -> is_Some (desc (dsk s0) !! i) /\ exists f, free (dsk s0) !! i = Some f /\ (f = 0 \/ f = 1)) ->
  forall idx s, now s0 (set_free (mark 0 idx (free (dsk s0))) (dsk s0)) (vbufs s0) s -> NoDup idx ->
  (forall i, i ∈ idx -> in_range i /\ free (dsk s0) !! i = Some 1) ->
  wp (alloc_more n idx) (fun o s' => match o with
    | Some l => length l = (length idx + n)%nat /\ NoDup l /\ (forall i, i ∈ l -> in_range i /\ free (dsk s0) !! i = Some 1) /\
        now s0 (set_free (mark 0 l (free (dsk s0))) (dsk s0)) (vbufs s0) s'
    | None => exists l, (forall i, i ∈ l -> in_range i /\ free (dsk s0) !! i = Some 1) /\ (length l < length idx + n)%nat /\
        (forall i, in_range i -> i ∈ l \/ free (dsk s0) !! i = Some 0) /\
        now s0 (set_desc (mark zero_desc l (desc (dsk s0))) (dsk s0)) (vbufs s0) s'
    end) s.
Proof.
  intros Hr. induction n as [|n IH]; intros idx s N Hnd Hidx; cbn [alloc_more].
  - apply wp_ret. rewrite Nat.add_0_r. done.
  - pose proof N as (E1 & E2 & E3). apply wp_bind. eapply wp_mono; [apply alloc_desc_ok|].
    { intros i Hi. rewrite E1. cbn. rewrite lookup_mark. destruct (decide (i ∈ idx)); [eauto|]. destruct (Hr i Hi) as (_ & f & Hf & _). eauto. }
    cbn beta. intros i s1 [(-> & -> & Hall)|(Hi & N1 & f & Hf0 & Hf)].
    + cbn [Z.ltb Z.compare]. apply wp_bind. eapply wp_mono; [apply free_all_ok; [done|]|].
      { intros j Hj. destruct (Hidx j Hj) as [A1 A2]. rewrite E1. cbn. rewrite lookup_mark, decide_True by done. unfold in_range in A1.
        split; [lia|]. split; [done|]. by apply Hr. }
      cbn beta. intros _ s1 N1. apply wp_ret. exists idx. split; [done|]. split; [lia|]. split.
      { intros i Hi. destruct (decide (i ∈ idx)) as [|Hn]; [by left|right]. rewrite <- (Hall i Hi), E1. cbn. by rewrite lookup_mark, decide_False. }
      eapply now_trans; [exact N|]. rewrite E1, E2 in N1. destruct N1 as (F1 & F2 & F3). split; [|by split]. rewrite F1. cbn.
      destruct (dsk s0) as [x1 x2 x3 x4 x5 fr x6 x7 x8 x9] eqn:Ed. unfold set_desc, set_free. cbn in *. f_equal. apply map_eq. intros j. rewrite !lookup_mark.
      destruct (decide (j ∈ idx)) as [Hj|]; [|done]. by destruct (Hidx j Hj) as [_ ->].
    + rewrite E1 in Hf. cbn in Hf. rewrite lookup_mark in Hf. destruct (decide (i ∈ idx)) as [|Hni]; [congruence|].
      destruct (Hr i Hi) as (_ & f' & Hf' & Hf01). assert (f = 1) as -> by (rewrite Hf in Hf'; destruct Hf01; congruence).
      unfold in_range in Hi. rewrite (proj2 (Z.ltb_ge i 0)) by lia. eapply wp_mono; [apply (IH (idx ++ [i]) s1)|].
      * eapply now_trans; [exact N|]. destruct N1 as (F1 & F2 & F3). split; [|split; [congruence|done]]. rewrite F1, E1. cbn. by rewrite mark_insert.
      * apply NoDup_app. split; [done|]. split; [set_solver|apply NoDup_singleton].
      * intros j [Hj|Hj]%elem_of_app; [by apply Hidx|]. apply list_elem_of_singleton in Hj as ->. by split.
      * cbn beta. intros o s2. rewrite length_app. cbn [length]. rewrite <- Nat.add_assoc. done.
Qed.
End routines.
