(* ===== verification/VirtioSpec.v ===== *)
(** * The disk driver as asynchronous block transfers

    Processes that read and write blocks, the interrupt handler and the device run interleaved.
    The device is a parameter: what the driver relies on is [device_spec], the protocol of the
    virtio specification that [virtio_disk.c] cites.  The driver then implements [astep]: each
    request is carried out once, on its own block and buffer, before the call returns. *)

From Stdlib Require Import ZArith Lia.
From stdpp Require Import base numbers list gmap strings sets relations.
From S2P Require Import Prelude Riscv Spinlock Locks Ring Virtio VirtioDesc.

(** ** The device

    Its own state: how far it has read the ring of requests, the heads of the chains it is
    working on, and the disk's sectors of 512 bytes. *)
Record vdev := mkDev { last_avail : Z; taken : list Z; sectors : Z -> list Z }.

Definition sec_read (sec : Z -> list Z) (n : Z) : list Z := sec n ++ sec (n + 1).
Definition sec_write (sec : Z -> list Z) (n : Z) (x : list Z) : Z -> list Z :=
  fun k => if k =? n then take 512 x else if k =? n + 1 then drop 512 x else sec k.

(** The request at a chain's head: its header, the descriptor of the data, and where the status
    goes; [None] if the chain is not well formed. *)
Definition chain_of (d : disk) (h : Z) : option (virtio_blk_req * virtq_desc * Z) :=
  d0 ← desc d !! h;
  d1 ← (if tst (d_flags d0) VRING_DESC_F_NEXT then desc d !! d_next d0 else None);
  d2 ← (if tst (d_flags d1) VRING_DESC_F_NEXT then desc d !! d_next d1 else None);
  match d_addr d0, d_addr d2 with
  | AOps i, AStatus j =>
      r ← ops d !! i;
      if (d_len d0 =? sizeof_blk_req) && negb (tst (d_flags d0) VRING_DESC_F_WRITE) && (d_len d2 =? 1) &&
        tst (d_flags d2) VRING_DESC_F_WRITE && negb (tst (d_flags d2) VRING_DESC_F_NEXT)
      then Some (r, d1, j) else None
  | _, _ => None
  end.

(** The transfer: a write has the device read the buffer, a read has it write it. *)
Definition dev_exec (d : disk) (v : gmap Z vbuf) (sec : Z -> list Z) (h : Z) : option (disk * gmap Z vbuf * (Z -> list Z)) :=
  '(r, d1, j) ← chain_of d h;
  match d_addr d1 with
  | AData b =>
      x ← v !! b;
      if negb (d_len d1 =? BSIZE) then None else
      let d' := set_info_status (<[j := 0]> (info_status d)) d in
      if (rq_type r =? VIRTIO_BLK_T_OUT) && negb (tst (d_flags d1) VRING_DESC_F_WRITE)
      then Some (d', v, sec_write sec (rq_sector r) (b_data x))
      else if (rq_type r =? VIRTIO_BLK_T_IN) && tst (d_flags d1) VRING_DESC_F_WRITE
      then Some (d', <[b := mkVbuf (b_disk x) (b_blockno x) (sec_read sec (rq_sector r))]> v, sec)
      else None
  | _ => None
  end.

Record world (S : Type) := mkW {
  drv : vst S;
  dev : vdev;
  flight : gmap Z Z;     (* buffers in the second sleep of virtio_disk_rw, with idx[0] *)
}.
Arguments mkW {S} _ _ _.
Arguments drv {S} _.
Arguments dev {S} _.
Arguments flight {S} _.

Definition set_drv {S} (d : disk) (v : gmap Z vbuf) (dv : vdev) (w : world S) : world S :=
  mkW (mkV (venv (drv w)) d v) dv (flight w).

(** What the device may do: take the next request, finish one it has taken, in any order, or,
    given a chain that is not well formed, anything. *)
Inductive device_spec {S} : world S -> world S -> Prop :=
| D_take w : let d := dsk (drv w) in let dv := dev w in
    last_avail dv <> a_idx d ->
    device_spec w (set_drv d (vbufs (drv w)) (mkDev (u16 (last_avail dv + 1)) (taken dv ++ [ring_at NUM (a_ring d) (last_avail dv)]) (sectors dv)) w)
| D_finish w l1 h l2 d' v' sec' : let d := dsk (drv w) in
    taken (dev w) = l1 ++ h :: l2 -> dev_exec d (vbufs (drv w)) (sectors (dev w)) h = Some (d', v', sec') ->
    device_spec w (set_drv (set_used (u16 (u_idx d' + 1)) (ring_set NUM (u_ring d') (u_idx d') h) d') v' (mkDev (last_avail (dev w)) (l1 ++ l2) sec') w)
| D_broken w w' h : h ∈ taken (dev w) -> dev_exec (dsk (drv w)) (vbufs (drv w)) (sectors (dev w)) h = None -> device_spec w w'.

(** ** The interleaving

    Visible are the requests ([LSubmit]: the buffer, its block, the direction), the returns of
    the calls with the buffer's contents at that moment, and the changes the holders of buffers
    make; the device and the interrupt handler work silently ([None]). *)
Definition abuf (x : vbuf) : Z * list Z := (b_blockno x, b_data x).
Inductive label :=
| LSubmit (b n : Z) (write : bool)
| LReturn (b : Z) (nx : Z * list Z)
| LBuf (b : Z) (nx : Z * list Z).

(** The runs of a machine, with what is visible of them. *)
Inductive traces {X} (R : option label -> X -> X -> Prop) : list label -> X -> X -> Prop :=
| tr_nil x : traces R [] x x
| tr_tau x y z tr : R None x y -> traces R tr y z -> traces R tr x z
| tr_vis l x y z tr : R (Some l) x y -> traces R tr y z -> traces R (l :: tr) x z.

Definition vis (l : option label) : list label := match l with Some l => [l] | None => [] end.

Lemma traces_once {X} (R : option label -> X -> X -> Prop) l x y : R l x y -> traces R (vis l) x y.
Proof. destruct l; intros Hl; [eapply tr_vis|eapply tr_tau]; (exact Hl || constructor). Qed.
Lemma traces_app {X} (R : option label -> X -> X -> Prop) t1 t2 x y z : traces R t1 x y -> traces R t2 y z -> traces R (t1 ++ t2) x z.
Proof. intros H Hz. induction H; cbn; eauto using @traces. Qed.
Lemma traces_steps {X} (R : option label -> X -> X -> Prop) tr x y : traces R tr x y -> rtc (fun x y => exists l, R l x y) x y.
Proof. induction 1; [done|eapply rtc_l; eauto..]. Qed.
Lemma traces_rtc {X} (R : option label -> X -> X -> Prop) x y : rtc (fun x y => exists l, R l x y) x y -> exists tr, traces R tr x y.
Proof.
  induction 1 as [x|x y z [l Hl] _ [tr IH]]; [exists []; constructor|]. exists (vis l ++ tr). eapply traces_app; [by apply traces_once|done].
Qed.

Section steps.
Context {S : Type} `{VO : VirtioOk S} (devstep : world S -> world S -> Prop).

Definition submit_label (b n : Z) (write : bool) (pc : rwpc) : option label :=
  match pc with RwWaitDone _ => Some (LSubmit b n write) | _ => None end.
Definition return_label (b : Z) (s : vst S) (pc : rwpc) : option label :=
  match pc, vbufs s !! b with RwReturn, Some x => Some (LReturn b (abuf x)) | _, _ => None end.

(** [virtio_disk_rw] is called with a buffer the caller has locked, so with one that is not in
    flight; such a buffer may also be changed by its holder. *)
Inductive lstep : option label -> world S -> world S -> Prop :=
| St_rw w b x write pc s' : flight w !! b = None -> vbufs (drv w) !! b = Some x -> 0 <= b_blockno x < 2 ^ 31 ->
    virtio_disk_rw b write (drv w) = Ret pc s' ->
    lstep (submit_label b (b_blockno x) write pc) w (mkW s' (dev w) (match pc with RwWaitDone i0 => <[b := i0]> (flight w) | _ => flight w end))
| St_resume w b i0 pc s' : flight w !! b = Some i0 -> virtio_disk_rw_resume b i0 (drv w) = Ret pc s' ->
    lstep (return_label b s' pc) w (mkW s' (dev w) (match pc with RwReturn => delete b (flight w) | _ => flight w end))
| St_intr w s' : virtio_disk_intr (drv w) = Ret tt s' -> lstep None w (mkW s' (dev w) (flight w))
| St_buf w b x : flight w !! b = None ->
    lstep (Some (LBuf b (abuf x))) w (mkW (mkV (venv (drv w)) (dsk (drv w)) (<[b := x]> (vbufs (drv w)))) (dev w) (flight w))
| St_dev w w' : devstep w w' -> lstep None w w'.

(** A step, whatever is visible of it. *)
Definition step (w w' : world S) : Prop := exists l, lstep l w w'.

(** After [virtio_disk_init]. *)
Record initial (w : world S) : Prop := {
  in_lock : VDISK_LOCK ∉ held (drv w);
  in_desc : desc (dsk (drv w)) = arr zero_desc;
  in_avail : a_idx (dsk (drv w)) = 0 /\ length (a_ring (dsk (drv w))) = Z.to_nat NUM;
  in_used : u_idx (dsk (drv w)) = 0 /\ length (u_ring (dsk (drv w))) = Z.to_nat NUM /\ used_idx (dsk (drv w)) = 0;
  in_free : free (dsk (drv w)) = arr 1;
  in_info : forall i, in_range i -> is_Some (info_b (dsk (drv w)) !! i);
  in_dev : last_avail (dev w) = 0 /\ taken (dev w) = [];
  in_flight : flight w = ∅;
}.
End steps.

(** ** Asynchronous block transfers

    The blocks of the disk, the buffers with their block numbers, and the requests: block,
    direction, and whether the transfer has been made. *)
Record astate := mkA { blocks : Z -> list Z; abufs : gmap Z (Z * list Z); areqs : gmap Z (Z * bool * bool) }.

Definition upd (f : Z -> list Z) (n : Z) (x : list Z) : Z -> list Z := fun k => if k =? n then x else f k.

(** A request is submitted; the transfer is made, between the block and the buffer of the request
    and in the request's direction; and only then the call returns. *)
Inductive astep : option label -> astate -> astate -> Prop :=
| A_submit f v q b n x write : q !! b = None -> v !! b = Some (n, x) ->
    astep (Some (LSubmit b n write)) (mkA f v q) (mkA f v (<[b := (n, write, false)]> q))
| A_read f v q b n x : q !! b = Some (n, false, false) -> v !! b = Some (n, x) ->
    astep None (mkA f v q) (mkA f (<[b := (n, f n)]> v) (<[b := (n, false, true)]> q))
| A_write f v q b n x : q !! b = Some (n, true, false) -> v !! b = Some (n, x) ->
    astep None (mkA f v q) (mkA (upd f n x) v (<[b := (n, true, true)]> q))
| A_return f v q b n write x : q !! b = Some (n, write, true) -> v !! b = Some (n, x) ->
    astep (Some (LReturn b (n, x))) (mkA f v q) (mkA f v (delete b q))
| A_buf f v q b nx : q !! b = None -> astep (Some (LBuf b nx)) (mkA f v q) (mkA f (<[b := nx]> v) q).

(** What the two have in common. *)
Record same {S} (w : world S) (a : astate) : Prop := {
  sm_blocks : forall n, 0 <= n < 2 ^ 31 -> blocks a n = sec_read (sectors (dev w)) (2 * n);
  sm_bufs : abufs a = abuf <$> vbufs (drv w);
  sm_reqs : dom (areqs a) = dom (flight w);
}.

(** ** The invariant *)

Inductive phase := PAvail | PTaken | PDone | PAcked.
#[export] Instance phase_eq : EqDecision phase.
Proof. solve_decision. Defined.

Record req := mkR { r_i0 : Z; r_i1 : Z; r_i2 : Z; r_write : bool; r_blk : Z; r_phase : phase }.
Definition idxs (r : req) : list Z := [r_i0 r; r_i1 r; r_i2 r].
Definition in_phase (p : phase) (r : req) : req := mkR (r_i0 r) (r_i1 r) (r_i2 r) (r_write r) (r_blk r) p.
Definition finished (p : phase) : bool := match p with PDone | PAcked => true | _ => false end.

(** A request's descriptors and book-keeping. *)
Record req_ok (d : disk) (v : gmap Z vbuf) (b : Z) (r : req) : Prop := {
  ro_nd : NoDup (idxs r);
  ro_free : forall i, i ∈ idxs r -> in_range i /\ free d !! i = Some 0;
  ro_d0 : desc d !! r_i0 r = Some (mkDesc (AOps (r_i0 r)) sizeof_blk_req VRING_DESC_F_NEXT (r_i1 r));
  ro_d1 : desc d !! r_i1 r = Some (mkDesc (AData b) BSIZE (Z.lor (if r_write r then 0 else VRING_DESC_F_WRITE) VRING_DESC_F_NEXT) (r_i2 r));
  ro_d2 : desc d !! r_i2 r = Some (mkDesc (AStatus (r_i0 r)) 1 VRING_DESC_F_WRITE 0);
  ro_ops : ops d !! r_i0 r = Some (mkReq (if r_write r then VIRTIO_BLK_T_OUT else VIRTIO_BLK_T_IN) 0 (2 * r_blk r));
  ro_b : info_b d !! r_i0 r = Some b;
  ro_st : info_status d !! r_i0 r = Some (if finished (r_phase r) then 0 else 0xff);
  ro_buf : exists x, v !! b = Some (mkVbuf (match r_phase r with PAcked => 0 | _ => 1 end) (r_blk r) x);
  ro_blk : 0 <= r_blk r < 2 ^ 31;
}.

(** The heads of the requests in a phase. *)
Definition phase_list (R : gmap Z req) (p : phase) (l : list Z) : Prop :=
  NoDup l /\ forall h, h ∈ l <-> exists b r, R !! b = Some r /\ r_i0 r = h /\ r_phase r = p.

(** A ring between two 16-bit counters. *)
Definition queue (buf : list Z) (r w : Z) (q : list Z) : Prop :=
  ring NUM buf r q /\ 0 <= r < 2 ^ 16 /\ w = u16 (r + Z.of_nat (length q)).

Record core (d : disk) (v : gmap Z vbuf) (R : gmap Z req) : Prop := {
  iv_req : forall b r, R !! b = Some r -> req_ok d v b r;
  iv_dis : forall b b' r r' i, R !! b = Some r -> R !! b' = Some r' -> i ∈ idxs r -> i ∈ idxs r' -> b = b';
  iv_dom : forall i, in_range i -> is_Some (desc d !! i) /\ is_Some (info_b d !! i) /\ exists f, free d !! i = Some f /\ (f = 0 \/ f = 1);
  iv_free : forall i, free d !! i = Some 0 -> exists b r, R !! b = Some r /\ i ∈ idxs r;
}.

Record inv (d : disk) (v : gmap Z vbuf) (dv : vdev) (R : gmap Z req) : Prop := {
  iv_core : core d v R;
  iv_avail : exists q, queue (a_ring d) (last_avail dv) (a_idx d) q /\ phase_list R PAvail q;
  iv_taken : phase_list R PTaken (taken dv);
  iv_used : exists q, queue (u_ring d) (used_idx d) (u_idx d) q /\ phase_list R PDone q;
}.

(** Flags of constants. *)
Ltac eval_tst :=
  repeat match goal with
  | |- context [tst ?a ?b] =>
      let r := eval vm_compute in (tst a b) in
      lazymatch r with true => change (tst a b) with true | false => change (tst a b) with false end
  end.

(** ** Rings and phases *)

Lemma u16_mod8 x : u16 x mod NUM = x mod NUM.
Proof. unfold u16, NUM. dlia. Qed.

Lemma queue_empty buf r w q : queue buf r w q -> (r =? w) = bool_decide (q = []).
Proof.
  intros (H1 & H2 & ->). pose proof (rg_len _ _ _ _ H1) as Hl. unfold u16, NUM in *.
  destruct q; [rewrite bool_decide_true by done|rewrite bool_decide_false by done]; cbn [length] in *; [apply Z.eqb_eq|apply Z.eqb_neq]; dlia.
Qed.

Lemma queue_push buf r w q c : queue buf r w q -> Z.of_nat (length q) < NUM -> queue (ring_set NUM buf w c) r (u16 (w + 1)) (q ++ [c]).
Proof.
  intros (H1 & H2 & ->) Hl. split; [|split; [done|]].
  - rewrite (ring_set_mod _ _ (u16 (r + Z.of_nat (length q))) (r + Z.of_nat (length q))) by apply u16_mod8. by apply ring_push.
  - rewrite length_app. cbn [length]. unfold u16. rewrite Zplus_mod_idemp_l. f_equal. lia.
Qed.

Lemma queue_pop buf r w c q : queue buf r w (c :: q) -> ring_at NUM buf r = c /\ queue buf (u16 (r + 1)) w q.
Proof.
  intros (H1 & H2 & ->). destruct (ring_pop NUM eq_refl _ _ _ _ H1) as [Ec R1]. split; [done|]. split; [|split].
  - apply (ring_same NUM eq_refl _ (r + 1)); [done|apply u16_mod8].
  - unfold u16. by apply Z.mod_pos_bound.
  - cbn [length]. unfold u16. rewrite Zplus_mod_idemp_l. f_equal. lia.
Qed.

Section phases.
Implicit Types (R : gmap Z req) (l : list Z).

Definition heads_inj R : Prop := forall b b' r r', R !! b = Some r -> R !! b' = Some r' -> r_i0 r = r_i0 r' -> b = b'.

Lemma phase_add R b r l : R !! b = None -> (forall b' r', R !! b' = Some r' -> r_i0 r' <> r_i0 r) ->
  phase_list R (r_phase r) l -> phase_list (<[b := r]> R) (r_phase r) (l ++ [r_i0 r]).
Proof.
  intros Hb Hf [Hnd Hl]. split.
  - apply NoDup_app. split; [done|]. split; [|apply NoDup_singleton]. intros h Hh [= ->]%list_elem_of_singleton.
    apply Hl in Hh as (b' & r' & A1 & A2 & _). by apply (Hf b' r').
  - intros h. rewrite elem_of_app, list_elem_of_singleton, Hl. split.
    + intros [(b' & r' & A1 & A2)| ->]; [|exists b, r; by rewrite lookup_insert_eq]. exists b', r'. by rewrite lookup_insert_ne by congruence.
    + intros (b' & r' & A1 & A2 & A3). destruct (decide (b' = b)) as [->|]; [right; rewrite lookup_insert_eq in A1; congruence|left].
      rewrite lookup_insert_ne in A1 by done. eauto.
Qed.

(** A request that is not in phase [p] before or after. *)
Lemma phase_other R b r p l : r_phase r <> p -> (forall r', R !! b = Some r' -> r_phase r' <> p) -> phase_list R p l -> phase_list (<[b := r]> R) p l.
Proof.
  intros Hp Hb [Hnd Hl]. split; [done|]. intros h. rewrite Hl. split; intros (b' & r' & A1 & A2 & A3); exists b', r'.
  - rewrite lookup_insert_ne; [done|]. intros ->. by apply (Hb r').
  - destruct (decide (b' = b)) as [->|]; [rewrite lookup_insert_eq in A1; congruence|]. by rewrite lookup_insert_ne in A1.
Qed.

Lemma phase_leave R b r p l1 l2 : heads_inj R -> R !! b = Some r -> p <> r_phase r ->
  phase_list R (r_phase r) (l1 ++ r_i0 r :: l2) -> phase_list (<[b := in_phase p r]> R) (r_phase r) (l1 ++ l2).
Proof.
  intros Hi Hb Hp [Hnd Hl]. apply NoDup_app in Hnd as (N1 & N2 & N3). apply NoDup_cons in N3 as [N3 N4].
  assert (r_i0 r ∉ l1) as N5 by (intros Hx; apply (N2 _ Hx); set_solver). split.
  - apply NoDup_app. split_and!; [done| |done]. intros x Hx Hx2. apply (N2 x Hx). set_solver.
  - intros h. assert (h ∈ l1 ++ l2 <-> h ∈ l1 ++ r_i0 r :: l2 /\ h <> r_i0 r) as -> by (rewrite !elem_of_app, elem_of_cons; set_solver). rewrite Hl. split.
    + intros ((b' & r' & A1 & A2 & A3) & Hne). exists b', r'. rewrite lookup_insert_ne; [done|]. intros ->. congruence.
    + intros (b' & r' & A1 & A2 & A3). destruct (decide (b' = b)) as [->|Hne].
      { rewrite lookup_insert_eq in A1. injection A1 as <-. by cbn in A3. }
      rewrite lookup_insert_ne in A1 by done. split; [eauto|]. intros ->. apply Hne. by apply (Hi b' b r' r).
Qed.

Lemma phase_enter R b r p l : heads_inj R -> R !! b = Some r -> p <> r_phase r ->
  phase_list R p l -> phase_list (<[b := in_phase p r]> R) p (l ++ [r_i0 r]).
Proof.
  intros Hi Hb Hp [Hnd Hl]. split.
  - apply NoDup_app. split; [done|]. split; [|apply NoDup_singleton]. intros h Hh [= ->]%list_elem_of_singleton.
    apply Hl in Hh as (b' & r' & A1 & A2 & A3). assert (b' = b) as -> by by apply (Hi b' b r' r). congruence.
  - intros h. rewrite elem_of_app, list_elem_of_singleton, Hl. split.
    + intros [(b' & r' & A1 & A2 & A3)| ->].
      * exists b', r'. rewrite lookup_insert_ne by congruence. done.
      * exists b, (in_phase p r). by rewrite lookup_insert_eq.
    + intros (b' & r' & A1 & A2 & A3). destruct (decide (b' = b)) as [->|]; [right; rewrite lookup_insert_eq in A1; injection A1 as <-; by cbn in A2|left].
      rewrite lookup_insert_ne in A1 by done. eauto.
Qed.

Lemma phase_delete R b r p l : R !! b = Some r -> r_phase r <> p -> phase_list R p l -> phase_list (delete b R) p l.
Proof.
  intros Hb Hp [Hnd Hl]. split; [done|]. intros h. rewrite Hl. split; intros (b' & r' & A1 & A2 & A3); exists b', r'.
  - rewrite lookup_delete_ne by congruence. done.
  - apply lookup_delete_Some in A1 as [_ A1]. done.
Qed.

Lemma range_len l : NoDup l -> (forall h, h ∈ l -> in_range h) -> Z.of_nat (length l) <= NUM.
Proof.
  intros Hnd Hl. assert (length l <= length (map Z.of_nat (seq 0 8)))%nat as Hle; [|cbn in Hle; unfold NUM; lia].
  apply NoDup_incl_length; [by apply NoDup_ListNoDup|]. intros h Hh%list_elem_of_In. specialize (Hl h Hh). unfold in_range, NUM in Hl.
  apply in_map_iff. exists (Z.to_nat h). split; [lia|]. apply in_seq. lia.
Qed.

End phases.

(** ** What keeps the invariant *)

Section keep.
Implicit Types (d : disk) (v : gmap Z vbuf) (R : gmap Z req).

Lemma core_heads d v R : core d v R -> heads_inj R.
Proof. intros C b b' r r' H1 H2 E. apply (iv_dis _ _ _ C b b' r r' (r_i0 r)); [done|done|set_solver|rewrite E; set_solver]. Qed.

Lemma core_range d v R b r : core d v R -> R !! b = Some r -> in_range (r_i0 r).
Proof. intros C Hb. apply (ro_free _ _ _ _ (iv_req _ _ _ C b r Hb)). set_solver. Qed.

Lemma phase_len d v R p l : core d v R -> phase_list R p l -> Z.of_nat (length l) <= NUM.
Proof. intros C [Hnd Hl]. apply range_len; [done|]. intros h (b & r & A1 & <- & _)%Hl. by eapply core_range. Qed.

(** Each request uses three of the eight descriptors. *)
Lemma core_cover d v R l : core d v R -> (forall i, in_range i -> i ∈ l \/ free d !! i = Some 0) -> (8 <= length l + 3 * size R)%nat.
Proof.
  intros C Hall. set (L := l ++ concat (map (fun br => idxs br.2) (map_to_list R))).
  assert (length L = length l + 3 * size R)%nat as <-.
  { unfold L. rewrite length_app. f_equal. rewrite <- (length_map_to_list R). induction (map_to_list R) as [|x y IH]; [done|]. cbn [map concat]. rewrite length_app, IH. cbn. lia. }
  change 8%nat with (length (map Z.of_nat (seq 0 8))). apply NoDup_incl_length; [by apply NoDup_ListNoDup, (bool_decide_unpack _)|].
  intros i Hi. apply in_map_iff in Hi as (k & <- & Hk%in_seq). apply list_elem_of_In. unfold L. rewrite elem_of_app.
  destruct (Hall (Z.of_nat k)) as [|Hf]; [unfold in_range, NUM; lia|by left|right]. destruct (iv_free _ _ _ C _ Hf) as (b & r & Hb & Hi).
  apply list_elem_of_In, in_concat. exists (idxs r). split; [|by apply list_elem_of_In]. apply in_map_iff. exists (b, r). split; [done|]. by apply list_elem_of_In, elem_of_map_to_list.
Qed.

(** A request of another buffer does not see changes to the book-keeping of [b]. *)
Lemma req_ok_frame d v d' v' b r : req_ok d v b r ->
  (forall i, i ∈ idxs r -> desc d' !! i = desc d !! i /\ free d' !! i = free d !! i) ->
  ops d' !! r_i0 r = ops d !! r_i0 r -> info_b d' !! r_i0 r = info_b d !! r_i0 r -> info_status d' !! r_i0 r = info_status d !! r_i0 r ->
  v' !! b = v !! b -> req_ok d' v' b r.
Proof.
  intros [H1 H2 H3 H4 H5 H6 H7 H8 H9 H10] Hi E1 E2 E3 E4. unfold idxs in Hi. split; try done; rewrite ?E1, ?E2, ?E3, ?E4; try done.
  - intros i Hm. destruct (H2 i Hm) as [A1 A2]. split; [done|]. by rewrite (proj2 (Hi i Hm)).
  - by rewrite (proj1 (Hi (r_i0 r) ltac:(set_solver))).
  - by rewrite (proj1 (Hi (r_i1 r) ltac:(set_solver))).
  - by rewrite (proj1 (Hi (r_i2 r) ltac:(set_solver))).
Qed.

(** A request changes its phase. *)
Lemma core_move d v d' v' R b r p : core d v R -> R !! b = Some r ->
  desc d' = desc d -> free d' = free d -> ops d' = ops d -> info_b d' = info_b d ->
  (forall i, i <> r_i0 r -> info_status d' !! i = info_status d !! i) -> (forall b', b' <> b -> v' !! b' = v !! b') ->
  req_ok d' v' b (in_phase p r) -> core d' v' (<[b := in_phase p r]> R).
Proof.
  intros C Hb E1 E2 E3 E4 E5 E6 Hr. pose proof (core_heads _ _ _ C) as Hinj. destruct C as [C1 C2 C3 C4].
  assert (forall b1 r1, <[b := in_phase p r]> R !! b1 = Some r1 -> exists r0, R !! b1 = Some r0 /\ idxs r1 = idxs r0) as Hin.
  { intros b1 r1 H. destruct (decide (b1 = b)) as [->|]; [rewrite lookup_insert_eq in H; injection H as <-; by exists r|rewrite lookup_insert_ne in H by done; by exists r1]. }
  split.
  - intros b1 r1 H. destruct (decide (b1 = b)) as [->|Hne]; [rewrite lookup_insert_eq in H; by injection H as <-|]. rewrite lookup_insert_ne in H by done.
    apply (req_ok_frame d v); [by apply C1|by rewrite E1, E2|by rewrite E3|by rewrite E4| |by apply E6].
    apply E5. intros E. apply Hne. by apply (Hinj b1 b r1 r).
  - intros b1 b2 r1 r2 i (x1 & A1 & ->)%Hin (x2 & A2 & ->)%Hin. by apply (C2 b1 b2 x1 x2).
  - by rewrite E1, E2, E4.
  - intros i. rewrite E2. intros (b1 & r1 & A1 & A2)%C4. destruct (decide (b1 = b)) as [->|].
    + exists b, (in_phase p r). rewrite lookup_insert_eq. split; [done|]. replace r1 with r in A2 by congruence. done.
    + exists b1, r1. by rewrite lookup_insert_ne.
Qed.

Lemma inv_desc d v dv R l : inv d v dv R -> (forall i, i ∈ l -> in_range i /\ free d !! i = Some 1) -> inv (set_desc (mark zero_desc l (desc d)) d) v dv R.
Proof.
  intros [[C1 C2 C3 C4] I1 I2 I3] Hl. split; try done. split; try done.
  - intros b r Hb. apply (req_ok_frame d v); try done; [by apply C1|]. intros i Hi. split; [|done]. cbn. rewrite lookup_mark, decide_False; [done|].
    intros Hm. destruct (Hl i Hm) as [_ A]. destruct (ro_free _ _ _ _ (C1 b r Hb) i Hi). congruence.
  - intros i Hi. destruct (C3 i Hi) as (A1 & A2 & A3). split; [|done]. cbn. rewrite lookup_mark. destruct (decide (i ∈ l)); [eauto|done].
Qed.

Lemma inv_buf d v dv R b x : inv d v dv R -> R !! b = None -> inv d (<[b := x]> v) dv R.
Proof.
  intros [[C1 C2 C3 C4] I1 I2 I3] Hb. split; try done. split; try done. intros b1 r1 H1. apply (req_ok_frame d v); try done; [by apply C1|].
  rewrite lookup_insert_ne by congruence. done.
Qed.
End keep.

(** ** The driver's operations *)

Definition submitted (b : Z) (write : bool) (sector i0 i1 i2 : Z) (d : disk) : disk :=
  mkDisk (<[i2 := mkDesc (AStatus i0) 1 VRING_DESC_F_WRITE 0]>
      (<[i1 := mkDesc (AData b) BSIZE (Z.lor (if write then 0 else VRING_DESC_F_WRITE) VRING_DESC_F_NEXT) i2]>
      (<[i0 := mkDesc (AOps i0) sizeof_blk_req VRING_DESC_F_NEXT i1]> (desc d))))
    (u16 (a_idx d + 1)) (ring_set NUM (a_ring d) (a_idx d) i0) (u_idx d) (u_ring d) (free d) (used_idx d)
    (<[i0 := b]> (info_b d)) (<[i0 := 0xff]> (info_status d))
    (<[i0 := mkReq (if write then VIRTIO_BLK_T_OUT else VIRTIO_BLK_T_IN) 0 sector]> (ops d)).

Section operations.
Implicit Types (d : disk) (v : gmap Z vbuf) (R : gmap Z req).

Lemma inv_submit d v dv R b x write i0 i1 i2 : inv d v dv R -> R !! b = None -> NoDup [i0; i1; i2] ->
  (forall i, i ∈ [i0; i1; i2] -> in_range i /\ free d !! i = Some 1) -> v !! b = Some x -> 0 <= b_blockno x < 2 ^ 31 ->
  inv (submitted b write (2 * b_blockno x) i0 i1 i2 (set_free (mark 0 [i0; i1; i2] (free d)) d))
    (<[b := mkVbuf 1 (b_blockno x) (b_data x)]> v) dv (<[b := mkR i0 i1 i2 write (b_blockno x) PAvail]> R).
Proof.
  intros [C [q [Q1 Q2]] I2 [q' [Q3 Q4]]] Hb Hnd Hl Hx Hblk. set (r := mkR _ _ _ _ _ _).
  assert (forall b1 r1 i, R !! b1 = Some r1 -> i ∈ idxs r1 -> i ∉ [i0; i1; i2]) as Hdis.
  { intros b1 r1 i H1 Hi Hm. destruct (Hl i Hm) as [_ A]. destruct (ro_free _ _ _ _ (iv_req _ _ _ C b1 r1 H1) i Hi). congruence. }
  assert (i0 <> i1 /\ i0 <> i2 /\ i1 <> i2) as (N1 & N2 & N3).
  { apply NoDup_cons in Hnd as [A1 [A2 _]%NoDup_cons]. set_solver. }
  assert (core (submitted b write (2 * b_blockno x) i0 i1 i2 (set_free (mark 0 [i0; i1; i2] (free d)) d))
    (<[b := mkVbuf 1 (b_blockno x) (b_data x)]> v) (<[b := r]> R)) as C'.
  { destruct C as [C1 C2 C3 C4]. split.
    - intros b1 r1 H1. destruct (decide (b1 = b)) as [->|Hne].
      + rewrite lookup_insert_eq in H1. injection H1 as <-. split; cbn; try done.
        * intros i Hi. split; [by apply Hl|]. change (mark 0 [i0; i1; i2] (free d) !! i = Some 0). by rewrite lookup_mark, decide_True.
        * by rewrite !lookup_insert_ne, lookup_insert_eq by done.
        * by rewrite lookup_insert_ne, lookup_insert_eq by done.
        * by rewrite lookup_insert_eq.
        * by rewrite lookup_insert_eq.
        * by rewrite lookup_insert_eq.
        * by rewrite lookup_insert_eq.
        * exists (b_data x). by rewrite lookup_insert_eq.
      + rewrite lookup_insert_ne in H1 by done. assert (r_i0 r1 ∉ [i0; i1; i2]) as Hd by (apply (Hdis b1 r1); set_solver).
        apply (req_ok_frame d v); [by apply C1| | | | |]; cbn [submitted desc free ops info_b info_status set_free].
        * intros i Hi. specialize (Hdis b1 r1 i H1 Hi). rewrite lookup_mark, decide_False by done. by rewrite !lookup_insert_ne by set_solver.
        * by rewrite lookup_insert_ne by set_solver.
        * by rewrite lookup_insert_ne by set_solver.
        * by rewrite lookup_insert_ne by set_solver.
        * by rewrite lookup_insert_ne by congruence.
    - intros b1 b2 r1 r2 i H1 H2 A1 A2. destruct (decide (b1 = b)) as [->|], (decide (b2 = b)) as [->|]; try done.
      + rewrite lookup_insert_eq in H1. rewrite lookup_insert_ne in H2 by done. injection H1 as <-. by destruct (Hdis b2 r2 i H2 A2).
      + rewrite lookup_insert_eq in H2. rewrite lookup_insert_ne in H1 by done. injection H2 as <-. by destruct (Hdis b1 r1 i H1 A1).
      + rewrite lookup_insert_ne in H1, H2 by done. by apply (C2 b1 b2 r1 r2 i).
    - intros i Hi. destruct (C3 i Hi) as (A1 & A2 & f & A3 & A4). cbn [submitted desc free info_b set_free]. rewrite !lookup_insert_is_Some, lookup_mark.
      split; [|split]; [destruct (decide (i2 = i)), (decide (i1 = i)), (decide (i0 = i)); tauto|destruct (decide (i0 = i)); tauto|].
      destruct (decide (i ∈ [i0; i1; i2])); eauto.
    - intros i. cbn [submitted free set_free]. rewrite lookup_mark. destruct (decide (i ∈ [i0; i1; i2])) as [Hi|Hi].
      + exists b, r. by rewrite lookup_insert_eq.
      + intros (b1 & r1 & A1 & A2)%C4. exists b1, r1. by rewrite lookup_insert_ne by congruence. }
  assert (phase_list (<[b := r]> R) PAvail (q ++ [i0])) as Q2'.
  { apply (phase_add R b r); [done| |done]. intros b1 r1 H1 E. apply (Hdis b1 r1 (r_i0 r1) H1); [set_solver|]. rewrite E. cbn. set_solver. }
  pose proof (phase_len _ _ _ _ _ C' Q2') as Hlen. rewrite length_app in Hlen. cbn in Hlen. split; [done| | |].
  - exists (q ++ [i0]). split; [|done]. cbn. apply queue_push; [done|lia].
  - apply phase_other; [done|by rewrite Hb|done].
  - exists q'. split; [done|]. apply phase_other; [done|by rewrite Hb|done].
Qed.

(** The device takes a request. *)
Lemma inv_take d v dv R : inv d v dv R -> last_avail dv <> a_idx d ->
  exists b r, R !! b = Some r /\ r_phase r = PAvail /\
    inv d v (mkDev (u16 (last_avail dv + 1)) (taken dv ++ [ring_at NUM (a_ring d) (last_avail dv)]) (sectors dv)) (<[b := in_phase PTaken r]> R).
Proof.
  intros [C [q [Q1 Q2]] I2 [q' [Q3 Q4]]] Hne. pose proof (queue_empty _ _ _ _ Q1) as He. rewrite (proj2 (Z.eqb_neq _ _) Hne) in He.
  destruct q as [|h q]; [by rewrite bool_decide_true in He|]. destruct (queue_pop _ _ _ _ _ Q1) as [-> Q1'].
  destruct (proj1 (proj2 Q2 h)) as (b & r & Hb & Eh & Ep); [set_solver|]. exists b, r. split; [done|]. split; [done|]. subst h.
  pose proof (core_heads _ _ _ C) as Hinj. split; cbn.
  - apply (core_move d v); try done. destruct (iv_req _ _ _ C b r Hb) as [H1 H2 H3 H4 H5 H6 H7 H8 H9 H10]. rewrite Ep in *. by split.
  - exists q. split; [done|]. rewrite <- Ep in Q2 |- *. apply (phase_leave R b r PTaken []); [done|done|by rewrite Ep|done].
  - apply phase_enter; [done|done|by rewrite Ep|done].
  - exists q'. split; [done|]. apply phase_other; [done| |done]. intros r' Hr. assert (r' = r) as -> by congruence. by rewrite Ep.
Qed.

(** The interrupt handler's turn. *)
Definition acked (d : disk) : disk := set_used_idx (u16 (used_idx d + 1)) d.

Lemma inv_ack d v dv R : inv d v dv R -> used_idx d <> u_idx d ->
  exists b r x, let id := ring_at NUM (u_ring d) (used_idx d) in
    info_status d !! id = Some 0 /\ info_b d !! id = Some b /\ R !! b = Some r /\ r_phase r = PDone /\ v !! b = Some x /\
    inv (acked d) (<[b := mkVbuf 0 (b_blockno x) (b_data x)]> v) dv (<[b := in_phase PAcked r]> R).
Proof.
  intros [C [q [Q1 Q2]] I2 [q' [Q3 Q4]]] Hne. pose proof (queue_empty _ _ _ _ Q3) as He. rewrite (proj2 (Z.eqb_neq _ _) Hne) in He.
  destruct q' as [|h q']; [by rewrite bool_decide_true in He|]. destruct (queue_pop _ _ _ _ _ Q3) as [-> Q3'].
  destruct (proj1 (proj2 Q4 h)) as (b & r & Hb & Eh & Ep); [set_solver|]. subst h. destruct (iv_req _ _ _ C b r Hb) as [H1 H2 H3 H4 H5 H6 H7 H8 [x H9] H10].
  rewrite Ep in *. cbn in H8. pose proof (core_heads _ _ _ C) as Hinj.
  eexists b, r, _. cbn zeta. split; [done|]. split; [done|]. split; [done|]. split; [done|]. split; [exact H9|].
  assert (forall r', R !! b = Some r' -> r' = r) as Hu by congruence. split; cbn.
  - apply (core_move d v); try done; [intros b' Hb'; by rewrite lookup_insert_ne|]. split; try done. cbn. exists x. by rewrite lookup_insert_eq.
  - exists q. split; [done|]. apply phase_other; [done| |done]. intros r' ->%Hu. by rewrite Ep.
  - apply phase_other; [done| |done]. intros r' ->%Hu. by rewrite Ep.
  - exists q'. split; [done|]. rewrite <- Ep in Q4 |- *. apply (phase_leave R b r PAcked []); [done|done|by rewrite Ep|done].
Qed.

Definition dev_result (write : bool) (b blk : Z) (data : list Z) v (sec : Z -> list Z) : gmap Z vbuf * (Z -> list Z) :=
  if write then (v, sec_write sec (2 * blk) data) else (<[b := mkVbuf 1 blk (sec_read sec (2 * blk))]> v, sec).

(** The chains the driver builds are well formed. *)
Lemma dev_exec_ok d v sec b r x : req_ok d v b r -> v !! b = Some (mkVbuf 1 (r_blk r) x) ->
  dev_exec d v sec (r_i0 r) = Some (set_info_status (<[r_i0 r := 0]> (info_status d)) d,
    (dev_result (r_write r) b (r_blk r) x v sec).1, (dev_result (r_write r) b (r_blk r) x v sec).2).
Proof.
  intros [H1 H2 H3 H4 H5 H6 H7 H8 H9 H10] Hx. unfold dev_exec, chain_of, dev_result. rewrite H3.
  revert H4 H6. destruct (r_write r); intros H4 H6; cbn; rewrite H4; eval_tst; cbn; eval_tst; rewrite H5; cbn; rewrite H6; cbn; eval_tst; cbn; rewrite Hx; cbn; by eval_tst.
Qed.

Lemma inv_finish d v dv R l1 h l2 : inv d v dv R -> taken dv = l1 ++ h :: l2 ->
  exists b r x, let '(v', sec') := dev_result (r_write r) b (r_blk r) x v (sectors dv) in
    R !! b = Some r /\ r_phase r = PTaken /\ v !! b = Some (mkVbuf 1 (r_blk r) x) /\ h = r_i0 r /\
    let d' := set_info_status (<[h := 0]> (info_status d)) d in
    inv (set_used (u16 (u_idx d + 1)) (ring_set NUM (u_ring d) (u_idx d) h) d') v' (mkDev (last_avail dv) (l1 ++ l2) sec') (<[b := in_phase PDone r]> R).
Proof.
  intros [C [q [Q1 Q2]] I2 [q' [Q3 Q4]]] Et. rewrite Et in I2. destruct (proj1 (proj2 I2 h)) as (b & r & Hb & Eh & Ep); [set_solver|]. subst h.
  pose proof (iv_req _ _ _ C b r Hb) as Hr. destruct (ro_buf _ _ _ _ Hr) as [x Hx]. rewrite Ep in Hx. exists b, r, x.
  pose proof (core_heads _ _ _ C) as Hinj. assert (forall r', R !! b = Some r' -> r' = r) as Hu by congruence.
  destruct (dev_result (r_write r) b (r_blk r) x v (sectors dv)) as [v' sec'] eqn:Ev. split; [done|]. split; [done|]. split; [done|]. split; [done|]. cbn zeta.
  assert ((forall b', b' <> b -> v' !! b' = v !! b') /\ exists x', v' !! b = Some (mkVbuf 1 (r_blk r) x')) as [Hv1 [x' Hv2]].
  { unfold dev_result in Ev. destruct (r_write r); injection Ev as <- <-; [by eauto|]. split; [intros b' Hb'; by rewrite lookup_insert_ne|].
    rewrite lookup_insert_eq. eauto. }
  assert (phase_list (<[b := in_phase PDone r]> R) PDone (q' ++ [r_i0 r])) as Q4' by (apply phase_enter; [done|done|by rewrite Ep|done]).
  assert (core (set_used (u16 (u_idx d + 1)) (ring_set NUM (u_ring d) (u_idx d) (r_i0 r)) (set_info_status (<[r_i0 r := 0]> (info_status d)) d)) v' (<[b := in_phase PDone r]> R)) as C'.
  { apply (core_move d v); try done; [intros i Hi; cbn; by rewrite lookup_insert_ne|]. destruct Hr as [H1 H2 H3 H4 H5 H6 H7 H8 H9 H10]. split; cbn; try done; [by rewrite lookup_insert_eq|eauto]. }
  pose proof (phase_len _ _ _ _ _ C' Q4') as Hlen. rewrite length_app in Hlen. cbn in Hlen. split; [done| | |].
  - exists q. split; [done|]. apply phase_other; [done| |done]. intros r' ->%Hu. by rewrite Ep.
  - cbn. rewrite <- Ep in I2 |- *. apply phase_leave; [done|done|by rewrite Ep|done].
  - exists (q' ++ [r_i0 r]). split; [|done]. cbn. apply queue_push; [done|lia].
Qed.

(** The chain of a request that has been answered is given back. *)
Definition returned (r : req) (d : disk) : disk :=
  set_free (mark 1 (idxs r) (free d)) (set_desc (mark zero_desc (idxs r) (desc d)) (set_info_b (<[r_i0 r := 0]> (info_b d)) d)).

Lemma inv_return d v dv R b r : inv d v dv R -> R !! b = Some r -> r_phase r = PAcked -> inv (returned r d) v dv (delete b R).
Proof.
  intros [C [q [Q1 Q2]] I2 [q' [Q3 Q4]]] Hb Ep. assert (forall p, p <> PAcked -> r_phase r <> p) as Hp by congruence.
  assert (forall b1 r1 i, delete b R !! b1 = Some r1 -> i ∈ idxs r1 -> i ∉ idxs r) as Hdis.
  { intros b1 r1 i [Hne H1]%lookup_delete_Some Hi Hm. apply Hne. by apply (iv_dis _ _ _ C b b1 r r1 i). }
  split; [|exists q; split; [done|]|cbn|exists q'; split; [done|]]; try (eapply phase_delete; [done|by apply Hp|done]).
  destruct C as [C1 C2 C3 C4]. split.
  - intros b1 r1 H1. pose proof H1 as [Hne H1']%lookup_delete_Some. assert (r_i0 r1 ∉ idxs r) as Hd by (apply (Hdis b1 r1); [done|set_solver]).
    apply (req_ok_frame d v); [by apply C1| |done| |done|done]; cbn [returned desc free info_b set_free set_desc set_info_b].
    + intros i Hi. specialize (Hdis b1 r1 i H1 Hi). by rewrite !lookup_mark, !decide_False by done.
    + rewrite lookup_insert_ne; [done|]. intros E. apply Hd. rewrite <- E. set_solver.
  - intros b1 b2 r1 r2 i [_ H1]%lookup_delete_Some [_ H2]%lookup_delete_Some. by apply (C2 b1 b2 r1 r2 i).
  - intros i Hi. destruct (C3 i Hi) as (A1 & A2 & f & A3 & A4). cbn [returned desc free info_b set_free set_desc set_info_b]. rewrite !lookup_mark, lookup_insert_is_Some.
    split; [destruct (decide (i ∈ idxs r)); eauto|]. split; [destruct (decide (r_i0 r = i)); tauto|]. destruct (decide (i ∈ idxs r)); eauto.
  - intros i. cbn [returned free set_free]. rewrite lookup_mark. destruct (decide (i ∈ idxs r)) as [Hi|Hi]; [done|]. intros (b1 & r1 & A1 & A2)%C4. exists b1, r1.
    split; [|done]. apply lookup_delete_Some. split; [|done]. intros <-. congruence.
Qed.
End operations.

Section calls.
Context {S : Type} `{VO : VirtioOk S}.
Implicit Types (s : vst S) (R : gmap Z req).

(** What of the requests the abstract machine and the processes see. *)
Definition areq (r : req) : Z * bool * bool := (r_blk r, r_write r, finished (r_phase r)).

Lemma wp_upd f s (Q : unit -> vst S -> Prop) : (forall s', now s (f (dsk s)) (vbufs s) s' -> Q tt s') -> wp (updd f) Q s.
Proof. intros HQ. by apply wp_updd, HQ. Qed.

Lemma rw_submit_ok b write sector i0 i1 i2 s x : vbufs s !! b = Some x ->
  wp (rw_submit b write sector i0 i1 i2) (fun _ s' =>
    now s (submitted b write sector i0 i1 i2 (dsk s)) (<[b := mkVbuf 1 (b_blockno x) (b_data x)]> (vbufs s)) s') s.
Proof.
  intros Hx. unfold rw_submit.
  apply wp_bind, wp_upd. intros s1 (D1 & V1 & H1). apply wp_bind, wp_upd. intros s2 (D2 & V2 & H2). apply wp_bind, wp_upd. intros s3 (D3 & V3 & H3).
  apply wp_bind, wp_upd. intros s4 (D4 & V4 & H4). apply wp_bind, wp_upd. intros s5 (D5 & V5 & H5).
  apply wp_bind. unfold set_bdisk. apply wp_bind. eapply wp_getbuf; [rewrite V5, V4, V3, V2, V1; exact Hx|].
  apply wp_modify. set (s6 := mkV (venv s5) _ _). assert (now s5 (dsk s5) (<[b := mkVbuf 1 (b_blockno x) (b_data x)]> (vbufs s5)) s6) as (D6 & V6 & H6) by done. clearbody s6.
  apply wp_bind, wp_upd. intros s7 (D7 & V7 & H7). apply wp_bind, wp_upd. intros s8 (D8 & V8 & H8). apply wp_bind, wp_upd. intros s9 (D9 & V9 & H9).
  apply wp_hw; [apply v_write|]. intros _ s' (E1 & E2 & E3). split; [|split; congruence].
  destruct (dsk s) as [x1 x2 x3 x4 x5 x6 x7 x8 x9 x10]. cbn in D1. rewrite D1 in D2. cbn in D2. rewrite D2 in D3. cbn in D3. rewrite D3 in D4. cbn in D4.
  rewrite D4 in D5. cbn in D5. rewrite D6, D5 in D7. cbn in D7. rewrite D7 in D8. cbn in D8. rewrite D8 in D9. cbn in D9. by rewrite E1, D9.
Qed.

(** Taking and leaving the driver's lock. *)
Lemma wp_locked {A} (m : M (vst S) A) s (P : A -> vst S -> Prop) : VDISK_LOCK ∉ held s ->
  (forall s1, now s (dsk s) (vbufs s) (set_held (held s) s1) -> dsk s1 = dsk s -> vbufs s1 = vbufs s -> held s1 = {[VDISK_LOCK]} ∪ held s -> wp m P s1) ->
  wp (acquire VDISK_LOCK;; m) P s.
Proof.
  intros Hn Hm. apply wp_bind, wp_acquire; [done|]. apply Hm; [|done|done|apply held_set]. split; [done|]. split; [done|]. apply held_set.
Qed.
Lemma wp_leave {A} (a : A) s0 s (Q : A -> vst S -> Prop) : VDISK_LOCK ∉ held s0 -> held s = {[VDISK_LOCK]} ∪ held s0 ->
  (forall s', dsk s' = dsk s -> vbufs s' = vbufs s -> held s' = held s0 -> Q a s') -> wp (release VDISK_LOCK;; mret a) Q s.
Proof.
  intros Hn Hh HQ. apply wp_bind, wp_release; [rewrite Hh; set_solver|]. rewrite Hh, held_acq_rel by done. apply wp_ret, HQ; [done|done|apply held_set].
Qed.

(** A call sleeps for want of descriptors, with nothing changed, or submits its request. *)
Lemma rw_ok b write s x dv R : inv (dsk s) (vbufs s) dv R -> VDISK_LOCK ∉ held s -> R !! b = None -> vbufs s !! b = Some x -> 0 <= b_blockno x < 2 ^ 31 ->
  wp (virtio_disk_rw b write) (fun pc s' => held s' = held s /\ abuf <$> vbufs s' = abuf <$> vbufs s /\
    match pc with
    | RwWaitDesc => inv (dsk s') (vbufs s') dv R /\ (2 <= size R)%nat
    | RwWaitDone i0 => exists i1 i2, inv (dsk s') (vbufs s') dv (<[b := mkR i0 i1 i2 write (b_blockno x) PAvail]> R)
    | RwReturn => False
    end) s.
Proof.
  intros I Hn Hb Hx Hblk. unfold virtio_disk_rw. apply wp_bind. eapply wp_getbuf; [exact Hx|]. cbv zeta.
  assert (u32 (b_blockno x * (BSIZE / 512)) = 2 * b_blockno x) as -> by (change (BSIZE / 512) with 2; unfold u32; rewrite Z.mod_small; lia).
  apply wp_locked; [done|]. intros s1 _ E1 E2 E3. pose proof (iv_core _ _ _ _ I) as C. apply wp_bind. eapply wp_mono.
  { apply (alloc_more_ok s1 3); [|by destruct s1 as [? [] ?]|apply NoDup_nil_2|set_solver].
    intros i Hi. rewrite E1. destruct (iv_dom _ _ _ C i Hi) as (A1 & _ & A3). done. }
  cbn beta. intros [l|] s2.
  - intros (Hl & Hnd & Hf & D2 & V2 & H2). destruct l as [|i0 [|i1 [|i2 []]]]; try done. rewrite E1 in D2, Hf. rewrite E2 in V2.
    apply wp_bind. eapply wp_mono; [apply (rw_submit_ok _ _ _ _ _ _ s2 x); by rewrite V2|]. cbn beta. intros _ s3 (D3 & V3 & H3). rewrite D2, V2 in *.
    unfold rw_wait. apply wp_bind. eapply wp_getbuf; [rewrite V3; apply lookup_insert_eq|]. cbn [b_disk Z.eqb Pos.eqb].
    apply (wp_leave _ s); [done|by rewrite H3, H2|]. intros s4 D4 V4 H4. split; [done|]. rewrite V4, V3. split.
    + rewrite fmap_insert, insert_id; [done|]. by rewrite lookup_fmap, Hx.
    + exists i1, i2. rewrite D4, D3. by apply inv_submit.
  - intros (l & Hl & Hlen & Hall & D2 & V2 & H2). rewrite E1 in D2, Hl, Hall. apply (wp_leave _ s); [done|by rewrite H2|]. intros s4 D4 V4 H4.
    rewrite V4, V2, E2, D4, D2. split; [done|]. split; [done|]. split; [by apply inv_desc|].
    assert (8 <= length l + 3 * size R)%nat; [|cbn in Hlen; lia]. apply (core_cover _ _ _ _ C). intros i Hi. destruct (Hall i Hi); [by left|right; done].
Qed.

Lemma free_chain_ok s d0 v b r : req_ok d0 v b r -> desc (dsk s) = desc d0 -> free (dsk s) = free d0 ->
  wp (free_chain (r_i0 r)) (fun _ s' => now s (set_free (mark 1 (idxs r) (free (dsk s))) (set_desc (mark zero_desc (idxs r) (desc (dsk s))) (dsk s))) (vbufs s) s') s.
Proof.
  intros [H1 H2 H3 H4 H5 _ _ _ _ _] Ed Ef. rewrite <- Ed in H3, H4, H5. rewrite <- Ef in H2. assert (r_i0 r <> r_i1 r /\ r_i0 r <> r_i2 r /\ r_i1 r <> r_i2 r) as (N1 & N2 & N3).
  { unfold idxs in H1. apply NoDup_cons in H1 as [A1 [A2 _]%NoDup_cons]. set_solver. }
  assert (forall i, i ∈ idxs r -> i < NUM /\ free (dsk s) !! i = Some 0) as Hf by (intros i Hi; destruct (H2 i Hi) as [? ?]; unfold in_range in *; split; [lia|done]).
  destruct (Hf (r_i0 r) ltac:(set_solver)) as [A1 F1]. destruct (Hf (r_i1 r) ltac:(set_solver)) as [A2 F2]. destruct (Hf (r_i2 r) ltac:(set_solver)) as [A3 F3].
  unfold free_chain. change (Z.to_nat NUM + 1)%nat with 9%nat. cbn [loop]. apply wp_bind, wp_bind. eapply wp_elem; [exact H3|]. apply wp_bind.
  eapply wp_mono; [by eapply free_desc_ok|]. cbn beta. intros _ s1 (D1 & V1 & L1). apply wp_ret. cbn [d_flags d_next]. eval_tst.
  apply wp_bind, wp_bind. eapply wp_elem; [rewrite D1; cbn; rewrite lookup_insert_ne by done; exact H4|]. apply wp_bind.
  eapply wp_mono; [eapply free_desc_ok; [done|rewrite D1; cbn; by rewrite lookup_insert_ne|rewrite D1; cbn; rewrite lookup_insert_ne by done; exact H4]|].
  cbn beta. intros _ s2 (D2 & V2 & L2). apply wp_ret. cbn [d_flags d_next].
  assert (tst (Z.lor (if r_write r then 0 else VRING_DESC_F_WRITE) VRING_DESC_F_NEXT) VRING_DESC_F_NEXT = true) as -> by by destruct (r_write r).
  apply wp_bind, wp_bind. eapply wp_elem; [rewrite D2, D1; cbn; rewrite !lookup_insert_ne by done; exact H5|]. apply wp_bind.
  eapply wp_mono; [eapply free_desc_ok; [done|rewrite D2, D1; cbn; by rewrite !lookup_insert_ne|rewrite D2, D1; cbn; rewrite !lookup_insert_ne by done; exact H5]|].
  cbn beta. intros _ s3 (D3 & V3 & L3). apply wp_ret. cbn [d_flags d_next]. eval_tst. apply wp_ret.
  split; [|split; congruence]. rewrite D3, D2, D1. unfold freed, set_free, set_desc, idxs, mark. cbn [desc free a_idx a_ring u_idx u_ring used_idx info_b info_status ops foldr].
  f_equal; rewrite (insert_insert_ne _ (r_i2 r) (r_i1 r)), (insert_insert_ne _ (r_i2 r) (r_i0 r)), (insert_insert_ne _ (r_i1 r) (r_i0 r)) by done; done.
Qed.

Lemma resume_ok b r s dv R : inv (dsk s) (vbufs s) dv R -> VDISK_LOCK ∉ held s -> R !! b = Some r ->
  wp (virtio_disk_rw_resume b (r_i0 r)) (fun pc s' => held s' = held s /\ vbufs s' = vbufs s /\
    match pc with
    | RwWaitDesc => False
    | RwWaitDone i0 => i0 = r_i0 r /\ dsk s' = dsk s /\ r_phase r <> PAcked
    | RwReturn => r_phase r = PAcked /\ inv (dsk s') (vbufs s') dv (delete b R)
    end) s.
Proof.
  intros I Hn Hb. pose proof (iv_req _ _ _ (iv_core _ _ _ _ I) b r Hb) as Hr. destruct (ro_buf _ _ _ _ Hr) as [x Hx].
  unfold virtio_disk_rw_resume. apply wp_locked; [done|]. intros s1 _ E1 E2 E3. unfold rw_wait. apply wp_bind. eapply wp_getbuf; [by rewrite E2|]. cbn [b_disk].
  destruct (decide (r_phase r = PAcked)) as [Ep|Ep].
  - rewrite Ep. cbn [Z.eqb]. apply wp_bind. eapply wp_elem; [rewrite E1; apply Hr|]. apply wp_bind, wp_updd, wp_bind.
    eapply wp_mono; [eapply (free_chain_ok _ (dsk s) (vbufs s) b r); [done|cbn; by rewrite E1..]|].
    cbn beta. intros _ s2 (D2 & V2 & H2). apply (wp_leave _ s); [done|exact (eq_trans H2 E3)|]. intros s3 D3 V3 H3.
    cbn in D2, V2. split; [done|]. rewrite V3, V2, E2. split; [done|]. split; [done|]. rewrite D3, D2, E1. by apply (inv_return _ _ _ R b r).
  - assert (((match r_phase r with PAcked => 0 | _ => 1 end) =? 1) = true) as -> by by destruct (r_phase r).
    apply (wp_leave _ s); [done|done|]. intros s2 D2 V2 H2. split; [done|]. split; [congruence|]. split; [done|]. split; [congruence|done].
Qed.

(** The interrupt handler acknowledges what the device has finished; the abstract requests and
    the buffers' contents stay. *)
Lemma intr_ok s dv R : inv (dsk s) (vbufs s) dv R -> VDISK_LOCK ∉ held s ->
  wp virtio_disk_intr (fun _ s' => held s' = held s /\ abuf <$> vbufs s' = abuf <$> vbufs s /\
    exists R', inv (dsk s') (vbufs s') dv R' /\ r_i0 <$> R' = r_i0 <$> R /\ areq <$> R' = areq <$> R /\ phase_list R' PDone [] /\
      a_idx (dsk s') = a_idx (dsk s)) s.
Proof.
  intros I Hn. unfold virtio_disk_intr. apply wp_locked; [done|]. intros s1 _ E1 E2 E3.
  apply wp_bind, wp_hw; [apply v_read|]. intros st s2 (D2 & V2 & H2). apply wp_bind, wp_hw; [apply v_write|]. intros _ s3 (D3 & V3 & H3). apply wp_bind.
  set (J := fun s' => held s' = {[VDISK_LOCK]} ∪ held s /\ abuf <$> vbufs s' = abuf <$> vbufs s /\
    exists R', inv (dsk s') (vbufs s') dv R' /\ r_i0 <$> R' = r_i0 <$> R /\ areq <$> R' = areq <$> R /\ a_idx (dsk s') = a_idx (dsk s)).
  eapply (wp_mono _ (fun _ s' => J s' /\ used_idx (dsk s') = u_idx (dsk s'))).
  - apply (wp_loop _ (fun _ => J) (fun _ s' => Z.to_nat (u16 (u_idx (dsk s') - used_idx (dsk s'))))).
    + intros _ s4 (H4 & V4 & R4 & I4 & A4 & B4 & Z4). unfold intr_turn, getd. apply wp_bind, wp_gets. destruct (Z.eqb_spec (used_idx (dsk s4)) (u_idx (dsk s4))) as [Eq|Ne].
      { apply wp_ret. split; [|done]. split_and!; eauto 7. }
      destruct (inv_ack _ _ _ _ I4 Ne) as (b & r & x & K1 & K2 & K3 & K4 & K5 & K6). cbv zeta. apply wp_bind. eapply wp_elem; [exact K1|]. cbn [Z.eqb negb].
      apply wp_bind. eapply wp_elem; [exact K2|]. apply wp_bind. unfold set_bdisk. apply wp_bind. eapply wp_getbuf; [exact K5|]. apply wp_modify.
      apply wp_bind, wp_hw; [apply v_wakeup|]. intros _ s5 (D5 & V5 & H5). apply wp_bind, wp_updd, wp_ret. cbn [dsk vbufs] in *. unfold J. cbn [dsk vbufs]. rewrite D5, V5. split.
      * split; [exact (eq_trans H5 H4)|]. split; [rewrite fmap_insert, insert_id; [done|by rewrite lookup_fmap, K5]|].
        exists (<[b := in_phase PAcked r]> R4). split; [exact K6|].
        split; [rewrite fmap_insert, insert_id; [done|by rewrite lookup_fmap, K3]|]. split; [|done].
        rewrite fmap_insert, insert_id; [done|]. rewrite lookup_fmap, K3. cbn. unfold areq. cbn. by rewrite K4.
      * cbn [u_idx used_idx acked set_used_idx]. destruct (iv_used _ _ _ _ I4) as (q & (Q1 & Q2 & Q3) & _). pose proof (rg_len _ _ _ _ Q1).
        rewrite Q3 in *. unfold u16, NUM in *. dlia.
    + split; [exact (eq_trans H3 (eq_trans H2 E3))|]. rewrite V3, V2, E2. split; [done|]. exists R. rewrite D3, D2, E1. done.
    + unfold u16. apply Z2Nat.inj_lt; [by apply Z.mod_pos_bound|done|by apply Z.mod_pos_bound].
  - cbn beta. intros _ s4 ((H4 & V4 & R4 & I4 & A4 & B4 & Z4) & Eu). apply wp_release; [rewrite H4; set_solver|]. rewrite H4, held_acq_rel by done.
    split; [apply held_set|]. split; [done|]. exists R4. split; [done|]. split; [done|]. split; [done|]. split; [|done]. destruct (iv_used _ _ _ _ I4) as (q & Q1 & Q2).
    pose proof (queue_empty _ _ _ _ Q1) as He. rewrite Eu, Z.eqb_refl in He. symmetry in He. apply bool_decide_eq_true in He as ->. done.
Qed.
End calls.

(** ** The simulation *)

Section refines.
Context {S : Type} `{VO : VirtioOk S} (devstep : world S -> world S -> Prop).
Context (Hdev : forall w w', devstep w w' -> device_spec w w').
Implicit Types (w : world S) (a : astate) (R : gmap Z req).

Record rel w a R : Prop := {
  rl_inv : inv (dsk (drv w)) (vbufs (drv w)) (dev w) R;
  rl_lock : VDISK_LOCK ∉ held (drv w);
  rl_flight : flight w = r_i0 <$> R;
  rl_blocks : forall n, 0 <= n < 2 ^ 31 -> blocks a n = sec_read (sectors (dev w)) (2 * n);
  rl_bufs : abufs a = abuf <$> vbufs (drv w);
  rl_reqs : areqs a = areq <$> R;
}.

Lemma rel_same w a R : rel w a R -> same w a.
Proof. intros [H1 H2 H3 H4 H5 H6]. split; [done|done|]. by rewrite H6, H3, !dom_fmap_L. Qed.

Lemma flight_none w a R b : rel w a R -> flight w !! b = None -> R !! b = None.
Proof. intros Hr. rewrite (rl_flight _ _ _ Hr), lookup_fmap. by destruct (R !! b). Qed.
Lemma flight_some w a R b i : rel w a R -> flight w !! b = Some i -> exists r, R !! b = Some r /\ r_i0 r = i.
Proof. intros Hr. rewrite (rl_flight _ _ _ Hr), lookup_fmap. destruct (R !! b) as [r|]; [|done]. cbn. intros [= <-]. eauto. Qed.

(** A block is two sectors; writing one leaves the others. *)
Lemma sec_write_block sec n m x : sec_read (sec_write sec (2 * n) x) (2 * m) = if m =? n then x else sec_read sec (2 * m).
Proof.
  unfold sec_read, sec_write. destruct (Z.eqb_spec m n) as [->|Hne].
  - rewrite Z.eqb_refl. rewrite (proj2 (Z.eqb_neq (2 * n + 1) (2 * n))) by lia. rewrite Z.eqb_refl. apply take_drop.
  - rewrite !(proj2 (Z.eqb_neq _ _)) by lia. done.
Qed.

Lemma sim_finish w a R l1 h l2 d' v' sec' : rel w a R -> taken (dev w) = l1 ++ h :: l2 ->
  dev_exec (dsk (drv w)) (vbufs (drv w)) (sectors (dev w)) h = Some (d', v', sec') ->
  exists a' R', astep None a a' /\ rel (set_drv (set_used (u16 (u_idx d' + 1)) (ring_set NUM (u_ring d') (u_idx d') h) d') v' (mkDev (last_avail (dev w)) (l1 ++ l2) sec') w) a' R'.
Proof.
  intros Hr Ht Hx. destruct (inv_finish _ _ _ _ _ _ _ (rl_inv _ _ _ Hr) Ht) as (b & r & x & Hf).
  destruct (dev_result _ _ _ _ _ _) as [v1 sec1] eqn:Er. destruct Hf as (Hb & Hp & Hv & -> & I).
  pose proof (iv_req _ _ _ (iv_core _ _ _ _ (rl_inv _ _ _ Hr)) b r Hb) as Hok. rewrite (dev_exec_ok _ _ _ _ _ _ Hok Hv), Er in Hx. injection Hx as <- <- <-.
  destruct a as [f v q]. destruct Hr as [_ Hl Hfl Hbk Hbf Hrq]. cbn in Hbk, Hbf, Hrq. subst v q. pose proof (ro_blk _ _ _ _ Hok) as Hblk.
  assert ((areq <$> R) !! b = Some (r_blk r, r_write r, false)) as Hq by (rewrite lookup_fmap, Hb; cbn; unfold areq; by rewrite Hp).
  assert ((abuf <$> vbufs (drv w)) !! b = Some (r_blk r, x)) as Hv' by (rewrite lookup_fmap, Hv; done).
  assert (r_i0 <$> <[b := in_phase PDone r]> R = r_i0 <$> R) as EF by (rewrite fmap_insert, insert_id; [done|by rewrite lookup_fmap, Hb]).
  assert (areq <$> <[b := in_phase PDone r]> R = <[b := (r_blk r, r_write r, true)]> (areq <$> R)) as EA by (by rewrite fmap_insert).
  unfold dev_result in Er. destruct (r_write r) eqn:Ew; injection Er as <- <-.
  - eexists _, (<[b := in_phase PDone r]> R). split; [by eapply A_write|]. split; cbn [dev sectors set_drv drv dsk vbufs flight blocks abufs areqs last_avail taken]; [done|done|by rewrite EF| |done|by rewrite EA].
    intros n Hn. rewrite sec_write_block. unfold upd. destruct (Z.eqb_spec n (r_blk r)); [done|by apply Hbk].
  - eexists _, (<[b := in_phase PDone r]> R). split; [by eapply A_read|]. split; cbn [dev sectors set_drv drv dsk vbufs flight blocks abufs areqs last_avail taken]; [done|done|by rewrite EF|done| |by rewrite EA].
    rewrite fmap_insert. unfold abuf. cbn. by rewrite Hbk.
Qed.

Lemma sim_dev w w' a R : rel w a R -> device_spec w w' -> exists a' R', traces astep [] a a' /\ rel w' a' R'.
Proof.
  intros Hr Hd. destruct Hd as [w d dv Hne|w l1 h l2 d' v' sec' d Ht Hx|w w' h Hh Hx].
  - destruct (inv_take _ _ _ _ (rl_inv _ _ _ Hr) Hne) as (b & r & Hb & Hp & I). exists a, (<[b := in_phase PTaken r]> R). split; [constructor|].
    destruct Hr as [_ Hl Hfl Hbk Hbf Hrq]. split; try done; cbn.
    + rewrite fmap_insert, insert_id; [done|by rewrite lookup_fmap, Hb].
    + rewrite fmap_insert, insert_id; [done|]. rewrite lookup_fmap, Hb. cbn. unfold areq. cbn. by rewrite Hp.
  - destruct (sim_finish w a R l1 h l2 d' v' sec') as (a' & R' & Ha & Hr'); [done..|]. exists a', R'. split; [by apply (traces_once _ None)|done].
  - exfalso. destruct (proj1 (proj2 (iv_taken _ _ _ _ (rl_inv _ _ _ Hr)) h) Hh) as (b & r & Hb & <- & Hp).
    pose proof (iv_req _ _ _ (iv_core _ _ _ _ (rl_inv _ _ _ Hr)) b r Hb) as Hok. destruct (ro_buf _ _ _ _ Hok) as [x Hv]. rewrite Hp in Hv.
    by rewrite (dev_exec_ok _ _ _ _ _ _ Hok Hv) in Hx.
Qed.

Lemma sim l w w' a R : rel w a R -> lstep devstep l w w' -> exists a' R', traces astep (vis l) a a' /\ rel w' a' R'.
Proof using Hdev VO.
  intros Hr Hs. pose proof Hr as [I Hl Hfl Hbk Hbf Hrq]. destruct a as [f v q]. cbn in Hbk, Hbf, Hrq. destruct Hs as [w b x write pc s' Hn Hx Hblk Hc|w b i0 pc s' Hi Hc|w s' Hc|w b x Hn|w w' Hd].
  - pose proof (flight_none _ _ _ _ Hr Hn) as Hb. pose proof (rw_ok b write _ _ _ _ I Hl Hb Hx Hblk) as Hw. unfold wp in Hw. rewrite Hc in Hw.
    destruct Hw as (H1 & H2 & H3). destruct pc as [|i0|]; [|destruct H3 as (i1 & i2 & H3)|done].
    + exists (mkA f v q), R. split; [constructor|]. split; cbn [dev sectors set_drv drv dsk vbufs flight blocks abufs areqs last_avail taken]; try done; [apply H3|by rewrite H1|by rewrite H2].
    + eexists _, (<[b := mkR i0 i1 i2 write (b_blockno x) PAvail]> R). split.
      { eapply (traces_once _ (Some _)), (A_submit _ _ _ b (b_blockno x) (b_data x) write); [by rewrite Hrq, lookup_fmap, Hb|by rewrite Hbf, lookup_fmap, Hx]. }
      split; cbn [dev sectors set_drv drv dsk vbufs flight blocks abufs areqs last_avail taken]; try done; [by rewrite H1|by rewrite fmap_insert, Hfl|by rewrite H2|by rewrite fmap_insert, Hrq].
  - destruct (flight_some _ _ _ _ _ Hr Hi) as (r & Hb & <-). pose proof (resume_ok b r _ _ _ I Hl Hb) as Hw. unfold wp in Hw. rewrite Hc in Hw.
    destruct Hw as (H1 & H2 & H3). destruct pc as [|i0|]; [done| |].
    + destruct H3 as (-> & H3 & _). exists (mkA f v q), R. split; [constructor|]. split; cbn [dev sectors set_drv drv dsk vbufs flight blocks abufs areqs last_avail taken]; rewrite ?H1, ?H2, ?H3; done.
    + destruct H3 as [Hp H3]. destruct (ro_buf _ _ _ _ (iv_req _ _ _ (iv_core _ _ _ _ I) b r Hb)) as [x Hx].
      assert (vbufs s' !! b = Some (mkVbuf (match r_phase r with PAcked => 0 | _ => 1 end) (r_blk r) x)) as Hx' by by rewrite H2.
      unfold return_label. rewrite Hx'. eexists _, (delete b R). split.
      { eapply (traces_once _ (Some _)), (A_return _ _ _ b (r_blk r) (r_write r) x); [|by rewrite Hbf, lookup_fmap, Hx].
        rewrite Hrq, lookup_fmap, Hb. cbn. unfold areq. by rewrite Hp. }
      split; cbn [dev sectors set_drv drv dsk vbufs flight blocks abufs areqs last_avail taken]; try done; [by rewrite H1|by rewrite fmap_delete, Hfl|by rewrite H2|by rewrite fmap_delete, Hrq].
  - pose proof (intr_ok _ _ _ I Hl) as Hw. unfold wp in Hw. rewrite Hc in Hw. destruct Hw as (H1 & H2 & R' & H3 & H4 & H5 & _).
    exists (mkA f v q), R'. split; [constructor|]. split; cbn [dev sectors set_drv drv dsk vbufs flight blocks abufs areqs last_avail taken]; try done; [by rewrite H1|by rewrite H4|by rewrite H2|by rewrite H5].
  - pose proof (flight_none _ _ _ _ Hr Hn) as Hb. eexists _, R. split; [eapply (traces_once _ (Some _)), (A_buf _ _ _ b (abuf x)); by rewrite Hrq, lookup_fmap, Hb|].
    split; cbn [dev sectors set_drv drv dsk vbufs flight blocks abufs areqs last_avail taken]; try done; [by apply inv_buf|by rewrite fmap_insert, Hbf].
  - apply (sim_dev w w' (mkA f v q) R); [done|by apply Hdev].
Qed.

Lemma rel_initial w a : initial w -> same w a -> areqs a = ∅ -> rel w a ∅.
Proof.
  intros [H1 H2 [H3 H3'] [H4 [H4' H4'']] H5 H6 [H7 H7'] H8] [A1 A2 A3] Hq. split; try done.
  - assert (forall p, phase_list ∅ p []) as Hp by (intros p; split; [apply NoDup_nil_2|]; intros h; split; [set_solver|]; by intros (b & r & ? & _)).
    assert (forall {T} (x : T) i, in_range i -> arr x !! i = Some x) as Harr.
    { intros T x i Hi. unfold in_range, NUM in Hi. apply elem_of_list_to_map_1.
      2:{ apply list_elem_of_fmap. exists (Z.to_nat i). split; [f_equal; lia|]. apply elem_of_seq. change (Z.to_nat NUM) with 8%nat. lia. }
      rewrite <- list_fmap_compose. by apply (NoDup_fmap_2 Z.of_nat), NoDup_seq. }
    split; [|exists []; split; [split; [apply ring_empty; [done|exact H3']|rewrite H7; split; [lia|by rewrite H3]]|done]|by rewrite H7'|
      exists []; split; [split; [apply ring_empty; [done|exact H4']|rewrite H4''; split; [lia|by rewrite H4]]|done]].
    split; [done|done| |].
    + intros i Hi. rewrite H2, H5, !Harr by done. split; [eauto|]. split; [by apply H6|]. exists 1. auto.
    + intros i Hi. exfalso. rewrite H5 in Hi. apply elem_of_list_to_map_2, list_elem_of_fmap in Hi as (k & [= _ ?] & _).
Qed.

Lemma sim_star w w' a R tr : rel w a R -> traces (lstep devstep) tr w w' -> exists a' R', traces astep tr a a' /\ rel w' a' R'.
Proof using Hdev VO.
  intros Hr Hs. revert a R Hr. induction Hs as [x|x y z tr Hw Hrest IH|l x y z tr Hw Hrest IH]; intros a R Hr; [exists a, R; split; [constructor|done]|..];
    destruct (sim _ _ _ _ _ Hr Hw) as (a1 & R1 & Ha & Hr1); destruct (IH _ _ Hr1) as (a2 & R2 & Hb & Hr2); exists a2, R2; (split; [|done]).
  - exact (traces_app _ [] _ _ _ _ Ha Hb).
  - exact (traces_app _ [l] _ _ _ _ Ha Hb).
Qed.

(** C3: the disk driver implements asynchronous block transfers.  However calls of
    [virtio_disk_rw], the interrupt handler and the device interleave, what the callers see
    (which block each call asks for and in which direction, what its buffer holds when it
    returns, what they change themselves) is a run of [astep]: between the request and the return
    of a call its block is transferred once, into the buffer for a read and from it for a write,
    other blocks and buffers keep their contents, and at the end the disk and the buffers hold
    what the abstract ones hold.  No call panics, runs off the arrays, or loops. *)
Theorem virtio_refines w w' a tr : initial w -> same w a -> areqs a = ∅ -> traces (lstep devstep) tr w w' ->
  (exists a', traces astep tr a a' /\ same w' a') /\
  (forall b x write, flight w' !! b = None -> vbufs (drv w') !! b = Some x -> 0 <= b_blockno x < 2 ^ 31 ->
    wp (virtio_disk_rw b write) (fun pc _ => pc <> RwReturn) (drv w')) /\
  (forall b i0, flight w' !! b = Some i0 -> wp (virtio_disk_rw_resume b i0) (fun pc _ => pc = RwReturn \/ pc = RwWaitDone i0) (drv w')) /\
  wp virtio_disk_intr (fun _ _ => True) (drv w').
Proof using Hdev VO.
  intros Hi Hs Hq Hr. destruct (sim_star _ _ _ _ _ (rel_initial _ _ Hi Hs Hq) Hr) as (a' & R & Ha & Hr').
  pose proof Hr' as [I Hl _ _ _ _]. split; [by eauto using rel_same|]. split; [|split].
  - intros b x write Hn Hx Hblk. eapply wp_mono; [by eapply rw_ok; eauto using flight_none|]. cbn beta. intros pc s (_ & _ & Hp). by destruct pc.
  - intros b i0 Hf. destruct (flight_some _ _ _ _ _ Hr' Hf) as (r & Hb & <-). eapply wp_mono; [by eapply resume_ok|]. cbn beta.
    intros [| |] s (_ & _ & Hp); [done|destruct Hp as (-> & _); by right|by left].
  - eapply wp_mono; [by eapply intr_ok|]. done.
Qed.

(** C13: requests are accepted and end.  With fewer than two requests outstanding a call never
    sleeps for want of descriptors; and once the device has finished all it was given, the
    interrupt handler followed by waking up makes every waiting call return. *)
Theorem virtio_progress w w' a : initial w -> same w a -> areqs a = ∅ -> rtc (step devstep) w w' ->
  (forall b x write, flight w' !! b = None -> vbufs (drv w') !! b = Some x -> 0 <= b_blockno x < 2 ^ 31 -> (size (flight w') < 2)%nat ->
    wp (virtio_disk_rw b write) (fun pc _ => exists i0, pc = RwWaitDone i0) (drv w')) /\
  (forall b i0, flight w' !! b = Some i0 -> last_avail (dev w') = a_idx (dsk (drv w')) -> taken (dev w') = [] ->
    wp (virtio_disk_intr;; virtio_disk_rw_resume b i0) (fun pc _ => pc = RwReturn) (drv w')).
Proof using Hdev VO.
  intros Hi Hs Hq Hr. destruct (traces_rtc _ _ _ Hr) as [tr Ht']. destruct (sim_star _ _ _ _ _ (rel_initial _ _ Hi Hs Hq) Ht') as (a' & R & Ha & Hr').
  pose proof Hr' as [I Hl Hf _ _ _]. split.
  - intros b x write Hn Hx Hblk Hsz. eapply wp_mono; [by eapply rw_ok; eauto using flight_none|]. cbn beta. intros pc s (_ & _ & Hp).
    rewrite Hf, map_size_fmap in Hsz. destruct pc; [destruct Hp; lia|eauto|done].
  - intros b i0 Hb He Ht. apply wp_bind. eapply wp_mono; [by eapply intr_ok|]. cbn beta. intros _ s (H1 & _ & R' & I' & HR & _ & Hd & Ea).
    assert (exists r, R' !! b = Some r /\ r_i0 r = i0) as (r & Hb' & <-).
    { assert ((r_i0 <$> R') !! b = Some i0) as Hx by (rewrite HR, <- Hf; exact Hb). rewrite lookup_fmap in Hx. destruct (R' !! b); [|done]. injection Hx as <-. eauto. }
    assert (r_phase r = PAcked) as Hp.
    { destruct (r_phase r) eqn:Ep; [| | |done]; exfalso.
      - destruct (iv_avail _ _ _ _ I') as (q & Q1 & Q2). assert (r_i0 r ∈ q) as Hin by (apply Q2; eauto). pose proof (queue_empty _ _ _ _ Q1) as Hem.
        rewrite Ea, He, Z.eqb_refl in Hem. symmetry in Hem. apply bool_decide_eq_true in Hem as ->. set_solver.
      - assert (r_i0 r ∈ taken (dev w')) as Hin by (apply (iv_taken _ _ _ _ I'); eauto). rewrite Ht in Hin. set_solver.
      - assert (r_i0 r ∈ []) as Hin by (apply Hd; eauto). set_solver. }
    eapply wp_mono; [eapply resume_ok; [done|by rewrite H1|done]|]. cbn beta. intros pc s2 (_ & _ & Hpc). destruct pc; try done. by destruct Hpc as (_ & _ & ?).
Qed.
End refines.

(** ** The driver's loops end *)

Lemma loop_ends {S L A} (body : L -> M S (L + A)) (I : L -> S -> Prop) (mu : L -> S -> nat) :
  (forall l s, I l s -> match body l s with Ret (inl l') s' => I l' s' /\ (mu l' s' < mu l s)%nat | NoFuel => False | _ => True end) ->
  forall fuel l s, I l s -> (mu l s < fuel)%nat -> loop fuel body l s <> NoFuel.
Proof.
  intros Hb. induction fuel as [|n IH]; intros l s Hi Hm; [lia|]. cbn [loop]. unfold mbind, M_bind. specialize (Hb l s Hi).
  destruct (body l s) as [[l'|a] s'| | | |]; try done. destruct Hb as [Hi' Hlt]. apply IH; [done|lia].
Qed.

Section ends.
Context {S : Type} `{VO : VirtioOk S}.
Implicit Types s : vst S.

Definition in_use (d : disk) : gmap Z Z := filter (fun p => p.2 = 0) (free d).

(** [free_desc] returns only if the descriptor was in use, which it no longer is. *)
Lemma free_desc_ret i s : match free_desc i s with
  | Ret _ s' => (size (in_use (dsk s')) < size (in_use (dsk s)))%nat /\ size (free (dsk s')) = size (free (dsk s))
  | NoFuel => False
  | _ => True
  end.
Proof.
  unfold free_desc. destruct (NUM <=? i) eqn:Ei; [done|]. to_prop. destruct (free (dsk s) !! i) as [f|] eqn:Ef.
  2:{ unfold elem, getd, gets, mbind, M_bind. by rewrite Ef. }
  destruct (Z.eqb_spec f 0) as [->|Hf].
  2:{ unfold elem, getd, gets, mbind, M_bind. rewrite Ef. cbn. by rewrite (proj2 (Z.eqb_neq f 0) Hf). }
  destruct (desc (dsk s) !! i) as [d|] eqn:Ed.
  2:{ unfold elem, getd, gets, mbind, M_bind. rewrite Ef. cbn. by rewrite Ed. }
  pose proof (free_desc_ok i s d Ei Ef Ed) as Hw. unfold free_desc in Hw. rewrite (proj2 (Z.leb_gt NUM i)) in Hw by lia. unfold wp in Hw.
  match goal with |- match ?m with _ => _ end => destruct m as [[] s'| | | |] end; try done. destruct Hw as (-> & _ & _). unfold in_use, freed. cbn [free set_free set_desc].
  split; [|by rewrite map_size_insert, Ef].
  rewrite map_filter_insert_False by done. rewrite map_filter_delete, map_size_delete_Some; [|by eexists; apply map_lookup_filter_Some].
  fold (in_use (dsk s)). assert (0 < size (in_use (dsk s)))%nat; [|lia].
  apply Nat.neq_0_lt_0, map_size_non_empty_iff. intros E. assert (in_use (dsk s) !! i = Some 0) as Hx by by apply map_lookup_filter_Some.
  by rewrite E in Hx.
Qed.

Lemma ends_bind {A B} (m : M (vst S) A) (k : A -> M (vst S) B) s : m s <> NoFuel -> (forall a s', m s = Ret a s' -> k a s' <> NoFuel) -> (m ≫= k) s <> NoFuel.
Proof. unfold mbind, M_bind. intros H1 H2. destruct (m s); try done. by apply H2. Qed.
Lemma ends_wp {A B} (m : M (vst S) A) (k : A -> M (vst S) B) (P : A -> vst S -> Prop) s : wp m P s -> (forall a s', P a s' -> k a s' <> NoFuel) -> (m ≫= k) s <> NoFuel.
Proof. unfold wp, mbind, M_bind. intros H1 H2. destruct (m s); try done. by apply H2. Qed.

(** A turn of the interrupt handler. *)
Lemma intr_turn_ends s : 0 <= used_idx (dsk s) < 2 ^ 16 -> 0 <= u_idx (dsk s) < 2 ^ 16 ->
  match intr_turn s with
  | Ret (inl _) s' => (0 <= used_idx (dsk s') < 2 ^ 16 /\ 0 <= u_idx (dsk s') < 2 ^ 16) /\
      (Z.to_nat (u16 (u_idx (dsk s') - used_idx (dsk s'))) < Z.to_nat (u16 (u_idx (dsk s) - used_idx (dsk s))))%nat
  | NoFuel => False
  | _ => True
  end.
Proof using VO.
  intros H1 H2. unfold intr_turn. rewrite (bind_Ret (getd (fun d => d)) _ s (dsk s) s eq_refl). destruct (Z.eqb_spec (used_idx (dsk s)) (u_idx (dsk s))) as [E|Ne]; [done|].
  cbv zeta. set (id := ring_at _ _ _). unfold mbind at 1, M_bind at 1. destruct (info_status (dsk s) !! id) as [st|] eqn:Es.
  2:{ unfold elem, getd, gets, mbind, M_bind. by rewrite Es. }
  assert (elem info_status id s = Ret st s) as -> by (unfold elem, getd, gets, mbind, M_bind; by rewrite Es). destruct (negb (st =? 0)); [done|].
  unfold mbind at 1, M_bind at 1. destruct (info_b (dsk s) !! id) as [b|] eqn:Eb.
  2:{ unfold elem, getd, gets, mbind, M_bind. by rewrite Eb. }
  assert (elem info_b id s = Ret b s) as -> by (unfold elem, getd, gets, mbind, M_bind; by rewrite Eb).
  destruct (vbufs s !! b) as [x|] eqn:Ex.
  2:{ unfold set_bdisk, getbuf, gets, mbind, M_bind. by rewrite Ex. }
  match goal with |- match ?m with _ => _ end => assert (wp (fun _ => m) (fun r s' => r = inl tt /\ dsk s' = acked (dsk s)) s) as Hw end.
  { unfold wp. change (wp (set_bdisk b 0;; hw (vwakeup b);; updd (fun d => set_used_idx (u16 (used_idx d + 1)) d);; mret (inl tt : unit + unit)) (fun r s' => r = inl tt /\ dsk s' = acked (dsk s)) s).
    apply wp_bind. unfold set_bdisk. apply wp_bind. eapply wp_getbuf; [exact Ex|]. apply wp_modify. apply wp_bind, wp_hw; [apply v_wakeup|]. intros _ s1 (D1 & _).
    apply wp_bind, wp_updd, wp_ret. split; [done|]. cbn [dsk]. by rewrite D1. }
  unfold wp in Hw. match goal with |- match ?m with _ => _ end => destruct m as [r s'| | | |] end; try done. destruct Hw as [-> ->]. cbn [acked used_idx u_idx set_used_idx].
  unfold u16 in *. split; [split; [by apply Z.mod_pos_bound|done]|]. dlia.
Qed.

(** C14: the driver's loops end.  Whatever the descriptors hold, [free_chain] ends: a chain that
    runs in a circle makes it panic at a descriptor it has freed.  Whatever the device puts into
    the ring of answers, the interrupt handler ends too. *)
Theorem virtio_loops_end s i : (size (free (dsk s)) <= Z.to_nat NUM)%nat -> 0 <= used_idx (dsk s) < 2 ^ 16 -> 0 <= u_idx (dsk s) < 2 ^ 16 ->
  free_chain i s <> NoFuel /\ virtio_disk_intr s <> NoFuel.
Proof using VO.
  intros Hsz Hu1 Hu2. split.
  - apply (loop_ends _ (fun _ s' => True) (fun _ s' => size (in_use (dsk s')))); [|done|].
    + intros j s' _. destruct (desc (dsk s') !! j) as [d|] eqn:Ed; [|unfold elem, getd, gets, mbind, M_bind; by rewrite Ed].
      rewrite (bind_Ret (elem desc j) _ s' d s') by (unfold elem, getd, gets, mbind, M_bind; by rewrite Ed).
      pose proof (free_desc_ret j s') as Hf. unfold mbind, M_bind. destruct (free_desc j s'); try done. destruct Hf as [Hf _]. cbn.
      by destruct (tst (d_flags d) VRING_DESC_F_NEXT).
    + assert (size (in_use (dsk s)) <= size (free (dsk s)))%nat; [|lia]. apply map_subseteq_size, map_filter_subseteq.
  - assert (forall lk (s1 : vst S), acquire lk s1 <> NoFuel /\ release lk s1 <> NoFuel) as Hlk.
    { intros lk s1. unfold acquire, release, zoom, Lk.acquire, Lk.release. by split; case_decide. }
    unfold virtio_disk_intr. apply ends_bind; [apply Hlk|]. intros u s1 E1.
    assert (dsk s1 = dsk s) as D1 by (revert E1; unfold acquire, zoom, Lk.acquire; case_decide; intros E1; [done|by injection E1 as _ <-]).
    apply (ends_wp _ _ (fun _ s2 => dsk s2 = dsk s)); [apply wp_hw; [apply v_read|]; intros ? ? (-> & _); done|]. intros st s2 D2.
    apply (ends_wp _ _ (fun _ s3 => dsk s3 = dsk s)); [apply wp_hw; [apply v_write|]; intros ? ? (-> & _); done|]. intros _ s3 D3.
    apply ends_bind; [|intros; apply Hlk].
    apply (loop_ends _ (fun _ s' => 0 <= used_idx (dsk s') < 2 ^ 16 /\ 0 <= u_idx (dsk s') < 2 ^ 16) (fun _ s' => Z.to_nat (u16 (u_idx (dsk s') - used_idx (dsk s'))))).
    + intros _ s4 [A1 A2]. apply intr_turn_ends; done.
    + by rewrite D3.
    + unfold u16. apply Z2Nat.inj_lt; [by apply Z.mod_pos_bound|done|by apply Z.mod_pos_bound].
Qed.
End ends.

(** ** A concrete device

    It takes and finishes requests one by one; its sector [k] holds the one byte [k]. *)
Module VDemo.
#[export] #[refine] Instance gs_locks : HasLocks (gset Z) := { held := fun x => x; set_held := fun x _ => x; curpid := fun _ => 1 }.
Proof. all: done. Defined.
#[export] Instance gs_env : VirtioEnv (gset Z) := {
  mmio_read := fun _ => mret 1;
  mmio_write := fun _ _ => mret tt;
  vkalloc := mret 0;
  vwakeup := fun _ => mret tt;
}.
#[export] Instance gs_ok : VirtioOk (gset Z).
Proof. split; done. Qed.

Definition dev_fun (w : world (gset Z)) : option (world (gset Z)) :=
  let d := dsk (drv w) in let dv := dev w in
  match taken dv with
  | h :: l =>
      match dev_exec d (vbufs (drv w)) (sectors dv) h with
      | Some (d', v', sec') => Some (set_drv (set_used (u16 (u_idx d' + 1)) (ring_set NUM (u_ring d') (u_idx d') h) d') v' (mkDev (last_avail dv) l sec') w)
      | None => None
      end
  | [] => if last_avail dv =? a_idx d then None
      else Some (set_drv d (vbufs (drv w)) (mkDev (u16 (last_avail dv + 1)) [ring_at NUM (a_ring d) (last_avail dv)] (sectors dv)) w)
  end.
Definition devstep (w w' : world (gset Z)) : Prop := dev_fun w = Some w'.

Lemma devstep_ok w w' : devstep w w' -> device_spec w w'.
Proof.
  unfold devstep, dev_fun. destruct (taken (dev w)) as [|h l] eqn:Et.
  - destruct (Z.eqb_spec (last_avail (dev w)) (a_idx (dsk (drv w)))) as [|Hne]; [done|]. intros [= <-]. pose proof (D_take w Hne) as Hd. by rewrite Et in Hd.
  - destruct (dev_exec _ _ _ h) as [[[d' v'] sec']|] eqn:Ex; [|done]. intros [= <-]. by apply (D_finish w [] h l d' v' sec').
Qed.

Definition disk0 : disk := mkDisk (arr zero_desc) 0 (replicate 8 0) 0 (replicate 8 0) (arr 1) 0 (arr 0) (arr 0) ∅.
(** A buffer for block 3. *)
Definition w0 : world (gset Z) := mkW (mkV ∅ disk0 {[1 := mkVbuf 0 3 []]}) (mkDev 0 [] (fun k => [k])) ∅.
Definition a0 : astate := mkA (fun n => [2 * n; 2 * n + 1]) {[1 := (3, [])]} ∅.

Lemma w0_initial : initial w0.
Proof.
  split; [apply not_elem_of_empty|done|done|done|done| |done|done]. intros i Hi. unfold in_range, NUM in Hi.
  assert (i = 0 \/ i = 1 \/ i = 2 \/ i = 3 \/ i = 4 \/ i = 5 \/ i = 6 \/ i = 7) as Hc by lia.
  destruct Hc as [->|[->|[->|[->|[->|[->|[->| ->]]]]]]]; by eexists.
Qed.
Lemma w0_same : same w0 a0.
Proof. split; done. Qed.

Definition run {A} (m : M (vst (gset Z)) A) (w : world (gset Z)) : vst (gset Z) := match m (drv w) with Ret _ s => s | _ => drv w end.
Definition w1 : world (gset Z) := mkW (run (virtio_disk_rw 1 false) w0) (dev w0) {[1 := 0]}.
Definition dev_go (w : world (gset Z)) : world (gset Z) := default w (dev_fun w).
Definition w3 : world (gset Z) := dev_go (dev_go w1).
Definition w4 : world (gset Z) := mkW (run virtio_disk_intr w3) (dev w3) (flight w3).
Definition w5 : world (gset Z) := mkW (run (virtio_disk_rw_resume 1 0) w4) (dev w4) ∅.

Lemma run_ret {A} (m : M (vst (gset Z)) A) w x : match m (drv w) with Ret y _ => y = x | _ => False end -> m (drv w) = Ret x (run m w).
Proof. unfold run. by destruct (m (drv w)) as [y s| | | |]; intros; subst. Qed.
Lemma dev_runs w : (match dev_fun w with Some _ => true | None => false end) = true -> lstep devstep None w (dev_go w).
Proof. intros H. apply St_dev. unfold devstep, dev_go. by destruct (dev_fun w). Qed.

(** A read of block 3: submitted, taken, transferred. *)
Lemma runs3 : traces (lstep devstep) [LSubmit 1 3 false] w0 w3.
Proof.
  apply (tr_vis _ _ _ w1).
  { eapply (St_rw devstep w0 1 (mkVbuf 0 3 []) false (RwWaitDone 0)); [done|reflexivity|cbn; lia|]; apply run_ret; by vm_compute. }
  apply (tr_tau _ _ (dev_go w1)); [apply dev_runs; by vm_compute|]. apply (traces_once _ None), dev_runs. by vm_compute.
Qed.
(** Acknowledged and returned, with the two sectors of the block in the buffer. *)
Definition seen : list label := [LSubmit 1 3 false; LReturn 1 (3, [6; 7])].
Lemma runs5 : traces (lstep devstep) seen w0 w5.
Proof.
  apply (traces_app _ [LSubmit 1 3 false] [LReturn 1 (3, [6; 7])] _ w3); [exact runs3|]. apply (tr_tau _ _ w4); [apply St_intr, run_ret; by vm_compute|].
  assert (w5 = mkW (run (virtio_disk_rw_resume 1 0) w4) (dev w4) (delete 1 (flight w4))) as -> by (unfold w5; f_equal; by vm_compute).
  assert (return_label 1 (run (virtio_disk_rw_resume 1 0) w4) RwReturn = Some (LReturn 1 (3, [6; 7]))) as El by (by vm_compute).
  apply (traces_once _ (Some _)). rewrite <- El. apply (St_resume devstep w4 1 0 RwReturn); [by vm_compute|]. apply run_ret. by vm_compute.
Qed.
End VDemo.
Import VDemo.

Lemma virtio_refines_witness : vbufs (drv w5) !! 1 = Some (mkVbuf 0 3 [6; 7]) /\ exists a', traces astep seen a0 a' /\ same w5 a'.
Proof. split; [by vm_compute|]. exact (proj1 (virtio_refines devstep devstep_ok w0 w5 a0 seen w0_initial w0_same eq_refl runs5)). Defined.

Lemma virtio_progress_witness : wp (virtio_disk_intr;; virtio_disk_rw_resume 1 0) (fun pc _ => pc = RwReturn) (drv w3).
Proof. apply (proj2 (virtio_progress devstep devstep_ok w0 w3 a0 w0_initial w0_same eq_refl (traces_steps _ _ _ _ runs3))); by vm_compute. Defined.

(** Descriptor 0 chained to itself. *)
Lemma virtio_loops_end_witness :
  let d := mkDisk (<[0 := mkDesc ANull 0 VRING_DESC_F_NEXT 0]> (arr zero_desc)) 0 [] 5 (replicate 8 0) (arr 0) 4 (arr 0) (arr 0) ∅ in
  let s := mkV ∅ d {[0 := mkVbuf 1 0 []]} in free_chain 0 s <> NoFuel /\ virtio_disk_intr s <> NoFuel.
Proof. apply virtio_loops_end; [vm_compute; lia|cbn; lia|cbn; lia]. Defined.
