(* ===== verification/Umalloc.v ===== *)
(** * The user allocator

    [user/umalloc.c]: the allocator of Kernighan and Ritchie.  Free blocks form a circular list
    in the order of their addresses, through headers of 16 bytes that hold the next block and
    the size in headers; [base] is its smallest element, of size 0.  The state is the headers in
    memory, [freep] and the environment, of which the code uses [sbrk]. *)

From Stdlib Require Import ZArith Lia.
From stdpp Require Import base numbers list gmap.
From S2P Require Import Prelude.

(** [union header] *)
Record Header := mkH { h_ptr : Z; h_size : Z }.
Definition sizeof_Header : Z := 16.

Class SbrkEnv (S : Type) := { sbrk : Z -> M S Z }.

Record ast (S : Type) := mkAst { aenv : S; hdrs : gmap Z Header; freep : Z }.
Arguments mkAst {S} _ _ _.
Arguments aenv {S} _.
Arguments hdrs {S} _.
Arguments freep {S} _.

Section umalloc_c.
Context {S : Type} `{SbrkEnv S} (base : Z).
Implicit Types s : ast S.

Definition sys {A} (m : M S A) : M (ast S) A := zoom aenv (fun e s => mkAst e (hdrs s) (freep s)) m.
(** [*p]; there must be a header at [p]. *)
Definition hdr (p : Z) : M (ast S) Header := o ← gets (fun s => hdrs s !! p); the o.
Definition put_hdr (p : Z) (h : Header) : M (ast S) unit := modify (fun s => mkAst (aenv s) (<[p := h]> (hdrs s)) (freep s)).
(** [p->s.ptr = v], and [p->s.size = v], which may make a header of memory that was none; its
    pointer is then what the memory held, modelled as 0, and not read before it is set. *)
Definition set_ptr (p v : Z) : M (ast S) unit := h ← hdr p; put_hdr p (mkH v (h_size h)).
Definition set_size (p v : Z) : M (ast S) unit :=
  o ← gets (fun s => hdrs s !! p);
  put_hdr p (mkH (match o with Some h => h_ptr h | None => 0 end) v).
Definition set_freep (p : Z) : M (ast S) unit := modify (fun s => mkAst (aenv s) (hdrs s) p).
(** [p + n] *)
Definition hadd (p n : Z) : Z := u64 (p + n * sizeof_Header).

(** The loop of [free] that looks for the block after which [bp] goes. *)
Definition stop (bp p ptr : Z) : bool := ((p <? bp) && (bp <? ptr)) || ((ptr <=? p) && ((p <? bp) || (bp <? ptr))).
Definition find_place (fuel : nat) (bp p : Z) : M (ast S) Z :=
  loop fuel (fun p =>
    h ← hdr p;
    mret (if stop bp p (h_ptr h) then inr p else inl (h_ptr h))) p.

(** The list has at most as many blocks as there are headers. *)
Definition free (ap : Z) : M (ast S) unit :=
  let bp := hadd ap (-1) in
  start ← gets freep;
  fuel ← gets (fun s => size (hdrs s));
  p ← find_place (fuel + 1) bp start;
  hb ← hdr bp;
  hp ← hdr p;
  (if hadd bp (h_size hb) =? h_ptr hp then
     n ← hdr (h_ptr hp);
     set_size bp (u32 (h_size hb + h_size n));;
     set_ptr bp (h_ptr n)
   else set_ptr bp (h_ptr hp));;
  hb ← hdr bp;
  hp ← hdr p;
  (if hadd p (h_size hp) =? bp then
     set_size p (u32 (h_size hp + h_size hb));;
     set_ptr p (h_ptr hb)
   else set_ptr p bp);;
  set_freep p.

(** [sbrk] takes an [int]. *)
Definition morecore (nu : Z) : M (ast S) Z :=
  let nu := if nu <? 4096 then 4096 else nu in
  p ← sys (sbrk (i32 (nu * sizeof_Header)));
  if p =? 2 ^ 64 - 1 then mret 0 else
  set_size p nu;;
  free (hadd p 1);;
  gets freep.

(** A block [p] of at least [nunits] headers, after [prevp], is cut up. *)
Definition take_block (nunits prevp p : Z) : M (ast S) Z :=
  h ← hdr p;
  p ← (if h_size h =? nunits then
         set_ptr prevp (h_ptr h);; mret p
       else
         let size := u32 (h_size h - nunits) in
         set_size p size;;
         let p := hadd p size in
         set_size p nunits;;
         mret p);
  set_freep prevp;;
  mret (hadd p 1).

(** A turn of the loop of [malloc], at [prevp] and [p]. *)
Definition malloc_turn (nunits : Z) (x : Z * Z) : M (ast S) ((Z * Z) + Z) :=
  let '(prevp, p) := x in
  h ← hdr p;
  if nunits <=? h_size h then r ← take_block nunits prevp p; mret (inr r) else
  fp ← gets freep;
  if p =? fp then
    p ← morecore nunits;
    if p =? 0 then mret (inr 0) else
    h ← hdr p; mret (inl (p, h_ptr h))
  else mret (inl (p, h_ptr h)).

Definition malloc (nbytes : Z) : M (ast S) Z :=
  let nunits := u32 ((nbytes + sizeof_Header - 1) / sizeof_Header + 1) in
  fp ← gets freep;
  prevp ← (if fp =? 0 then set_freep base;; set_ptr base base;; set_size base 0;; mret base else mret fp);
  fuel ← gets (fun s => size (hdrs s));
  h ← hdr prevp;
  loop (2 * fuel + 4) (malloc_turn nunits) (prevp, h_ptr h).
End umalloc_c.
