(* ===== verification/UmallocSpec.v ===== *)
(** * Free space and live blocks

    The list of [Umalloc.v] as a set of free bytes: [malloc] takes a block out of it, [free] puts
    one back, blocks in use stay apart, and neighbouring free blocks are joined. *)

From Stdlib Require Import ZArith Lia Sorting.Sorted.
From stdpp Require Import base numbers list gmap sorting.
From S2P Require Import Prelude Umalloc.

(** ** Lists of blocks *)

Notation blk := (Z * Z)%type.
(** [x] ends before [y] with a gap, so that the two cannot be joined. *)
Definition below (x y : blk) : Prop := x.1 + 16 * x.2 < y.1 /\ 0 <= x.2 /\ 0 <= y.2.
Definition space (L : list blk) (z : Z) : Prop := exists a n, (a, n) ∈ L /\ a <= z < a + 16 * n.
Definition hdaddr (L : list blk) (e : Z) : Z := match L with [] => e | (a, _) :: _ => a end.

(** A block put in front of a list, joined with the first if they touch. *)
Definition join (x : blk) (L : list blk) : list blk :=
  match L with
  | (c, k) :: L' => if x.1 + 16 * x.2 =? c then (x.1, x.2 + k) :: L' else x :: L
  | [] => [x]
  end.

Lemma space_cons a n L z : space ((a, n) :: L) z <-> a <= z < a + 16 * n \/ space L z.
Proof.
  unfold space. split.
  - intros (b & m & [[= -> ->]|Hin]%elem_of_cons & Hz); [by left|right; eauto].
  - intros [Hz|(b & m & Hin & Hz)]; [exists a, n|exists b, m]; (split; [|done]); set_solver.
Qed.
Lemma space_app L1 L2 z : space (L1 ++ L2) z <-> space L1 z \/ space L2 z.
Proof. unfold space. split; [intros (a & n & [H|H]%elem_of_app & Hz); eauto 6|]. intros [(a & n & H & Hz)|(a & n & H & Hz)]; exists a, n; set_solver. Qed.
Lemma space_nil z : space [] z <-> False.
Proof. unfold space. set_solver. Qed.

Lemma space_join a n L z : 0 <= n -> (forall y, y ∈ L -> 0 <= y.2) -> space (join (a, n) L) z <-> a <= z < a + 16 * n \/ space L z.
Proof.
  intros Hn HL. unfold join. destruct L as [|[c k] L]; [apply space_cons|]. cbn [fst snd]. destruct (Z.eqb_spec (a + 16 * n) c) as [<-|]; [|apply space_cons].
  rewrite !space_cons. assert (0 <= k) by (apply (HL (a + 16 * n, k)); set_solver). split; intros [Hz|Hz]; try (by right; right); [|left; lia|destruct Hz as [Hz|Hz]; [left; lia|by right]].
  destruct (decide (z < a + 16 * n)); [left; lia|right; left; lia].
Qed.

Lemma join_in a n L y : y ∈ join (a, n) L -> (y.1 = a /\ n <= y.2) \/ y ∈ L \/ (exists k, y = (a, n + k) /\ exists c, (c, k) ∈ L).
Proof.
  unfold join. destruct L as [|[c k] L]; [intros ->%list_elem_of_singleton; left; cbn; lia|]. cbn [fst snd]. destruct (a + 16 * n =? c); intros [->|Hy]%elem_of_cons.
  - right. right. exists k. split; [done|]. exists c. set_solver.
  - right. left. set_solver.
  - left. cbn. lia.
  - right. left. done.
Qed.

Lemma join_length x L : (length (join x L) <= S (length L))%nat.
Proof. unfold join. destruct L as [|[c k] L]; [done|]. destruct (x.1 + 16 * x.2 =? c); cbn; lia. Qed.

Lemma sorted_join a n L : 0 <= n -> StronglySorted below L -> (forall y, y ∈ L -> a + 16 * n <= y.1 /\ 0 <= y.2) ->
  StronglySorted below (join (a, n) L) /\ (forall y, y ∈ join (a, n) L -> a <= y.1 /\ 0 <= y.2).
Proof.
  intros Hn Hs HL. unfold join. destruct L as [|[c k] L]; cbn [fst snd].
  { split; [by repeat constructor|]. intros y ->%list_elem_of_singleton. cbn. lia. }
  apply StronglySorted_inv in Hs as [Hs1 Hs2]. rewrite Forall_forall in Hs2. destruct (HL (c, k)) as [H1 H2]; [set_solver|]. cbn in H1, H2.
  destruct (Z.eqb_spec (a + 16 * n) c) as [<-|Hne].
  - split.
    + constructor; [done|]. apply Forall_forall. intros y Hy. destruct (Hs2 y Hy) as (B1 & B2 & B3). unfold below in *. cbn in *. lia.
    + intros y [->|Hy]%elem_of_cons; cbn; [lia|]. destruct (HL y); [set_solver|]. lia.
  - split.
    + constructor; [by constructor; [|apply Forall_forall]|]. apply Forall_forall. intros y [->|Hy]%elem_of_cons; unfold below; cbn; [lia|].
      destruct (Hs2 y Hy) as (B1 & B2 & B3). cbn in *. lia.
    + intros y [->|Hy]%elem_of_cons; cbn; [lia|]. destruct (HL y); [set_solver|]. lia.
Qed.

(** ** Lists in memory *)

Fixpoint lseg (m : gmap Z Header) (L : list blk) (e : Z) : Prop :=
  match L with
  | [] => True
  | (a, n) :: L' => m !! a = Some (mkH (hdaddr L' e) n) /\ lseg m L' e
  end.

Lemma lseg_app m L1 L2 e : lseg m (L1 ++ L2) e <-> lseg m L1 (hdaddr L2 e) /\ lseg m L2 e.
Proof.
  induction L1 as [|[a n] L1 IH]; cbn; [tauto|]. rewrite IH. assert (hdaddr (L1 ++ L2) e = hdaddr L1 (hdaddr L2 e)) as -> by by destruct L1 as [|[? ?] ?]. tauto.
Qed.
Lemma lseg_frame m L e a h : a ∉ L.*1 -> lseg m L e -> lseg (<[a := h]> m) L e.
Proof.
  induction L as [|[b n] L IH]; cbn; [done|]. intros Ha [H1 H2]. split; [by rewrite lookup_insert_ne by set_solver|]. apply IH; [set_solver|done].
Qed.

(** The memory after a block has been put in front of a list. *)
Lemma lseg_join m L e a n : lseg m L e -> a ∉ L.*1 ->
  exists n' L', join (a, n) L = (a, n') :: L' /\ L' ⊆ L /\ lseg (<[a := mkH (hdaddr L' e) n']> m) (join (a, n) L) e.
Proof.
  intros HL Ha. unfold join. destruct L as [|[c k] L]; cbn [fst snd].
  { exists n, []. split; [done|]. split; [done|]. cbn. by rewrite lookup_insert_eq. }
  destruct (Z.eqb_spec (a + 16 * n) c) as [<-|].
  - exists (n + k), L. split; [done|]. split; [set_solver|]. cbn. rewrite lookup_insert_eq. split; [done|]. apply lseg_frame; [set_solver|by destruct HL].
  - exists n, ((c, k) :: L). split; [done|]. split; [done|]. cbn [lseg]. rewrite lookup_insert_eq. split; [done|]. by apply (lseg_frame m ((c, k) :: L)).
Qed.

Section rep.
Context (base : Z).

(** The circular list. *)
Record rep (m : gmap Z Header) (L : list blk) : Prop := {
  rp_base : exists l, L = (base, 0) :: l;
  rp_seg : lseg m L base;
  rp_sorted : StronglySorted below L;
  rp_pos : forall a n, (a, n) ∈ L -> a = base \/ 0 < n;
}.

Lemma rep_ge m L a n : rep m L -> (a, n) ∈ L -> base <= a /\ 0 <= n.
Proof.
  intros [(l & ->) _ Hs _] [[= -> ->]|Hin]%elem_of_cons; [lia|]. apply StronglySorted_inv in Hs as [_ Hs]. rewrite Forall_forall in Hs.
  destruct (Hs _ Hin) as (B1 & B2 & B3). cbn in *. lia.
Qed.

(** Blocks with the same address are the same. *)
Lemma sorted_inj L i j x y : StronglySorted below L -> L !! i = Some x -> L !! j = Some y -> (i < j)%nat -> x.1 + 16 * x.2 < y.1 /\ 0 <= x.2.
Proof.
  intros Hs. revert i j. induction Hs as [|z L Hs IH Hz]; intros [|i] [|j] Hx Hy Hlt; try done; try lia.
  - injection Hx as ->. rewrite Forall_forall in Hz. destruct (Hz y) as (B1 & B2 & _); [by eapply list_elem_of_lookup_2|]. lia.
  - apply (IH i j); [done|done|lia].
Qed.

(** The next block in the circle. *)
Definition next (len i : nat) : nat := if decide (Datatypes.S i = len) then O else Datatypes.S i.

Lemma rep_next m L i p n : rep m L -> L !! i = Some (p, n) ->
  exists q k, m !! p = Some (mkH q n) /\ L !! next (length L) i = Some (q, k).
Proof.
  intros [(l & El) Hs _ _] Hi. apply list_elem_of_split_length in Hi as (L1 & L2 & -> & ->). rewrite lseg_app in Hs. destruct Hs as [_ [Hm _]].
  unfold next. rewrite length_app. cbn [length]. destruct L2 as [|[q k] L2]; cbn [hdaddr length] in *.
  - rewrite decide_True by lia. exists base, 0. split; [done|]. by rewrite El.
  - rewrite decide_False by lia. exists q, k. split; [done|]. rewrite lookup_app_r by lia. replace (S (length L1) - length L1)%nat with 1%nat by lia. done.
Qed.

(** Steps from [i] to [t] around the circle. *)
Definition cdist (len i t : nat) : nat := if decide (i <= t)%nat then (t - i)%nat else (len - i + t)%nat.
Lemma cdist_next len i t : (i < len)%nat -> (t < len)%nat -> i <> t -> (cdist len (next len i) t < cdist len i t)%nat.
Proof. intros. unfold cdist, next. repeat case_decide; lia. Qed.
Lemma cdist_step len i t : (i < len)%nat -> (t < len)%nat -> i <> t -> cdist len i t = Datatypes.S (cdist len (next len i) t).
Proof. intros. unfold cdist, next. repeat case_decide; lia. Qed.
Lemma cdist_0 len i t : (i < len)%nat -> (t < len)%nat -> cdist len i t = O -> i = t.
Proof. intros. unfold cdist in *. case_decide; lia. Qed.
Lemma cdist_lt len i t : (i < len)%nat -> (t < len)%nat -> (cdist len i t < len)%nat.
Proof. intros. unfold cdist. case_decide; lia. Qed.

(** The place of a block in the list. *)
Lemma split_at m L bp : rep m L -> base < bp -> bp ∉ L.*1 ->
  exists L1 p n L2, L = L1 ++ (p, n) :: L2 /\ (forall y, y ∈ L1 ++ [(p, n)] -> y.1 < bp) /\ (forall y, y ∈ L2 -> bp < y.1).
Proof.
  intros R Hb Hn. destruct (rp_base _ _ R) as [l ->]. pose proof (rp_sorted _ _ R) as Hs. clear R.
  revert Hs Hn. generalize 0 as k. revert Hb. generalize base as a. induction l as [|[c k'] l IH]; intros a Ha k Hs Hn.
  - exists [], a, k, []. split; [done|]. split; [intros y ->%list_elem_of_singleton; done|set_solver].
  - apply StronglySorted_inv in Hs as [Hs1 Hs2]. destruct (decide (bp < c)) as [Hlt|Hge].
    + exists [], a, k, ((c, k') :: l). split; [done|]. split; [intros y ->%list_elem_of_singleton; done|]. intros y [->|Hy]%elem_of_cons; [done|].
      apply StronglySorted_inv in Hs1 as [_ Hs1]. rewrite Forall_forall in Hs1. destruct (Hs1 y Hy) as (B1 & B2 & B3). cbn in *. lia.
    + destruct (IH c) with (k := k') as (L1 & p & n & L2 & E & A1 & A2); [cbn in Hn; set_solver by lia|done|cbn in Hn; set_solver|].
      exists ((a, k) :: L1), p, n, L2. split; [by rewrite E|]. split; [|done]. intros y [->|Hy]%elem_of_cons; [done|by apply A1].
Qed.

(** The test of [free] is true at the place of [bp] only. *)
Lemma stop_at m L bp L1 p n L2 i a k q k' : rep m L -> base < bp -> L = L1 ++ (p, n) :: L2 ->
  (forall y, y ∈ L1 ++ [(p, n)] -> y.1 < bp) -> (forall y, y ∈ L2 -> bp < y.1) ->
  L !! i = Some (a, k) -> L !! next (length L) i = Some (q, k') -> stop bp a q = bool_decide (i = length L1).
Proof.
  intros R Hb E A1 A2 Hi Hq. pose proof (rp_sorted _ _ R) as Hs. destruct (rp_base _ _ R) as [l El].
  assert ((i <= length L1)%nat -> a < bp) as Hlo.
  { intros Hle. apply (A1 (a, k)). apply (list_elem_of_lookup_2 _ i). rewrite <- Hi, E. destruct (decide (i = length L1)) as [->|].
    - by rewrite !lookup_app_r, Nat.sub_diag by lia.
    - by rewrite !lookup_app_l by lia. }
  assert (forall j x, L !! j = Some x -> (length L1 < j)%nat -> bp < x.1) as Hhi.
  { intros j x Hj Hlt. apply A2. rewrite E in Hj. rewrite lookup_app_r, lookup_cons in Hj by lia. destruct (j - length L1)%nat eqn:Ed; [lia|]. by eapply list_elem_of_lookup_2. }
  assert (next (length L) i = O -> q = base) as Hwrap by (intros En; rewrite En, El in Hq; by injection Hq as ->).
  pose proof (lookup_lt_Some _ _ _ Hi) as Hil. unfold next in *. unfold stop. case_decide as Ed.
  - specialize (Hwrap eq_refl). subst q. assert (base <= a) by (by eapply rep_ge, list_elem_of_lookup_2).
    case_bool_decide as Et.
    + assert (a < bp) by (apply Hlo; lia). rewrite (proj2 (Z.leb_le base a)), (proj2 (Z.ltb_lt a bp)) by lia. by rewrite orb_true_r.
    + assert (length L1 < length L)%nat by (rewrite E, length_app; cbn; lia). assert (bp < a) by (apply (Hhi i (a, k)); [done|lia]).
      rewrite (proj2 (Z.ltb_ge a bp)), (proj2 (Z.ltb_ge bp base)) by lia. by destruct (base <=? a).
  - destruct (sorted_inj _ _ _ _ _ Hs Hi Hq) as [B1 B2]; [lia|]. cbn in B1, B2. rewrite (proj2 (Z.leb_gt q a)) by lia. rewrite andb_false_l, orb_false_r.
    case_bool_decide as Et.
    + assert (a < bp) by (apply Hlo; lia). assert (bp < q) by (apply (Hhi (Datatypes.S i) (q, k')); [done|lia]). rewrite !(proj2 (Z.ltb_lt _ _)) by lia. done.
    + destruct (decide (i < length L1)%nat) as [Hlt|Hge].
      * assert (q < bp); [|rewrite (proj2 (Z.ltb_ge bp q)) by lia; apply andb_false_r]. apply (A1 (q, k')), (list_elem_of_lookup_2 _ (Datatypes.S i)).
        rewrite <- Hq, E. destruct (decide (Datatypes.S i = length L1)) as [->|]; [by rewrite !lookup_app_r, Nat.sub_diag by lia|by rewrite !lookup_app_l by lia].
      * assert (bp < a) by (apply (Hhi i (a, k)); [done|lia]). by rewrite (proj2 (Z.ltb_ge a bp)) by lia.
Qed.
End rep.

Section wp.
Context {S : Type} `{SbrkEnv S}.
Implicit Types s : ast S.

Lemma wp_hdr p h s (Q : Header -> ast S -> Prop) : hdrs s !! p = Some h -> Q h s -> wp (hdr p) Q s.
Proof. intros Hh HQ. unfold hdr. apply wp_bind, wp_gets. by eapply wp_the. Qed.

Definition with_hdrs (m : gmap Z Header) s : ast S := mkAst (aenv s) m (freep s).

Lemma wp_set_ptr p v h s (Q : unit -> ast S -> Prop) : hdrs s !! p = Some h -> Q tt (with_hdrs (<[p := mkH v (h_size h)]> (hdrs s)) s) -> wp (set_ptr p v) Q s.
Proof. intros Hh HQ. unfold set_ptr. apply wp_bind. by eapply wp_hdr. Qed.
Lemma wp_set_size p v s (Q : unit -> ast S -> Prop) :
  Q tt (with_hdrs (<[p := mkH (match hdrs s !! p with Some h => h_ptr h | None => 0 end) v]> (hdrs s)) s) -> wp (set_size p v) Q s.
Proof. done. Qed.

Lemma find_place_ok base s L bp L1 p n L2 fuel start : rep base (hdrs s) L -> base < bp -> L = L1 ++ (p, n) :: L2 ->
  (forall y, y ∈ L1 ++ [(p, n)] -> y.1 < bp) -> (forall y, y ∈ L2 -> bp < y.1) -> start ∈ L.*1 -> (length L < fuel)%nat ->
  wp (find_place fuel bp start) (fun r s' => r = p /\ s' = s) s.
Proof.
  intros R Hb E A1 A2 Hst Hf. apply list_elem_of_fmap in Hst as ([st k] & -> & Hin). cbn [fst]. apply list_elem_of_lookup in Hin as [i Hi].
  assert (length L1 < length L)%nat as Ht by (rewrite E, length_app; cbn; lia).
  unfold find_place. revert i st k Hi. cut (forall fuel i st k, L !! i = Some (st, k) -> (cdist (length L) i (length L1) < fuel)%nat ->
    wp (loop fuel (fun p => h ← hdr p; mret (if stop bp p (h_ptr h) then inr p else inl (h_ptr h))) st) (fun r s' => r = p /\ s' = s) s).
  { intros Hc i st k Hi. apply (Hc fuel i st k Hi). pose proof (cdist_lt (length L) i (length L1) (lookup_lt_Some _ _ _ Hi) Ht). lia. }
  clear fuel Hf. induction fuel as [|fuel IH]; intros i st k Hi Hd; [lia|]. cbn [loop]. destruct (rep_next base _ _ _ _ _ R Hi) as (q & k' & Hm & Hq).
  apply wp_bind, wp_bind. eapply wp_hdr; [exact Hm|]. apply wp_ret. cbn [h_ptr]. rewrite (stop_at base _ _ _ _ _ _ _ _ _ _ _ _ R Hb E A1 A2 Hi Hq).
  case_bool_decide as Et.
  - apply wp_ret. split; [|done]. subst i. rewrite E, lookup_app_r, Nat.sub_diag in Hi by lia. by injection Hi as <- <-.
  - apply (IH _ _ _ Hq). pose proof (cdist_next (length L) i (length L1) (lookup_lt_Some _ _ _ Hi) Ht Et). lia.
Qed.

(** Below 2^36 the machine's arithmetic is that of the integers. *)
Lemma hadd_small p n : 0 <= p + 16 * n < 2 ^ 64 -> hadd p n = p + 16 * n.
Proof. intros Hp. unfold hadd, u64, sizeof_Header. rewrite Z.mod_small; lia. Qed.

Lemma rep_size base m L : rep base m L -> (length L <= size m)%nat.
Proof.
  intros R. rewrite <- (length_map_to_list m), <- (length_map fst L), <- (length_map fst (map_to_list m)). apply NoDup_incl_length.
  - pose proof (rp_sorted _ _ _ R) as Hs. clear R. induction Hs as [|y L Hs IH Hy]; cbn; [constructor|]. constructor; [|done].
    intros Hin. apply in_map_iff in Hin as (z & E & Hin%list_elem_of_In). rewrite Forall_forall in Hy. destruct (Hy z Hin) as (B1 & B2 & _). lia.
  - intros a Ha. apply in_map_iff in Ha as ([a' n] & <- & Hin%list_elem_of_In). apply list_elem_of_lookup in Hin as [i Hi].
    destruct (rep_next base _ _ _ _ _ R Hi) as (q & k & Hm & _). apply in_map_iff. exists (a', mkH q n). split; [done|]. by apply list_elem_of_In, elem_of_map_to_list.
Qed.

(** The two halves of joining. *)
Lemma join_up_ok s bp x mm L2 e : hdrs s !! bp = Some (mkH x mm) -> lseg (hdrs s) L2 e -> bp ∉ L2.*1 -> 0 <= mm -> e < bp ->
  (forall y, y ∈ L2 -> bp < y.1 /\ 0 < y.2 /\ y.1 + 16 * y.2 <= 2 ^ 36) -> 0 < bp -> bp + 16 * mm <= 2 ^ 36 ->
  wp (if hadd bp mm =? hdaddr L2 e then n ← hdr (hdaddr L2 e); set_size bp (u32 (mm + h_size n));; set_ptr bp (h_ptr n) else set_ptr bp (hdaddr L2 e))
    (fun _ s' => exists n' L', join (bp, mm) L2 = (bp, n') :: L' /\ s' = with_hdrs (<[bp := mkH (hdaddr L' e) n']> (hdrs s)) s) s.
Proof.
  intros Hb HL Hn Hmm He Hy Hbp Hlim. rewrite hadd_small by lia. unfold join. destruct L2 as [|[c k] L2]; cbn [hdaddr fst snd].
  - rewrite (proj2 (Z.eqb_neq _ _)) by lia. eapply wp_set_ptr; [exact Hb|]. by exists mm, [].
  - destruct HL as [Hc HL]. destruct (Hy (c, k)) as (B1 & B2 & B3); [set_solver|]. cbn [fst snd] in *. destruct (Z.eqb_spec (bp + 16 * mm) c) as [Ec|Ec].
    + apply wp_bind. eapply wp_hdr; [exact Hc|]. cbn [h_size h_ptr]. apply wp_bind, wp_set_size. eapply wp_set_ptr; [apply lookup_insert_eq|].
      cbn [with_hdrs hdrs h_size]. exists (mm + k), L2. split; [done|]. unfold with_hdrs. cbn [aenv freep]. rewrite insert_insert_eq. unfold u32. rewrite Z.mod_small by lia. done.
    + eapply wp_set_ptr; [exact Hb|]. by exists mm, ((c, k) :: L2).
Qed.

Lemma join_down_ok s p q n bp t n' L' e : hdrs s !! p = Some (mkH q n) -> hdaddr L' e = t -> 0 <= n -> 0 <= n' -> 0 < p -> p + 16 * n <= bp -> bp + 16 * n' <= 2 ^ 36 ->
  wp (if hadd p n =? bp then set_size p (u32 (n + n'));; set_ptr p t else set_ptr p bp)
    (fun _ s' => exists n2 L3, join (p, n) ((bp, n') :: L') = (p, n2) :: L3 /\ s' = with_hdrs (<[p := mkH (hdaddr L3 e) n2]> (hdrs s)) s) s.
Proof.
  intros Hp Ht Hn Hn' Hp0 Hle Hlim. rewrite hadd_small by lia. cbn [join fst snd]. destruct (Z.eqb_spec (p + 16 * n) bp) as [Eb|Eb].
  - apply wp_bind, wp_set_size. eapply wp_set_ptr; [apply lookup_insert_eq|]. cbn [with_hdrs hdrs h_size]. exists (n + n'), L'. split; [done|].
    unfold with_hdrs. cbn [aenv freep]. rewrite insert_insert_eq, Ht. unfold u32. rewrite Z.mod_small by lia. done.
  - eapply wp_set_ptr; [exact Hp|]. by exists n, ((bp, n') :: L').
Qed.

(** [free] puts a block into the list. *)
Definition freed_to base s L bp mm s' : Prop :=
  aenv s' = aenv s /\ exists L', rep base (hdrs s') L' /\ (forall z, space L' z <-> space L z \/ bp <= z < bp + 16 * mm) /\
    (forall a, a ∉ L.*1 -> a <> bp -> hdrs s' !! a = hdrs s !! a) /\
    (length L' <= Datatypes.S (length L))%nat /\ exists i k, L' !! i = Some (freep s', k) /\ (mm <= k \/ exists q k', L' !! next (length L') i = Some (q, k') /\ mm <= k').

(** The list that [free] leaves. *)
Lemma freed_list base s L bp mm L1 p n L2 n' L' n2 L3 : rep base (hdrs s) L -> base < bp -> 0 < mm <= n' -> L = L1 ++ (p, n) :: L2 ->
  (forall y, y ∈ L2 -> bp < y.1) -> p + 16 * n <= bp -> lseg (hdrs s) L1 p -> bp ∉ L.*1 ->
  StronglySorted below ((bp, n') :: L') -> (forall y, y ∈ (bp, n') :: L' -> bp <= y.1 /\ 0 <= y.2) -> (forall y, y ∈ (bp, n') :: L' -> 0 < y.2) ->
  (forall z, space ((bp, n') :: L') z <-> bp <= z < bp + 16 * mm \/ space L2 z) ->
  lseg (<[bp := mkH (hdaddr L' base) n']> (hdrs s)) ((bp, n') :: L') base -> join (p, n) ((bp, n') :: L') = (p, n2) :: L3 ->
  (length L' <= length L2)%nat ->
  freed_to base s L bp mm (mkAst (aenv s) (<[p := mkH (hdaddr L3 base) n2]> (<[bp := mkH (hdaddr L' base) n']> (hdrs s))) p).
Proof.
  intros R Hlo Hmm E A2 Hple Hseg1 Hnin SJ HJge HJpos HspJ HJ EK Hlen. split; [done|]. exists (L1 ++ (p, n2) :: L3). cbn [hdrs freep].
  pose proof R as [(l & El) _ Hsort Hpos]. assert ((p, n) ∈ L) as Hpin by (rewrite E; set_solver). destruct (rep_ge base _ _ _ _ R Hpin) as [Hpb Hn0].
  rewrite E in Hsort. pose proof (StronglySorted_app_1_l _ _ _ Hsort) as HS1.
  assert (forall y, y ∈ L1 -> below y (p, n)) as HL1 by (intros y Hy; eapply (StronglySorted_app_1_elem_of below L1 ((p, n) :: L2)); [done|done|set_solver]).
  assert (p < bp) as Hpbp by (destruct (decide (n = 0)) as [->|]; [|lia]; destruct (Hpos p 0 Hpin) as [->|]; [done|lia]).
  destruct (sorted_join p n ((bp, n') :: L')) as [SK HKge]; [done|done|intros y Hy; destruct (HJge y Hy); lia|]. rewrite EK in SK, HKge.
  assert (p ∉ ((bp, n') :: L').*1) as Hpn by (intros (y & -> & Hy)%list_elem_of_fmap; destruct (HJge y Hy); lia).
  destruct (lseg_join _ _ _ p n HJ Hpn) as (n2' & L3' & EK' & _ & HK). rewrite EK in EK', HK. injection EK' as <- <-.
  split; [split|split; [|split; [|split]]].
  - destruct L1 as [|y L1]; [|rewrite E in El; injection El as -> _; by eexists]. rewrite E in El. cbn in El. injection El as -> -> ->. cbn in EK.
    rewrite (proj2 (Z.eqb_neq _ _)) in EK by lia. injection EK as <- <-. by eexists.
  - apply lseg_app. split; [|exact HK]. cbn [hdaddr]. apply lseg_frame; [|apply lseg_frame; [|done]].
    + intros (y & Ey & Hy)%list_elem_of_fmap. destruct (HL1 y Hy) as (B1 & B2 & _). cbn in *. lia.
    + intros Hx. apply Hnin. rewrite E, fmap_app. set_solver.
  - apply StronglySorted_app_2; [|done|done]. intros x y Hx Hy. destruct (HL1 x Hx) as (B1 & B2 & _). destruct (HKge y Hy). unfold below. cbn in *. lia.
  - intros a k [Ha|Ha]%elem_of_app; [apply (Hpos a k); rewrite E; set_solver|]. rewrite <- EK in Ha. apply join_in in Ha as [[Ea Hk]|[Ha|(k' & [= -> ->] & c & Hc)]].
    + cbn in Ea, Hk. subst a. destruct (Hpos p n Hpin); [by left|right; lia].
    + right. by apply (HJpos (a, k)).
    + right. specialize (HJpos _ Hc). cbn in HJpos. lia.
  - intros z. rewrite space_app, <- EK, space_join, HspJ, E, space_app, space_cons; [tauto|done|]. intros y Hy. by destruct (HJge y Hy).
  - intros a Ha Hab. assert (a <> p) by (intros ->; apply Ha; rewrite E, fmap_app; set_solver). by rewrite !lookup_insert_ne by done.
  - assert (length ((p, n2) :: L3) <= Datatypes.S (length ((bp, n') :: L')))%nat as Hl by (rewrite <- EK; apply join_length). rewrite E, !length_app. cbn [length] in *. lia.
  - exists (length L1), n2. split; [by rewrite lookup_app_r, Nat.sub_diag|]. cbn in EK. destruct (Z.eqb_spec (p + 16 * n) bp) as [Eb|Eb]; injection EK as <- <-; [left; lia|right].
    exists bp, n'. split; [|lia]. unfold next. rewrite length_app. cbn [length]. rewrite decide_False by lia. rewrite lookup_app_r by lia.
    replace (Datatypes.S (length L1) - length L1)%nat with 1%nat by lia. done.
Qed.

Lemma free_list_ok base s L bp mm x : 0 < base -> rep base (hdrs s) L -> freep s ∈ L.*1 -> hdrs s !! bp = Some (mkH x mm) -> 0 < mm -> base < bp ->
  (forall z, bp <= z < bp + 16 * mm -> ~ space L z) -> (forall z, space L z -> z < 2 ^ 36) -> bp + 16 * mm <= 2 ^ 36 ->
  wp (free (bp + 16)) (fun _ s' => freed_to base s L bp mm s') s.
Proof.
  intros Hbase R Hfp Hbp Hmm Hlo Hdis Hlim Hlim2. pose proof R as [(l & El) Hseg Hsort Hpos].
  assert (bp ∉ L.*1) as Hnin.
  { intros ([b k] & -> & Hin)%list_elem_of_fmap. cbn in *. destruct (Hpos b k Hin) as [->|Hk]; [lia|]. apply (Hdis b); [lia|]. exists b, k. split; [done|lia]. }
  destruct (split_at base _ _ _ R Hlo Hnin) as (L1 & p & n & L2 & E & A1 & A2).
  assert ((p, n) ∈ L) as Hpin by (rewrite E; set_solver). destruct (rep_ge base _ _ _ _ R Hpin) as [Hpb Hn0].
  assert (p < bp) as Hpbp by (apply (A1 (p, n)); set_solver).
  assert (p + 16 * n <= bp) as Hple.
  { destruct (decide (p + 16 * n <= bp)); [done|]. exfalso. apply (Hdis bp); [lia|]. exists p, n. split; [done|lia]. }
  assert (forall y, y ∈ L2 -> bp < y.1 /\ 0 < y.2 /\ y.1 + 16 * y.2 <= 2 ^ 36 /\ bp + 16 * mm <= y.1) as HL2.
  { intros [c k] Hin. cbn. pose proof (A2 _ Hin) as Hc. cbn in Hc. assert ((c, k) ∈ L) as HinL by (rewrite E; set_solver). destruct (Hpos c k HinL) as [->|Hk]; [lia|].
    assert (space L (c + 16 * k - 1)) as Hs1 by (exists c, k; split; [done|lia]). pose proof (Hlim _ Hs1).
    split; [done|]. split; [done|]. split; [lia|]. destruct (decide (bp + 16 * mm <= c)); [done|]. exfalso. apply (Hdis c); [lia|]. exists c, k. split; [done|lia]. }
  pose proof Hseg as Hseg'. rewrite E, lseg_app in Hseg'. destruct Hseg' as [Hseg1 [Hp Hseg2]].
  unfold free. rewrite hadd_small by lia. replace (bp + 16 + 16 * -1) with bp by lia. apply wp_bind, wp_gets, wp_bind, wp_gets, wp_bind.
  eapply wp_mono; [apply (find_place_ok base s L bp L1 p n L2); try done; pose proof (rep_size base _ _ R); lia|]. cbn beta. intros ? ? [-> ->].
  apply wp_bind. eapply wp_hdr; [exact Hbp|]. apply wp_bind. eapply wp_hdr; [exact Hp|]. cbn [h_size h_ptr]. apply wp_bind.
  assert (bp ∉ L2.*1) as Hnin2 by (intros Hx; apply Hnin; rewrite E, fmap_app; set_solver).
  eapply wp_mono; [apply (join_up_ok s bp x mm L2 base); try done; [lia|intros y Hy; destruct (HL2 y Hy) as (? & ? & ? & ?); done|lia]|].
  cbn beta. intros _ s1 (n' & L' & EJ & ->). destruct (lseg_join _ _ _ bp mm Hseg2 Hnin2) as (n2 & L2' & EJ' & Hsub & HJ). rewrite EJ in EJ'. injection EJ' as <- <-.
  destruct (sorted_join bp mm L2) as [SJ HJge]; [lia|rewrite E in Hsort; apply StronglySorted_app_1_r, StronglySorted_inv in Hsort; by destruct Hsort|intros y Hy; destruct (HL2 y Hy) as (? & ? & ? & ?); lia|].
  assert (forall y, y ∈ (bp, n') :: L' -> 0 < y.2) as HJpos.
  { intros y Hy. rewrite <- EJ in Hy. apply join_in in Hy as [[_ ?]|[Hy|(k & -> & c & Hc)]]; [lia|by apply HL2|]. destruct (HL2 _ Hc) as (_ & ? & _). cbn in *. lia. }
  assert (mm <= n') as Hn'.
  { assert ((bp, n') ∈ join (bp, mm) L2) as Hy by (rewrite EJ; set_solver). apply join_in in Hy as [[_ ?]|[Hy|(k & [= ->] & c & Hc)]]; [done| |destruct (HL2 _ Hc) as (_ & ? & _); cbn in *; lia].
    destruct (HL2 _ Hy) as (? & _). cbn in *. lia. }
  assert (forall z, space ((bp, n') :: L') z <-> bp <= z < bp + 16 * mm \/ space L2 z) as HspJ.
  { intros z. rewrite <- EJ. apply space_join; [lia|]. intros y Hy. destruct (HL2 y Hy) as (_ & ? & _). lia. }
  assert (bp + 16 * n' <= 2 ^ 36) as Hlim3.
  { assert (space ((bp, n') :: L') (bp + 16 * n' - 1)) as Hz by (apply space_cons; left; lia). apply HspJ in Hz as [Hz|Hz]; [lia|].
    assert (space L (bp + 16 * n' - 1)) as Hz' by (rewrite E, space_app, space_cons; by right; right). apply Hlim in Hz'. lia. }
  rewrite EJ in SJ, HJge, HJ. set (m1 := <[bp := mkH (hdaddr L' base) n']> (hdrs s)) in *. apply wp_bind. eapply (wp_hdr bp (mkH (hdaddr L' base) n')); [apply lookup_insert_eq|].
  apply wp_bind. eapply (wp_hdr p (mkH (hdaddr L2 base) n)); [cbn [with_hdrs hdrs]; unfold m1; rewrite lookup_insert_ne by lia; exact Hp|]. cbn [h_size h_ptr]. apply wp_bind.
  eapply wp_mono; [eapply (join_down_ok _ p (hdaddr L2 base) n bp _ n' L' base); [cbn [with_hdrs hdrs]; unfold m1; rewrite lookup_insert_ne by lia; exact Hp|done|lia..]|].
  cbn beta. intros _ s2 (n2 & L3 & EK & ->). unfold set_freep. apply wp_modify.
  apply (freed_list base s L bp mm L1 p n L2 n' L' n2 L3); try done.
  pose proof (join_length (bp, mm) L2) as Hl. rewrite EJ in Hl. cbn in Hl. lia.
Qed.
End wp.

(** ** The heap *)

(** [sbrk] gives the old break or fails; a process has less than 2^36 bytes. *)
Class SbrkOk (S : Type) `{SbrkEnv S} := {
  brk : S -> Z;
  s_sbrk : forall n e, 0 < n -> wp (sbrk n) (fun r e' => (r = 2 ^ 64 - 1 /\ brk e' = brk e) \/
    (r = brk e /\ brk e' = brk e + n /\ brk e' <= 2 ^ 36)) e;
}.

Section heap.
Context {S : Type} `{SO : SbrkOk S} (base : Z).
Implicit Types (s : ast S) (L : list blk) (A : gmap Z Z).

(** The blocks in use are [A], from the addresses of their headers to their sizes in headers. *)
Record heap s L A : Prop := {
  hp_base : 0 < base < brk (aenv s) /\ brk (aenv s) <= 2 ^ 36;
  hp_rep : rep base (hdrs s) L;
  hp_freep : freep s ∈ L.*1;
  hp_live : forall a n, A !! a = Some n -> 0 < n /\ base < a /\ a + 16 * n <= brk (aenv s) /\ exists x, hdrs s !! a = Some (mkH x n);
  hp_free : forall a n z, A !! a = Some n -> a <= z < a + 16 * n -> ~ space L z;
  hp_disj : forall a b n m z, A !! a = Some n -> A !! b = Some m -> a <= z < a + 16 * n -> b <= z < b + 16 * m -> a = b;
  hp_top : forall z, space L z -> z < brk (aenv s);
}.

Lemma live_notin s L A a n : heap s L A -> A !! a = Some n -> a ∉ L.*1.
Proof.
  intros Hh Ha ([b k] & -> & Hin)%list_elem_of_fmap. cbn in *. destruct (hp_live _ _ _ Hh _ _ Ha) as (H1 & H2 & _).
  destruct (rp_pos _ _ _ (hp_rep _ _ _ Hh) b k Hin) as [->|Hk]; [lia|]. apply (hp_free _ _ _ Hh _ _ b Ha); [lia|]. exists b, k. split; [done|lia].
Qed.

Lemma free_ok s L A q n : heap s L A -> A !! q = Some n ->
  wp (free (q + 16)) (fun _ s' => exists L', heap s' L' (delete q A) /\ forall z, space L' z <-> space L z \/ q <= z < q + 16 * n) s.
Proof.
  intros Hh Hq. pose proof Hh as [H1 H2 H3 H4 H5 H6 H7]. destruct (H4 _ _ Hq) as (P1 & P2 & P3 & x & P4).
  eapply wp_mono; [apply (free_list_ok base s L q n x); try done; [lia|intros z Hz; by apply (H5 q n)|intros z Hz; specialize (H7 z Hz); lia|lia]|].
  cbn beta. intros _ s' (E & L' & R' & Hsp & Hfr & _ & i & k & Hi & _). exists L'. split; [|done]. split; rewrite ?E.
  - done.
  - done.
  - apply list_elem_of_fmap. exists (freep s', k). split; [done|]. by eapply list_elem_of_lookup_2.
  - intros a m [Hne Ha]%lookup_delete_Some. destruct (H4 _ _ Ha) as (B1 & B2 & B3 & y & B4). split_and!; try done. exists y. rewrite Hfr; [done| |done]. by eapply live_notin.
  - intros a m z [Hne Ha]%lookup_delete_Some Hz [Hs|Hs]%Hsp; [by apply (H5 a m z)|]. by destruct (Hne (H6 _ _ _ _ _ Hq Ha Hs Hz)).
  - intros a b m m' z [_ Ha]%lookup_delete_Some [_ Hb]%lookup_delete_Some. by apply (H6 a b m m' z).
  - intros z [Hs|Hs]%Hsp; [by apply H7|lia].
Qed.

Lemma morecore_ok s L A nu : heap s L A -> 0 < nu -> 16 * nu < 2 ^ 31 ->
  wp (morecore nu) (fun r s' => (r = 0 /\ heap s' L A) \/ (r = freep s' /\ exists L', heap s' L' A /\ (length L' <= Datatypes.S (length L))%nat /\
    exists i k, L' !! i = Some (freep s', k) /\ (nu <= k \/ exists q k', L' !! next (length L') i = Some (q, k') /\ nu <= k'))) s.
Proof.
  intros Hh Hnu Hlim. unfold morecore. set (nu' := if nu <? 4096 then 4096 else nu). cbv zeta.
  assert (nu <= nu' /\ 0 < nu' /\ 16 * nu' < 2 ^ 31) as (N1 & N2 & N3) by (unfold nu'; destruct (Z.ltb_spec nu 4096); lia). clearbody nu'.
  pose proof Hh as [H1 H2 H3 H4 H5 H6 H7]. apply wp_bind, wp_zoom. eapply wp_mono; [apply s_sbrk; unfold sizeof_Header; rewrite i32_id; lia|].
  cbn beta. intros r e [[-> He]|(-> & He & He2)].
  - rewrite Z.eqb_refl. apply wp_ret. left. split; [done|]. split; cbn; rewrite ?He; done.
  - rewrite i32_id in He by (unfold sizeof_Header; lia). unfold sizeof_Header in He. rewrite (proj2 (Z.eqb_neq _ _)) by lia. set (p := brk (aenv s)) in *.
    assert (p ∉ L.*1) as Hp.
    { intros ([b k] & Eb & Hin)%list_elem_of_fmap. cbn in Eb. subst b. destruct (rp_pos _ _ _ H2 p k Hin) as [?|Hk]; [lia|].
      assert (p < p); [|lia]. apply (H7 p). exists p, k. split; [done|lia]. }
    apply wp_bind, wp_set_size, wp_bind. rewrite hadd_small by lia. replace (p + 16 * 1) with (p + 16) by lia. set (s1 := with_hdrs _ _).
    assert (hdrs s1 = <[p := mkH (match hdrs s !! p with Some h => h_ptr h | None => 0 end) nu']> (hdrs s)) as E1 by done.
    assert (aenv s1 = e /\ freep s1 = freep s) as [E2 E3] by done. clearbody s1.
    assert (rep base (hdrs s1) L) as R1.
    { destruct H2 as [A1 A2 A3 A4]. split; try done. rewrite E1. by apply lseg_frame. }
    eapply wp_mono; [eapply (free_list_ok base s1 L p nu'); [lia|done|by rewrite E3|rewrite E1; apply lookup_insert_eq|done|lia|intros z Hz Hs; specialize (H7 z Hs); lia|intros z Hz; specialize (H7 z Hz); lia|lia]|].
    cbn beta. intros _ s2 (F1 & L' & R' & Hsp & Hfr & Hlen & i & k & Hi & Hk). apply wp_gets. right. split; [done|]. exists L'. split; [|split; [done|]].
    2:{ exists i, k. split; [done|]. destruct Hk as [Hk|(q & k' & Hq & Hk)]; [left; lia|right]. exists q, k'. split; [done|lia]. }
    rewrite E2 in F1. split; rewrite ?F1, ?He.
    + lia.
    + done.
    + apply list_elem_of_fmap. exists (freep s2, k). split; [done|]. by eapply list_elem_of_lookup_2.
    + intros a n Ha. destruct (H4 _ _ Ha) as (B1 & B2 & B3 & y & B4). split; [done|]. split; [done|]. split; [lia|]. exists y.
      assert (a <> p) by lia. rewrite Hfr; [|by eapply live_notin|done]. by rewrite E1, lookup_insert_ne.
    + intros a n z Ha Hz [Hs|Hs]%Hsp; [by apply (H5 a n z)|]. destruct (H4 _ _ Ha) as (_ & _ & B3 & _). lia.
    + done.
    + intros z [Hs|Hs]%Hsp; [specialize (H7 z Hs)|]; lia.
Qed.

(** What [malloc] gives out. *)
Definition given A nunits (r : Z) s' : Prop := exists q L', r = q + 16 /\ A !! q = None /\ heap s' L' (<[q := nunits]> A).

(** A block [q] taken out of the free space. *)
Lemma heap_take s s' L L' A q nunits x : heap s L A -> 0 < nunits -> aenv s' = aenv s -> rep base (hdrs s') L' -> freep s' ∈ L'.*1 ->
  (forall z, space L z <-> space L' z \/ q <= z < q + 16 * nunits) -> (forall z, q <= z < q + 16 * nunits -> ~ space L' z) -> base < q ->
  hdrs s' !! q = Some (mkH x nunits) -> (forall a n, A !! a = Some n -> a <> q -> hdrs s' !! a = hdrs s !! a) ->
  A !! q = None /\ heap s' L' (<[q := nunits]> A).
Proof.
  intros [H1 H2 H3 H4 H5 H6 H7] Hn E R' Hf Hsp Hout Hq Hh Hfr.
  assert (forall z, q <= z < q + 16 * nunits -> space L z) as Hin by (intros z Hz; apply Hsp; by right).
  assert (A !! q = None) as Hnone.
  { destruct (A !! q) as [m|] eqn:Eq; [|done]. exfalso. destruct (H4 _ _ Eq) as (B1 & _). apply (H5 q m q Eq); [lia|]. apply Hin. lia. }
  assert (forall a n, A !! a = Some n -> a <> q) as Hne by congruence. split; [done|]. split; rewrite ?E; try done.
  - intros a n [[<- <-]|[? Ha]]%lookup_insert_Some.
    + split; [done|]. split; [done|]. split; [|eauto]. specialize (H7 (q + 16 * nunits - 1)). assert (q + 16 * nunits - 1 < brk (aenv s)); [apply H7, Hin|]; lia.
    + destruct (H4 _ _ Ha) as (B1 & B2 & B3 & y & B4). split; [done|]. split; [done|]. split; [done|]. exists y. rewrite Hfr with (n := n); [done|done|by apply Hne with n].
  - intros a n z [[<- <-]|[? Ha]]%lookup_insert_Some Hz Hs; [by apply (Hout z)|]. apply (H5 a n z Ha Hz), Hsp. by left.
  - intros a b n m z [[<- <-]|[? Ha]]%lookup_insert_Some [[<- <-]|[? Hb]]%lookup_insert_Some Z1 Z2; [done| | |by apply (H6 a b n m z)].
    + exfalso. apply (H5 b m z Hb Z2). by apply Hin.
    + exfalso. apply (H5 a n z Ha Z1). by apply Hin.
  - intros z Hz. apply H7, Hsp. by left.
Qed.

Lemma space_dis L1 p n L2 z : StronglySorted below (L1 ++ (p, n) :: L2) -> p <= z < p + 16 * n -> ~ space (L1 ++ L2) z.
Proof.
  intros Hs Hz [(a & k & Hin & Ha)|(a & k & Hin & Ha)]%space_app.
  - destruct (StronglySorted_app_1_elem_of _ _ _ (a, k) (p, n) Hs Hin ltac:(set_solver)) as (B1 & _). cbn in *. lia.
  - apply StronglySorted_app_1_r, StronglySorted_inv in Hs as [_ Hs]. rewrite Forall_forall in Hs. destruct (Hs _ Hin) as (B1 & _). cbn in *. lia.
Qed.

(** A block after another in the list, and the parts of the list around them. *)
Record adjacent m L L1 prev k p n L2 : Prop := {
  aj_list : L = L1 ++ (prev, k) :: (p, n) :: L2;
  aj_rep : rep base m L;
  aj_base : base < p;
  aj_ne : prev <> p;
  aj_notin : p ∉ L1.*1 /\ prev ∉ L1.*1 /\ p ∉ L2.*1 /\ prev ∉ L2.*1;
  aj_seg : lseg m L1 prev /\ m !! prev = Some (mkH p k) /\ m !! p = Some (mkH (hdaddr L2 base) n) /\ lseg m L2 base;
}.

Lemma adjacent_intro m L L1 prev k p n L2 : rep base m L -> L = L1 ++ (prev, k) :: (p, n) :: L2 -> adjacent m L L1 prev k p n L2.
Proof.
  intros R E. pose proof R as [(l & El) Hseg Hsort Hpos]. assert ((p, n) ∈ L) as Hpin by (rewrite E; set_solver). split; try done.
  - destruct (rep_ge base _ _ _ _ R Hpin) as [Hle _]. destruct (decide (base = p)) as [Eb|]; [|lia]. exfalso.
    assert (L !! Datatypes.S (length L1) = Some (p, n)) as Hi by (rewrite E, lookup_app_r by lia; replace (Datatypes.S (length L1) - length L1)%nat with 1%nat by lia; done).
    assert (L !! O = Some (base, 0)) as H0 by by rewrite El. destruct (sorted_inj _ _ _ _ _ Hsort H0 Hi) as [B1 _]; [lia|]. cbn in B1. lia.
  - intros ->. rewrite E in Hsort. apply StronglySorted_app_1_r, StronglySorted_inv in Hsort as [_ Hx]. apply Forall_cons in Hx as [(B1 & B2 & _) _]. cbn in *. lia.
  - rewrite E in Hsort. pose proof Hsort as Hs2. apply StronglySorted_app_1_r, StronglySorted_inv in Hs2 as [Hs2 Hx]. apply StronglySorted_inv in Hs2 as [_ Hy]. rewrite Forall_forall in Hx, Hy.
    split_and!; intros (y & Ey & Hin)%list_elem_of_fmap.
    + destruct (StronglySorted_app_1_elem_of _ _ _ y (p, n) Hsort Hin ltac:(set_solver)) as (B1 & B2 & _). cbn in *. lia.
    + destruct (StronglySorted_app_1_elem_of _ _ _ y (prev, k) Hsort Hin ltac:(set_solver)) as (B1 & B2 & _). cbn in *. lia.
    + destruct (Hy y Hin) as (B1 & B2 & _). cbn in *. lia.
    + destruct (Hx y ltac:(set_solver)) as (B1 & B2 & _). cbn in *. lia.
  - rewrite E, lseg_app in Hseg. cbn [lseg hdaddr] in Hseg. tauto.
Qed.

(** The block unlinked. *)
Lemma rep_unlink m L L1 prev k p n L2 : adjacent m L L1 prev k p n L2 ->
  rep base (<[prev := mkH (hdaddr L2 base) k]> m) (L1 ++ (prev, k) :: L2) /\ (forall z, p <= z < p + 16 * n -> ~ space (L1 ++ (prev, k) :: L2) z).
Proof.
  intros [E R Hbp Hpp (Q1 & Q2 & Q3 & Q4) (S1 & S2 & S3 & S4)]. pose proof R as [(l & El) Hseg Hsort Hpos]. split; [split|].
  - destruct L1 as [|y L1]; [cbn in E |- *; rewrite E in El; injection El as -> -> _; by eexists|rewrite E in El; injection El as -> _; by eexists].
  - apply lseg_app. cbn [lseg hdaddr]. rewrite lookup_insert_eq. split; [by apply lseg_frame|]. split; [done|by apply lseg_frame].
  - rewrite E in Hsort. apply StronglySorted_app in Hsort as (T1 & T2 & T3). apply StronglySorted_app_2; [intros x y Hx Hy; apply T1; set_solver|done|].
    apply StronglySorted_inv in T3 as [T3 T4]. apply StronglySorted_inv in T3 as [T3 _]. constructor; [done|]. by apply Forall_cons in T4 as [_ ?].
  - intros a m' Ha. apply (Hpos a m'). rewrite E. set_solver.
  - intros z Hz. replace (L1 ++ (prev, k) :: L2) with ((L1 ++ [(prev, k)]) ++ L2) by by rewrite <- app_assoc.
    apply (space_dis _ p n); [|done]. rewrite <- app_assoc. cbn. by rewrite <- E.
Qed.

(** The block cut to [c] headers, with a new header [h] behind. *)
Lemma rep_shrink m L L1 prev k p n L2 c h : adjacent m L L1 prev k p n L2 -> 0 < c < n -> let q := p + 16 * c in
  rep base (<[q := h]> (<[p := mkH (hdaddr L2 base) c]> m)) (L1 ++ (prev, k) :: (p, c) :: L2) /\
  (forall z, q <= z < p + 16 * n -> ~ space (L1 ++ (prev, k) :: (p, c) :: L2) z).
Proof.
  intros [E R Hbp Hpp (Q1 & Q2 & Q3 & Q4) (S1 & S2 & S3 & S4)] Hc. cbv zeta. set (q := p + 16 * c). pose proof R as [(l & El) Hseg Hsort Hpos].
  assert (StronglySorted below ((L1 ++ [(prev, k)]) ++ (p, n) :: L2)) as Hs' by (rewrite <- app_assoc; cbn; by rewrite <- E).
  assert (forall z, q <= z < p + 16 * n -> ~ space (L1 ++ (prev, k) :: (p, c) :: L2) z) as Hout.
  { intros z Hz Hx. apply space_app in Hx. rewrite !space_cons in Hx. apply (space_dis (L1 ++ [(prev, k)]) p n L2 z); [done|unfold q in *; lia|].
    rewrite !space_app, space_cons, space_nil. unfold q in *. destruct Hx as [?|[?|[?|?]]]; [tauto|tauto|lia|tauto]. }
  assert (forall b m', (b, m') ∈ L1 ++ (prev, k) :: (p, c) :: L2 -> b = base \/ 0 < m') as Hpos'.
  { intros b m' Ha. rewrite !elem_of_app, !elem_of_cons in Ha. destruct Ha as [?|[?|[[= -> ->]|?]]]; [| |right; lia|]; apply (Hpos b m'); rewrite E; set_solver. }
  assert (q ∉ (L1 ++ (prev, k) :: (p, c) :: L2).*1) as Hq.
  { intros ([b m'] & Eb & Hin)%list_elem_of_fmap. cbn in Eb. subst b. destruct (Hpos' q m' Hin) as [?|Hm]; [unfold q in *; lia|].
    apply (Hout q); [unfold q; lia|]. exists q, m'. split; [done|lia]. }
  rewrite fmap_app in Hq. cbn in Hq. split; [split|done].
  - destruct L1 as [|y L1]; [cbn in E |- *; rewrite E in El; injection El as -> -> _; by eexists|rewrite E in El; injection El as -> _; by eexists].
  - apply lseg_app. cbn [lseg hdaddr]. rewrite !(lookup_insert_ne _ q) by set_solver. rewrite lookup_insert_ne, lookup_insert_eq by done.
    split; [apply lseg_frame; [set_solver|by apply lseg_frame]|]. split; [done|]. split; [done|]. apply lseg_frame; [set_solver|by apply lseg_frame].
  - rewrite E in Hsort. apply StronglySorted_app in Hsort as (T1 & T2 & T3). apply StronglySorted_inv in T3 as [T3 T4]. apply StronglySorted_inv in T3 as [T3 T5].
    apply Forall_cons in T4 as [T4 T4']. rewrite Forall_forall in T5. apply StronglySorted_app_2; [|done|].
    + intros x y Hx [->|[->|Hy]%elem_of_cons]%elem_of_cons; [apply T1; set_solver| |apply T1; set_solver]. destruct (T1 x (p, n) Hx ltac:(set_solver)) as (B1 & B2 & _).
      unfold below. cbn in *. lia.
    + constructor; [constructor; [done|]|constructor; [|done]].
      * apply Forall_forall. intros y Hy. destruct (T5 y Hy) as (B1 & B2 & B3). unfold below. cbn in *. lia.
      * destruct T4 as (B1 & B2 & B3). unfold below. cbn in *. lia.
  - done.
Qed.

Lemma take_block_ok s L A nunits L1 prev k p n L2 : heap s L A -> 0 < nunits <= n -> L = L1 ++ (prev, k) :: (p, n) :: L2 ->
  wp (take_block nunits prev p) (fun r s' => given A nunits r s') s.
Proof.
  intros Hh Hn E. pose proof (hp_rep _ _ _ Hh) as R. pose proof (adjacent_intro _ _ _ _ _ _ _ _ R E) as Hadj. pose proof Hadj as [_ _ Hbp Hpp _ (S1 & S2 & S3 & S4)].
  assert (p + 16 * n <= brk (aenv s)) as Hlim.
  { assert (p + 16 * n - 1 < brk (aenv s)); [|lia]. apply (hp_top _ _ _ Hh). exists p, n. split; [rewrite E; set_solver|lia]. }
  assert (0 < nunits) as Hn0 by lia. pose proof (hp_base _ _ _ Hh) as Hb.
  assert (forall a m, A !! a = Some m -> a <> prev /\ a <> p) as Hne by (intros a m Ha; split; intros ->; apply (live_notin _ _ _ _ _ Hh Ha); rewrite E, fmap_app; set_solver).
  unfold take_block. apply wp_bind. eapply wp_hdr; [exact S3|]. cbn [h_size h_ptr]. apply wp_bind. destruct (Z.eqb_spec n nunits) as [->|Hnn].
  - destruct (rep_unlink _ _ _ _ _ _ _ _ Hadj) as [R' Hout]. apply wp_bind. eapply wp_set_ptr; [exact S2|]. apply wp_ret, wp_bind, wp_modify, wp_ret. rewrite hadd_small by lia.
    eexists p, (L1 ++ (prev, k) :: L2). split; [lia|]. eapply (heap_take s _ L); try done; cbn [with_hdrs hdrs freep aenv h_size].
    + rewrite fmap_app. cbn. set_solver.
    + intros z. rewrite E, !space_app, !space_cons. tauto.
    + rewrite lookup_insert_ne by done. exact S3.
    + intros a m Ha _. by rewrite lookup_insert_ne by (intros <-; by destruct (Hne _ _ Ha)).
  - cbv zeta. assert (u32 (n - nunits) = n - nunits) as -> by (unfold u32; rewrite Z.mod_small; lia). set (c := n - nunits). assert (0 < c < n) as Hc by (unfold c; lia).
    rewrite (hadd_small p c) by lia. set (q := p + 16 * c). apply wp_bind, wp_set_size, wp_bind, wp_set_size, wp_ret, wp_bind, wp_modify, wp_ret.
    cbn [with_hdrs hdrs freep aenv]. rewrite S3. cbn [h_ptr]. rewrite hadd_small by (unfold q, c; lia). set (h := mkH _ nunits).
    destruct (rep_shrink _ _ _ _ _ _ _ _ c h Hadj Hc) as [R' Hout]. fold q in R', Hout. assert (q + 16 * nunits = p + 16 * n) as Eq by (unfold q, c; lia).
    eexists q, (L1 ++ (prev, k) :: (p, c) :: L2). split; [lia|]. eapply (heap_take s _ L); try done; cbn [with_hdrs hdrs freep aenv h_size].
    + rewrite fmap_app. cbn. set_solver.
    + intros z. rewrite E, !space_app, !space_cons. assert (p <= z < p + 16 * n <-> p <= z < p + 16 * c \/ q <= z < q + 16 * nunits) as -> by (unfold q in *; lia). tauto.
    + by rewrite Eq.
    + unfold q. lia.
    + apply lookup_insert_eq.
    + intros a m Ha Hap. rewrite lookup_insert_ne by done. by rewrite lookup_insert_ne by (intros <-; by destruct (Hne _ _ Ha)).
Qed.

(** One turn of the search at a block that is large enough. *)
Lemma turn_take s L A nunits i prev k p n : heap s L A -> 0 < nunits <= n -> L !! i = Some (prev, k) -> L !! next (length L) i = Some (p, n) ->
  wp (malloc_turn nunits (prev, p)) (fun r s' => exists v, r = inr v /\ given A nunits v s') s.
Proof.
  intros Hh Hn Hi Hp. pose proof (hp_rep _ _ _ Hh) as R. assert (next (length L) i = Datatypes.S i) as En.
  { unfold next in *. case_decide; [|done]. destruct (rp_base _ _ _ R) as [l ->]. injection Hp as <- <-. lia. }
  rewrite En in Hp. apply list_elem_of_split_length in Hi as (L1 & L2 & E & ->). rewrite E in Hp. rewrite lookup_app_r in Hp by lia.
  replace (Datatypes.S (length L1) - length L1)%nat with 1%nat in Hp by lia. destruct L2 as [|x L2]; [done|]. injection Hp as ->.
  destruct (aj_seg _ _ _ _ _ _ _ _ (adjacent_intro _ _ _ _ _ _ _ _ R E)) as (_ & _ & Hm & _).
  unfold malloc_turn. apply wp_bind. eapply wp_hdr; [exact Hm|]. cbn [h_size]. rewrite (proj2 (Z.leb_le nunits n)) by lia. apply wp_bind.
  eapply wp_mono; [by eapply take_block_ok|]. cbn beta. intros v s' Hg. apply wp_ret. eauto.
Qed.

(** The search from [prev] on meets a block that is large enough, at [t], before it is back at
    [freep]. *)
Lemma search_found L A s nunits t f big kf : heap s L A -> 0 < nunits -> L !! t = Some big -> nunits <= big.2 -> L !! f = Some (freep s, kf) ->
  forall fuel i prev k p n, L !! i = Some (prev, k) -> L !! next (length L) i = Some (p, n) ->
  (cdist (length L) (next (length L) i) t <= cdist (length L) (next (length L) i) f)%nat -> (cdist (length L) (next (length L) i) t < fuel)%nat ->
  wp (loop fuel (malloc_turn nunits) (prev, p)) (fun r s' => given A nunits r s') s.
Proof.
  intros Hh Hn Ht Hbig Hf. induction fuel as [|fuel IH]; intros i prev k p n Hi Hp Hd Hfu; [lia|]. cbn [loop]. apply wp_bind.
  pose proof (lookup_lt_Some _ _ _ Ht) as Htl. pose proof (lookup_lt_Some _ _ _ Hp) as Hpl. pose proof (lookup_lt_Some _ _ _ Hf) as Hfl.
  destruct (decide (nunits <= n)) as [Hle|Hgt].
  - eapply wp_mono; [eapply turn_take; [done|split; [done|exact Hle]|exact Hi|exact Hp]|]. cbn beta. intros r s' (v & -> & Hg). by apply wp_ret.
  - set (j := next (length L) i) in *. assert (j <> t) as Hjt by (intros ->; rewrite Hp in Ht; injection Ht as <-; cbn in Hbig; lia).
    assert (j <> f) as Hjf. { intros ->. assert (cdist (length L) f f = O) as E by (unfold cdist; rewrite decide_True by lia; lia). rewrite E in Hd. apply Hjt. apply (cdist_0 (length L)); [done|done|lia]. }
    destruct (rep_next base _ _ _ _ _ (hp_rep _ _ _ Hh) Hp) as (q & k' & Hm & Hq). unfold malloc_turn. apply wp_bind. eapply wp_hdr; [exact Hm|]. cbn [h_size h_ptr].
    rewrite (proj2 (Z.leb_gt nunits n)) by lia. apply wp_bind, wp_gets.
    assert (p <> freep s) as Hpf.
    { intros ->. apply Hjf. destruct (Nat.lt_trichotomy j f) as [Hlt|[?|Hlt]]; [|done|]; exfalso.
      - destruct (sorted_inj _ _ _ _ _ (rp_sorted _ _ _ (hp_rep _ _ _ Hh)) Hp Hf Hlt) as [? ?]. cbn in *. lia.
      - destruct (sorted_inj _ _ _ _ _ (rp_sorted _ _ _ (hp_rep _ _ _ Hh)) Hf Hp Hlt) as [? ?]. cbn in *. lia. }
    rewrite (proj2 (Z.eqb_neq p (freep s)) Hpf). apply wp_ret. rewrite (cdist_step (length L) j t), (cdist_step (length L) j f) in Hd by done. rewrite (cdist_step (length L) j t) in Hfu by done.
    apply (IH j p n q k'); [done|done|lia|lia].
Qed.

(** The whole search: a block, or failure of [sbrk]. *)
Lemma search_ok L A s nunits f kf : heap s L A -> 0 < nunits -> 16 * nunits < 2 ^ 31 -> L !! f = Some (freep s, kf) ->
  forall fuel i prev k p n, L !! i = Some (prev, k) -> L !! next (length L) i = Some (p, n) ->
  (cdist (length L) (next (length L) i) f + length L + 2 < fuel)%nat ->
  wp (loop fuel (malloc_turn nunits) (prev, p)) (fun r s' => given A nunits r s' \/ (r = 0 /\ heap s' L A)) s.
Proof.
  intros Hh Hn Hlim Hf. induction fuel as [|fuel IH]; intros i prev k p n Hi Hp Hfu; [lia|]. cbn [loop]. apply wp_bind.
  pose proof (lookup_lt_Some _ _ _ Hp) as Hpl. pose proof (lookup_lt_Some _ _ _ Hf) as Hfl. destruct (decide (nunits <= n)) as [Hle|Hgt].
  - eapply wp_mono; [eapply turn_take; [done|split; [done|exact Hle]|exact Hi|exact Hp]|]. cbn beta. intros r s' (v & -> & Hg). apply wp_ret. by left.
  - set (j := next (length L) i) in *. destruct (rep_next base _ _ _ _ _ (hp_rep _ _ _ Hh) Hp) as (q & k' & Hm & Hq). unfold malloc_turn. apply wp_bind. eapply wp_hdr; [exact Hm|]. cbn [h_size h_ptr].
    rewrite (proj2 (Z.leb_gt nunits n)) by lia. apply wp_bind, wp_gets. destruct (Z.eqb_spec p (freep s)) as [Epf|Hpf].
    + apply wp_bind. eapply wp_mono; [by eapply morecore_ok|]. cbn beta. intros r s' [[-> Hh']|(-> & L' & Hh' & Hlen & i' & k2 & Hi' & Hbig)].
      { cbn [Z.eqb]. apply wp_ret, wp_ret. by right. }
      destruct (rep_next base _ _ _ _ _ (hp_rep _ _ _ Hh') Hi') as (q2 & k3 & Hm2 & Hq2).
      assert (freep s' <> 0). { pose proof (hp_base _ _ _ Hh') as ?. destruct (rep_ge base _ _ _ _ (hp_rep _ _ _ Hh') (list_elem_of_lookup_2 _ _ _ Hi')). lia. }
      rewrite (proj2 (Z.eqb_neq _ 0)) by done. apply wp_bind. eapply wp_hdr; [exact Hm2|]. apply wp_ret. cbn [h_ptr].
      pose proof (lookup_lt_Some _ _ _ Hi') as Hil. pose proof (lookup_lt_Some _ _ _ Hq2) as Hql. pose proof (cdist_lt (length L') _ _ Hql Hil) as Hcd.
      eapply wp_mono; [|intros r' s2 Hg; left; exact Hg]. destruct Hbig as [Hk|(q3 & k4 & Hq3 & Hk)].
      * eapply (search_found L' A s' nunits i' i' (freep s', k2) k2); try done; lia.
      * rewrite Hq2 in Hq3. injection Hq3 as <- <-. eapply (search_found L' A s' nunits (next (length L') i') i' (q2, k3) k2); try done; unfold cdist at 1; rewrite decide_True by lia; lia.
    + apply wp_ret. assert (j <> f) as Hjf by (intros E; rewrite E, Hf in Hp; congruence). rewrite (cdist_step (length L) j f) in Hfu by done.
      apply (IH j p n q k'); [done|done|lia].
Qed.

(** Before the first call of [malloc] there is no list. *)
Definition unused s : Prop := freep s = 0 /\ is_Some (hdrs s !! base) /\ 0 < base < brk (aenv s) /\ brk (aenv s) <= 2 ^ 36.
Definition memory s L A : Prop := (unused s /\ L = [] /\ A = ∅) \/ heap s L A.

Lemma rep_single m : m !! base = Some (mkH base 0) -> rep base m [(base, 0)].
Proof.
  intros Hm. split; [by eexists|done|by repeat constructor|]. intros a n [= -> ->]%list_elem_of_singleton. by left.
Qed.

Lemma malloc_search nbytes nunits s L A : heap s L A -> 0 < nunits -> 16 * nunits < 2 ^ 31 -> nbytes <= 16 * (nunits - 1) ->
  wp (fuel ← gets (fun s => size (hdrs s)); h ← hdr (freep s); loop (2 * fuel + 4) (malloc_turn nunits) (freep s, h_ptr h))
    (fun r s' => (r = 0 /\ exists L', memory s' L' A) \/
      exists q n L', r = q + 16 /\ nbytes <= 16 * (n - 1) /\ A !! q = None /\ memory s' L' (<[q := n]> A)) s.
Proof using SO.
  intros Hh Hn Hlim Hnb. pose proof (hp_freep _ _ _ Hh) as ([fp kf] & Efp & [f Hf]%list_elem_of_lookup)%list_elem_of_fmap. cbn in Efp. rewrite Efp.
  destruct (rep_next base _ _ _ _ _ (hp_rep _ _ _ Hh) Hf) as (q & k & Hm & Hq). apply wp_bind, wp_gets, wp_bind. eapply wp_hdr; [exact Hm|]. cbn [h_ptr].
  pose proof (rep_size base _ _ (hp_rep _ _ _ Hh)) as Hsz. pose proof (cdist_lt (length L) _ _ (lookup_lt_Some _ _ _ Hq) (lookup_lt_Some _ _ _ Hf)) as Hc.
  eapply wp_mono; [eapply (search_ok L A s nunits f kf); [done..|by rewrite Efp|exact Hf|exact Hq|lia]|]. cbn beta. intros r s' [(b & L' & -> & Hnone & Hg)|[-> Hh']].
  - right. exists b, nunits, L'. split; [done|]. split; [done|]. split; [done|]. by right.
  - left. split; [done|]. exists L. by right.
Qed.

(** C15: [malloc] returns a block of its own.  From a heap whose free list and blocks in use
    [A] are in order, or before the first call, [malloc] of less than 2^31 - 64 bytes ends and
    either fails with the heap in order, or returns the memory behind the header of a new block
    of sufficient size; the block lies apart from every other block in use and from the free
    list, whose blocks remain sorted, apart and never adjacent. *)
Theorem malloc_spec s L A nbytes : memory s L A -> 0 <= nbytes <= 2 ^ 31 - 64 ->
  wp (malloc base nbytes) (fun r s' => (r = 0 /\ exists L', memory s' L' A) \/
    exists q n L', r = q + 16 /\ nbytes <= 16 * (n - 1) /\ A !! q = None /\ memory s' L' (<[q := n]> A)) s.
Proof using SO.
  intros Hmem Hnb. unfold malloc. set (nunits := u32 _). assert (nunits = (nbytes + 15) / 16 + 1) as En.
  { unfold nunits, sizeof_Header, u32. rewrite Z.mod_small; [f_equal; f_equal; lia|dlia]. }
  assert (0 < nunits /\ 16 * nunits < 2 ^ 31 /\ nbytes <= 16 * (nunits - 1)) as (N1 & N2 & N3) by (rewrite En; dlia). clearbody nunits. clear En.
  cbv zeta. apply wp_bind, wp_gets. destruct Hmem as [((U1 & [h U2] & U3 & U4) & -> & ->)|Hh].
  - rewrite U1. cbn [Z.eqb]. apply wp_bind, wp_bind, wp_modify, wp_bind. eapply wp_set_ptr; [exact U2|]. apply wp_bind, wp_set_size, wp_ret.
    cbn [with_hdrs hdrs aenv freep]. rewrite lookup_insert_eq, insert_insert_eq. cbn [h_ptr]. set (s1 := with_hdrs _ _).
    assert (heap s1 [(base, 0)] ∅) as Hh.
    { split; try done; cbn [s1 with_hdrs hdrs freep aenv]; [apply rep_single, lookup_insert_eq|set_solver|]. intros z (a & n & [= -> ->]%list_elem_of_singleton & Hz). lia. }
    exact (malloc_search nbytes nunits s1 _ _ Hh N1 N2 N3).
  - assert (freep s <> 0) as Hf.
    { pose proof (hp_base _ _ _ Hh). pose proof (hp_freep _ _ _ Hh) as ([fp kf] & Efp & Hin)%list_elem_of_fmap. destruct (rep_ge base _ _ _ _ (hp_rep _ _ _ Hh) Hin). cbn in Efp. lia. }
    rewrite (proj2 (Z.eqb_neq _ 0) Hf). apply wp_bind, wp_ret. exact (malloc_search nbytes nunits s L A Hh N1 N2 N3).
Qed.

(** C16: [free] gives a block back.  Called with the address [malloc] returned for a block in
    use, it ends with the heap in order and without that block, and the free space has grown by
    exactly its bytes, joined with the neighbours they touch. *)
Theorem free_spec s L A q n : memory s L A -> A !! q = Some n ->
  wp (free (q + 16)) (fun _ s' => exists L', memory s' L' (delete q A) /\ forall z, space L' z <-> space L z \/ q <= z < q + 16 * n) s.
Proof using SO.
  intros [(_ & _ & ->)|Hh] Hq; [done|]. eapply wp_mono; [by eapply free_ok|]. cbn beta. intros _ s' (L' & Hh' & Hsp). exists L'. split; [by right|done].
Qed.

End heap.

(** ** A concrete process

    Its break starts at 4096 and [base] is at 1024. *)
Module UDemo.
#[export] Instance z_sbrk : SbrkEnv Z := { sbrk := fun n b => if b + n <=? 2 ^ 20 then Ret b (b + n) else Ret (2 ^ 64 - 1) b }.
#[export] #[refine] Instance z_sbrk_ok : SbrkOk Z := { brk := fun b => b }.
Proof. intros n e Hn. unfold wp. cbn. destruct (Z.leb_spec (e + n) (2 ^ 20)); [right; lia|by left]. Defined.

Definition s0 : ast Z := mkAst 4096 {[1024 := mkH 0 0]} 0.
Lemma memory0 : memory 1024 s0 [] ∅.
Proof. left. split; [|done]. split; [done|]. split; [by eexists|cbn; lia]. Qed.

(** One block of four headers at 69568, in use; the rest of the first 4096 headers is free. *)
Definition s1 : ast Z := mkAst 69632 {[1024 := mkH 4096 0; 4096 := mkH 1024 4092; 69568 := mkH 0 4]} 1024.
Lemma memory1 : memory 1024 s1 [(1024, 0); (4096, 4092)] {[69568 := 4]}.
Proof.
  right. split; cbn [s1 aenv freep hdrs].
  - cbn. lia.
  - split; [by eexists|done|repeat constructor; cbn; lia|]. intros a n [[= -> ->]|[= -> ->]%list_elem_of_singleton]%elem_of_cons; [by left|by right].
  - set_solver.
  - intros a n [<- <-]%lookup_singleton_Some. cbn. split_and!; [lia|lia|lia|by eexists].
  - intros a n z [<- <-]%lookup_singleton_Some Hz. rewrite !space_cons, space_nil. lia.
  - intros a b n m z [<- <-]%lookup_singleton_Some [<- <-]%lookup_singleton_Some. done.
  - intros z. rewrite !space_cons, space_nil. cbn. lia.
Qed.
End UDemo.
Import UDemo.

(** The size in bytes is truncated to an [int] for [sbrk]: asked for nearly 2^32 bytes, [malloc]
    obtains 16 and hands them out as a block of 2^28 + 1 headers. *)
Lemma malloc_huge : malloc 1024 (2 ^ 32 - 1) s0 = Ret 4112 (mkAst 4112 {[1024 := mkH 1024 0; 4096 := mkH 1024 (2 ^ 28 + 1)]} 1024).
Proof. by vm_compute. Qed.

Lemma malloc_spec_witness : wp (malloc 1024 40) (fun r s' => (r = 0 /\ exists L', memory 1024 s' L' ∅) \/
  exists q n L', r = q + 16 /\ 40 <= 16 * (n - 1) /\ (∅ : gmap Z Z) !! q = None /\ memory 1024 s' L' (<[q := n]> ∅)) UDemo.s0 /\
  malloc 1024 40 UDemo.s0 = Ret 69584 UDemo.s1.
Proof. split; [apply (malloc_spec 1024 UDemo.s0 [] ∅ 40); [exact UDemo.memory0|lia]|by vm_compute]. Defined.

Lemma free_spec_witness : wp (free 69584) (fun _ s' => exists L', memory 1024 s' L' (delete 69568 {[69568 := 4]}) /\
  forall z, space L' z <-> space [(1024, 0); (4096, 4092)] z \/ 69568 <= z < 69568 + 16 * 4) UDemo.s1.
Proof. apply (free_spec 1024 UDemo.s1 _ _ 69568 4); [exact UDemo.memory1|done]. Defined.
