(* ===== verification/Grep.v ===== *)
(** * Pattern search

    [user/grep.c]: the matcher of Kernighan and Pike and the loop that reads lines through a
    buffer of 1024 bytes.  C strings are lists without their terminating NUL; running past the
    end of a list is reading the NUL.  The file read from is class [GrepEnv]. *)

From Stdlib Require Import ZArith Lia.
From stdpp Require Import base numbers list.
From S2P Require Import Prelude.

Definition CARET : Z := 94.
Definition DOLLAR : Z := 36.
Definition STAR : Z := 42.
Definition DOT : Z := 46.
Definition NEWLINE : Z := 10.

(** The do-while loop of [matchstar], with [here] for [matchhere(re, ...)]. *)
Fixpoint matchstar_with (here : list Z -> bool) (c : Z) (text : list Z) : bool :=
  here text ||
  match text with
  | [] => false
  | t :: text' => if (t =? c) || (c =? DOT) then matchstar_with here c text' else false
  end.

Fixpoint matchhere (re text : list Z) : bool :=
  match re with
  | [] => true
  | c :: re' =>
      match re' with
      | s :: re'' =>
          if s =? STAR then matchstar_with (matchhere re'') c text
          else match text with
               | t :: text' => if (c =? DOT) || (c =? t) then matchhere re' text' else false
               | [] => false
               end
      | [] =>
          if c =? DOLLAR then match text with [] => true | _ => false end
          else match text with
               | t :: text' => if (c =? DOT) || (c =? t) then matchhere re' text' else false
               | [] => false
               end
      end
  end.

Definition matchstar (c : Z) (re text : list Z) : bool := matchstar_with (matchhere re) c text.

(** The do-while loop of [match]. *)
Fixpoint match_from (re text : list Z) : bool :=
  matchhere re text ||
  match text with
  | [] => false
  | _ :: text' => match_from re text'
  end.

Definition match_ (re text : list Z) : bool :=
  match re with
  | c :: re' => if c =? CARET then matchhere re' text else match_from re text
  | [] => match_from re text
  end.

(** [read(fd, ...)] gives the bytes it has read, [None] for a negative result; [write(1, ...)]. *)
Class GrepEnv (S : Type) := {
  gread : Z -> M S (option (list Z));
  gwrite : list Z -> M S unit;
}.

Definition sizeof_buf : Z := 1024.

(** [strchr(p, '\n')]: what is before and behind the first newline, unless a NUL comes first. *)
Fixpoint cut_line (p : list Z) : option (list Z * list Z) :=
  match p with
  | [] => None
  | c :: p' =>
      if c =? 0 then None
      else if c =? NEWLINE then Some ([], p')
      else match cut_line p' with Some (l, r) => Some (c :: l, r) | None => None end
  end.

Section grep_c.
Context {S : Type} `{GrepEnv S}.

(** The inner loop, on the bytes from [p] to the end; it returns those behind the last newline. *)
Definition grep_lines (pattern rest : list Z) : M S (list Z) :=
  loop (length rest + 1) (fun rest =>
    match cut_line rest with
    | None => mret (inr rest)
    | Some (line, rest') =>
        mwhen (match_ pattern line) (gwrite (line ++ [NEWLINE]));;
        mret (inl rest')
    end) rest.

(** [fuel] bounds the calls of [read]; [pending] is [buf] up to [m]. *)
Definition grep (fuel : nat) (pattern : list Z) : M S unit :=
  loop fuel (fun pending =>
    o ← gread (sizeof_buf - Z.of_nat (length pending) - 1);
    match o with
    | Some (c :: chunk) =>
        rest ← grep_lines pattern (pending ++ c :: chunk);
        mret (inl rest)
    | _ => mret (inr tt)
    end) [].
End grep_c.

(** ** What a pattern means *)

Definition fits (c t : Z) : Prop := c = DOT \/ c = t.

(** [re] matches at the beginning of [text]. *)
Inductive Match : list Z -> list Z -> Prop :=
| M_nil t : Match [] t
| M_star0 c re t : Match re t -> Match (c :: STAR :: re) t
| M_star1 c re x t : fits c x -> Match (c :: STAR :: re) t -> Match (c :: STAR :: re) (x :: t)
| M_end : Match [DOLLAR] []
| M_char c re x t : head re <> Some STAR -> (c = DOLLAR -> re <> []) -> fits c x -> Match re t -> Match (c :: re) (x :: t).

Lemma matchstar_ok here c text (P : list Z -> Prop) : (forall t, here t = true <-> P t) ->
  matchstar_with here c text = true <-> exists a b, text = a ++ b /\ Forall (fits c) a /\ P b.
Proof.
  intros Hh. induction text as [|t text IH]; cbn [matchstar_with]; rewrite orb_true_iff, Hh.
  - split; [intros [H|H]; [by exists [], []|done]|]. intros (a & b & E & _ & H). symmetry in E. apply app_nil in E as [-> ->]. by left.
  - assert ((t =? c) || (c =? DOT) = true <-> fits c t) as Hf by (rewrite orb_true_iff, !Z.eqb_eq; unfold fits; split; intros [|]; auto). split.
    + intros [H|H]; [by exists [], (t :: text)|]. destruct ((t =? c) || (c =? DOT)); [|done]. apply IH in H as (a & b & -> & Ha & Hb).
      exists (t :: a), b. split; [done|]. split; [|done]. constructor; [by apply Hf|done].
    + intros (a & b & E & Ha & Hb). destruct a as [|x a]; [cbn in E; subst b; by left|right]. injection E as <- ->. apply Forall_cons in Ha as [Hx Ha].
      rewrite (proj2 Hf Hx). apply IH. eauto.
Qed.

Lemma Match_star c re text : Match (c :: STAR :: re) text <-> exists a b, text = a ++ b /\ Forall (fits c) a /\ Match re b.
Proof.
  split.
  - remember (c :: STAR :: re) as r eqn:Er. induction 1 as [|c' re' t H _|c' re' x t Hf H IH| |c' re' x t Hh _ _ _ _]; try done.
    + injection Er as -> ->. by exists [], t.
    + injection Er as -> ->. destruct IH as (a & b & -> & Ha & Hb); [done|]. exists (x :: a), b. split; [done|]. split; [by constructor|done].
    + injection Er as -> ->. by destruct Hh.
  - intros (a & b & -> & Ha & Hb). induction Ha as [|x a Hx Ha IH]; [by apply M_star0|by apply M_star1].
Qed.

Lemma matchhere_ok re text : matchhere re text = true <-> Match re text.
Proof.
  revert text. induction re as [re IH] using (induction_ltof1 _ (@length Z)). unfold ltof in IH. intros text. destruct re as [|c re]; [split; [constructor|done]|].
  assert (forall t, (c =? DOT) || (c =? t) = true <-> fits c t) as Hf by (intros t; rewrite orb_true_iff, !Z.eqb_eq; unfold fits; tauto).
  assert (head re <> Some STAR -> (c = DOLLAR -> re <> []) ->
    match text with t :: text' => if (c =? DOT) || (c =? t) then matchhere re text' else false | [] => false end = true <-> Match (c :: re) text) as Hchar.
  { intros Hh Hd. destruct text as [|t text]; [split; [done|]; intros H; inversion H; subst; [by destruct Hh|by destruct Hd]|]. split.
    - destruct ((c =? DOT) || (c =? t)) eqn:E; [|done]. intros H. apply M_char; [done|done|by apply Hf|]. apply IH; [cbn; lia|done].
    - intros H. inversion H; subst; [by destruct Hh|by destruct Hh|]. rewrite (proj2 (Hf t)) by done. apply IH; [cbn; lia|done]. }
  destruct re as [|s re]; cbn [matchhere].
  - destruct (Z.eqb_spec c DOLLAR) as [->|Hne]; [|by apply Hchar].
    split; [destruct text; [constructor|done]|]. intros H. inversion H as [| | | |? ? ? ? _ Hd]; subst; [done|]. by destruct (Hd eq_refl).
  - destruct (Z.eqb_spec s STAR) as [->|Hne]; [|apply Hchar; [by intros [= ->]|done]].
    rewrite Match_star. apply matchstar_ok. intros t. apply IH. cbn. lia.
Qed.

(** C28: the matcher finds exactly the matches.  [match] answers 1 when a pattern that begins
    with a caret matches at the beginning of the text, any other pattern somewhere in it: a
    star repeats the character before it, zero times included, a dot fits every character, a
    dollar at the end of the pattern the end of the text, and every other character itself. *)
Theorem match_spec re text : match_ re text = true <->
  (exists re', re = CARET :: re' /\ Match re' text) \/ (head re <> Some CARET /\ exists a b, text = a ++ b /\ Match re b).
Proof.
  assert (match_from re text = true <-> exists a b, text = a ++ b /\ Match re b) as Hfrom.
  { induction text as [|t text IH]; cbn [match_from]; rewrite orb_true_iff, matchhere_ok.
    - split; [intros [H|H]; [by exists [], []|done]|]. intros (a & b & E & H). symmetry in E. apply app_nil in E as [-> ->]. by left.
    - rewrite IH. split.
      + intros [H|(a & b & -> & H)]; [by exists [], (t :: text)|by exists (t :: a), b].
      + intros (a & b & E & H). destruct a as [|x a]; [cbn in E; subst b; by left|right]. injection E as <- ->. eauto. }
  unfold match_. destruct re as [|c re].
  - rewrite Hfrom. split; [by right|]. intros [(re' & ? & _)|[_ H]]; done.
  - destruct (Z.eqb_spec c CARET) as [->|Hne].
    + rewrite matchhere_ok. split; [left; eauto|]. intros [(re' & [= <-] & H)|[H _]]; done.
    + rewrite Hfrom. split; [right; split; [by intros [= ->]|done]|]. intros [(re' & [= -> _] & _)|[_ H]]; done.
Qed.

(** ** Lines *)

Definition clean (l : list Z) : Prop := Forall (fun c => c <> 0 /\ c <> NEWLINE) l.
(** Lines with their newlines. *)
Definition text_of (ls : list (list Z)) : list Z := concat (map (fun l => l ++ [NEWLINE]) ls).

Lemma text_cons l ls : text_of (l :: ls) = l ++ NEWLINE :: text_of ls.
Proof. unfold text_of. cbn. by rewrite <- app_assoc. Qed.
Lemma text_app a b : text_of (a ++ b) = text_of a ++ text_of b.
Proof. unfold text_of. by rewrite map_app, concat_app. Qed.

Lemma cut_line_some l r : clean l -> cut_line (l ++ NEWLINE :: r) = Some (l, r).
Proof. induction 1 as [|c l [H1 H2] Hl IH]; [done|]. cbn. by rewrite (proj2 (Z.eqb_neq _ _) H1), (proj2 (Z.eqb_neq _ _) H2), IH. Qed.
Lemma cut_line_none l : clean l -> cut_line l = None.
Proof. induction 1 as [|c l [H1 H2] Hl IH]; [done|]. cbn. by rewrite (proj2 (Z.eqb_neq _ _) H1), (proj2 (Z.eqb_neq _ _) H2), IH. Qed.

(** A prefix of some lines is whole lines and the beginning of another. *)
Lemma split_lines ls tl : clean tl -> Forall clean ls -> forall x y, x ++ y = text_of ls ++ tl ->
  exists ls1 ls2 p, ls = ls1 ++ ls2 /\ x = text_of ls1 ++ p /\ p ++ y = text_of ls2 ++ tl /\ clean p.
Proof.
  intros Htl Hls. induction Hls as [|l ls Hl Hls IH]; intros x y E.
  - exists [], [], x. split; [done|]. split; [done|]. split; [done|]. cbn in E. rewrite <- E in Htl. by apply Forall_app in Htl as [? _].
  - rewrite text_cons, <- app_assoc in E. apply app_eq_inv in E as [(k & -> & Ek)|(k & -> & Ek)].
    + destruct k as [|c k].
      * exists [], (l :: ls), l. rewrite app_nil_r, text_cons, <- app_assoc. cbn in Ek. by rewrite <- Ek.
      * injection Ek as <- Ek. destruct (IH k y) as (ls1 & ls2 & p & -> & -> & E2 & Hp); [done|]. exists (l :: ls1), ls2, p.
        rewrite text_cons, <- app_assoc. done.
    + exists [], ((x ++ k) :: ls), x. split; [done|]. split; [done|]. rewrite text_cons, <- !app_assoc, Ek. split; [done|]. by apply Forall_app in Hl as [? _].
Qed.

(** The beginning of a line is no longer than the lines. *)
Lemma short_pending B ls tl p y : clean p -> Forall (fun l => (length l <= B)%nat) ls -> (length tl <= B)%nat -> p ++ y = text_of ls ++ tl -> (length p <= B)%nat.
Proof.
  intros Hp Hls Htl E. destruct ls as [|l ls]; [|apply Forall_cons in Hls as [Hl _]].
  - cbn in E. rewrite <- E, length_app in Htl. lia.
  - rewrite text_cons, <- app_assoc in E. apply app_eq_inv in E as [(k & -> & Ek)|(k & -> & Ek)]; [|rewrite length_app in Hl; lia].
    destruct k as [|c k]; [by rewrite app_nil_r|]. injection Ek as <- _. apply Forall_app in Hp as [_ Hp]. apply Forall_cons in Hp as [[_ ?] _]. done.
Qed.

(** What is read is what is there, in pieces of any size; a read of 0 bytes or at the end gives
    nothing. *)
Class GrepOk (S : Type) `{GrepEnv S} := {
  gin : S -> list Z;
  gout : S -> list Z;
  g_read : forall n e, 0 <= n -> wp (gread n) (fun o e' => exists c, o = Some c /\ gin e = c ++ gin e' /\ Z.of_nat (length c) <= n /\ gout e' = gout e /\
    (c = [] -> n = 0 \/ gin e = [])) e;
  g_write : forall x e, wp (gwrite x) (fun _ e' => gout e' = gout e ++ x /\ gin e' = gin e) e;
}.

Section grep_ok.
Context {S : Type} `{GO : GrepOk S} (pattern : list Z).

Definition selected (ls : list (list Z)) : list Z := text_of (List.filter (match_ pattern) ls).

Lemma grep_lines_ok ls tl e : clean tl -> Forall clean ls ->
  wp (grep_lines pattern (text_of ls ++ tl)) (fun r e' => r = tl /\ gin e' = gin e /\ gout e' = gout e ++ selected ls) e.
Proof using GO.
  intros Htl Hls. unfold grep_lines. set (body := fun rest => _).
  cut (forall fuel e, (length ls < fuel)%nat -> wp (loop fuel body (text_of ls ++ tl)) (fun r e' => r = tl /\ gin e' = gin e /\ gout e' = gout e ++ selected ls) e).
  { intros Hc. apply Hc. rewrite length_app. assert (length ls <= length (text_of ls))%nat; [|lia]. clear. induction ls as [|l ls IH]; [done|]. rewrite text_cons, length_app. cbn. lia. }
  clear e. induction Hls as [|l ls Hl Hls IH]; intros [|fuel] e Hf; try (cbn in Hf; lia); cbn [loop]; apply wp_bind; unfold body at 1; cbv beta.
  - cbn [text_of map concat app]. rewrite cut_line_none by done. apply wp_ret, wp_ret. unfold selected. cbn. by rewrite app_nil_r.
  - rewrite text_cons, <- app_assoc. cbn [app]. rewrite cut_line_some by done. apply wp_bind. cbn [length] in Hf.
    apply wp_when; intros Em.
    + eapply wp_mono; [apply g_write|]. cbn beta. intros _ e1 [O1 I1]. apply wp_ret. eapply wp_mono; [apply IH; lia|]. cbn beta. intros r e2 (-> & I2 & O2).
      split; [done|]. split; [congruence|]. unfold selected. cbn [List.filter]. rewrite Em, text_cons, O2, O1, <- !app_assoc. done.
    + apply wp_ret. eapply wp_mono; [apply IH; lia|]. cbn beta. intros r e2 (-> & I2 & O2). split; [done|]. split; [done|]. unfold selected. cbn [List.filter]. by rewrite Em.
Qed.

(** C29: [grep] prints the lines that match.  Reading lines of at most 1022 characters, in
    whatever pieces [read] gives, it ends and has written exactly those that the pattern
    matches, in order and each with its newline; what follows the last newline is ignored. *)
Theorem grep_filters e ls tl fuel : clean tl -> Forall clean ls -> Forall (fun l => (length l <= 1022)%nat) ls -> (length tl <= 1022)%nat ->
  gin e = text_of ls ++ tl -> (length (gin e) < fuel)%nat ->
  wp (grep fuel pattern) (fun _ e' => gout e' = gout e ++ selected ls) e.
Proof using GO.
  intros Htl Hls Hlen Htlen Hin Hf. unfold grep.
  apply (wp_loop _ (fun p e' => exists l1 l2, ls = l1 ++ l2 /\ clean p /\ p ++ gin e' = text_of l2 ++ tl /\ gout e' = gout e ++ selected l1) (fun _ e' => length (gin e'))); [|exists [], ls|done].
  2:{ split; [done|]. split; [constructor|]. split; [done|]. by rewrite app_nil_r. }
  intros p e1 (l1 & l2 & -> & Hp & E1 & O1). apply Forall_app in Hls as [Hl1 Hl2]. apply Forall_app in Hlen as [_ Hlen2].
  pose proof (short_pending 1022 l2 tl p (gin e1) Hp Hlen2 Htlen E1) as Hps. apply wp_bind. eapply wp_mono; [apply g_read; unfold sizeof_buf; lia|].
  cbn beta. intros o e2 (c & -> & I2 & Hc & O2 & Hend). destruct c as [|x c].
  - apply wp_ret. destruct (Hend eq_refl) as [Hz|Hz]; [unfold sizeof_buf in Hz; lia|]. rewrite O2, O1. rewrite Hz, app_nil_r in E1. assert (l2 = []) as ->; [|by rewrite app_nil_r].
    destruct l2 as [|l l2]; [done|]. exfalso. rewrite E1, text_cons in Hp. unfold clean in Hp. rewrite !Forall_app, Forall_cons in Hp. naive_solver.
  - rewrite I2, app_assoc in E1. destruct (split_lines l2 tl Htl Hl2 _ _ E1) as (l2a & l2b & p' & -> & Ep & E2 & Hp'). apply wp_bind. rewrite Ep.
    apply Forall_app in Hl2 as [Hl2a _]. eapply wp_mono; [by apply grep_lines_ok|]. cbn beta. intros r e3 (-> & I3 & O3). apply wp_ret. split.
    + exists (l1 ++ l2a), l2b. split; [by rewrite app_assoc|]. split; [done|]. split; [by rewrite I3|]. rewrite O3, O2, O1. unfold selected.
      rewrite List.filter_app, text_app, app_assoc. done.
    + rewrite I3, I2, length_app. cbn. lia.
Qed.
End grep_ok.

(** Input in pieces of two bytes. *)
Module GDemo.
#[export] Instance pair_env : GrepEnv (list Z * list Z) := {
  gread := fun n e => let k := Z.to_nat (Z.min n 2) in Ret (Some (take k e.1)) (drop k e.1, e.2);
  gwrite := fun x e => Ret tt (e.1, e.2 ++ x);
}.
#[export] #[refine] Instance pair_ok : GrepOk (list Z * list Z) := { gin := fst; gout := snd }.
Proof.
  - intros n e Hn. unfold wp. cbn. eexists. split; [done|]. split; [by rewrite take_drop|]. split; [rewrite length_take; lia|]. split; [done|].
    intros E. apply (f_equal length) in E. rewrite length_take in E. cbn in E. destruct (e.1); [by right|cbn in E; left; lia].
  - done.
Defined.
End GDemo.
Import GDemo.

(** The lines "ab", "b" and "cab" and the pattern "^a.*$"; the last "b" has no newline. *)
Lemma grep_filters_witness : wp (grep 12 [CARET; 97; DOT; STAR; DOLLAR]) (fun _ e' => gout e' = gout ([97; 98; 10; 98; 10; 99; 97; 98; 10; 98], []) ++ [97; 98; 10])
  ([97; 98; 10; 98; 10; 99; 97; 98; 10; 98], []).
Proof.
  apply (grep_filters [CARET; 97; DOT; STAR; DOLLAR] ([97; 98; 10; 98; 10; 99; 97; 98; 10; 98], []) [[97; 98]; [98]; [99; 97; 98]] [98] 12);
    [unfold clean, NEWLINE; repeat constructor; lia|unfold clean, NEWLINE; repeat constructor; lia|cbn; repeat constructor; cbn; lia|cbn; lia|done|cbn; lia].
Defined.
