(* ===== verification/Printf.v ===== *)
(** * Formatted output

    [kernel/printf.c] (module [K]) and [user/printf.c] (module [U]).  A format is the list of its
    characters without the NUL; the arguments are the list of the words [va_arg] will give; the
    string at an address is a function [cstr].  Characters go out through class [OutEnv], which
    stands for [consputc] in the kernel and [write] in user programs. *)

From Stdlib Require Import ZArith Lia.
From stdpp Require Import base numbers list gmap strings sets.
From S2P Require Import Prelude Spinlock Locks.

Class OutEnv (S : Type) := { outc : Z -> M S unit }.

(** Characters of the formats. *)
Definition c_percent : Z := 37.
Definition c_d : Z := 100.
Definition c_l : Z := 108.
Definition c_u : Z := 117.
Definition c_x : Z := 120.
Definition c_p : Z := 112.
Definition c_s : Z := 115.
Definition c_minus : Z := 45.
Definition c_0 : Z := 48.
Definition null_str : list Z := [40; 110; 117; 108; 108; 41].

(** The character after the ones read so far, 0 at the end. *)
Definition peek (l : list Z) : Z := match l with [] => 0 | c :: _ => c end.

Section output.
Context {S : Type} `{OutEnv S}.

Fixpoint put_all (l : list Z) : M S unit :=
  match l with
  | [] => mret tt
  | c :: l => outc c;; put_all l
  end.

(** [va_arg]: the next word. *)
Definition va_arg (ap : list Z) : M S (Z * list Z) := match ap with [] => undef | a :: ap => mret (a, ap) end.

(** The do-while loop of [printint] that fills [buf], of 16 characters. *)
Definition fill_turn (digit : Z -> Z) (base : Z) (v : Z * list Z) : M S ((Z * list Z) + list Z) :=
  let '(x, buf) := v in
  if 16 <=? Z.of_nat (length buf) then undef else
  let buf := buf ++ [digit (x mod base)] in
  let x := x / base in
  mret (if x =? 0 then inr buf else inl (x, buf)).
Definition fill (digit : Z -> Z) (base x : Z) : M S (list Z) := loop 65 (fill_turn digit base) (x, []).

(** Adding the sign and printing backwards. *)
Definition print_buf (neg : bool) (buf : list Z) : M S unit :=
  buf ← (if neg then (if 16 <=? Z.of_nat (length buf) then undef else mret (buf ++ [c_minus])) else mret buf);
  put_all (rev buf).

(** Sixteen digits from the left; a shift keeps 64 bits. *)
Definition printptr (digit : Z -> Z) (x : Z) : M S unit :=
  outc c_0;; outc c_x;;
  loop 17 (fun '(i, x) =>
    if negb (i <? 16) then mret (inr tt) else
    outc (digit (Z.shiftr x 60));;
    mret (inl (i + 1, u64 (Z.shiftl x 4)))) (0, x).
End output.

Module K.
Definition digits (d : Z) : Z := if d <? 10 then 48 + d else 87 + d.
Definition PR_LOCK : Z := 830.

Section printf_c.
Context {S : Type} `{OutEnv S} `{HasLocks S} (cstr : Z -> list Z).

Definition printint (xx base : Z) (sign : bool) : M S unit :=
  let neg := sign && (xx <? 0) in
  let x := if neg then u64 (- xx) else u64 xx in
  buf ← fill digits base x;
  print_buf neg buf.

(** The conversion after a percent sign, with [rest] what follows it; [None] at the end of the
    format. *)
Definition convert (rest ap : list Z) : M S (option (list Z * list Z)) :=
  let c0 := peek rest in
  let c1 := if c0 =? 0 then 0 else peek (drop 1 rest) in
  let c2 := if c1 =? 0 then 0 else peek (drop 2 rest) in
  let int base sign n := '(a, ap) ← va_arg ap; printint (i32 a) base sign;; mret (Some (drop n rest, ap)) in
  let long base sign n := '(a, ap) ← va_arg ap; printint (i64 a) base sign;; mret (Some (drop n rest, ap)) in
  if c0 =? c_d then int 10 true 1%nat
  else if (c0 =? c_l) && (c1 =? c_d) then long 10 true 2%nat
  else if (c0 =? c_l) && (c1 =? c_l) && (c2 =? c_d) then long 10 true 3%nat
  else if c0 =? c_u then int 10 false 1%nat
  else if (c0 =? c_l) && (c1 =? c_u) then long 10 false 2%nat
  else if (c0 =? c_l) && (c1 =? c_l) && (c2 =? c_u) then long 10 false 3%nat
  else if c0 =? c_x then int 16 false 1%nat
  else if (c0 =? c_l) && (c1 =? c_x) then long 16 false 2%nat
  else if (c0 =? c_l) && (c1 =? c_l) && (c2 =? c_x) then long 16 false 3%nat
  else if c0 =? c_p then '(a, ap) ← va_arg ap; printptr digits (u64 a);; mret (Some (drop 1 rest, ap))
  else if c0 =? c_s then
    '(a, ap) ← va_arg ap; put_all (if a =? 0 then null_str else cstr a);; mret (Some (drop 1 rest, ap))
  else if c0 =? c_percent then outc c_percent;; mret (Some (drop 1 rest, ap))
  else if c0 =? 0 then mret None
  else outc c_percent;; outc c0;; mret (Some (drop 1 rest, ap)).

(** [locking] is [pr.locking]. *)
Definition printf (locking : bool) (fmt ap : list Z) : M S Z :=
  mwhen locking (acquire PR_LOCK);;
  loop (length fmt + 1) (fun '(rest, ap) =>
    match rest with
    | [] => mret (inr tt)
    | cx :: rest' =>
        if negb (cx =? c_percent) then outc cx;; mret (inl (rest', ap)) else
        o ← convert rest' ap;
        mret (match o with Some x => inl x | None => inr tt end)
    end) (fmt, ap);;
  mwhen locking (release PR_LOCK);;
  mret 0.
End printf_c.
End K.

Module U.
Definition digits (d : Z) : Z := if d <? 10 then 48 + d else 55 + d.

Section printf_c.
Context {S : Type} `{OutEnv S} (cstr : Z -> list Z).

(** [xx] is an [int]. *)
Definition printint (xx base : Z) (sgn : bool) : M S unit :=
  let xx := i32 xx in
  let neg := sgn && (xx <? 0) in
  let x := if neg then u32 (- xx) else u32 xx in
  buf ← fill digits base x;
  print_buf neg buf.

(** One character in state [%]: what to skip besides it. *)
Definition convert (c0 : Z) (rest ap : list Z) : M S (list Z * list Z) :=
  let c1 := if c0 =? 0 then 0 else peek rest in
  let c2 := if c1 =? 0 then 0 else peek (drop 1 rest) in
  let num base sgn n := '(a, ap) ← va_arg ap; printint a base sgn;; mret (drop n rest, ap) in
  if c0 =? c_d then num 10 true 0%nat
  else if (c0 =? c_l) && (c1 =? c_d) then num 10 true 1%nat
  else if (c0 =? c_l) && (c1 =? c_l) && (c2 =? c_d) then num 10 true 2%nat
  else if c0 =? c_u then num 10 false 0%nat
  else if (c0 =? c_l) && (c1 =? c_u) then num 10 false 1%nat
  else if (c0 =? c_l) && (c1 =? c_l) && (c2 =? c_u) then num 10 false 2%nat
  else if c0 =? c_x then num 16 false 0%nat
  else if (c0 =? c_l) && (c1 =? c_x) then num 16 false 1%nat
  else if (c0 =? c_l) && (c1 =? c_l) && (c2 =? c_x) then num 16 false 2%nat
  else if c0 =? c_p then '(a, ap) ← va_arg ap; printptr digits (u64 a);; mret (rest, ap)
  else if c0 =? c_s then '(a, ap) ← va_arg ap; put_all (if a =? 0 then null_str else cstr a);; mret (rest, ap)
  else if c0 =? c_percent then outc c_percent;; mret (rest, ap)
  else outc c_percent;; outc c0;; mret (rest, ap).

Definition vprintf (fmt ap : list Z) : M S unit :=
  loop (length fmt + 1) (fun '(state, rest, ap) =>
    match rest with
    | [] => mret (inr tt)
    | c0 :: rest' =>
        if state =? 0 then
          if c0 =? c_percent then mret (inl (c_percent, rest', ap))
          else outc c0;; mret (inl (0, rest', ap))
        else
          '(rest', ap) ← convert c0 rest' ap;
          mret (inl (0, rest', ap))
    end) (0, fmt, ap).
End printf_c.
End U.
