(* ===== verification/PrintfSpec.v ===== *)
(** * What formatted output prints

    Numbers are printed as digits that read back as the number, within the 16 characters of the
    buffer of [printint]; a format prints its parts one after the other. *)

From Stdlib Require Import ZArith Lia.
From stdpp Require Import base numbers list gmap strings sets.
From S2P Require Import Prelude Spinlock Locks Ring Uart Console ConsoleSpec Printf.

(** ** Numbers and digits *)

Fixpoint to_digits (n : nat) (base x : Z) : list Z :=
  match n with
  | O => []
  | S n => (if x / base =? 0 then [] else to_digits n base (x / base)) ++ [x mod base]
  end.

Definition value (base : Z) (ds : list Z) : Z := foldl (fun v d => v * base + d) 0 ds.

Lemma to_digits_value n base x : 2 <= base -> 0 <= x < base ^ Z.of_nat n -> value base (to_digits n base x) = x.
Proof.
  intros Hb. revert x. induction n as [|n IH]; intros x Hx; [cbn in *; lia|]. cbn [to_digits]. unfold value. rewrite foldl_app. cbn [foldl].
  pose proof (Z.div_mod x base ltac:(lia)) as Hd. pose proof (Z.mod_pos_bound x base ltac:(lia)) as Hm. destruct (Z.eqb_spec (x / base) 0) as [E|E].
  - cbn. rewrite E in Hd. lia.
  - fold (value base (to_digits n base (x / base))). rewrite IH; [lia|]. split; [apply Z.div_pos; lia|]. apply Z.div_lt_upper_bound; [lia|].
    rewrite Nat2Z.inj_succ, Z.pow_succ_r in Hx by lia. lia.
Qed.

Lemma to_digits_range n base x : 2 <= base -> 0 <= x -> Forall (fun d => 0 <= d < base) (to_digits n base x).
Proof.
  intros Hb. revert x. induction n as [|n IH]; intros x Hx; cbn [to_digits]; [constructor|]. apply Forall_app. split; [|constructor; [by apply Z.mod_pos_bound; lia|constructor]].
  destruct (x / base =? 0); [constructor|]. apply IH, Z.div_pos; lia.
Qed.

Lemma to_digits_len n base x : (1 <= length (to_digits (S n) base x))%nat.
Proof. cbn [to_digits]. rewrite length_app. cbn. lia. Qed.

(** ** Printing a number *)

(** The output takes characters in order. *)
Class OutOk (S : Type) `{OutEnv S} := {
  o_ok : S -> Prop;
  o_out : S -> list Z;
  o_put : forall c s, o_ok s -> 0 <= c < 256 -> wp (outc c) (fun _ s' => o_ok s' /\ o_out s' = o_out s ++ [c]) s;
}.

Definition chars (l : list Z) : Prop := Forall (fun c => 0 <= c < 256) l.

Section number.
Context {S : Type} `{OO : OutOk S}.
Implicit Types s : S.

Lemma put_all_ok l s : o_ok s -> chars l -> wp (put_all l) (fun _ s' => o_ok s' /\ o_out s' = o_out s ++ l) s.
Proof.
  intros Hs Hl. revert s Hs. induction Hl as [|c l Hc Hl IH]; intros s Hs; cbn [put_all]; [apply wp_ret; by rewrite app_nil_r|].
  apply wp_bind. eapply wp_mono; [by apply o_put|]. cbn beta. intros _ s1 [H1 E1]. eapply wp_mono; [by apply IH|]. cbn beta. intros _ s2 [H2 E2].
  split; [done|]. by rewrite E2, E1, <- app_assoc.
Qed.

(** The loop stores the digits from the right, or overflows the buffer. *)
Lemma fill_loop digit base s : 2 <= base -> forall n fuel x buf, (n < fuel)%nat -> 0 <= x < base ^ Z.of_nat (Datatypes.S n) ->
  loop fuel (fill_turn digit base) (x, buf) s =
  let ds := to_digits (Datatypes.S n) base x in
  if 16 <? Z.of_nat (length buf + length ds) then Undef else Ret (buf ++ map digit (rev ds)) s.
Proof.
  intros Hb. induction n as [|n IH]; intros [|fuel] x buf Hf Hx; try lia; cbn [loop]; unfold mbind at 1, M_bind at 1, fill_turn at 1.
  - assert (x / base = 0) as E by (apply Z.div_small; lia). cbn [to_digits]. rewrite E. cbn [Z.eqb app length rev map]. destruct (Z.leb_spec 16 (Z.of_nat (length buf))) as [Hle|Hgt].
    + rewrite (proj2 (Z.ltb_lt _ _)) by lia. done.
    + rewrite (proj2 (Z.ltb_ge _ _)) by lia. done.
  - destruct (Z.leb_spec 16 (Z.of_nat (length buf))) as [Hle|Hgt].
    { pose proof (to_digits_len (Datatypes.S n) base x). rewrite (proj2 (Z.ltb_lt _ _)) by lia. done. }
    cbv zeta. change (to_digits (Datatypes.S (Datatypes.S n)) base x) with ((if x / base =? 0 then [] else to_digits (Datatypes.S n) base (x / base)) ++ [x mod base]).
    destruct (Z.eqb_spec (x / base) 0) as [E|E].
    + cbn [app length rev map]. rewrite (proj2 (Z.ltb_ge _ _)) by lia. done.
    + unfold mret, M_ret. rewrite IH; [|lia|].
      * cbv zeta. rewrite !length_app, rev_app_distr, map_app, <- app_assoc. cbn [length rev map app]. set (l := length (to_digits _ _ _)).
        replace (length buf + 1 + l)%nat with (length buf + (l + 1))%nat by lia. done.
      * split; [apply Z.div_pos; lia|]. apply Z.div_lt_upper_bound; [lia|]. rewrite Nat2Z.inj_succ, Z.pow_succ_r in Hx by lia. lia.
Qed.

(** The text of a number: sign and digits. *)
Definition number_text (digit : Z -> Z) (neg : bool) (base x : Z) : list Z :=
  (if neg then [c_minus] else []) ++ map digit (to_digits 64 base x).

Lemma print_number digit neg base x s : 2 <= base -> 0 <= x < 2 ^ 64 -> (forall d, 0 <= d < base -> 0 <= digit d < 256) -> o_ok s ->
  let txt := number_text digit neg base x in
  if 16 <? Z.of_nat (length txt) then (buf ← fill digit base x; print_buf neg buf) s = Undef
  else wp (buf ← fill digit base x; print_buf neg buf) (fun _ s' => o_ok s' /\ o_out s' = o_out s ++ txt) s.
Proof using OO.
  intros Hb Hx Hd Hs. cbv zeta. unfold number_text. set (ds := to_digits 64 base x).
  assert (fill digit base x s = if 16 <? Z.of_nat (length ds) then Undef else Ret (map digit (rev ds)) s) as Ef.
  { unfold fill. rewrite (fill_loop digit base s Hb 63); [done|lia|]. split; [lia|]. eapply Z.lt_le_trans; [apply Hx|]. by apply Z.pow_le_mono_l. }
  assert (chars (map digit ds)) as Hc.
  { unfold chars. apply Forall_forall. intros c (d & -> & Hin)%list_elem_of_fmap. apply Hd. pose proof (to_digits_range 64 base x Hb ltac:(lia)) as Hr. rewrite Forall_forall in Hr. by apply Hr. }
  rewrite length_app, length_map. unfold mbind at 1 2, wp, M_bind at 1 2. rewrite Ef. destruct (Z.ltb_spec 16 (Z.of_nat (length ds))) as [Hl|Hl].
  { rewrite (proj2 (Z.ltb_lt _ _)) by lia. done. }
  rewrite map_rev. unfold print_buf. destruct neg; cbn [length].
  - rewrite length_rev, length_map. destruct (Z.ltb_spec 16 (Z.of_nat (1 + length ds))) as [Hl2|Hl2].
    + rewrite (proj2 (Z.leb_le _ _)) by lia. done.
    + rewrite (proj2 (Z.leb_gt _ _)) by lia. change (wp (put_all (rev (rev (map digit ds) ++ [c_minus]))) (fun _ s' => o_ok s' /\ o_out s' = o_out s ++ [c_minus] ++ map digit ds) s).
      rewrite rev_app_distr, rev_involutive. apply put_all_ok; [done|]. by constructor.
  - rewrite Nat.add_0_l, (proj2 (Z.ltb_ge 16 (Z.of_nat (length ds)))) by lia. change (wp (put_all (rev (rev (map digit ds)))) (fun _ s' => o_ok s' /\ o_out s' = o_out s ++ map digit ds) s).
    rewrite rev_involutive. by apply put_all_ok.
Qed.
End number.

(** ** Reading numbers back *)

Definition undigit (c : Z) : Z := if c <? 58 then c - 48 else if c <? 97 then c - 55 else c - 87.
Definition read_num (base : Z) (txt : list Z) : Z :=
  match txt with
  | c :: ds => if c =? c_minus then - value base (map undigit ds) else value base (map undigit txt)
  | [] => 0
  end.

Lemma kdigit_ok d : 0 <= d < 16 -> 0 <= K.digits d < 256 /\ undigit (K.digits d) = d /\ K.digits d <> c_minus.
Proof. intros Hd. unfold K.digits, undigit, c_minus. destruct (Z.ltb_spec d 10); repeat case_match; to_prop; lia. Qed.
Lemma udigit_ok d : 0 <= d < 16 -> 0 <= U.digits d < 256 /\ undigit (U.digits d) = d /\ U.digits d <> c_minus.
Proof. intros Hd. unfold U.digits, undigit, c_minus. destruct (Z.ltb_spec d 10); repeat case_match; to_prop; lia. Qed.

Lemma read_number digit neg base x : 2 <= base <= 16 -> 0 <= x < 2 ^ 64 -> (forall d, 0 <= d < 16 -> undigit (digit d) = d /\ digit d <> c_minus) ->
  read_num base (number_text digit neg base x) = if neg then - x else x.
Proof.
  intros Hb Hx Hd. unfold number_text. pose proof (to_digits_range 64 base x ltac:(lia) ltac:(lia)) as Hr.
  assert (map undigit (map digit (to_digits 64 base x)) = to_digits 64 base x) as E.
  { rewrite map_map. rewrite <- (map_id (to_digits 64 base x)) at 2. apply map_ext_in. intros d Hin%list_elem_of_In. rewrite Forall_forall in Hr. specialize (Hr d Hin). apply Hd. lia. }
  assert (value base (to_digits 64 base x) = x) as Ev.
  { apply to_digits_value; [lia|]. split; [lia|]. eapply Z.lt_le_trans; [apply Hx|]. apply Z.pow_le_mono_l. lia. }
  destruct neg; cbn [app read_num]; [by rewrite Z.eqb_refl, E, Ev|]. destruct (to_digits 64 base x) as [|d ds] eqn:Ed; [exfalso; pose proof (to_digits_len 63 base x); rewrite Ed in *; cbn in *; lia|].
  cbn [map]. unfold read_num. apply Forall_cons in Hr as [Hr _]. rewrite (proj2 (Z.eqb_neq _ _)) by (apply Hd; lia). cbn [map] in E |- *. by rewrite E, Ev.
Qed.

(** The text of [printint] of the kernel. *)
Definition kint_text (xx base : Z) (sign : bool) : list Z :=
  let neg := sign && (xx <? 0) in number_text K.digits neg base (if neg then - xx else u64 xx).

Section kint.
Context {S : Type} `{OO : OutOk S}.

Lemma kint_ok xx base sign (s : S) : base = 10 \/ base = 16 -> - 2 ^ 63 <= xx < 2 ^ 63 -> o_ok s ->
  if 16 <? Z.of_nat (length (kint_text xx base sign)) then K.printint xx base sign s = Undef
  else wp (K.printint xx base sign) (fun _ s' => o_ok s' /\ o_out s' = o_out s ++ kint_text xx base sign) s.
Proof using OO.
  intros Hb Hx Hs. unfold K.printint, kint_text. cbv zeta. set (neg := sign && (xx <? 0)). assert (neg = true -> xx < 0) as Hneg by (unfold neg; intros E; to_prop; lia).
  assert ((if neg then u64 (- xx) else u64 xx) = (if neg then - xx else u64 xx)) as ->.
  { destruct neg; [|done]. specialize (Hneg eq_refl). unfold u64. rewrite Z.mod_small; lia. }
  apply print_number; [lia| |intros d Hd; apply kdigit_ok; lia|done]. destruct neg; [specialize (Hneg eq_refl); lia|]. unfold u64. by apply Z.mod_pos_bound.
Qed.

(** C30: [printint] of the kernel prints the number it is given.  In base 10 or 16 the characters
    it puts out read back as the number, negative ones with a minus sign, and unsigned
    conversions as its value modulo 2^64; when they are more than the 16 of its buffer,
    it writes behind the buffer. *)
Theorem printint_roundtrip xx base sign (s : S) : base = 10 \/ base = 16 -> - 2 ^ 63 <= xx < 2 ^ 63 -> o_ok s ->
  read_num base (kint_text xx base sign) = (if sign then xx else u64 xx) /\
  if 16 <? Z.of_nat (length (kint_text xx base sign)) then K.printint xx base sign s = Undef
  else wp (K.printint xx base sign) (fun _ s' => o_ok s' /\ o_out s' = o_out s ++ kint_text xx base sign) s.
Proof using OO.
  intros Hb Hx Hs. split; [|by apply kint_ok]. unfold kint_text. cbv zeta. rewrite read_number; [|lia| |intros d Hd; by apply kdigit_ok].
  - destruct sign; cbn [andb]; [|done]. destruct (Z.ltb_spec xx 0); [lia|]. unfold u64. rewrite Z.mod_small; lia.
  - destruct sign; cbn [andb]; [destruct (Z.ltb_spec xx 0); [lia|]|]; unfold u64; by apply Z.mod_pos_bound.
Qed.
End kint.

(** ** Pointers *)

Fixpoint nibbles (n : nat) (x : Z) : list Z :=
  match n with
  | O => []
  | S n => x / 16 ^ Z.of_nat n :: nibbles n (x mod 16 ^ Z.of_nat n)
  end.
Definition ptr_text (digit : Z -> Z) (x : Z) : list Z := [c_0; c_x] ++ map digit (nibbles 16 x).

Section ptr.
Context {S : Type} `{OO : OutOk S}.

Lemma printptr_ok digit x (s : S) : 0 <= x < 2 ^ 64 -> (forall d, 0 <= d < 16 -> 0 <= digit d < 256) -> o_ok s ->
  wp (printptr digit x) (fun _ s' => o_ok s' /\ o_out s' = o_out s ++ ptr_text digit x) s.
Proof using OO.
  intros Hx Hd Hs. unfold printptr. apply wp_bind. eapply wp_mono; [apply o_put; [done|unfold c_0; lia]|]. cbn beta. intros _ s1 [H1 E1].
  apply wp_bind. eapply wp_mono; [apply o_put; [done|unfold c_x; lia]|]. cbn beta. intros _ s2 [H2 E2]. set (body := fun '(i, x) => _).
  cut (forall n r (s3 : S), (n <= 16)%nat -> 0 <= r < 16 ^ Z.of_nat n -> o_ok s3 ->
    wp (loop (Datatypes.S n) body (16 - Z.of_nat n, r * 16 ^ (16 - Z.of_nat n))) (fun _ s' => o_ok s' /\ o_out s' = o_out s3 ++ map digit (nibbles n r)) s3).
  { intros Hc. specialize (Hc 16%nat x s2 ltac:(lia) Hx H2). rewrite Z.mul_1_r in Hc. eapply wp_mono; [exact Hc|]. cbn beta. intros _ s' [H3 E3].
    split; [done|]. rewrite E3, E2, E1. unfold ptr_text. by rewrite <- !app_assoc. }
  induction n as [|n IH]; intros r s3 Hn Hr H3; cbn [loop]; apply wp_bind; unfold body at 1; cbv beta iota.
  - cbn [Z.of_nat Z.sub Z.ltb Z.compare Pos.compare Pos.compare_cont negb]. apply wp_ret, wp_ret. by rewrite app_nil_r.
  - rewrite (proj2 (Z.ltb_lt _ _)) by lia. cbn [negb]. set (k := Z.of_nat n) in *. rewrite Nat2Z.inj_succ in *. fold k in Hr |- *.
    assert (0 < 16 ^ k) as Hk by (apply Z.pow_pos_nonneg; lia). assert (0 < 16 ^ (15 - k)) as Hk2 by (apply Z.pow_pos_nonneg; lia).
    assert (16 ^ Z.succ k = 16 * 16 ^ k) as Ek by (rewrite Z.pow_succ_r; lia). replace (16 - Z.succ k) with (15 - k) by lia.
    assert (16 ^ k * 16 ^ (15 - k) = 2 ^ 60) as Ep by (rewrite <- Z.pow_add_r by lia; replace (k + (15 - k)) with 15 by lia; done).
    assert (Z.shiftr (r * 16 ^ (15 - k)) 60 = r / 16 ^ k) as ->.
    { rewrite Z.shiftr_div_pow2 by lia. rewrite <- Ep. apply Z.div_mul_cancel_r; lia. }
    assert (u64 (Z.shiftl (r * 16 ^ (15 - k)) 4) = (r mod 16 ^ k) * 16 ^ (16 - k)) as ->.
    { rewrite Z.shiftl_mul_pow2 by lia. change (2 ^ 4) with 16. replace (16 - k) with (Z.succ (15 - k)) by lia. rewrite Z.pow_succ_r by lia. unfold u64.
      replace (2 ^ 64) with (16 ^ k * (16 * 16 ^ (15 - k))) by lia. replace (r * 16 ^ (15 - k) * 16) with (r * (16 * 16 ^ (15 - k))) by lia. apply Z.mul_mod_distr_r; lia. }
    apply wp_bind. eapply wp_mono; [apply o_put; [done|apply Hd; split; [apply Z.div_pos; lia|apply Z.div_lt_upper_bound; lia]]|]. cbn beta. intros _ s4 [H4 E4]. apply wp_ret.
    replace (15 - k + 1) with (16 - k) by lia. eapply wp_mono; [apply (IH (r mod 16 ^ k)); [lia|by apply Z.mod_pos_bound|done]|]. cbn beta. intros _ s5 [H5 E5].
    split; [done|]. rewrite E5, E4. cbn [nibbles map]. by rewrite <- app_assoc.
Qed.
End ptr.

(** ** Formats

    The parts of a format: characters, numbers with [w] letters l and a letter for the kind,
    pointers, strings, the percent sign, and unknown letters. *)
Inductive kind := KDec | KUns | KHex.
Inductive item := Lit (c : Z) | Num (w : nat) (k : kind) | Ptr | Str | Pct | Unk (c : Z).

Definition kind_char (k : kind) : Z := match k with KDec => c_d | KUns => c_u | KHex => c_x end.
Definition show (i : item) : list Z :=
  match i with
  | Lit c => [c]
  | Num w k => c_percent :: replicate w c_l ++ [kind_char k]
  | Ptr => [c_percent; c_p]
  | Str => [c_percent; c_s]
  | Pct => [c_percent; c_percent]
  | Unk c => [c_percent; c]
  end.
Definition item_ok (i : item) : Prop :=
  match i with
  | Lit c => 0 < c < 256 /\ c <> c_percent
  | Num w _ => (w <= 2)%nat
  | Unk c => 0 < c < 256 /\ c ∉ [c_d; c_l; c_u; c_x; c_p; c_s; c_percent]
  | _ => True
  end.

(** What the parts print, with the numbers' texts from [num]; [None] if the arguments run out or
    a number does not fit its buffer. *)
Fixpoint text (num : nat -> kind -> Z -> list Z) (digit : Z -> Z) (cstr : Z -> list Z) (l : list item) (args : list Z) : option (list Z) :=
  match l with
  | [] => Some []
  | i :: l =>
      match i, args with
      | Lit c, _ => t ← text num digit cstr l args; Some (c :: t)
      | Pct, _ => t ← text num digit cstr l args; Some (c_percent :: t)
      | Unk c, _ => t ← text num digit cstr l args; Some (c_percent :: c :: t)
      | Num w k, a :: args =>
          if 16 <? Z.of_nat (length (num w k a)) then None else
          t ← text num digit cstr l args; Some (num w k a ++ t)
      | Ptr, a :: args => t ← text num digit cstr l args; Some (ptr_text digit (u64 a) ++ t)
      | Str, a :: args => t ← text num digit cstr l args; Some ((if a =? 0 then null_str else cstr a) ++ t)
      | _, [] => None
      end
  end.

(** A number of the kernel's [printf]: [int] without l, else 64 bits. *)
Definition knum (w : nat) (k : kind) (a : Z) : list Z :=
  kint_text (match w with O => i32 a | _ => i64 a end) (match k with KHex => 16 | _ => 10 end) (match k with KDec => true | _ => false end).

Section kprintf.
Context {S : Type} `{OO : OutOk S} `{HasLocks S} (cstr : Z -> list Z) (Hstr : forall a, chars (cstr a)).
Implicit Types s : S.

Lemma kint_wp xx base sign s (Q : unit -> S -> Prop) : base = 10 \/ base = 16 -> - 2 ^ 63 <= xx < 2 ^ 63 -> o_ok s ->
  (16 <? Z.of_nat (length (kint_text xx base sign))) = false ->
  (forall s', o_ok s' -> o_out s' = o_out s ++ kint_text xx base sign -> Q tt s') -> wp (K.printint xx base sign) Q s.
Proof using OO.
  intros Hb Hx Hs Hl HQ. pose proof (kint_ok xx base sign s Hb Hx Hs) as Hk. rewrite Hl in Hk. eapply wp_mono; [exact Hk|]. cbn beta. intros [] s' [H1 H2]. by apply HQ.
Qed.

Lemma i32_range a : - 2 ^ 63 <= i32 a < 2 ^ 63.
Proof. unfold i32. pose proof (Z.mod_pos_bound (a + 2 ^ 31) (2 ^ 32) ltac:(lia)). lia. Qed.
Lemma i64_range a : - 2 ^ 63 <= i64 a < 2 ^ 63.
Proof. unfold i64. pose proof (Z.mod_pos_bound (a + 2 ^ 63) (2 ^ 64) ltac:(lia)). lia. Qed.

(** One conversion: [rest] is left, [args'] not used yet, [t] printed. *)
Definition converts (fmt args rest args' t : list Z) s : Prop :=
  wp (K.convert cstr fmt args) (fun o s' => o = Some (rest, args') /\ o_ok s' /\ o_out s' = o_out s ++ t) s.

Lemma convert_num w k rest a args s : (w <= 2)%nat -> o_ok s -> (16 <? Z.of_nat (length (knum w k a))) = false ->
  converts (replicate w c_l ++ kind_char k :: rest) (a :: args) rest args (knum w k a) s.
Proof using OO.
  intros Hw Hs Hl. unfold converts, knum in *. destruct w as [|[|[|w]]]; [| | |lia]; destruct k; unfold K.convert;
    cbn [replicate app kind_char peek drop]; unfold c_d, c_u, c_x, c_l in *; cbn [Z.eqb Pos.eqb andb va_arg];
    (apply wp_bind, wp_ret; cbn beta iota; apply wp_bind; apply kint_wp; [auto|apply i32_range || apply i64_range|done|done|]; intros s1 H1 E1; apply wp_ret; done).
Qed.

Lemma eqb_false x y : x <> y -> (x =? y) = false.
Proof. apply Z.eqb_neq. Qed.

(** Every part but a plain character begins with a percent sign and is one conversion. *)
Lemma convert_ok i l args t rest s : item_ok i -> (forall c, i <> Lit c) -> text knum K.digits cstr (i :: l) args = Some t -> o_ok s ->
  exists args' t1 t2, t = t1 ++ t2 /\ text knum K.digits cstr l args' = Some t2 /\ exists fmt, show i ++ rest = c_percent :: fmt /\ converts fmt args rest args' t1 s.
Proof using OO Hstr.
  intros Hi Hlit Ht Hs. destruct i as [c|w k| | | |c]; [by destruct (Hlit c)|..]; cbn [text] in Ht; try (destruct args as [|a args]; [done|]).
  - destruct (16 <? _) eqn:El; [done|]. destruct (text knum _ _ l args) as [t2|] eqn:E2; [|done]. injection Ht as <-. exists args, (knum w k a), t2. split; [done|]. split; [done|].
    exists (replicate w c_l ++ kind_char k :: rest). split; [cbn; by rewrite <- app_assoc|]. by apply convert_num.
  - destruct (text knum _ _ l args) as [t2|] eqn:E2; [|done]. injection Ht as <-. exists args, (ptr_text K.digits (u64 a)), t2. split; [done|]. split; [done|].
    exists (c_p :: rest). split; [done|]. unfold converts, K.convert. cbn [peek drop]. unfold c_p, c_d, c_u, c_x, c_l. cbn [Z.eqb Pos.eqb andb va_arg].
    apply wp_bind, wp_ret. cbn beta iota. apply wp_bind. eapply wp_mono; [apply printptr_ok; [unfold u64; by apply Z.mod_pos_bound|intros d Hd; by apply kdigit_ok|done]|].
    cbn beta. intros _ s1 [H1 E1]. by apply wp_ret.
  - destruct (text knum _ _ l args) as [t2|] eqn:E2; [|done]. injection Ht as <-. exists args, (if a =? 0 then null_str else cstr a), t2. split; [done|]. split; [done|].
    exists (c_s :: rest). split; [done|]. unfold converts, K.convert. cbn [peek drop]. unfold c_p, c_d, c_u, c_x, c_l, c_s. cbn [Z.eqb Pos.eqb andb va_arg].
    apply wp_bind, wp_ret. cbn beta iota. apply wp_bind. eapply wp_mono; [apply put_all_ok; [done|destruct (a =? 0); [unfold chars, null_str; repeat constructor; lia|done]]|].
    cbn beta. intros _ s1 [H1 E1]. by apply wp_ret.
  - destruct (text knum _ _ l args) as [t2|] eqn:E2; [|done]. injection Ht as <-. exists args, [c_percent], t2. split; [done|]. split; [done|].
    exists (c_percent :: rest). split; [done|]. unfold converts, K.convert. cbn [peek drop]. unfold c_p, c_d, c_u, c_x, c_l, c_s, c_percent. cbn [Z.eqb Pos.eqb andb].
    apply wp_bind. eapply wp_mono; [apply o_put; [done|lia]|]. cbn beta. intros _ s1 [H1 E1]. by apply wp_ret.
  - destruct (text knum _ _ l args) as [t2|] eqn:E2; [|done]. injection Ht as <-. exists args, [c_percent; c], t2. split; [done|]. split; [done|].
    exists (c :: rest). split; [done|]. destruct Hi as [Hc Hn]. unfold converts, K.convert. cbn [peek drop]. rewrite !(eqb_false c) by (intros ->; set_solver || lia). cbn [andb].
    apply wp_bind. eapply wp_mono; [apply o_put; [done|unfold c_percent; lia]|]. cbn beta. intros _ s1 [H1 E1].
    apply wp_bind. eapply wp_mono; [apply o_put; [done|lia]|]. cbn beta. intros _ s2 [H2 E2']. apply wp_ret. split; [done|]. split; [done|]. by rewrite E2', E1, <- app_assoc.
Qed.

(** The loop of [printf]. *)
Definition kturn (v : list Z * list Z) : M S ((list Z * list Z) + unit) :=
  let '(rest, ap) := v in
  match rest with
  | [] => mret (inr tt)
  | cx :: rest' =>
      if negb (cx =? c_percent) then outc cx;; mret (inl (rest', ap)) else
      o ← K.convert cstr rest' ap;
      mret (match o with Some x => inl x | None => inr tt end)
  end.

Lemma kloop_ok items : Forall item_ok items -> forall args t fuel s, text knum K.digits cstr items args = Some t -> o_ok s -> (length items < fuel)%nat ->
  wp (loop fuel kturn (concat (map show items), args)) (fun _ s' => o_ok s' /\ o_out s' = o_out s ++ t) s.
Proof using OO Hstr.
  induction 1 as [|i l Hi Hl IH]; intros args t [|fuel] s Ht Hs Hf; try (cbn in Hf; lia); cbn [loop]; apply wp_bind.
  - injection Ht as <-. apply wp_ret, wp_ret. by rewrite app_nil_r.
  - cbn [map concat length] in *. destruct i as [c| | | | |].
    1:{ cbn in Ht. destruct (text knum _ _ l args) as [t2|] eqn:E2; [|done]. injection Ht as <-. destruct Hi as [Hc Hne]. cbn [show app kturn]. rewrite (eqb_false c) by done. cbn [negb].
        apply wp_bind. eapply wp_mono; [apply o_put; [done|lia]|]. cbn beta. intros _ s1 [H1 E1]. apply wp_ret. eapply wp_mono; [by apply (IH args t2 fuel s1); [..|lia]|].
        cbn beta. intros _ s2 [H2 E3]. split; [done|]. by rewrite E3, E1, <- app_assoc. }
    all: match goal with |- context [show ?i ++ _] => destruct (convert_ok i l args t (concat (map show l)) s Hi ltac:(done) Ht Hs) as (args' & t1 & t2 & -> & Ht2 & fmt & Ef & Hc) end.
    all: rewrite Ef; cbn [kturn]; rewrite Z.eqb_refl; cbn [negb]; apply wp_bind; eapply wp_mono; [exact Hc|]; cbn beta; intros o s1 (-> & H1 & E1); apply wp_ret.
    all: (eapply wp_mono; [by apply (IH args' t2 fuel s1); [..|lia]|]); cbn beta; intros _ s2 [H2 E3]; (split; [done|]); by rewrite E3, E1, <- app_assoc.
Qed.
End kprintf.

(** ** The lock around [printf] *)

(** Output leaves the locks alone, and they it. *)
Class LockOut (S : Type) `{OutEnv S} `{HasLocks S} := {
  l_ok : S -> Prop;
  l_out : S -> list Z;
  l_put : forall c s, l_ok s -> 0 <= c < 256 -> wp (outc c) (fun _ s' => l_ok s' /\ l_out s' = l_out s ++ [c] /\ held s' = held s) s;
  l_held : forall x s, l_ok s -> l_ok (set_held x s) /\ l_out (set_held x s) = l_out s;
}.

Section kprintf_locked.
Context {S : Type} `{LO : LockOut S} (cstr : Z -> list Z).
Implicit Types s : S.

#[refine] Instance out_held (h : gset Z) : OutOk S := { o_ok := fun s => l_ok s /\ held s = h; o_out := l_out }.
Proof. intros c s [Hs Hh] Hc. eapply wp_mono; [by apply l_put|]. cbn beta. intros _ s' (H1 & H2 & H3). rewrite H3. done. Defined.

(** The kernel's [printf] prints its format.  For a format made of characters, conversions
    and percent signs, with an argument for each conversion and numbers of at most 16
    characters, it puts out the characters and the arguments' texts in order, returns 0 and
    leaves the locks as they were. *)
Theorem kprintf_spec locking items args txt s : (forall a, chars (cstr a)) -> Forall item_ok items -> text knum K.digits cstr items args = Some txt -> l_ok s ->
  (locking = true -> K.PR_LOCK ∉ held s) ->
  wp (K.printf cstr locking (concat (map show items)) args) (fun r s' => r = 0 /\ l_out s' = l_out s ++ txt /\ held s' = held s) s.
Proof using LO.
  intros Hstr Hi Ht Hs Hl. unfold K.printf.
  assert (length items < length (concat (map show items)) + 1)%nat as Hlen.
  { clear. induction items as [|i l IH]; cbn [map concat]; [cbn; lia|]. rewrite length_app. assert (1 <= length (show i))%nat by (destruct i; cbn; lia). cbn [length]. lia. }
  change (fun '(rest, ap) => _) with (kturn cstr). set (h := if locking then {[K.PR_LOCK]} ∪ held s else held s).
  apply wp_bind. apply (wp_mono _ (fun _ s1 => l_ok s1 /\ held s1 = h /\ l_out s1 = l_out s)).
  { apply wp_when; intros ->; [|by subst h]. destruct (l_held ({[K.PR_LOCK]} ∪ held s) s Hs) as [H1 H2]. apply wp_acquire; [auto|]. split; [done|]. split; [apply held_set|done]. }
  cbn beta. intros _ s1 (H1 & H2 & H3). apply wp_bind. eapply wp_mono; [apply (kloop_ok (OO := out_held h) cstr Hstr items Hi args txt); [done|done|exact Hlen]|].
  cbn beta. intros _ s2 [[H4 H5] E2]. cbn in E2. apply wp_bind. apply (wp_mono _ (fun _ s3 => held s3 = held s /\ l_out s3 = l_out s2)).
  { apply wp_when; intros ->; [|by subst h]. apply wp_release; [rewrite H5; subst h; set_solver|]. rewrite H5. subst h. rewrite held_acq_rel by auto.
    split; [apply held_set|]. by apply l_held. }
  cbn beta. intros _ s3 [H6 H7]. apply wp_ret. split; [done|]. split; [by rewrite H7, E2, H3|done].
Qed.
End kprintf_locked.

(** [consputc] of the console is such an output. *)
Section console_out.
Context {S : Type} `{CO : ConsOk S} (fuel : nat) (Hfuel : (B < fuel)%nat).

#[export] Instance cons_out : OutEnv (cst S) := { outc := consputc fuel }.
#[export] #[refine] Instance cons_lock_out : LockOut (cst S) := {
  l_ok := fun s => up (cenv s) /\ panicked (cu s) = 0;
  l_out := fun s => sent (cenv s);
}.
Proof using CO Hfuel.
  - intros c s [H1 H2] Hc. eapply wp_mono; [apply (consputc_ok fuel Hfuel c s); auto|]. cbn beta. intros _ s' [[E1 E2 E3 E4] _].
    split; [done|]. split; [|done]. rewrite E4. unfold echo_of. by rewrite (proj2 (Z.eqb_neq c BACKSPACE)) by (unfold BACKSPACE; lia).
  - intros x s [H1 H2]. destruct (u_held x (cenv s) H1) as [H3 H4]. done.
Defined.
End console_out.

(** "%d %x", and a number that is too long for the buffer: 2^32 - 1 as "%u" is sign-extended. *)
Import ConsoleSpec.Demo.

#[local] Instance toy_out : OutEnv (cst toy) := cons_out 2.
#[local] Instance toy_lock_out : LockOut (cst toy) := cons_lock_out 2 (Nat.lt_succ_diag_r 1).

Definition demo_items : list item := [Num 0 KDec; Lit 32; Num 1 KHex].

Lemma demo_text : text knum K.digits (fun _ => []) demo_items [2 ^ 32 - 42; 255] = Some [45; 52; 50; 32; 102; 102].
Proof. by vm_compute. Qed.
Lemma demo_ok : l_ok cons0.
Proof. split; [cbn; lia|done]. Qed.

Lemma kprintf_spec_witness : wp (K.printf (fun _ => []) true (concat (map show demo_items)) [2 ^ 32 - 42; 255])
  (fun r s' => r = 0 /\ l_out s' = l_out cons0 ++ [45; 52; 50; 32; 102; 102] /\ held s' = held cons0) cons0.
Proof.
  apply (kprintf_spec (fun _ => []) true demo_items [2 ^ 32 - 42; 255] [45; 52; 50; 32; 102; 102] cons0).
  - intros a. constructor.
  - repeat constructor; cbn; unfold c_percent; lia.
  - exact demo_text.
  - exact demo_ok.
  - intros _. apply not_elem_of_empty.
Defined.

Lemma demo_short : (16 <? Z.of_nat (length (kint_text (-42) 10 true))) = false /\ kint_text (-42) 10 true = [45; 52; 50].
Proof. by vm_compute. Qed.

#[local] Instance toy_out_ok : OutOk (cst toy) := out_held ∅.

Lemma printint_roundtrip_witness : read_num 10 (kint_text (-42) 10 true) = -42 /\ kint_text (-42) 10 true = [45; 52; 50] /\
  wp (K.printint (-42) 10 true) (fun _ s' => o_ok s' /\ o_out s' = o_out cons0 ++ kint_text (-42) 10 true) cons0.
Proof.
  pose proof (printint_roundtrip (-42) 10 true cons0 ltac:(lia) ltac:(lia) (conj demo_ok eq_refl)) as H. destruct demo_short as [E1 E2]. rewrite E1 in H.
  exact (conj (proj1 H) (conj E2 (proj2 H))).
Defined.

(** "%u" of 2^32 - 1 is the 20 digits of 2^64 - 1, as [va_arg] takes an [int]: the buffer of 16
    characters overflows. *)
Lemma printf_u_overflows : K.printf (fun _ => []) true (concat (map show [Num 0 KUns])) [2 ^ 32 - 1] cons0 = Undef.
Proof. by vm_compute. Qed.

(** In user programs "%lu" prints the argument's lower 32 bits only. *)
Lemma user_long_truncated : U.vprintf (fun _ => []) (concat (map show [Num 1 KUns])) [2 ^ 32 + 7] cons0 = U.vprintf (fun _ => []) (concat (map show [Num 1 KUns])) [7] cons0.
Proof. by vm_compute. Qed.
