(* ===== verification/Shell.v ===== *)
(** * The shell's parser

    [user/sh.c]: the lexer, the recursive-descent parser and the marking of string ends.  The
    command line is a list of characters without its NUL; the parser's pointer [*ps] is the
    state, as what is left of the line; [q] and [eq] are positions in the line.  The constructors
    [execcmd], [redircmd], ... are those of [cmd] ([malloc] is taken to succeed); [panic] prints
    its message and exits.  In [parseexec] the node of the command is filled in while redirections
    already wrap it: the model keeps its arguments and the redirections apart and puts them
    together at the end. *)

From Stdlib Require Import ZArith Lia.
From stdpp Require Import base numbers list strings.
From S2P Require Import Prelude.

Definition MAXARGS : Z := 10.
Definition whitespace : list Z := [32; 9; 13; 10; 11].
Definition symbols : list Z := [60; 124; 62; 38; 59; 40; 41].
Definition ch_lt : Z := 60.
Definition ch_bar : Z := 124.
Definition ch_gt : Z := 62.
Definition ch_amp : Z := 38.
Definition ch_semi : Z := 59.
Definition ch_open : Z := 40.
Definition ch_close : Z := 41.
Definition ch_plus : Z := 43.
Definition ch_a : Z := 97.

(** The modes of [open] that redirections use. *)
Definition RD_IN : Z := 0.
Definition RD_OUT : Z := Z.lor (Z.lor 0x001 0x200) 0x400.
Definition RD_APP : Z := Z.lor 0x001 0x200.

(** Commands; [W] is what stands for a string: a pair of pointers, or its text. *)
Inductive cmd (W : Type) :=
| EXEC (argv : list W)
| REDIR (c : cmd W) (file : W) (mode fd : Z)
| PIPE (left right : cmd W)
| LIST (left right : cmd W)
| BACK (c : cmd W).
Arguments EXEC {W} _.
Arguments REDIR {W} _ _ _ _.
Arguments PIPE {W} _ _.
Arguments LIST {W} _ _.
Arguments BACK {W} _.

(** [strchr(l, c)] for a [c] that is not NUL. *)
Definition is_in (l : list Z) (c : Z) : bool := bool_decide (c ∈ l).
Definition word_char (c : Z) : bool := negb (is_in whitespace c) && negb (is_in symbols c).

Fixpoint skip_ws (s : list Z) : list Z :=
  match s with
  | c :: s' => if is_in whitespace c then skip_ws s' else s
  | [] => []
  end.
Fixpoint skip_word (s : list Z) : list Z :=
  match s with
  | c :: s' => if word_char c then skip_word s' else s
  | [] => []
  end.

Section sh_c.
Context (buf : list Z).

(** The position of a pointer, from what is left behind it. *)
Definition pos (s : list Z) : Z := Z.of_nat (length buf) - Z.of_nat (length s).

(** The token at [s], which has no white space in front: its code, and what is left behind it. *)
Definition token (s : list Z) : Z * list Z :=
  match s with
  | [] => (0, [])
  | c :: s' =>
      if is_in [ch_bar; ch_open; ch_close; ch_semi; ch_amp; ch_lt] c then (c, s')
      else if c =? ch_gt then
        match s' with
        | c' :: s'' => if c' =? ch_gt then (ch_plus, s'') else (ch_gt, s')
        | [] => (ch_gt, s')
        end
      else (ch_a, skip_word s)
  end.

Definition gettoken : M (list Z) (Z * (Z * Z)) :=
  s ← gets (fun s => skip_ws s);
  let '(ret, e) := token s in
  modify (fun _ => skip_ws e);;
  mret (ret, (pos s, pos e)).

Definition peek (toks : list Z) : M (list Z) bool :=
  modify skip_ws;;
  gets (fun s => match s with c :: _ => is_in toks c | [] => false end).

(** The redirections at [*ps], in order. *)
Definition redirs_turn (rs : list ((Z * Z) * Z * Z)) : M (list Z) (list ((Z * Z) * Z * Z) + list ((Z * Z) * Z * Z)) :=
  b ← peek [ch_lt; ch_gt];
  if negb b then mret (inr rs) else
  '(tok, _) ← gettoken;
  '(t, w) ← gettoken;
  if negb (t =? ch_a) then panic "missing file for redirection" else
  mret (inl (rs ++
    (if tok =? ch_lt then [(w, RD_IN, 0)]
     else if tok =? ch_gt then [(w, RD_OUT, 1)]
     else if tok =? ch_plus then [(w, RD_APP, 1)] else []))).
Definition parseredirs : M (list Z) (list ((Z * Z) * Z * Z)) := loop (length buf + 1) redirs_turn [].

(** [redircmd] for each. *)
Definition wrap {W} (c : cmd W) (rs : list (W * Z * Z)) : cmd W := foldl (fun c r => let '(w, mode, fd) := r in REDIR c w mode fd) c rs.

(** The loop of [parseexec]: the arguments and the redirections so far. *)
Definition args_turn (x : list (Z * Z) * list ((Z * Z) * Z * Z)) : M (list Z) (list (Z * Z) * list ((Z * Z) * Z * Z) + list (Z * Z) * list ((Z * Z) * Z * Z)) :=
  let '(argv, rs) := x in
  b ← peek [ch_bar; ch_close; ch_amp; ch_semi];
  if (b : bool) then mret (inr (argv, rs)) else
  '(tok, w) ← gettoken;
  if tok =? 0 then mret (inr (argv, rs)) else
  if negb (tok =? ch_a) then panic "syntax" else
  let argv := argv ++ [w] in
  if MAXARGS <=? Z.of_nat (length argv) then panic "too many args" else
  more ← parseredirs;
  mret (inl (argv, rs ++ more)).
Definition parseargs : M (list Z) (cmd (Z * Z)) :=
  rs ← parseredirs;
  '(argv, rs) ← loop (length buf + 1) args_turn ([], rs);
  mret (wrap (EXEC argv) rs).

(** [while(peek(ps, es, "&"))] of [parseline]. *)
Definition backs_turn (c : cmd (Z * Z)) : M (list Z) (cmd (Z * Z) + cmd (Z * Z)) :=
  b ← peek [ch_amp];
  if (b : bool) then gettoken;; mret (inl (BACK c)) else mret (inr c).
Definition parsebacks (c : cmd (Z * Z)) : M (list Z) (cmd (Z * Z)) := loop (length buf + 1) backs_turn c.

(** [fuel] bounds the nesting of calls. *)
Fixpoint parseline (fuel : nat) : M (list Z) (cmd (Z * Z)) :=
  match fuel with
  | O => nofuel
  | S n =>
      c ← parsepipe n;
      c ← parsebacks c;
      b ← peek [ch_semi];
      if (b : bool) then gettoken;; r ← parseline n; mret (LIST c r) else mret c
  end
with parsepipe (fuel : nat) : M (list Z) (cmd (Z * Z)) :=
  match fuel with
  | O => nofuel
  | S n =>
      c ← parseexec n;
      b ← peek [ch_bar];
      if (b : bool) then gettoken;; r ← parsepipe n; mret (PIPE c r) else mret c
  end
with parseexec (fuel : nat) : M (list Z) (cmd (Z * Z)) :=
  match fuel with
  | O => nofuel
  | S n =>
      b ← peek [ch_open];
      if (b : bool) then parseblock n else parseargs
  end
with parseblock (fuel : nat) : M (list Z) (cmd (Z * Z)) :=
  match fuel with
  | O => nofuel
  | S n =>
      b ← peek [ch_open];
      if negb b then panic "parseblock" else
      gettoken;;
      c ← parseline n;
      b ← peek [ch_close];
      if negb b then panic "syntax - missing )" else
      gettoken;;
      rs ← parseredirs;
      mret (wrap c rs)
  end.

(** [*eargv[i] = 0] and [*efile = 0], in the line with its NUL. *)
Definition put_nul (l : list Z) (w : Z * Z) : list Z := <[Z.to_nat w.2 := 0]> l.
Fixpoint nulterminate (c : cmd (Z * Z)) (l : list Z) : list Z :=
  match c with
  | EXEC argv => foldl put_nul l argv
  | REDIR c w _ _ => put_nul (nulterminate c l) w
  | PIPE a b => nulterminate b (nulterminate a l)
  | LIST a b => nulterminate b (nulterminate a l)
  | BACK c => nulterminate c l
  end.

(** The command, with the line after the marking. *)
Definition parsecmd : M (list Z) (cmd (Z * Z) * list Z) :=
  c ← parseline (4 * length buf + 4);
  peek [];;
  s ← gets (fun s => s);
  match s with
  | [] => mret (c, nulterminate c (buf ++ [0]))
  | _ => panic "syntax"
  end.
End sh_c.
