(* ===== verification/ShellSpec.v ===== *)
(** * Parsing command lines

    The parser of [Shell.v] ends on every line, the strings of the commands it builds are words
    of the line, and a command printed as a line is parsed to itself. *)

From Stdlib Require Import ZArith Lia.
From stdpp Require Import base numbers list strings sets.
From S2P Require Import Prelude Shell.

(** [ends m P s]: [m] returns with [P] or exits with a message. *)
Definition ends {S A} (m : M S A) (P : A -> S -> Prop) (s : S) : Prop :=
  match m s with Ret a s' => P a s' | Panic _ _ => True | _ => False end.

Section ends.
Context {S : Type}.

Lemma runs_ret {A} (a : A) (P : A -> S -> Prop) s : P a s -> ends (mret a) P s.
Proof. done. Qed.
Lemma runs_gets {A} (f : S -> A) (P : A -> S -> Prop) s : P (f s) s -> ends (gets f) P s.
Proof. done. Qed.
Lemma runs_modify (f : S -> S) (P : unit -> S -> Prop) s : P tt (f s) -> ends (modify f) P s.
Proof. done. Qed.
Lemma runs_panic {A} e (P : A -> S -> Prop) s : ends (panic e) P s.
Proof. done. Qed.
Lemma runs_bind {A B} (m : M S A) (k : A -> M S B) (P : B -> S -> Prop) s : ends m (fun a s' => ends (k a) P s') s -> ends (m ≫= k) P s.
Proof. unfold ends, mbind, M_bind. by destruct (m s). Qed.
Lemma runs_mono {A} (m : M S A) (P Q : A -> S -> Prop) s : ends m P s -> (forall a s', P a s' -> Q a s') -> ends m Q s.
Proof. unfold ends. destruct (m s); auto. Qed.
Lemma runs_loop {L A} (body : L -> M S (L + A)) (I : L -> S -> Prop) (mu : L -> S -> nat) (Q : A -> S -> Prop) :
  (forall l s, I l s -> ends (body l) (fun r s' => match r with inl l' => I l' s' /\ (mu l' s' < mu l s)%nat | inr a => Q a s' end) s) ->
  forall fuel l s, I l s -> (mu l s < fuel)%nat -> ends (loop fuel body l) Q s.
Proof.
  intros Hb. induction fuel as [|n IH]; intros l s HI Hmu; [lia|]. cbn [loop]. apply runs_bind. eapply runs_mono; [by apply Hb|].
  intros [l'|a] s' Hr; [|done]. destruct Hr as [HI' Hlt]. apply IH; [done|lia].
Qed.
End ends.

(** ** The lexer *)

Lemma is_in_spec l c : is_in l c = true <-> c ∈ l.
Proof. unfold is_in. apply bool_decide_eq_true. Qed.
Lemma is_in_false l c : is_in l c = false <-> c ∉ l.
Proof. unfold is_in. apply bool_decide_eq_false. Qed.

Lemma skip_ws_split s : exists p, s = p ++ skip_ws s.
Proof. induction s as [|c s [p IH]]; cbn; [by exists []|]. destruct (is_in whitespace c); [exists (c :: p); cbn; by f_equal|by exists []]. Qed.
Lemma skip_ws_head s c r : skip_ws s = c :: r -> is_in whitespace c = false.
Proof. induction s as [|x s IH]; cbn; [done|]. destruct (is_in whitespace x) eqn:E; [done|]. by intros [= <- <-]. Qed.
Lemma skip_ws_idem s : skip_ws (skip_ws s) = skip_ws s.
Proof. destruct (skip_ws s) as [|c r] eqn:E; [done|]. cbn. by rewrite (skip_ws_head _ _ _ E). Qed.
Lemma skip_word_split s : exists p, s = p ++ skip_word s /\ Forall (fun c => word_char c = true) p /\ (forall c r, skip_word s = c :: r -> word_char c = false).
Proof.
  induction s as [|c s (p & IH1 & IH2 & IH3)]; cbn; [exists []; by repeat constructor|]. destruct (word_char c) eqn:E.
  - exists (c :: p). split; [cbn; by f_equal|]. split; [by constructor|done].
  - exists []. split; [done|]. split; [constructor|]. by intros c' r [= <- <-].
Qed.

Section tokens.
Context (buf : list Z).

(** A pointer into the line. *)
Definition at_ (s : list Z) : Prop := exists p, buf = p ++ s.

Lemma at_pos s : at_ s -> 0 <= pos buf s <= Z.of_nat (length buf) /\ buf = take (Z.to_nat (pos buf s)) buf ++ s.
Proof.
  intros [p E]. unfold pos. assert (length buf = length p + length s)%nat as El by (rewrite E at 1; apply length_app). split; [lia|].
  replace (Z.to_nat (Z.of_nat (length buf) - Z.of_nat (length s))) with (length p) by lia. rewrite E at 2. by rewrite take_app_length.
Qed.
Lemma pos_lookup s : at_ s -> buf !! Z.to_nat (pos buf s) = head s.
Proof.
  intros [p E]. assert (Z.to_nat (pos buf s) = length p) as -> by (unfold pos; rewrite E, length_app; lia). rewrite E, lookup_app_r, Nat.sub_diag by lia. by destruct s.
Qed.
Lemma at_app s p r : at_ s -> s = p ++ r -> at_ r.
Proof. intros [x E] ->. exists (x ++ p). by rewrite <- app_assoc. Qed.
Lemma at_skip s : at_ s -> at_ (skip_ws s).
Proof. intros Hs. destruct (skip_ws_split s) as [p E]. by apply (at_app s p). Qed.
Lemma at_len s : at_ s -> (length s <= length buf)%nat.
Proof. intros [p ->]. rewrite length_app. lia. Qed.
Lemma skip_len s : (length (skip_ws s) <= length s)%nat.
Proof. destruct (skip_ws_split s) as [p E]. rewrite E at 2. rewrite length_app. lia. Qed.

Definition slice (w : Z * Z) : list Z := take (Z.to_nat (w.2 - w.1)) (drop (Z.to_nat w.1) buf).

(** A string of a command: a word of the line, with no word character behind it. *)
Record tok_ok (w : Z * Z) : Prop := {
  to_range : 0 <= w.1 < w.2 /\ w.2 <= Z.of_nat (length buf);
  to_word : Forall (fun c => word_char c = true) (slice w);
  to_end : forall c, buf !! Z.to_nat w.2 = Some c -> word_char c = false;
}.

(** The token's code tells what was consumed. *)
Lemma token_ok s ret e : token s = (ret, e) -> (forall c r, s = c :: r -> is_in whitespace c = false) ->
  (ret = 0 /\ s = [] /\ e = []) \/
  (ret <> 0 /\ (length e < length s)%nat /\ exists p, s = p ++ e /\
    (ret = ch_a -> p <> [] /\ Forall (fun c => word_char c = true) p /\ (forall c r, e = c :: r -> word_char c = false))).
Proof.
  intros Ht Hws. destruct s as [|c s]; [injection Ht as <- <-; by left|right]. specialize (Hws c s eq_refl). cbn [token] in Ht.
  destruct (is_in [ch_bar; ch_open; ch_close; ch_semi; ch_amp; ch_lt] c) eqn:E1.
  { injection Ht as <- <-. apply is_in_spec in E1. split; [intros ->; set_solver|]. split; [cbn; lia|]. exists [c]. split; [done|]. intros ->. exfalso. set_solver. }
  destruct (Z.eqb_spec c ch_gt) as [->|Hgt].
  { destruct s as [|c' s]; [injection Ht as <- <-|destruct (c' =? ch_gt); injection Ht as <- <-]; (split; [done|]; split; [cbn; lia|]);
      [exists [ch_gt]|exists [ch_gt; c']|exists [ch_gt]]; done. }
  assert (ret = ch_a /\ e = skip_word (c :: s)) as [-> ->] by (by injection Ht). clear Ht. assert (word_char c = true) as Hw.
  { unfold word_char. rewrite Hws. cbn [negb andb]. apply negb_true_iff, is_in_false. apply is_in_false in E1. set_solver. }
  destruct (skip_word_split (c :: s)) as (p & E & Hp & He). split; [done|]. destruct p as [|c' p].
  { exfalso. cbn [app skip_word] in E. rewrite Hw in E. destruct (skip_word_split s) as (p' & E' & _). assert (length s = length p' + length (skip_word s))%nat as El by (rewrite E' at 1; apply length_app).
    apply (f_equal length) in E. cbn in E. lia. }
  assert (length (c :: s) = length (c' :: p) + length (skip_word (c :: s)))%nat as El by (rewrite <- length_app; by rewrite <- E).
  split; [cbn [length] in El |- *; lia|]. exists (c' :: p). by split.
Qed.

Lemma slice_at s p e : at_ s -> s = p ++ e -> slice (pos buf s, pos buf e) = p.
Proof.
  intros [x E] ->. assert (pos buf (p ++ e) = Z.of_nat (length x) /\ pos buf e = Z.of_nat (length x + length p)) as [-> ->] by (unfold pos; rewrite E, !length_app; lia).
  unfold slice. cbn [fst snd]. rewrite E, Nat2Z.id, drop_app_length. replace (Z.to_nat (Z.of_nat (length x + length p) - Z.of_nat (length x))) with (length p) by lia. apply take_app_length.
Qed.

(** [gettoken]: at the end of the line it gives 0, otherwise it goes on; a word is a string of
    the line. *)
Lemma gettoken_ok s : at_ s -> wp (gettoken buf) (fun r s' => at_ s' /\ ((r.1 = 0 /\ skip_ws s = [] /\ s' = []) \/
  (r.1 <> 0 /\ (length s' < length s)%nat /\ (r.1 = ch_a -> tok_ok r.2)))) s.
Proof.
  intros Hs. unfold gettoken. apply wp_bind, wp_gets. destruct (token (skip_ws s)) as [ret e] eqn:Et. apply wp_bind, wp_modify, wp_ret. cbn [fst snd].
  pose proof (at_skip _ Hs) as Hs1. pose proof (skip_len s) as Hl.
  destruct (token_ok _ _ _ Et) as [(-> & Es & ->)|(Hr & Hlt & p & Ep & Ha)]; [intros c r; apply skip_ws_head|..].
  - rewrite Es in Hs1. split; [done|]. by left.
  - pose proof (at_app _ _ _ Hs1 Ep) as He. split; [by apply at_skip|]. right. split; [done|]. split; [pose proof (skip_len e); lia|].
    intros E. destruct (Ha E) as (Hp & Hw & Hend). pose proof (slice_at _ _ _ Hs1 Ep) as Hsl. destruct (at_pos _ Hs1) as [R1 _]. destruct (at_pos _ He) as [R2 E2]. split; cbn [fst snd].
    + assert (length (skip_ws s) = length p + length e)%nat as El by (rewrite Ep, length_app; done). assert (0 < length p)%nat by (destruct p; [done|cbn; lia]). unfold pos in *. lia.
    + by rewrite Hsl.
    + intros c Hc. rewrite pos_lookup in Hc by done. destruct e as [|c' e]; [done|]. injection Hc as ->. by apply (Hend c e).
Qed.

Lemma peek_ok toks s : at_ s -> wp (peek toks) (fun b s' => at_ s' /\ s' = skip_ws s /\ (b = true -> s' <> []) /\
  b = match skip_ws s with c :: _ => is_in toks c | [] => false end) s.
Proof.
  intros Hs. unfold peek. apply wp_bind, wp_modify, wp_gets. split; [by apply at_skip|]. split; [done|]. split; [|done]. by destruct (skip_ws s).
Qed.
End tokens.

(** ** Every line *)

Fixpoint cmd_strings {W} (c : cmd W) : list W :=
  match c with
  | EXEC argv => argv
  | REDIR c w _ _ => cmd_strings c ++ [w]
  | PIPE a b => cmd_strings a ++ cmd_strings b
  | LIST a b => cmd_strings a ++ cmd_strings b
  | BACK c => cmd_strings c
  end.
(** No command has more arguments than [argv] has room for. *)
Fixpoint argc_ok {W} (c : cmd W) : Prop :=
  match c with
  | EXEC argv => Z.of_nat (length argv) < MAXARGS
  | REDIR c _ _ _ => argc_ok c
  | PIPE a b => argc_ok a /\ argc_ok b
  | LIST a b => argc_ok a /\ argc_ok b
  | BACK c => argc_ok c
  end.

(** Redirections are of standard input or output. *)
Fixpoint fds_ok {W} (c : cmd W) : Prop :=
  match c with
  | EXEC _ => True
  | REDIR c _ _ fd => (fd = 0 \/ fd = 1) /\ fds_ok c
  | PIPE a b => fds_ok a /\ fds_ok b
  | LIST a b => fds_ok a /\ fds_ok b
  | BACK c => fds_ok c
  end.

Lemma runs_wp {S A} (m : M S A) P s : wp m P s -> ends m P s.
Proof. unfold wp, ends. by destruct (m s). Qed.

Section lines.
Context (buf : list Z).

Definition good (c : cmd (Z * Z)) : Prop := Forall (tok_ok buf) (cmd_strings c) /\ argc_ok c /\ fds_ok c.
Definition redir_good (r : (Z * Z) * Z * Z) : Prop := tok_ok buf r.1.1 /\ (r.2 = 0 \/ r.2 = 1).
(** A parser that gives a result satisfying [P] and does not go back. *)
Definition parses {A} (m : M (list Z) A) (P : A -> Prop) (s : list Z) : Prop := ends m (fun a s' => at_ buf s' /\ (length s' <= length s)%nat /\ P a) s.

Lemma runs_peek toks s (P : bool -> list Z -> Prop) : at_ buf s ->
  (forall b s', at_ buf s' -> (length s' <= length s)%nat -> (b = true -> s' <> [] /\ skip_ws s' = s') -> P b s') -> ends (peek toks) P s.
Proof.
  intros Hs HP. apply runs_wp. eapply wp_mono; [by apply (peek_ok buf)|]. cbn beta. intros b s' (H1 & -> & H2 & _). apply HP; [done|apply skip_len|].
  intros Hb. split; [by apply H2|apply skip_ws_idem].
Qed.

Lemma runs_gettoken s (P : Z * (Z * Z) -> list Z -> Prop) : at_ buf s ->
  (forall r s', at_ buf s' -> (length s' <= length s)%nat -> (r.1 <> 0 -> (length s' < length s)%nat) -> (r.1 = 0 -> skip_ws s = []) -> (r.1 = ch_a -> tok_ok buf r.2) -> P r s') ->
  ends (gettoken buf) P s.
Proof.
  intros Hs HP. apply runs_wp. eapply wp_mono; [by apply gettoken_ok|]. cbn beta. intros r s' (H1 & [(E0 & E1 & ->)|(Hn & Hlt & Ha)]); apply HP; try done.
  - cbn. lia.
  - intros E. rewrite E0 in E. done.
  - lia.
Qed.

Lemma parseredirs_ok s : at_ buf s -> parses (parseredirs buf) (Forall redir_good) s.
Proof.
  intros Hs. unfold parses, parseredirs. apply (runs_loop _ (fun rs s' => at_ buf s' /\ (length s' <= length s)%nat /\ Forall redir_good rs) (fun _ s' => length s')).
  - intros rs s1 (H1 & L1 & F1). apply runs_bind, runs_peek; [done|]. intros b s2 H2 L2 Hb. destruct b; cbn [negb]; [|apply runs_ret; split_and!; [done|lia|done]].
    destruct (Hb eq_refl) as [Hne Hsk]. apply runs_bind, runs_gettoken; [done|]. intros [tok w0] s3 H3 L3 N3 Z3 _. cbn [fst] in *.
    assert (length s3 < length s2)%nat as Hlt by (apply N3; intros E; apply Hne; by rewrite <- Hsk, Z3).
    apply runs_bind, runs_gettoken; [done|]. intros [t w] s4 H4 L4 _ _ A4. cbn [fst snd] in *. destruct (Z.eqb_spec t ch_a) as [->|]; cbn [negb]; [|apply runs_panic].
    apply runs_ret. split; [|lia]. split; [done|]. split; [lia|]. apply Forall_app. split; [done|]. specialize (A4 eq_refl).
    destruct (tok =? ch_lt); [apply Forall_singleton; split; [done|by left]|]. destruct (tok =? ch_gt); [apply Forall_singleton; split; [done|by right]|].
    destruct (tok =? ch_plus); [apply Forall_singleton; split; [done|by right]|constructor].
  - split_and!; [done|lia|constructor].
  - pose proof (at_len _ _ Hs). lia.
Qed.

Lemma wrap_strings {W} (c : cmd W) rs : cmd_strings (wrap c rs) = cmd_strings c ++ map (fun r => r.1.1) rs /\ (argc_ok (wrap c rs) <-> argc_ok c).
Proof.
  revert c. induction rs as [|[[w m] f] rs IH]; intros c; cbn [wrap foldl map]; [by rewrite app_nil_r|].
  destruct (IH (REDIR c w m f)) as [E1 E2]. unfold wrap in *. rewrite E1, E2. cbn. by rewrite <- app_assoc.
Qed.

Lemma good_wrap c rs : good c -> Forall redir_good rs -> good (wrap c rs).
Proof.
  intros (H1 & H2 & H3) Hr. destruct (wrap_strings c rs) as [E1 E2]. split; [|split; [by apply E2|]].
  - rewrite E1. apply Forall_app. split; [done|]. apply Forall_map. eapply Forall_impl; [exact Hr|]. by intros r [? _].
  - clear -H3 Hr. revert c H3. induction Hr as [|[[w m] f] rs [_ Hf] Hr IH]; intros c Hc; [done|]. apply (IH (REDIR c w m f)). by split.
Qed.
Lemma good_pair a b : good a -> good b -> good (LIST a b) /\ good (PIPE a b).
Proof. intros (A1 & A2 & A3) (B1 & B2 & B3). split; (split; [by apply Forall_app|done]). Qed.

Lemma parseargs_ok s : at_ buf s -> parses (parseargs buf) good s.
Proof.
  intros Hs. unfold parses, parseargs. apply runs_bind. eapply runs_mono; [by apply parseredirs_ok|]. cbn beta. intros rs s1 (H1 & L1 & F1). apply runs_bind.
  apply (runs_loop _ (fun '(argv, rs) s' => at_ buf s' /\ (length s' <= length s)%nat /\ Forall (tok_ok buf) argv /\ Z.of_nat (length argv) < MAXARGS /\ Forall redir_good rs) (fun _ s' => length s')).
  - intros [argv rs'] s2 (H2 & L2 & F2 & N2 & R2). apply runs_bind, runs_peek; [done|]. intros b s3 H3 L3 _.
    assert (good (wrap (EXEC argv) rs')) as Hg by (apply good_wrap; [by split|done]).
    destruct b; [apply runs_ret, runs_ret; split_and!; [done|lia|apply Hg]|]. apply runs_bind, runs_gettoken; [done|]. intros [tok w] s4 H4 L4 N4 _ A4. cbn [fst snd] in *.
    destruct (Z.eqb_spec tok 0) as [->|H0]; [apply runs_ret, runs_ret; split_and!; [done|lia|apply Hg]|]. destruct (Z.eqb_spec tok ch_a) as [->|]; cbn [negb]; [|apply runs_panic].
    cbv zeta. destruct (Z.leb_spec MAXARGS (Z.of_nat (length (argv ++ [w])))); [apply runs_panic|]. apply runs_bind. eapply runs_mono; [by apply parseredirs_ok|]. cbn beta.
    intros more s5 (H5 & L5 & F5). apply runs_ret. specialize (N4 H0). split; [|lia]. split; [done|]. split; [lia|]. split; [apply Forall_app; split; [done|constructor; [by apply A4|constructor]]|].
    split; [done|]. by apply Forall_app.
  - split_and!; [done|lia|constructor|done|done].
  - pose proof (at_len _ _ H1). lia.
Qed.

Lemma parsebacks_ok c s : at_ buf s -> good c -> parses (parsebacks buf c) good s.
Proof.
  intros Hs Hc. unfold parses, parsebacks. apply (runs_loop _ (fun c s' => at_ buf s' /\ (length s' <= length s)%nat /\ good c) (fun _ s' => length s')).
  - intros c1 s1 (H1 & L1 & G1). apply runs_bind, runs_peek; [done|]. intros b s2 H2 L2 Hb. destruct b; [|apply runs_ret; split_and!; [done|lia|apply G1]].
    destruct (Hb eq_refl) as [Hne Hsk]. apply runs_bind, runs_gettoken; [done|]. intros r s3 H3 L3 N3 Z3 _. apply runs_ret.
    assert (length s3 < length s2)%nat as Hlt by (apply N3; intros E; apply Hne; by rewrite <- Hsk, Z3). split; [|lia]. split_and!; [done|lia|apply G1].
  - split_and!; [done|lia|apply Hc].
  - pose proof (at_len _ _ Hs). lia.
Qed.

(** An operator [toks] at [s]: it is consumed before the rest. *)
Lemma runs_operator {A} toks s (m : M (list Z) A) (z : M (list Z) A) (P : A -> list Z -> Prop) : at_ buf s ->
  (forall s', at_ buf s' -> (length s' < length s)%nat -> ends m P s') -> (forall s', at_ buf s' -> (length s' <= length s)%nat -> ends z P s') ->
  ends (b ← peek toks; if (b : bool) then gettoken buf;; m else z) P s.
Proof.
  intros Hs Hm Hz. apply runs_bind, runs_peek; [done|]. intros b s1 H1 L1 Hb. destruct b; [|by apply Hz]. destruct (Hb eq_refl) as [Hne Hsk].
  apply runs_bind, runs_gettoken; [done|]. intros r s2 H2 L2 N2 Z2 _. apply Hm; [done|].
  assert (length s2 < length s1)%nat; [|lia]. apply N2. intros E. apply Hne. by rewrite <- Hsk, Z2.
Qed.

(** The four mutually recursive parsers, with fuel for what is left of the line. *)
Lemma parser_ok n : (forall s, at_ buf s -> (4 * length s + 4 <= n)%nat -> parses (parseline buf n) good s) /\
  (forall s, at_ buf s -> (4 * length s + 3 <= n)%nat -> parses (parsepipe buf n) good s) /\
  (forall s, at_ buf s -> (4 * length s + 2 <= n)%nat -> parses (parseexec buf n) good s) /\
  (forall s, at_ buf s -> (4 * length s + 1 <= n)%nat -> parses (parseblock buf n) good s).
Proof.
  induction n as [|n (IHl & IHp & IHe & IHb)]; [split_and!; intros; lia|]. split_and!; intros s Hs Hn; unfold parses; cbn [parseline parsepipe parseexec parseblock].
  - apply runs_bind. eapply runs_mono; [apply (IHp s); [done|lia]|]. cbn beta. intros c1 s1 (H1 & L1 & G1). apply runs_bind. eapply runs_mono; [by apply parsebacks_ok|]. cbn beta.
    intros c2 s2 (H2 & L2 & G2). apply runs_operator; [done| |].
    + intros s3 H3 L3. apply runs_bind. eapply runs_mono; [apply (IHl s3); [done|lia]|]. cbn beta. intros r s4 (H4 & L4 & G4). apply runs_ret. split_and!; [done|lia|by apply good_pair].
    + intros s3 H3 L3. apply runs_ret. split_and!; [done|lia|apply G2].
  - apply runs_bind. eapply runs_mono; [apply (IHe s); [done|lia]|]. cbn beta. intros c1 s1 (H1 & L1 & G1). apply runs_operator; [done| |].
    + intros s3 H3 L3. apply runs_bind. eapply runs_mono; [apply (IHp s3); [done|lia]|]. cbn beta. intros r s4 (H4 & L4 & G4). apply runs_ret. split_and!; [done|lia|by apply good_pair].
    + intros s3 H3 L3. apply runs_ret. split_and!; [done|lia|apply G1].
  - apply runs_bind, runs_peek; [done|]. intros b s1 H1 L1 _. destruct b.
    + eapply runs_mono; [apply (IHb s1); [done|lia]|]. cbn beta. intros c s2 (H2 & L2 & G2). split_and!; [done|lia|apply G2].
    + eapply runs_mono; [by apply parseargs_ok|]. cbn beta. intros c s2 (H2 & L2 & G2). split_and!; [done|lia|apply G2].
  - apply runs_bind, runs_peek; [done|]. intros b s1 H1 L1 Hb. destruct b; cbn [negb]; [|apply runs_panic]. destruct (Hb eq_refl) as [Hne Hsk].
    apply runs_bind, runs_gettoken; [done|]. intros r s2 H2 L2 N2 Z2 _. assert (length s2 < length s1)%nat as Hlt by (apply N2; intros E; apply Hne; by rewrite <- Hsk, Z2).
    apply runs_bind. eapply runs_mono; [apply (IHl s2); [done|lia]|]. cbn beta. intros c s3 (H3 & L3 & G3). apply runs_bind, runs_peek; [done|]. intros b s4 H4 L4 _.
    destruct b; cbn [negb]; [|apply runs_panic]. apply runs_bind, runs_gettoken; [done|]. intros r' s5 H5 L5 _ _ _. apply runs_bind. eapply runs_mono; [by apply parseredirs_ok|]. cbn beta.
    intros rs s6 (H6 & L6 & F6). apply runs_ret. split_and!; [done|lia|by apply good_wrap].
Qed.
End lines.

(** ** The string ends *)

(** The C string at [q]. *)
Fixpoint until_nul (l : list Z) : list Z :=
  match l with
  | [] => []
  | c :: l' => if c =? 0 then [] else c :: until_nul l'
  end.
Definition text_at (l : list Z) (q : Z) : list Z := until_nul (drop (Z.to_nat q) l).

Lemma until_nul_spec p : forall l k, 0 ∉ p -> (forall i c, p !! i = Some c -> l !! (k + i)%nat = Some c) -> l !! (k + length p)%nat = Some 0 -> until_nul (drop k l) = p.
Proof.
  induction p as [|c p IH]; intros l k Hn Hp H0.
  - rewrite Nat.add_0_r in H0. by rewrite (drop_S l 0 k H0).
  - assert (l !! k = Some c) as Hc by (rewrite <- (Nat.add_0_r k); by apply Hp). rewrite (drop_S l c k Hc). cbn [until_nul]. destruct (Z.eqb_spec c 0) as [->|_]; [exfalso; apply Hn; by left|].
    f_equal. apply IH; [set_solver| |].
    + intros i x Hx. replace (S k + i)%nat with (k + S i)%nat by lia. by apply Hp.
    + cbn [length] in H0. by replace (S k + length p)%nat with (k + S (length p))%nat by lia.
Qed.

Lemma nulterminate_fold c : forall l, nulterminate c l = foldl put_nul l (cmd_strings c).
Proof.
  induction c as [argv|c IH w m f|a IHa b IHb|a IHa b IHb|c IH]; intros l; cbn [nulterminate cmd_strings]; rewrite ?foldl_app.
  - done.
  - cbn. by rewrite IH.
  - by rewrite IHb, IHa.
  - by rewrite IHb, IHa.
  - apply IH.
Qed.

Lemma put_nuls ws : forall l i, (i < length l)%nat -> foldl put_nul l ws !! i = if decide (i ∈ map (fun w => Z.to_nat w.2) ws) then Some 0 else l !! i.
Proof.
  induction ws as [|w ws IH]; intros l i Hi; cbn [foldl map]; [by rewrite decide_False by set_solver|]. rewrite IH by (unfold put_nul; by rewrite length_insert).
  unfold put_nul. destruct (decide (i ∈ map _ ws)) as [Hin|Hin]; [by rewrite decide_True by set_solver|]. destruct (decide (i = Z.to_nat w.2)) as [->|Hne].
  - rewrite decide_True by set_solver. by apply list_lookup_insert_eq.
  - rewrite decide_False by set_solver. by apply list_lookup_insert_ne.
Qed.

Section marks.
Context (buf : list Z) (Hnul : 0 ∉ buf).

Lemma slice_lookup w i c : tok_ok buf w -> slice buf w !! i = Some c -> buf !! (Z.to_nat w.1 + i)%nat = Some c.
Proof. intros _ H. unfold slice in H. apply lookup_take_Some in H as [H _]. by rewrite lookup_drop in H. Qed.

(** Marking the ends of some words of the line leaves each of them a C string: no mark falls
    within a word. *)
Lemma marks_ok ws w : Forall (tok_ok buf) ws -> w ∈ ws -> text_at (foldl put_nul (buf ++ [0]) ws) w.1 = slice buf w.
Proof.
  intros Hws Hw. pose proof (proj1 (Forall_forall _ _) Hws) as Ht. pose proof (Ht w Hw) as Hok. destruct Hok as [R W _]. assert (length (slice buf w) = Z.to_nat (w.2 - w.1)) as El.
  { unfold slice. rewrite length_take, length_drop. lia. }
  unfold text_at. apply until_nul_spec.
  - intros H. apply list_elem_of_lookup_1 in H as [i Hi]. apply slice_lookup in Hi; [|by apply Ht]. apply Hnul. by apply (list_elem_of_lookup_2 _ _ _ Hi).
  - intros i c Hi. pose proof (slice_lookup _ _ _ (Ht w Hw) Hi) as Hc. pose proof (lookup_lt_Some _ _ _ Hc) as Hlt. rewrite put_nuls by (rewrite length_app; lia).
    destruct (decide _) as [Hin|_]; [|by apply lookup_app_l_Some]. exfalso. apply list_elem_of_fmap in Hin as (w' & E & Hw'). destruct (Ht w' Hw') as [_ _ He].
    rewrite E in Hc. pose proof (He c Hc) as Hf. rewrite Forall_lookup in W. rewrite (W i c Hi) in Hf. done.
  - rewrite put_nuls by (rewrite length_app; cbn; lia). rewrite El. replace (Z.to_nat w.1 + Z.to_nat (w.2 - w.1))%nat with (Z.to_nat w.2) by lia.
    by rewrite decide_True by (apply list_elem_of_fmap; by exists w).
Qed.

(** The whole of [parsecmd]. *)
Lemma parsecmd_ends : ends (parsecmd buf) (fun r _ => good buf r.1 /\ forall w, w ∈ cmd_strings r.1 -> text_at r.2 w.1 = slice buf w) buf.
Proof.
  assert (at_ buf buf) as Hb by (by exists []). unfold parsecmd. apply runs_bind. eapply runs_mono; [apply (proj1 (parser_ok buf _)); [done|lia]|]. cbn beta.
  intros c s (H1 & L1 & G1). apply runs_bind, (runs_peek buf); [done|]. intros b s2 _ _ _. apply runs_bind, runs_gets. destruct s2; [|apply runs_panic]. apply runs_ret. cbn [fst snd].
  split; [done|]. intros w Hw. rewrite nulterminate_fold. apply marks_ok; [apply G1|done].
Qed.
End marks.

(** ** Commands as lines *)

Fixpoint cmap {V W} (f : V -> W) (c : cmd V) : cmd W :=
  match c with
  | EXEC argv => EXEC (map f argv)
  | REDIR c w m fd => REDIR (cmap f c) (f w) m fd
  | PIPE a b => PIPE (cmap f a) (cmap f b)
  | LIST a b => LIST (cmap f a) (cmap f b)
  | BACK c => BACK (cmap f c)
  end.

Definition redir_op (mode : Z) : list Z := if mode =? RD_IN then [ch_lt] else if mode =? RD_OUT then [ch_gt] else [ch_gt; ch_gt].
Definition paren (b : bool) (t : list Z) : list Z := if b then [ch_open] ++ t ++ [ch_close] else t.
(** The command as part of a line: at level 0 a line, 1 what [;] may follow, 2 a pipeline, 3 what
    [|] may follow. *)
Fixpoint show (lvl : nat) (c : cmd (list Z)) : list Z :=
  match c with
  | EXEC argv => concat (map (cons 32) argv)
  | REDIR c w mode _ => show 3 c ++ redir_op mode ++ 32 :: w
  | PIPE a b => paren (2 <? lvl)%nat (show 3 a ++ [ch_bar] ++ show 2 b)
  | BACK c => paren (1 <? lvl)%nat (show 1 c ++ [ch_amp])
  | LIST a b => paren (0 <? lvl)%nat (show 1 a ++ [ch_semi] ++ show 0 b)
  end.

(** Words, and the redirections there is a notation for. *)
Definition word_ok (w : list Z) : bool := negb (bool_decide (w = [])) && forallb (fun c => word_char c && negb (c =? 0)) w.
Definition redir_ok (mode fd : Z) : bool := (mode =? RD_IN) && (fd =? 0) || (mode =? RD_OUT) && (fd =? 1) || (mode =? RD_APP) && (fd =? 1).
Fixpoint showable (c : cmd (list Z)) : bool :=
  match c with
  | EXEC argv => forallb word_ok argv && (Z.of_nat (length argv) <? MAXARGS)
  | REDIR c w mode fd => showable c && word_ok w && redir_ok mode fd
  | PIPE a b => showable a && showable b
  | LIST a b => showable a && showable b
  | BACK c => showable c
  end.

(** What stands behind a command: nothing, or one of [toks]. *)
Definition follows (toks r : list Z) : Prop := match r with [] => True | c :: _ => c ∈ toks end.
Definition F3 : list Z := [ch_bar; ch_close; ch_amp; ch_semi].
Definition F2 : list Z := [ch_close; ch_amp; ch_semi].
Definition F1 : list Z := [ch_close; ch_semi].
Definition F0 : list Z := [ch_close].

Lemma follows_mono t1 t2 r : follows t1 r -> t1 ⊆ t2 -> follows t2 r.
Proof. destruct r; cbn; [done|]. set_solver. Qed.
Lemma is_in_ws c : c ∈ symbols -> is_in whitespace c = false.
Proof. intros H. apply is_in_false. unfold whitespace, symbols in *. set_solver by lia. Qed.
Lemma is_in_sym c : word_char c = true -> is_in whitespace c = false /\ is_in symbols c = false.
Proof. unfold word_char. rewrite andb_true_iff, !negb_true_iff. done. Qed.

Lemma follows_stable toks r : follows toks r -> toks ⊆ symbols -> skip_ws r = r.
Proof. destruct r as [|c r]; cbn; [done|]. intros H Hs. by rewrite is_in_ws by set_solver. Qed.
Lemma skip_ws_app t r : skip_ws r = r -> skip_ws (t ++ r) = skip_ws t ++ r.
Proof. intros Hr. induction t as [|c t IH]; cbn [app skip_ws]; [done|]. by destruct (is_in whitespace c). Qed.
Lemma F3_symbols : F3 ⊆ symbols.
Proof. unfold F3, symbols. set_solver. Qed.

(** The first character behind the white space, against [toks]. *)
Definition starts (toks x : list Z) : bool := match x with c :: _ => is_in toks c | [] => false end.

Lemma wp_peek toks s x (P : bool -> list Z -> Prop) : skip_ws s = x -> P (starts toks x) x -> wp (peek toks) P s.
Proof. intros <- HP. by apply wp_bind, wp_modify, wp_gets. Qed.

Lemma word_ok_spec w : word_ok w = true -> exists c w', w = c :: w' /\ Forall (fun c => word_char c = true) w /\ 0 ∉ w.
Proof.
  unfold word_ok. rewrite andb_true_iff, negb_true_iff, bool_decide_eq_false. intros [Hne Hf]. destruct w as [|c w']; [done|]. exists c, w'. split; [done|].
  rewrite forallb_forall in Hf. split.
  - apply Forall_forall. intros x Hx. specialize (Hf x ltac:(by apply list_elem_of_In)). apply andb_true_iff in Hf. apply Hf.
  - intros H0. specialize (Hf 0 ltac:(by apply list_elem_of_In)). apply andb_true_iff in Hf as [_ Hf]. done.
Qed.

(** The end of a word. *)
Definition stop (r : list Z) : Prop := match r with [] => True | c :: _ => word_char c = false end.
Lemma stop_symbols r : follows symbols r -> stop r.
Proof.
  destruct r as [|c r]; [done|]. cbn. intros H. unfold word_char. apply is_in_spec in H. rewrite H. apply andb_false_r.
Qed.
Lemma skip_word_app w r : Forall (fun c => word_char c = true) w -> stop r -> skip_word (w ++ r) = r.
Proof. intros Hw Hr. induction Hw as [|c w Hc Hw IH]; cbn; [destruct r as [|c r]; cbn in *; by rewrite ?Hr|by rewrite Hc]. Qed.

Section roundtrip.
Context (buf : list Z).

Lemma at_step s p r : at_ buf s -> skip_ws s = p ++ r -> at_ buf (skip_ws r).
Proof. intros Hs E. apply at_skip. apply (at_app _ (skip_ws s) p); [by apply at_skip|done]. Qed.

Lemma wp_op c s r (P : Z * (Z * Z) -> list Z -> Prop) : at_ buf s -> skip_ws s = c :: r -> c ∈ [ch_bar; ch_open; ch_close; ch_semi; ch_amp; ch_lt] ->
  (forall q, at_ buf (skip_ws r) -> (length (skip_ws r) < length s)%nat -> P (c, q) (skip_ws r)) -> wp (gettoken buf) P s.
Proof.
  intros Hs E Hc HP. unfold gettoken. apply wp_bind, wp_gets. rewrite E. cbn [token]. apply is_in_spec in Hc. rewrite Hc. apply wp_bind, wp_modify, wp_ret.
  apply HP; [by apply (at_step s [c])|]. pose proof (skip_len s) as H. rewrite E in H. cbn in H. pose proof (skip_len r). lia.
Qed.

Lemma wp_word w s r (P : Z * (Z * Z) -> list Z -> Prop) : at_ buf s -> word_ok w = true -> skip_ws s = w ++ r -> stop r ->
  (forall q, slice buf q = w -> at_ buf (skip_ws r) -> P (ch_a, q) (skip_ws r)) -> wp (gettoken buf) P s.
Proof.
  intros Hs Hw E Hr HP. unfold gettoken. apply wp_bind, wp_gets. rewrite E. destruct (word_ok_spec w Hw) as (c & w' & Ew & Hf & _). pose proof Hf as Hf0. rewrite Ew in Hf.
  assert (word_char c = true) as Hc by (by inversion Hf). destruct (is_in_sym c Hc) as [_ Hsy]. apply is_in_false in Hsy.
  assert (token (w ++ r) = (ch_a, r)) as Et.
  { rewrite Ew at 1. cbn [app token]. assert (is_in [ch_bar; ch_open; ch_close; ch_semi; ch_amp; ch_lt] c = false) as -> by (apply is_in_false; unfold symbols in Hsy; set_solver).
    destruct (Z.eqb_spec c ch_gt) as [->|_]; [exfalso; apply Hsy; unfold symbols; set_solver|]. change (c :: w' ++ r) with ((c :: w') ++ r). by rewrite skip_word_app. }
  rewrite Et. apply wp_bind, wp_modify, wp_ret. apply HP; [|by apply (at_step s w)]. apply slice_at; [|done]. rewrite <- E. by apply at_skip.
Qed.

(** *** Redirections *)

Definition redir_text (x : list Z * Z * Z) : list Z := let '(w, mode, _) := x in redir_op mode ++ 32 :: w.
Definition redirs_text (rs : list (list Z * Z * Z)) : list Z := concat (map redir_text rs).
Definition redirs_ok (rs : list (list Z * Z * Z)) : Prop := Forall (fun x => word_ok x.1.1 = true /\ redir_ok x.1.2 x.2 = true) rs.
Definition rslice (x : (Z * Z) * Z * Z) : list Z * Z * Z := let '(w, mode, fd) := x in (slice buf w, mode, fd).

Lemma redirs_stop rs r : stop r -> stop (redirs_text rs ++ r).
Proof. destruct rs as [|[[w m] f] rs]; [done|]. intros _. cbn. unfold redir_op. destruct (m =? RD_IN); [done|]. by destruct (m =? RD_OUT). Qed.

Lemma skip_word_ws w r : word_ok w = true -> skip_ws (32 :: w ++ r) = w ++ r.
Proof. intros Hw. destruct (word_ok_spec w Hw) as (c & w' & -> & Hf & _). assert (word_char c = true) as Hc by (by inversion Hf). cbn. by rewrite (proj1 (is_in_sym c Hc)). Qed.

(** The operator of a redirection, with its code. *)
Lemma wp_redir_op mode fd w s r (P : Z * (Z * Z) -> list Z -> Prop) : at_ buf s -> redir_ok mode fd = true -> word_ok w = true -> skip_ws s = redir_op mode ++ 32 :: w ++ r ->
  (forall t q, at_ buf (w ++ r) ->
    (forall x : Z * Z, (if t =? ch_lt then [(x, RD_IN, 0)] else if t =? ch_gt then [(x, RD_OUT, 1)] else if t =? ch_plus then [(x, RD_APP, 1)] else []) = [(x, mode, fd)]) -> P (t, q) (w ++ r)) ->
  wp (gettoken buf) P s.
Proof.
  intros Hs Hm Hw E HP. assert (at_ buf (w ++ r)) as Ha. { rewrite <- (skip_word_ws w r Hw). by apply (at_step s (redir_op mode)). }
  unfold gettoken. apply wp_bind, wp_gets. rewrite E. unfold redir_ok in Hm. unfold redir_op in *.
  rewrite !orb_true_iff, !andb_true_iff, !Z.eqb_eq in Hm.
  destruct (Z.eqb_spec mode RD_IN) as [->|N1]; [|destruct (Z.eqb_spec mode RD_OUT) as [->|N2]]; cbn [app token] in *.
  all: apply wp_bind, wp_modify, wp_ret; rewrite (skip_word_ws w r Hw); apply HP; [done|].
  all: intros x; destruct Hm as [[[E1 E2]|[E1 E2]]|[E1 E2]]; subst; done.
Qed.

Lemma redirs_loop rs r : redirs_ok rs -> stop r -> starts [ch_lt; ch_gt] (skip_ws r) = false -> forall acc n s, at_ buf s -> skip_ws s = skip_ws (redirs_text rs ++ r) -> (length rs < n)%nat ->
  wp (loop n (redirs_turn buf) acc) (fun rs' s' => s' = skip_ws r /\ map rslice rs' = map rslice acc ++ rs) s.
Proof.
  intros Hrs Hr Hst. induction Hrs as [|[[w m] f] rs [Hw Hm] Hrs IH]; intros acc n s Hs E Hn; (destruct n as [|n]; [cbn in Hn; lia|]); cbn [loop]; apply wp_bind; unfold redirs_turn at 1; apply wp_bind.
  - apply (wp_peek _ _ (skip_ws r)); [done|]. rewrite Hst. cbn [negb]. apply wp_ret, wp_ret. by rewrite app_nil_r.
  - cbn [fst snd] in *. assert (skip_ws (redirs_text ((w, m, f) :: rs) ++ r) = redir_op m ++ 32 :: w ++ redirs_text rs ++ r) as Et.
    { unfold redirs_text. cbn [map concat redir_text]. rewrite <- !app_assoc. cbn [app]. unfold redir_op. destruct (m =? RD_IN); [done|]. by destruct (m =? RD_OUT). }
    rewrite Et in E. eapply wp_peek; [exact E|]. assert (starts [ch_lt; ch_gt] (redir_op m ++ 32 :: w ++ redirs_text rs ++ r) = true) as ->.
    { unfold redir_op. destruct (m =? RD_IN); [done|]. by destruct (m =? RD_OUT). }
    cbn [negb]. apply wp_bind. eapply wp_redir_op; [|exact Hm|exact Hw| |].
    { rewrite <- E. by apply at_skip. }
    { rewrite <- E at 1. by rewrite skip_ws_idem. }
    intros t q Ha Hsw. apply wp_bind. assert (skip_ws (w ++ redirs_text rs ++ r) = w ++ redirs_text rs ++ r) as Es by (rewrite <- (skip_word_ws w _ Hw) at 1; by rewrite skip_ws_idem, skip_word_ws).
    eapply wp_word; [exact Ha|exact Hw|exact Es|by apply redirs_stop|]. intros q' Hq Ha'. cbn [negb]. rewrite Z.eqb_refl. cbn [negb]. apply wp_ret. rewrite Hsw.
    eapply wp_mono; [apply IH; [exact Ha'|by rewrite skip_ws_idem|cbn in Hn; lia]|]. cbn beta. intros rs' s' [-> Em]. split; [done|]. rewrite Em, map_app, <- app_assoc. cbn. by rewrite Hq.
Qed.

Lemma redirs_len rs : (length rs <= length (redirs_text rs))%nat.
Proof. induction rs as [|[[w m] f] rs IH]; [done|]. unfold redirs_text in *. cbn. rewrite !length_app. cbn. lia. Qed.

Lemma wp_redirs rs r s (P : list ((Z * Z) * Z * Z) -> list Z -> Prop) : redirs_ok rs -> stop r -> starts [ch_lt; ch_gt] (skip_ws r) = false -> at_ buf s -> skip_ws s = skip_ws (redirs_text rs ++ r) ->
  (forall rs', map rslice rs' = rs -> P rs' (skip_ws r)) -> wp (parseredirs buf) P s.
Proof.
  intros Hrs Hr Hst Hs E HP. unfold parseredirs. eapply wp_mono; [apply (redirs_loop rs r); try done|cbn beta; intros rs' s' [-> Em]; by apply HP].
  pose proof (at_len _ _ Hs) as Hl. pose proof (skip_len s) as Hk. pose proof (redirs_len rs) as Hd. destruct rs as [|[[w m] f] rs]; [cbn; lia|].
  assert (length (skip_ws (redirs_text ((w, m, f) :: rs) ++ r)) = length (redirs_text ((w, m, f) :: rs) ++ r)) as El.
  { unfold redirs_text. cbn [map concat redir_text]. rewrite <- !app_assoc. unfold redir_op. destruct (m =? RD_IN); [done|]. by destruct (m =? RD_OUT). }
  rewrite E, El, length_app in Hk. lia.
Qed.

(** *** Arguments *)

Definition args_text (argv : list (list Z)) : list Z := concat (map (cons 32) argv).
Lemma F3_starts r : follows F3 r -> skip_ws r = r /\ stop r /\ starts [ch_lt; ch_gt] (skip_ws r) = false.
Proof.
  intros H. pose proof (follows_stable _ _ H F3_symbols) as E. split; [done|]. split; [apply stop_symbols, (follows_mono F3 symbols r H F3_symbols)|]. rewrite E.
  destruct r as [|c r]; [done|]. apply is_in_false. cbn in H. unfold F3 in H. set_solver by lia.
Qed.

(** What is left when [argv] is still to come: the redirections [rs] stand behind the last. *)
Definition args_rest (argv : list (list Z)) (rs : list (list Z * Z * Z)) (r : list Z) : list Z :=
  match argv with [] => r | _ => args_text argv ++ redirs_text rs ++ r end.

Lemma args_text_cons w argv r : args_text (w :: argv) ++ r = 32 :: w ++ args_text argv ++ r.
Proof. unfold args_text. cbn. by rewrite <- app_assoc. Qed.
Lemma args_stop argv r : stop r -> stop (args_text argv ++ r).
Proof. by destruct argv as [|w argv]. Qed.
Lemma args_no_redir w argv r : word_ok w = true -> starts [ch_lt; ch_gt] (skip_ws (args_text (w :: argv) ++ r)) = false /\ starts F3 (skip_ws (args_text (w :: argv) ++ r)) = false.
Proof.
  intros Hw. rewrite args_text_cons, skip_word_ws by done. destruct (word_ok_spec w Hw) as (c & w' & -> & Hf & _). assert (word_char c = true) as Hc by (by inversion Hf).
  destruct (is_in_sym c Hc) as [_ Hs]. apply is_in_false in Hs. cbn [app starts]. split; apply is_in_false; unfold symbols, F3 in *; set_solver.
Qed.

Lemma args_loop rs r : redirs_ok rs -> follows F3 r -> forall argv acc racc n s, Forall (fun w => word_ok w = true) argv -> at_ buf s -> skip_ws s = skip_ws (args_rest argv rs r) ->
  map rslice racc = (match argv with [] => rs | _ => [] end) -> Z.of_nat (length acc + length argv) < MAXARGS -> (length argv < n)%nat ->
  wp (loop n (args_turn buf) (acc, racc)) (fun x s' => s' = r /\ map (slice buf) x.1 = map (slice buf) acc ++ argv /\ map rslice x.2 = rs) s.
Proof.
  intros Hrs Hr. destruct (F3_starts r Hr) as (Er & Hstop & Hnr). induction argv as [|w argv IH]; intros acc racc n s Hf Hs E Hra Hn Hfuel; (destruct n as [|n]; [cbn in Hfuel; lia|]);
    cbn [loop]; apply wp_bind; unfold args_turn at 1; apply wp_bind.
  - cbn [args_rest] in E. rewrite Er in E. apply (wp_peek _ _ r); [done|]. destruct r as [|c r].
    + cbn [starts]. apply wp_bind. unfold gettoken. apply wp_bind, wp_gets. cbn. unfold wp. cbn. by rewrite app_nil_r.
    + cbn [starts]. cbn in Hr. apply is_in_spec in Hr. unfold F3 in Hr. rewrite Hr. apply wp_ret, wp_ret. cbn. by rewrite app_nil_r.
  - assert (word_ok w = true /\ Forall (fun w => word_ok w = true) argv) as [Hw Hf'] by (by inversion Hf). cbn [args_rest] in E. destruct (args_no_redir w argv (redirs_text rs ++ r) Hw) as [_ Hp].
    eapply wp_peek; [exact E|]. unfold F3 in Hp. rewrite Hp. rewrite args_text_cons, skip_word_ws in * by done. apply wp_bind.
    eapply (wp_word w); [rewrite <- E; by apply at_skip|done|by rewrite <- E, skip_ws_idem|by apply args_stop, redirs_stop|]. intros q Hq Ha.
    cbv zeta. cbn [Z.eqb ch_a negb]. change (97 =? ch_a) with true. cbn [negb]. destruct (Z.leb_spec MAXARGS (Z.of_nat (length (acc ++ [q])))) as [Hge|_].
    { exfalso. rewrite length_app in Hge. cbn [length] in Hge, Hn. lia. }
    apply wp_bind. destruct argv as [|w2 argv].
    + eapply (wp_redirs rs r); [done|done|done|exact Ha|by rewrite skip_ws_idem|]. intros rs' Ers. apply wp_ret.
      eapply wp_mono; [apply IH; [exact Hf'|by apply (at_step s (w ++ redirs_text rs)); [|rewrite E, <- app_assoc]|by rewrite skip_ws_idem| | |cbn in Hfuel |- *; lia]|].
      * by rewrite map_app, Hra, Ers.
      * rewrite length_app. cbn [length] in Hn |- *. lia.
      * cbn beta. intros x s' (-> & E1 & E2). split; [done|]. split; [|done]. rewrite E1, map_app. cbn. by rewrite Hq, <- app_assoc.
    + assert (word_ok w2 = true) as Hw2 by (by inversion Hf'). eapply (wp_redirs [] (args_text (w2 :: argv) ++ redirs_text rs ++ r)); [constructor|by apply args_stop, redirs_stop|by apply args_no_redir|exact Ha|by rewrite skip_ws_idem|].
      intros rs' Ers. apply wp_ret. eapply wp_mono; [apply IH; [done|exact Ha|by rewrite skip_ws_idem| | |cbn in Hfuel |- *; lia]|].
      * by rewrite map_app, Hra, Ers.
      * rewrite length_app. cbn [length] in Hn |- *. lia.
      * cbn beta. intros x s' (-> & E1 & E2). split; [done|]. split; [|done]. rewrite E1, map_app. cbn. by rewrite Hq, <- app_assoc.
Qed.

Lemma cmap_wrap c rs : cmap (slice buf) (wrap c rs) = wrap (cmap (slice buf) c) (map rslice rs).
Proof. revert c. induction rs as [|[[w m] f] rs IH]; intros c; [done|]. unfold wrap in *. cbn [foldl map rslice]. by rewrite IH. Qed.

Lemma args_len argv r : Forall (fun w => word_ok w = true) argv -> (length argv <= length (skip_ws (args_text argv ++ r)))%nat.
Proof.
  intros Hf. destruct Hf as [|w argv Hw Hf]; [cbn; lia|]. rewrite args_text_cons, skip_word_ws by done. rewrite !length_app. destruct (word_ok_spec w Hw) as (c & w' & -> & _). cbn [length].
  assert (length argv <= length (args_text argv))%nat; [|lia]. clear Hf. induction argv as [|x argv IH]; [done|]. unfold args_text in *. cbn. rewrite length_app. lia.
Qed.

Lemma wp_args argv rs r s : redirs_ok rs -> follows F3 r -> Forall (fun w => word_ok w = true) argv -> Z.of_nat (length argv) < MAXARGS -> at_ buf s ->
  skip_ws s = skip_ws (args_text argv ++ redirs_text rs ++ r) ->
  wp (parseargs buf) (fun c s' => s' = r /\ cmap (slice buf) c = wrap (EXEC argv) rs) s.
Proof.
  intros Hrs Hr Hf Hn Hs E. destruct (F3_starts r Hr) as (Er & Hstop & Hnr). unfold parseargs. apply wp_bind.
  assert (length argv < length buf + 1)%nat as Hfuel.
  { pose proof (args_len argv (redirs_text rs ++ r) Hf) as H1. rewrite <- E in H1. pose proof (skip_len s). pose proof (at_len _ _ Hs). lia. }
  assert (forall rs0 s0, at_ buf s0 -> skip_ws s0 = skip_ws (args_rest argv rs r) -> map rslice rs0 = match argv with [] => rs | _ => [] end ->
    wp ('(argv', rs') ← loop (length buf + 1) (args_turn buf) ([], rs0); mret (wrap (EXEC argv') rs')) (fun c s' => s' = r /\ cmap (slice buf) c = wrap (EXEC argv) rs) s0) as Hloop.
  { intros rs0 s0 H0 E0 Em. apply wp_bind. eapply wp_mono; [by apply (args_loop rs r Hrs Hr argv)|]. cbn beta. intros [a x] s' (-> & E1 & E2). apply wp_ret. split; [done|].
    rewrite cmap_wrap. cbn [cmap]. cbn in E1, E2. by rewrite E1, E2. }
  destruct argv as [|w argv].
  - eapply (wp_redirs rs r); [done..|]. intros rs' Em. apply Hloop; [|by rewrite skip_ws_idem|done].
    rewrite Er. apply (at_app _ (skip_ws s) (skip_ws (redirs_text rs))); [by apply at_skip|]. rewrite E. by apply (skip_ws_app (redirs_text rs) r).
  - assert (word_ok w = true) as Hw by (by inversion Hf). eapply (wp_redirs [] (args_text (w :: argv) ++ redirs_text rs ++ r)); [constructor|by apply args_stop, redirs_stop|by apply args_no_redir|done|done|].
    intros rs' Em. apply Hloop; [|by rewrite skip_ws_idem|done]. rewrite <- E. by apply at_skip.
Qed.

(** *** Commands *)

(** [m], with fuel for what is left, reads the text [t] of the command [c] where one of [toks], or
    nothing, stands behind it. *)
Definition reads (m : nat -> M (list Z) (cmd (Z * Z))) (k : nat) (toks t : list Z) (c : cmd (list Z)) : Prop :=
  forall n s r, at_ buf s -> skip_ws s = skip_ws (t ++ r) -> follows toks r -> (4 * length s + k <= n)%nat -> wp (m n) (fun c' s' => s' = r /\ cmap (slice buf) c' = c) s.
Definition exec_reads c := reads (parseexec buf) 2 F3 (show 3 c) c.
Definition pipe_reads c := reads (parsepipe buf) 3 F2 (show 2 c) c.
Definition line_reads c := reads (parseline buf) 4 F0 (show 0 c) c.

Lemma at_rest s t r : at_ buf s -> skip_ws s = skip_ws (t ++ r) -> follows symbols r -> at_ buf r /\ (length r <= length s)%nat.
Proof.
  intros Hs E Hr. pose proof (follows_stable _ _ Hr ltac:(done)) as Er. rewrite (skip_ws_app t r Er) in E. split.
  - apply (at_app _ (skip_ws s) (skip_ws t)); [by apply at_skip|done].
  - pose proof (skip_len s) as H. rewrite E, length_app in H. lia.
Qed.

Lemma starts_not toks1 toks2 r : follows toks1 r -> toks1 ## toks2 -> starts toks2 r = false.
Proof. destruct r as [|c r]; [done|]. cbn. intros H Hd. apply is_in_false. set_solver. Qed.

(** The operator [c] in front: [peek] sees it and [gettoken] takes it. *)
Lemma wp_operator {A} c s r (m : M (list Z) A) z (P : A -> list Z -> Prop) : at_ buf s -> s = c :: r -> c ∈ [ch_bar; ch_open; ch_close; ch_semi; ch_amp; ch_lt] ->
  (at_ buf (skip_ws r) -> (length (skip_ws r) < length s)%nat -> wp m P (skip_ws r)) -> wp (b ← peek [c]; if (b : bool) then gettoken buf;; m else z) P s.
Proof.
  intros Hs -> Hc HP. assert (skip_ws (c :: r) = c :: r) as E. { cbn. rewrite is_in_ws; [done|]. unfold symbols. set_solver. }
  apply wp_bind, (wp_peek _ _ (c :: r)); [done|]. cbn [starts]. assert (is_in [c] c = true) as -> by (apply is_in_spec; set_solver).
  apply wp_bind. eapply wp_op; [done|exact E|done|]. intros q Ha Hl. by apply HP.
Qed.
Lemma wp_no_operator {A} c s (m : M (list Z) A) z toks (P : A -> list Z -> Prop) : follows toks s -> toks ⊆ symbols -> c ∉ toks -> wp z P s ->
  wp (b ← peek [c]; if (b : bool) then gettoken buf;; m else z) P s.
Proof.
  intros Hs Hsy Hc HP. apply wp_bind, (wp_peek _ _ s); [by apply (follows_stable toks)|]. rewrite (starts_not toks); [done|done|set_solver].
Qed.

Fixpoint backs {W} (k : nat) (c : cmd W) : cmd W := match k with O => c | S k' => BACK (backs k' c) end.
Lemma backs_succ_r {W} k (c : cmd W) : backs k (BACK c) = BACK (backs k c).
Proof. induction k as [|k IH]; [done|]. cbn. by rewrite IH. Qed.

Lemma wp_backs k : forall r c n s, follows F1 r -> at_ buf s -> s = replicate k ch_amp ++ r -> (k < n)%nat ->
  wp (loop n (backs_turn buf) c) (fun c' s' => s' = r /\ c' = backs k c) s.
Proof.
  induction k as [|k IH]; intros r c n s Hr Hs E Hn; (destruct n as [|n]; [lia|]); cbn [loop]; apply wp_bind; unfold backs_turn at 1.
  - cbn [replicate app] in E. subst s. apply (wp_no_operator _ _ _ _ F1); [done|unfold F1, symbols; set_solver|unfold F1; set_solver by lia|]. by apply wp_ret, wp_ret.
  - assert (skip_ws (replicate k ch_amp ++ r) = replicate k ch_amp ++ r) as Es.
    { destruct k; [apply (follows_stable F1); [done|unfold F1, symbols; set_solver]|done]. }
    eapply wp_operator; [done|exact E|set_solver|]. intros Ha Hl. apply wp_ret. eapply wp_mono; [apply (IH r); [done|exact Ha|exact Es|lia]|]. cbn beta. intros c' s' [-> ->].
    split; [done|]. by rewrite backs_succ_r.
Qed.

Lemma cmap_backs k c : cmap (slice buf) (backs k c) = backs k (cmap (slice buf) c).
Proof. induction k as [|k IH]; [done|]. cbn. by rewrite IH. Qed.

Lemma F2_F3 : F2 ⊆ F3.
Proof. unfold F2, F3. set_solver. Qed.
Lemma F1_F2 : F1 ⊆ F2.
Proof. unfold F1, F2. set_solver. Qed.

Lemma pipe_of_exec c : exec_reads c -> show 2 c = show 3 c -> pipe_reads c.
Proof.
  intros Hc Es n s r Hs E Hr Hn. rewrite Es in E. destruct n as [|n]; [lia|]. cbn [parsepipe]. apply wp_bind. eapply wp_mono; [apply (Hc n s r); [done..|apply (follows_mono F2 F3 r Hr F2_F3)|lia]|]. cbn beta.
  intros c' s' [-> Ec]. by apply (wp_no_operator _ _ _ _ F2); [|unfold F2, symbols; set_solver|unfold F2; set_solver by lia|apply wp_ret].
Qed.

Lemma pipe_of_pipe a b : exec_reads a -> pipe_reads b -> pipe_reads (PIPE a b).
Proof.
  intros Ha Hb n s r Hs E Hr Hn. destruct n as [|n]; [lia|]. cbn [show paren Nat.ltb Nat.leb] in E. rewrite <- !app_assoc in E. cbn [app] in E.
  cbn [parsepipe]. apply wp_bind. assert (follows F3 (ch_bar :: show 2 b ++ r)) as Hf by (cbn; unfold F3; set_solver). eapply wp_mono; [apply (Ha n s _ Hs E Hf); lia|]. cbn beta.
  intros c' s' [-> Ec]. destruct (at_rest _ _ _ Hs E (follows_mono _ _ _ Hf F3_symbols)) as [Hs1 Hl1].
  eapply wp_operator; [done|reflexivity|set_solver|]. intros Hs2 Hl2. apply wp_bind. eapply wp_mono; [apply (Hb n _ r Hs2); [apply skip_ws_idem|done|lia]|]. cbn beta. intros d s' [-> Ed].
  apply wp_ret. split; [done|]. cbn. by rewrite Ec, Ed.
Qed.

Lemma wp_backed k c n s r (K : cmd (Z * Z) -> M (list Z) (cmd (Z * Z))) P : pipe_reads c -> at_ buf s -> skip_ws s = skip_ws (show 2 c ++ replicate k ch_amp ++ r) -> follows F1 r ->
  (4 * length s + 3 <= n)%nat -> (forall c', at_ buf r -> (length r <= length s)%nat -> cmap (slice buf) c' = backs k c -> wp (K c') P r) ->
  wp (c ← parsepipe buf n; c ← parsebacks buf c; K c) P s.
Proof.
  intros Hc Hs E Hr Hn HP. assert (follows F2 (replicate k ch_amp ++ r)) as Hf by (destruct k; [by apply (follows_mono F1 F2 r Hr F1_F2)|cbn; unfold F2; set_solver]).
  apply wp_bind. eapply wp_mono; [by apply (Hc n s _ Hs E Hf)|]. cbn beta. intros c' s' [-> Ec].
  destruct (at_rest _ _ _ Hs E (follows_mono _ _ _ (follows_mono _ _ _ Hf F2_F3) F3_symbols)) as [Hs1 Hl1]. apply wp_bind.
  eapply wp_mono; [apply (wp_backs k r); [done|done|done|]|].
  - pose proof (at_len _ _ Hs1) as H. rewrite length_app, length_replicate in H. lia.
  - cbn beta. intros d s' [-> ->]. apply HP; [by apply (at_app _ _ (replicate k ch_amp) r Hs1)|rewrite length_app in Hl1; lia|]. by rewrite cmap_backs, Ec.
Qed.

Lemma line_of_backs k c : pipe_reads c -> show 0 (backs k c) = show 2 c ++ replicate k ch_amp -> line_reads (backs k c).
Proof.
  intros Hc Es n s r Hs E Hr Hn. destruct n as [|n]; [lia|]. rewrite Es, <- app_assoc in E. cbn [parseline].
  apply (wp_backed k c n s r _ _ Hc Hs E); [apply (follows_mono F0 F1); [done|unfold F0, F1; set_solver]|lia|]. intros c' Ha Hl Ec.
  by apply (wp_no_operator _ _ _ _ F0); [|unfold F0, symbols; set_solver|unfold F0; set_solver by lia|apply wp_ret].
Qed.

Lemma line_of_list k c b : pipe_reads c -> show 1 (backs k c) = show 2 c ++ replicate k ch_amp -> line_reads b -> line_reads (LIST (backs k c) b).
Proof.
  intros Hc Es Hb n s r Hs E Hr Hn. destruct n as [|n]; [lia|]. cbn [show paren Nat.ltb Nat.leb] in E. rewrite Es, <- !app_assoc in E. cbn [parseline].
  apply (wp_backed k c n s _ _ _ Hc Hs E); [cbn; unfold F1; set_solver|lia|]. intros c' Ha Hl Ec. eapply wp_operator; [done|reflexivity|set_solver|]. intros Hs2 Hl2.
  apply wp_bind. eapply wp_mono; [apply (Hb n _ r Hs2); [apply skip_ws_idem|done|lia]|]. cbn beta. intros d s' [-> Ed]. apply wp_ret. split; [done|]. cbn. by rewrite Ec, Ed.
Qed.

Lemma exec_of_block c rs : line_reads c -> redirs_ok rs -> reads (parseexec buf) 2 F3 (([ch_open] ++ show 0 c ++ [ch_close]) ++ redirs_text rs) (wrap c rs).
Proof.
  intros Hc Hrs n s r Hs E Hr Hn. rewrite <- !app_assoc in E. cbn [app] in E. set (t := show 0 c ++ ch_close :: redirs_text rs ++ r) in E.
  assert (skip_ws (ch_open :: t) = ch_open :: t) as Et by done. rewrite Et in E. destruct n as [|[|n]]; [lia..|]. cbn [parseexec]. apply wp_bind, (wp_peek _ _ _ _ E). cbn [starts].
  change (is_in [ch_open] ch_open) with true. cbn [parseblock]. apply wp_bind, (wp_peek _ _ _ _ Et). cbn [starts]. change (is_in [ch_open] ch_open) with true. cbn [negb]. apply wp_bind.
  assert (at_ buf (ch_open :: t)) as Hs1 by (rewrite <- E; by apply at_skip). assert (length (ch_open :: t) <= length s)%nat as Hl1 by (rewrite <- E; apply skip_len).
  eapply wp_op; [done|exact Et|set_solver|]. intros q Hs2 Hl2. apply wp_bind.
  assert (follows F0 (ch_close :: redirs_text rs ++ r)) as Hf by (cbn; unfold F0; set_solver). assert (skip_ws (skip_ws t) = skip_ws (show 0 c ++ ch_close :: redirs_text rs ++ r)) as E2 by apply skip_ws_idem.
  eapply wp_mono; [apply (Hc n _ _ Hs2 E2 Hf); lia|]. cbn beta. intros c' s' [-> Ec]. apply wp_bind, (wp_peek _ _ (ch_close :: redirs_text rs ++ r)); [done|]. cbn [starts].
  change (is_in [ch_close] ch_close) with true. cbn [negb]. apply wp_bind. eapply wp_op; [|reflexivity|set_solver|].
  { apply (at_app _ t (show 0 c)); [|done]. by apply (at_app _ _ [ch_open] _ Hs1). }
  intros q' Hs3 _. apply wp_bind. destruct (F3_starts r Hr) as (Er & Hstop & Hnr). eapply (wp_redirs rs r); [done..|by rewrite skip_ws_idem|]. intros rs' Em. apply wp_ret. split; [done|].
  by rewrite cmap_wrap, Ec, Em.
Qed.

Lemma args_no_open argv rs r : Forall (fun w => word_ok w = true) argv -> follows F3 r -> starts [ch_open] (skip_ws (args_text argv ++ redirs_text rs ++ r)) = false.
Proof.
  intros Hf Hr. destruct Hf as [|w argv Hw Hf].
  - cbn [args_text map concat app]. destruct rs as [|[[w m] f] rs]; [cbn [redirs_text map concat app]; rewrite (proj1 (F3_starts r Hr)); apply (starts_not F3); [done|unfold F3; set_solver by lia]|].
    cbn. unfold redir_op. destruct (m =? RD_IN); [done|]. by destruct (m =? RD_OUT).
  - rewrite args_text_cons, skip_word_ws by done. destruct (word_ok_spec w Hw) as (c & w' & -> & Hf' & _). assert (word_char c = true) as Hc by (by inversion Hf').
    destruct (is_in_sym c Hc) as [_ Hs]. apply is_in_false in Hs. cbn [app starts]. apply is_in_false. unfold symbols in Hs. set_solver.
Qed.

Lemma exec_of_args argv rs : Forall (fun w => word_ok w = true) argv -> Z.of_nat (length argv) < MAXARGS -> redirs_ok rs -> reads (parseexec buf) 2 F3 (args_text argv ++ redirs_text rs) (wrap (EXEC argv) rs).
Proof.
  intros Hf Ha Hrs n s r Hs E Hr Hn. rewrite <- app_assoc in E. destruct n as [|n]; [lia|]. cbn [parseexec]. apply wp_bind, (wp_peek _ _ _ _ E). rewrite args_no_open by done.
  apply wp_args; try done; [rewrite <- E; by apply at_skip|by rewrite skip_ws_idem].
Qed.

Fixpoint nodes {W} (c : cmd W) : nat :=
  match c with
  | EXEC _ => 1
  | REDIR c _ _ _ => S (nodes c)
  | PIPE a b | LIST a b => S (nodes a + nodes b)
  | BACK c => S (nodes c)
  end.

(** A command without the redirections around it, and without the [&]s behind it. *)
Lemma unwrap c : showable c = true -> exists c0 rs, c = wrap c0 rs /\ showable c0 = true /\ redirs_ok rs /\ show 3 c = show 3 c0 ++ redirs_text rs /\ (length rs + nodes c0 = nodes c)%nat /\
  (forall d w m f, c0 <> REDIR d w m f).
Proof.
  induction c as [argv|c IH w m f|a _ b _|a _ b _|c _]; intros Hc.
  1, 3, 4, 5: (eexists _, []; split; [reflexivity|]; split; [done|]; split; [constructor|]; split; [by rewrite app_nil_r|]; done).
  cbn in Hc. apply andb_true_iff in Hc as [[Hc Hw]%andb_true_iff Hm]. destruct IH as (c0 & rs & E & H1 & H2 & H3 & H4 & H5); [done|]. exists c0, (rs ++ [(w, m, f)]). split_and!; [|done| | | |done].
  - unfold wrap in *. rewrite foldl_app. cbn. by rewrite E.
  - apply Forall_app. split; [done|]. by apply Forall_singleton.
  - cbn [show]. rewrite H3. unfold redirs_text. rewrite map_app, concat_app. cbn. by rewrite app_nil_r, <- app_assoc.
  - rewrite length_app. cbn. lia.
Qed.

Lemma unback c : exists k c0, c = backs k c0 /\ (showable c = true -> showable c0 = true) /\ (k + nodes c0 = nodes c)%nat /\ show 1 c = show 2 c0 ++ replicate k ch_amp /\ (k <> 0%nat -> show 0 c = show 1 c).
Proof.
  induction c as [argv|c IH w m f|a _ b _|a _ b _|c IH].
  1, 2, 3, 4: (eexists 0%nat, _; split; [reflexivity|]; split; [done|]; split; [done|]; split; [by rewrite app_nil_r|done]).
  destruct IH as (k & c0 & E & H1 & H2 & H3 & _). exists (S k), c0. split_and!; [cbn; by rewrite E|done|cbn; lia| |done].
  cbn [show paren Nat.ltb Nat.leb]. rewrite H3, <- app_assoc. f_equal. symmetry. apply (replicate_S_end k ch_amp).
Qed.

Lemma commands_read N : forall c, (nodes c < N)%nat -> showable c = true -> exec_reads c /\ pipe_reads c /\ line_reads c.
Proof.
  induction N as [|N IH]; intros c HN Hc; [lia|].
  assert (forall b, pipe_reads b -> show 0 b = show 2 b -> line_reads b) as line_pipe by (intros b Hb Eb; apply (line_of_backs 0); [done|by rewrite app_nil_r]).
  assert (forall b, line_reads b -> show 3 b = [ch_open] ++ show 0 b ++ [ch_close] -> exec_reads b) as exec_line.
  { intros b Hb Eb. unfold exec_reads. rewrite Eb. rewrite <- (app_nil_r (_ ++ _)). apply (exec_of_block b []); [done|constructor]. }
  destruct c as [argv|c w m f|a b|a b|c].
  - assert (exec_reads (EXEC argv)) as He.
    { cbn in Hc. to_prop. unfold exec_reads. cbn [show]. rewrite <- (app_nil_r (concat _)). apply (exec_of_args argv []); [|done|constructor].
      apply Forall_forall. intros w Hw%list_elem_of_In. by apply (proj1 (forallb_forall _ _) H). }
    assert (pipe_reads (EXEC argv)) as Hp by (by apply pipe_of_exec). split; [done|]. split; [done|]. by apply line_pipe.
  - destruct (unwrap _ Hc) as (c0 & rs & E & H1 & H2 & H3 & H4 & H5). assert (exec_reads (REDIR c w m f)) as He.
    { unfold exec_reads. rewrite H3, E. destruct rs as [|x rs]; [by destruct (H5 c w m f)|]. cbn [length] in H4. destruct (IH c0) as (_ & _ & Hl); [lia|done|].
      destruct c0 as [argv|d w' m' f'| | |]; [|by destruct (H5 d w' m' f')|apply (exec_of_block _ _ Hl H2)..]. cbn in H1. to_prop. apply exec_of_args; [|done|done].
      apply Forall_forall. intros v Hv%list_elem_of_In. by apply (proj1 (forallb_forall _ _) H). }
    assert (pipe_reads (REDIR c w m f)) as Hp by (by apply pipe_of_exec). split; [done|]. split; [done|]. by apply line_pipe.
  - cbn in Hc, HN. apply andb_true_iff in Hc as [Hca Hcb]. destruct (IH a) as (Ha & _ & _); [lia|done|]. destruct (IH b) as (_ & Hb & _); [lia|done|]. assert (pipe_reads (PIPE a b)) as Hp by (by apply pipe_of_pipe).
    assert (line_reads (PIPE a b)) as Hl by (by apply line_pipe). split; [by apply exec_line|done].
  - cbn in Hc, HN. apply andb_true_iff in Hc as [Hca Hcb]. destruct (unback a) as (k & c0 & -> & H1 & H2 & H3 & _). destruct (IH c0) as (_ & Ha & _); [lia|by apply H1|]. destruct (IH b) as (_ & _ & Hb); [lia|done|].
    assert (line_reads (LIST (backs k c0) b)) as Hl by (by apply line_of_list). assert (exec_reads (LIST (backs k c0) b)) as He by (by apply exec_line). split; [done|]. split; [by apply pipe_of_exec|done].
  - cbn in Hc, HN. destruct (unback c) as (k & c0 & -> & H1 & H2 & H3 & _). destruct (IH c0) as (_ & Ha & _); [lia|by apply H1|].
    assert (line_reads (BACK (backs k c0))) as Hl.
    { apply (line_of_backs (S k)); [done|]. cbn [show backs paren Nat.ltb Nat.leb]. rewrite H3, <- app_assoc. f_equal. symmetry. apply (replicate_S_end k ch_amp). }
    assert (exec_reads (BACK (backs k c0))) as He by (by apply exec_line). split; [done|]. split; [by apply pipe_of_exec|done].
Qed.
End roundtrip.

Lemma wp_ends {S A} (m : M S A) (P Q : A -> S -> Prop) s : wp m P s -> ends m Q s -> wp m (fun a s' => P a s' /\ Q a s') s.
Proof. unfold wp, ends. by destruct (m s). Qed.

Lemma cmap_ext {V W} (f g : V -> W) c : (forall w, w ∈ cmd_strings c -> f w = g w) -> cmap f c = cmap g c.
Proof.
  induction c as [argv|c IH w m fd|a IHa b IHb|a IHa b IHb|c IH]; cbn [cmap cmd_strings]; intros H.
  - f_equal. apply list_fmap_ext. intros i w Hw. apply H. by apply list_elem_of_lookup_2 in Hw.
  - rewrite IH, (H w); [done|set_solver..].
  - rewrite IHa, IHb; [done|set_solver..].
  - rewrite IHa, IHb; [done|set_solver..].
  - by rewrite IH.
Qed.

Lemma show_no_nul c : showable c = true -> forall lvl, 0 ∉ show lvl c.
Proof.
  assert (forall b t, 0 ∉ t -> 0 ∉ paren b t) as Hp by (intros [] t Ht; cbn [paren]; rewrite ?elem_of_app; set_solver by lia).
  induction c as [argv|c IH w m fd|a IHa b IHb|a IHa b IHb|c IH]; cbn [show showable]; intros Hc lvl.
  - apply andb_true_iff in Hc as [Hc _]. induction argv as [|w argv IH]; cbn; [set_solver|]. cbn in Hc. apply andb_true_iff in Hc as [Hw Hc]. destruct (word_ok_spec w Hw) as (_ & _ & _ & _ & Hn).
    specialize (IH Hc). rewrite elem_of_cons, elem_of_app. naive_solver.
  - apply andb_true_iff in Hc as [[Hc Hw]%andb_true_iff _]. destruct (word_ok_spec w Hw) as (_ & _ & _ & _ & Hn). specialize (IH Hc 3%nat). rewrite !elem_of_app, elem_of_cons.
    assert (0 ∉ redir_op m) by (unfold redir_op; destruct (m =? RD_IN); [set_solver by lia|]; destruct (m =? RD_OUT); set_solver by lia). naive_solver.
  - apply andb_true_iff in Hc as [Ha Hb]. apply Hp. specialize (IHa Ha 3%nat). specialize (IHb Hb 2%nat). rewrite !elem_of_app, list_elem_of_singleton. naive_solver.
  - apply andb_true_iff in Hc as [Ha Hb]. apply Hp. specialize (IHa Ha 1%nat). specialize (IHb Hb 0%nat). rewrite !elem_of_app, list_elem_of_singleton. naive_solver.
  - apply Hp. specialize (IH Hc 1%nat). rewrite elem_of_app, list_elem_of_singleton. naive_solver.
Qed.

(** ** Properties *)

(** C19: the parser of the shell returns or exits with a message on every command line: no line
    makes it loop, read past the line's end or fill more of [argv] than there is.  The strings of
    the command it returns are words of the line, and after the ends are marked each pointer holds
    exactly its word as a C string: no mark cuts another word. *)
Theorem parsecmd_ends_on_every_line (line : list Z) : 0 ∉ line ->
  match parsecmd line line with
  | Ret (c, marked) _ => argc_ok c /\ forall w, w ∈ cmd_strings c -> tok_ok line w /\ text_at marked w.1 = slice line w
  | Panic _ _ => True
  | _ => False
  end.
Proof.
  intros Hn. pose proof (parsecmd_ends line Hn) as H. unfold ends in H. destruct (parsecmd line line) as [[c l] s| | | |]; try done. destruct H as [(H1 & H2 & _) H3].
  split; [done|]. intros w Hw. split; [by apply (proj1 (Forall_forall _ _) H1)|by apply H3].
Qed.
(** "ls -l > f ; (cat f | wc) &" *)
Lemma parsecmd_ends_on_every_line_witness :
  let line := [108; 115; 32; 45; 108; 32; 62; 32; 102; 32; 59; 32; 40; 99; 97; 116; 32; 102; 32; 124; 32; 119; 99; 41; 32; 38] in
  match parsecmd line line with
  | Ret (c, marked) _ => argc_ok c /\ forall w, w ∈ cmd_strings c -> tok_ok line w /\ text_at marked w.1 = slice line w
  | Panic _ _ => True
  | _ => False
  end.
Proof. intros line. apply (parsecmd_ends_on_every_line line). unfold line. set_solver by lia. Defined.

(** C17: a command written as a line, with parentheses where the grammar wants them, is parsed to
    that command: the operators bind as the shell means them ([|] before [&] before [;]), the
    redirections and their modes are those written, and the strings read from the marked line are
    the command's words.  With [parsecmd]'s own fuel: the parser returns. *)
Theorem parsecmd_show (c : cmd (list Z)) : showable c = true ->
  exists c' marked rest, parsecmd (show 0 c) (show 0 c) = Ret (c', marked) rest /\ cmap (fun w => text_at marked w.1) c' = c.
Proof.
  intros Hc. set (line := show 0 c). destruct (commands_read line (S (nodes c)) c) as (_ & _ & Hl); [lia|done|].
  assert (wp (parsecmd line) (fun r _ => cmap (slice line) r.1 = c) line) as H.
  { unfold parsecmd. apply wp_bind. eapply wp_mono; [apply (Hl _ line []); [by exists []|by rewrite app_nil_r|done|lia]|]. cbn beta. intros c' s' [-> Ec].
    apply wp_bind, (wp_peek _ _ []); [done|]. apply wp_bind, wp_gets, wp_ret. done. }
  pose proof (wp_ends _ _ _ _ H (parsecmd_ends line (show_no_nul c Hc 0))) as H2. apply wp_exists in H2 as ([c' l] & s & E & Ec & _ & Ht). exists c', l, s. split; [done|].
  rewrite <- Ec. by apply cmap_ext.
Qed.
(** "(a < f & ; b) >> g | c": a list in a pipeline. *)
Lemma parsecmd_show_witness :
  let c := PIPE (REDIR (LIST (BACK (REDIR (EXEC [[97]]) [102] RD_IN 0)) (EXEC [[98]])) [103] RD_APP 1) (EXEC [[99]; [100; 101]]) in
  exists c' marked rest, parsecmd (show 0 c) (show 0 c) = Ret (c', marked) rest /\ cmap (fun w => text_at marked w.1) c' = c.
Proof. intros c. apply (parsecmd_show c). reflexivity. Defined.
