(* ===== verification/ShellRun.v ===== *)
(** * Running commands

    [runcmd], [getcmd] and [main] of [user/sh.c], with [gets] of [user/ulib.c].  A routine is the
    tree of the system calls it makes ([prog]); every call passes its result on.  [fprintf] to
    descriptor 2 is one [PPrint].  The calls run in a pool of processes, interleaved in any order,
    and any [open], [pipe], [fork] or [exec] may fail ([dup] fails when no descriptor is free);
    [fork], [wait], [close] and the rest act on the caller's descriptor table and children as the
    kernel's do ([Proc.v], [SysFile.v]).  A program that has been started ends only when its input
    has ended and its output is taken, as the pipes it has open say. *)

From Stdlib Require Import ZArith Lia Ascii String.
From stdpp Require Import base numbers list relations sets strings.
From S2P Require Import Prelude Shell ShellSpec.
Open Scope Z_scope.

Notation word := (list Z).

(** ** The code *)

Inductive prog :=
| PExit (status : Z)
| PNofuel
| PClose (fd : Z) (k : Z -> prog)
| POpen (path : word) (mode : Z) (k : Z -> prog)
| PDup (fd : Z) (k : Z -> prog)
| PPipe (k : Z -> Z -> Z -> prog)
| PFork (k : Z -> prog)
| PWait (k : Z -> prog)
| PExec (path : word) (argv : list word) (k : Z -> prog)
| PRead (k : Z -> Z -> prog)
| PPrint (fd : Z) (text : word) (k : prog)
| PChdir (path : word) (k : Z -> prog).

Definition str (s : string) : word := List.map (fun a => Z.of_nat (nat_of_ascii a)) (list_ascii_of_string s).

Definition panic_ (s : string) : prog := PPrint 2 (str s ++ [10]) (PExit 1).
Definition fork1 (k : Z -> prog) : prog := PFork (fun pid => if pid =? -1 then panic_ "fork" else k pid).

Fixpoint runcmd (c : cmd word) : prog :=
  match c with
  | EXEC argv =>
      match argv with
      | [] => PExit 1
      | path :: _ => PExec path argv (fun _ => PPrint 2 (str "exec " ++ path ++ str " failed" ++ [10]) (PExit 0))
      end
  | REDIR c file mode fd =>
      PClose fd (fun _ =>
      POpen file mode (fun r =>
      if r <? 0 then PPrint 2 (str "open " ++ file ++ str " failed" ++ [10]) (PExit 1) else
      runcmd c))
  | LIST l r =>
      fork1 (fun pid =>
      if pid =? 0 then runcmd l else
      PWait (fun _ => runcmd r))
  | PIPE l r =>
      PPipe (fun ret p0 p1 =>
      if ret <? 0 then panic_ "pipe" else
      fork1 (fun pid =>
      if pid =? 0 then
        PClose 1 (fun _ => PDup p1 (fun _ => PClose p0 (fun _ => PClose p1 (fun _ => runcmd l))))
      else
      fork1 (fun pid =>
      if pid =? 0 then
        PClose 0 (fun _ => PDup p0 (fun _ => PClose p0 (fun _ => PClose p1 (fun _ => runcmd r))))
      else
      PClose p0 (fun _ => PClose p1 (fun _ => PWait (fun _ => PWait (fun _ => PExit 0)))))))
  | BACK c =>
      fork1 (fun pid =>
      if pid =? 0 then runcmd c else
      PExit 0)
  end.

(** [gets] with room for [n] more characters; [acc] is what the buffer holds. *)
Fixpoint gets_from (n : nat) (acc : word) (k : word -> prog) : prog :=
  match n with
  | O => k acc
  | S n' =>
      PRead (fun cc c =>
      if cc <? 1 then k acc else
      if (c =? 10) || (c =? 13) then k (acc ++ [c]) else
      gets_from n' (acc ++ [c]) k)
  end.
Definition gets (max : nat) (k : word -> prog) : prog := gets_from (max - 1) [] k.

(** The C string in the buffer, which [memset] has cleared; [None] for -1. *)
Definition getcmd (nbuf : nat) (k : option word -> prog) : prog :=
  PPrint 2 (str "$ ")
  (gets nbuf (fun buf => if bool_decide (until_nul buf = []) then k None else k (Some (until_nul buf)))).

Definition O_RDWR : Z := 2.
Fixpoint open_console (fuel : nat) (k : prog) : prog :=
  match fuel with
  | O => PNofuel
  | S n =>
      POpen (str "console") O_RDWR (fun fd =>
      if fd <? 0 then k else
      if 3 <=? fd then PClose fd (fun _ => k) else
      open_console n k)
  end.

(** [runcmd(parsecmd(buf))]: the strings of the command are read from the marked line.  (The line
    that shows what was left over before a syntax error is not printed here.) *)
Definition run_line (line : word) : prog :=
  match parsecmd line line with
  | Ret (c, marked) _ => runcmd (cmap (fun w => text_at marked w.1) c)
  | Panic e _ => panic_ e
  | _ => PNofuel
  end.

Definition is_cd (line : word) : bool := bool_decide (take 3 line = str "cd ").
(** [buf + 3] after its last character is chopped. *)
Definition cd_path (line : word) : word := drop 3 (take (length line - 1) line).

Fixpoint prompts (fuel : nat) : prog :=
  match fuel with
  | O => PNofuel
  | S n =>
      getcmd 100 (fun l =>
      match l with
      | None => PExit 0
      | Some line =>
          if is_cd line then
            PChdir (cd_path line) (fun r =>
            if r <? 0 then PPrint 2 (str "cannot cd " ++ cd_path line ++ [10]) (prompts n) else prompts n)
          else
            fork1 (fun pid =>
            if pid =? 0 then run_line line else
            PWait (fun _ => prompts n))
      end)
  end.
Definition main (fuel : nat) : prog := open_console 16 (prompts fuel).

(** ** Processes *)

(** A process is named by its parent's name and a pair: how many pipes the parent had made, and
    how many children since then.  A pipe is named by its creator and its number there; so the
    first child forked after it, and all its descendants, have names [q ++ (S n, 0) :: _], and
    those of the second child [q ++ (S n, 1) :: _]. *)
Notation comp := (nat * nat)%type.
Notation name := (list (nat * nat)).
Inductive obj :=
| OCons (n : Z)
| OFile (path : word) (mode : Z)
| ORead (q : name) (n : nat)
| OWrite (q : name) (n : nat).
#[export] Instance obj_eq : EqDecision obj.
Proof. solve_decision. Defined.
Notation fdtable := (list (option obj)).

(** A call that needs a descriptor takes the lowest free one. *)
Fixpoint lowest (f : fdtable) : option nat :=
  match f with
  | [] => None
  | None :: _ => Some O
  | Some _ :: f' => S <$> lowest f'
  end.
Definition fd_get (f : fdtable) (fd : Z) : option obj := if fd <? 0 then None else mjoin (f !! Z.to_nat fd).
Definition do_close (f : fdtable) (fd : Z) : Z * fdtable :=
  match fd_get f fd with None => (-1, f) | Some _ => (0, <[Z.to_nat fd := None]> f) end.
Definition do_open (f : fdtable) (o : obj) : Z * fdtable :=
  match lowest f with None => (-1, f) | Some n => (Z.of_nat n, <[n := Some o]> f) end.
Definition do_dup (f : fdtable) (fd : Z) : Z * fdtable :=
  match fd_get f fd with None => (-1, f) | Some o => do_open f o end.
Definition do_pipe (f : fdtable) (q : name) (n : nat) : option (Z * Z * fdtable) :=
  a ← lowest f;
  let f1 := <[a := Some (ORead q n)]> f in
  b ← lowest f1;
  Some (Z.of_nat a, Z.of_nat b, <[b := Some (OWrite q n)]> f1).

(** What a process has besides its code: the pipes it made and the children since the last one,
    the children it has not waited for, its descriptors, and the console input in front of it. *)
Record ctx := Ctx {
  x_name : name;
  x_forks : nat;
  x_pipes : nat;
  x_kids : list comp;
  x_fds : fdtable;
  x_in : word;
}.
Definition with_fds (x : ctx) (f : fdtable) : ctx := Ctx (x_name x) (x_forks x) (x_pipes x) (x_kids x) f (x_in x).
Definition with_in (x : ctx) (i : word) : ctx := Ctx (x_name x) (x_forks x) (x_pipes x) (x_kids x) (x_fds x) i.
Definition piped (x : ctx) (f : fdtable) : ctx := Ctx (x_name x) 0 (S (x_pipes x)) (x_kids x) f (x_in x).
Definition next (x : ctx) : comp := (x_pipes x, x_forks x).
Definition child_name (x : ctx) (j : comp) : name := x_name x ++ [j].
Definition child (x : ctx) : ctx := Ctx (child_name x (next x)) 0 0 [] (x_fds x) (x_in x).
Definition forked (x : ctx) : ctx := Ctx (x_name x) (S (x_forks x)) (x_pipes x) (next x :: x_kids x) (x_fds x) (x_in x).
Definition reaped (x : ctx) (j : comp) : ctx := Ctx (x_name x) (x_forks x) (x_pipes x) (filter (fun i => i <> j) (x_kids x)) (x_fds x) (x_in x).

Inductive stage := Code (p : prog) | Program (argv : list word) | Zombie.
Notation process := (ctx * stage)%type.
Definition live (st : stage) : bool := match st with Zombie => false | _ => true end.

(** What is recorded of a run: a program is started (by whom, its arguments, its descriptors, the
    children not waited for); a process has waited for a child (with which descriptors open
    meanwhile); a process exits (leaving which children not waited for). *)
Inductive event :=
| EExec (q : name) (argv : list word) (f : fdtable) (kids : list comp)
| EWait (q : name) (f : fdtable)
| EExit (q : name) (kids : list comp).
Definition exec_of (x : ctx) (argv : list word) : event := EExec (x_name x) argv (x_fds x) (x_kids x).
Definition wait_of (x : ctx) : event := EWait (x_name x) (x_fds x).
Definition exit_of (x : ctx) : event := EExit (x_name x) (x_kids x).
Definition is_exec (e : event) : bool := match e with EExec _ _ _ _ => true | _ => false end.
(** The programs started. *)
Definition programs (L : list event) : list event := filter (fun e => is_exec e = true) L.

(** ** Pipes

    The programs are taken at their most demanding: one that reads a pipe ends only when its input
    does, and one that writes a pipe only if somebody takes what it writes. *)

(** A process that has not exited has the object open. *)
Definition holds (o : obj) (P : process) : Prop := live P.2 = true /\ Some o ∈ x_fds P.1.
#[export] Instance holds_dec o P : Decision (holds o P).
Proof. unfold holds. apply _. Defined.

(** The input of [x] has an end: it is no pipe, or nobody has the writing end of the pipe. *)
Definition input_ends (l : list process) (x : ctx) : Prop :=
  forall q n P, x_fds x !! 0%nat = Some (Some (ORead q n)) -> P ∈ l -> ~ holds (OWrite q n) P.

(** The output of [x] is taken: each pipe it can write has no reader left, or is the input of a
    running program whose own output is taken. *)
Inductive drains (l : list process) (x : ctx) : Prop :=
| drains_intro : (forall q n, Some (OWrite q n) ∈ x_fds x -> (forall P, P ∈ l -> ~ holds (ORead q n) P) \/
    exists y argv, (y, Program argv) ∈ l /\ x_fds y !! 0%nat = Some (Some (ORead q n)) /\ drains l y) -> drains l x.

Section pool.
Context (pid_of : name -> Z).

(** A call of one process: what becomes of it, what is recorded, whether the call failed. *)
Inductive acts : process -> list process -> list event -> bool -> Prop :=
| a_exit x n : acts (x, Code (PExit n)) [(x, Zombie)] [exit_of x] false
| a_close x fd k r f : do_close (x_fds x) fd = (r, f) -> acts (x, Code (PClose fd k)) [(with_fds x f, Code (k r))] [] false
| a_open x path mode k r f : do_open (x_fds x) (OFile path mode) = (r, f) -> acts (x, Code (POpen path mode k)) [(with_fds x f, Code (k r))] [] false
| a_open_fails x path mode k : acts (x, Code (POpen path mode k)) [(x, Code (k (-1)))] [] true
| a_dup x fd k r f : do_dup (x_fds x) fd = (r, f) -> acts (x, Code (PDup fd k)) [(with_fds x f, Code (k r))] [] false
| a_pipe x k a b f : do_pipe (x_fds x) (x_name x) (x_pipes x) = Some (a, b, f) -> acts (x, Code (PPipe k)) [(piped x f, Code (k 0 a b))] [] false
| a_pipe_fails x k a b : acts (x, Code (PPipe k)) [(x, Code (k (-1) a b))] [] true
| a_fork x k : acts (x, Code (PFork k)) [(forked x, Code (k (pid_of (child_name x (next x))))); (child x, Code (k 0))] [] false
| a_fork_fails x k : acts (x, Code (PFork k)) [(x, Code (k (-1)))] [] true
| a_wait_none x k : x_kids x = [] -> acts (x, Code (PWait k)) [(x, Code (k (-1)))] [] false
| a_exec x path argv k : acts (x, Code (PExec path argv k)) [(x, Program argv)] [exec_of x argv] false
| a_exec_fails x path argv k : acts (x, Code (PExec path argv k)) [(x, Code (k (-1)))] [] true
| a_read x k c i : x_in x = c :: i -> acts (x, Code (PRead k)) [(with_in x i, Code (k 1 c))] [] false
| a_read_end x k : x_in x = [] -> acts (x, Code (PRead k)) [(x, Code (k 0 0))] [] false
| a_print x fd t k : acts (x, Code (PPrint fd t k)) [(x, Code k)] [] false
| a_chdir x path k r : acts (x, Code (PChdir path k)) [(x, Code (k r))] [] false.

(** The pool: the record so far, whether a call has failed, the processes.  [wait] returns when
    one of the caller's children has exited, which stays as a dead entry; a program ends when its
    input has ended and its output is taken. *)
Record pool := Pool { l_log : list event; l_failed : bool; l_procs : list process }.
Inductive step : pool -> pool -> Prop :=
| s_act es b l1 P l2 Ps ev b' : acts P Ps ev b' -> step (Pool es b (l1 ++ P :: l2)) (Pool (es ++ ev) (b || b') (l1 ++ Ps ++ l2))
| s_wait es b l1 x k l2 j y : j ∈ x_kids x -> (y, Zombie) ∈ l1 ++ l2 -> x_name y = child_name x j ->
    step (Pool es b (l1 ++ (x, Code (PWait k)) :: l2)) (Pool (es ++ [wait_of x]) b (l1 ++ (reaped x j, Code (k (pid_of (child_name x j)))) :: l2))
| s_ends es b l1 x argv l2 : let l := l1 ++ (x, Program argv) :: l2 in input_ends l x -> drains l x ->
    step (Pool es b l) (Pool (es ++ [exit_of x]) b (l1 ++ (x, Zombie) :: l2)).

Definition start (x : ctx) (p : prog) : pool := Pool [] false [(x, Code p)].

(** ** What a routine does *)

(** A process in the second branch of a pipe. *)
Definition right_side (c : comp) : bool := match c with (S _, 1%nat) => true | _ => false end.
(** The ends of pipes a process named [q] may have as its input and as its output: the reading end
    of the innermost pipe whose second branch it is in, the writing end of a pipe whose first
    branch it is in. *)
Definition in_ok (q : name) (o : obj) : Prop :=
  match o with
  | ORead r n => exists t, q = r ++ (S n, 1%nat) :: t /\ Forall (fun c => right_side c = false) t
  | OWrite _ _ => False
  | _ => True
  end.
Definition out_ok (q : name) (o : obj) : Prop :=
  match o with
  | OWrite r n => exists t, q = r ++ (S n, 0%nat) :: t
  | ORead _ _ => False
  | _ => True
  end.
(** No pipe is open anywhere else. *)
Definition placed (q : name) (f : fdtable) : Prop :=
  forall k o, f !! k = Some (Some o) ->
    match o with ORead _ _ => k = 0%nat /\ in_ok q o | OWrite _ _ => k = 1%nat /\ out_ok q o | _ => True end.

(** [does x p L]: [p] run by [x] leaves the record [L], itself and through its children, and no
    other programs when a call fails; whenever it waits or starts a program its pipes are in
    their places. *)
Fixpoint does (x : ctx) (p : prog) (L : list event) : Prop :=
  match p with
  | PExit _ => L = [exit_of x]
  | PNofuel => False
  | PClose fd k => let '(r, f) := do_close (x_fds x) fd in does (with_fds x f) (k r) L
  | POpen path mode k => (exists L', programs L' ⊆+ programs L /\ does x (k (-1)) L') /\ let '(r, f) := do_open (x_fds x) (OFile path mode) in does (with_fds x f) (k r) L
  | PDup fd k => let '(r, f) := do_dup (x_fds x) fd in does (with_fds x f) (k r) L
  | PPipe k => (forall a b, exists L', programs L' ⊆+ programs L /\ does x (k (-1) a b) L') /\
      (forall a b f, do_pipe (x_fds x) (x_name x) (x_pipes x) = Some (a, b, f) -> does (piped x f) (k 0 a b) L)
  | PFork k => (exists L', programs L' ⊆+ programs L /\ does x (k (-1)) L') /\
      exists L1 L2, L = L1 ++ L2 /\ does (child x) (k 0) L1 /\ does (forked x) (k (pid_of (child_name x (next x)))) L2
  | PWait k => placed (x_name x) (x_fds x) /\ (x_kids x = [] -> does x (k (-1)) L) /\
      forall j, j ∈ x_kids x -> exists L', L = wait_of x :: L' /\ does (reaped x j) (k (pid_of (child_name x j))) L'
  | PExec _ argv k => L = [exec_of x argv; exit_of x] /\ placed (x_name x) (x_fds x) /\ exists L', programs L' ⊆+ programs L /\ does x (k (-1)) L'
  | PRead k => match x_in x with [] => does x (k 0 0) L | c :: i => does (with_in x i) (k 1 c) L end
  | PPrint _ _ k => does x k L
  | PChdir _ k => forall r, does x (k r) L
  end.
Definition does_stage (P : process) (L : list event) : Prop :=
  match P.2 with
  | Code p => does P.1 p L
  | Program _ => L = [exit_of P.1] /\ placed (x_name P.1) (x_fds P.1)
  | Zombie => L = []
  end.

(** What is recorded and what is still to come make up [E]. *)
Definition accounts (E : list event) (s : pool) : Prop :=
  exists Ls, Forall2 does_stage (l_procs s) Ls /\ programs (l_log s ++ concat Ls) ⊆+ programs E /\ (l_failed s = false -> l_log s ++ concat Ls ≡ₚ E).

#[local] Instance programs_perm : Proper ((≡ₚ) ==> (≡ₚ)) programs.
Proof. intros L L' HL. unfold programs. by rewrite HL. Qed.
Lemma programs_app L L' : programs (L ++ L') = programs L ++ programs L'.
Proof. apply filter_app. Qed.

Lemma acts_ok P Ps ev b L : acts P Ps ev b -> does_stage P L ->
  exists Ls, Forall2 does_stage Ps Ls /\ programs (ev ++ concat Ls) ⊆+ programs L /\ (b = false -> ev ++ concat Ls ≡ₚ L).
Proof.
  assert (forall (P' : process) L, does_stage P' L -> exists Ls, Forall2 does_stage [P'] Ls /\ programs ([] ++ concat Ls) ⊆+ programs L /\ (false = false -> [] ++ concat Ls ≡ₚ L)) as H1.
  { intros P' L' H. exists [L']. split; [by repeat constructor|]. cbn. by rewrite app_nil_r. }
  assert (forall (P' : process) L L', programs L' ⊆+ programs L -> does_stage P' L' -> exists Ls, Forall2 does_stage [P'] Ls /\ programs ([] ++ concat Ls) ⊆+ programs L /\ (true = false -> [] ++ concat Ls ≡ₚ L)) as H2.
  { intros P' L0 L' Hs H. exists [L']. split; [by repeat constructor|]. cbn [app concat]. by rewrite app_nil_r. }
  destruct 1; unfold does_stage at 1; cbn [fst snd does]; intros HL.
  - subst L. exists [[]]. split; [by repeat constructor|]. done.
  - rewrite H in HL. by apply H1.
  - destruct HL as [_ HL]. rewrite H in HL. by apply H1.
  - destruct HL as [(L' & Hs & HL) _]. by apply (H2 _ L L').
  - rewrite H in HL. by apply H1.
  - destruct HL as [_ HL]. apply H1. by apply HL.
  - destruct HL as [HL _]. destruct (HL a b) as (L' & Hs & HL'). by apply (H2 _ L L').
  - destruct HL as [_ (L1 & L2 & -> & D1 & D2)]. exists [L2; L1]. split; [by repeat constructor|]. cbn [app concat]. rewrite app_nil_r.
    assert (L2 ++ L1 ≡ₚ L1 ++ L2) as E by apply Permutation_app_comm. by rewrite E.
  - destruct HL as [(L' & Hs & HL) _]. by apply (H2 _ L L').
  - by apply H1, HL.
  - destruct HL as (-> & Hp & _). exists [[exit_of x]]. split; [by repeat constructor|]. done.
  - destruct HL as (_ & _ & L' & Hs & HL). by apply (H2 _ L L').
  - rewrite H in HL. by apply H1.
  - rewrite H in HL. by apply H1.
  - by apply H1.
  - apply H1. exact (HL r).
Qed.

(** One process of the pool, with its part [L] of the record to come, is replaced. *)
Lemma accounts_swap E es b b' l1 P l2 Ps ev :
  (forall L, does_stage P L -> exists Ls, Forall2 does_stage Ps Ls /\ programs (ev ++ concat Ls) ⊆+ programs L /\ (b' = false -> ev ++ concat Ls ≡ₚ L)) ->
  accounts E (Pool es b (l1 ++ P :: l2)) -> accounts E (Pool (es ++ ev) (b || b') (l1 ++ Ps ++ l2)).
Proof.
  intros Hn (Ls & HF & Hsub & Heq). unfold accounts; cbn [l_procs l_log l_failed] in *.
  apply Forall2_app_inv_l in HF as (M1 & M2' & F1 & F2 & ->). apply Forall2_cons_inv_l in F2 as (L & M2 & HL & F2 & ->). destruct (Hn _ HL) as (Ls' & F' & Hs' & He').
  assert ((es ++ ev) ++ concat (M1 ++ Ls' ++ M2) ≡ₚ (ev ++ concat Ls') ++ es ++ concat M1 ++ concat M2) as R1 by (rewrite !concat_app; solve_Permutation).
  assert (es ++ concat (M1 ++ L :: M2) ≡ₚ L ++ es ++ concat M1 ++ concat M2) as R2 by (rewrite concat_app; cbn; solve_Permutation).
  exists (M1 ++ Ls' ++ M2). split; [apply Forall2_app; [done|by apply Forall2_app]|]. split.
  - rewrite R1. rewrite R2 in Hsub. etransitivity; [|exact Hsub]. rewrite (programs_app (ev ++ concat Ls')), (programs_app L). by apply submseteq_app.
  - intros [-> ->]%orb_false_iff. rewrite R1, (He' eq_refl), <- R2. by apply Heq.
Qed.

Lemma accounts_step E s s' : accounts E s -> step s s' -> accounts E s'.
Proof.
  intros HA Hst. destruct Hst as [es b l1 P l2 Ps ev b' Ha|es b l1 x k l2 j y Hj _ _|es b l1 x argv l2 l _ _].
  - eapply accounts_swap; [|exact HA]. intros L. by apply acts_ok.
  - rewrite <- (orb_false_r b). apply (accounts_swap E es b false l1 (x, Code (PWait k)) l2 [_] [wait_of x]); [|done]. intros L (_ & _ & HL). destruct (HL j Hj) as (L' & -> & D).
    exists [L']. split; [by repeat constructor|]. cbn [concat]. rewrite app_nil_r. done.
  - rewrite <- (orb_false_r b). apply (accounts_swap E es b false l1 (x, Program argv) l2 [_] [exit_of x]); [|done]. intros L [-> _].
    exists [[]]. split; [by repeat constructor|]. done.
Qed.

Lemma accounts_steps E s s' : accounts E s -> rtc step s s' -> accounts E s'.
Proof. intros HI Hst. induction Hst as [|s1 s2 s3 H12 _ IH]; [done|]. by apply IH, (accounts_step E s1). Qed.

Lemma start_accounts x p E : does x p E -> accounts E (start x p).
Proof. intros H. exists [E]. split; [by repeat constructor|]. cbn. by rewrite app_nil_r. Qed.

(** What a routine does, in every run. *)
Lemma does_runs x p E s : does x p E -> rtc step (start x p) s ->
  programs (l_log s) ⊆+ programs E /\ (l_failed s = false -> (forall P, P ∈ l_procs s -> P.2 = Zombie) -> l_log s ≡ₚ E).
Proof.
  intros Hd Hst. destruct (accounts_steps E _ _ (start_accounts _ _ _ Hd) Hst) as (Ls & HF & Hsub & Heq). split.
  { etransitivity; [|exact Hsub]. rewrite programs_app. by apply submseteq_inserts_r. }
  intros Hf Hz. specialize (Heq Hf). assert (concat Ls = []) as E0; [|by rewrite E0, app_nil_r in Heq].
  clear Hsub Heq. induction HF as [|P L Ps Ls HP HF IH]; [done|]. cbn. rewrite IH by (intros; apply Hz; by right). specialize (Hz P ltac:(by left)). unfold does_stage in HP. rewrite Hz in HP. by subst.
Qed.

(** ** No deadlock *)

(** The children a process has not waited for are in the pool. *)
Definition family (s : pool) : Prop := forall P j, P ∈ l_procs s -> j ∈ x_kids P.1 -> exists P', P' ∈ l_procs s /\ x_name P'.1 = child_name P.1 j.

Lemma acts_family P Ps ev b : acts P Ps ev b ->
  (exists P', P' ∈ Ps /\ x_name P'.1 = x_name P.1) /\
  (forall P' j, P' ∈ Ps -> j ∈ x_kids P'.1 -> (x_name P'.1 = x_name P.1 /\ j ∈ x_kids P.1) \/ exists P'', P'' ∈ Ps /\ x_name P''.1 = child_name P'.1 j).
Proof.
  destruct 1; (split; [eexists; (split; [by left|done])|]).
  all: try (intros P' jj HP' Hj; apply list_elem_of_singleton in HP'; subst P'; left; by split).
  intros P' jj [->|HP']%elem_of_cons Hj; [cbn in Hj|apply list_elem_of_singleton in HP'; subst P'; cbn in Hj; by apply not_elem_of_nil in Hj].
  apply elem_of_cons in Hj as [->|Hj]; [right; eexists; split; [right; by left|done]|left; by split].
Qed.

(** One process is replaced by [Ps]. *)
Lemma family_swap es b es' b' l1 P l2 Ps :
  (exists P', P' ∈ Ps /\ x_name P'.1 = x_name P.1) ->
  (forall P' j, P' ∈ Ps -> j ∈ x_kids P'.1 -> (x_name P'.1 = x_name P.1 /\ j ∈ x_kids P.1) \/ exists P'', P'' ∈ Ps /\ x_name P''.1 = child_name P'.1 j) ->
  family (Pool es b (l1 ++ P :: l2)) -> family (Pool es' b' (l1 ++ Ps ++ l2)).
Proof.
  intros (P0 & HP0 & E0) Hkids HI. unfold family in *; cbn [l_procs] in *.
  assert (forall Q j, (exists P', P' ∈ l1 ++ P :: l2 /\ x_name P'.1 = child_name Q j) -> exists P', P' ∈ l1 ++ Ps ++ l2 /\ x_name P'.1 = child_name Q j) as Hold.
  { intros Q j (P' & HP' & E'). rewrite elem_of_app, elem_of_cons in HP'. destruct HP' as [H|[->|H]]; [exists P'; set_solver|exists P0; rewrite E0; set_solver|exists P'; set_solver]. }
  intros Q j HQ Hj. rewrite !elem_of_app in HQ. destruct HQ as [H|[H|H]]; [apply Hold, (HI Q j); set_solver| |apply Hold, (HI Q j); set_solver].
  destruct (Hkids Q j H Hj) as [[E Hj']|(Q' & HQ' & E')]; [|exists Q'; set_solver]. unfold child_name in *. rewrite E. apply Hold, (HI P j); set_solver.
Qed.

Lemma family_step s s' : family s -> step s s' -> family s'.
Proof.
  intros HI Hst. destruct Hst as [es b l1 P l2 Ps ev b' Ha|es b l1 x k l2 j y Hj _ _|es b l1 x argv l2 l _ _].
  - destruct (acts_family _ _ _ _ Ha) as [H1 H2]. by eapply family_swap.
  - eapply (family_swap _ _ _ _ l1 (x, Code (PWait k)) l2 [_]); [eexists; split; [by left|done]| |exact HI].
    intros P' i ->%list_elem_of_singleton Hi. left. split; [done|]. cbn in Hi. by apply list_elem_of_filter in Hi as [_ Hi].
  - eapply (family_swap _ _ _ _ l1 (x, Program argv) l2 [_]); [eexists; split; [by left|done]| |exact HI].
    intros P' i ->%list_elem_of_singleton Hi. by left.
Qed.

Lemma family_steps s s' : family s -> rtc step s s' -> family s'.
Proof. intros HI Hst. induction Hst as [|s1 s2 s3 H12 _ IH]; [done|]. by apply IH, (family_step s1). Qed.

(** A process acts, unless it waits for its children, runs a program or has exited; in the first
    two of these cases its pipes are in their places. *)
Lemma acts_or_waits P L : does_stage P L -> live P.2 = true ->
  (exists Ps ev b, acts P Ps ev b) \/ (placed (x_name P.1) (x_fds P.1) /\ ((exists k j, P.2 = Code (PWait k) /\ j ∈ x_kids P.1) \/ exists argv, P.2 = Program argv)).
Proof.
  destruct P as [x [p|argv|]]; unfold does_stage; cbn; intros HL Hz; [|right; split; [apply HL|right; by exists argv]|done]. destruct p; cbn in HL; try done.
  - left. do 3 eexists. apply a_exit.
  - destruct (do_close (x_fds x) fd) as [r f] eqn:E. left. do 3 eexists. by apply a_close.
  - left. do 3 eexists. apply a_open_fails.
  - destruct (do_dup (x_fds x) fd) as [r f] eqn:E. left. do 3 eexists. by apply a_dup.
  - left. do 3 eexists. apply (a_pipe_fails _ _ 0 0).
  - left. do 3 eexists. apply a_fork_fails.
  - destruct (x_kids x) as [|j l] eqn:E; [left; do 3 eexists; by apply a_wait_none|]. right. split; [apply HL|]. left. exists k, j. split; [done|]. by left.
  - left. do 3 eexists. apply a_exec_fails.
  - destruct (x_in x) as [|c i] eqn:E; left; do 3 eexists; [by apply a_read_end|by apply a_read].
  - left. do 3 eexists. apply a_print.
  - left. do 3 eexists. apply (a_chdir _ _ _ 0).
Qed.

(** *** Processes from left to right *)

(** The name differs first in a component that is smaller: an earlier branch. *)
Definition comp_lt (c d : comp) : bool := (c.1 <? d.1)%nat || ((c.1 =? d.1)%nat && (c.2 <? d.2)%nat).
Fixpoint leftof (a b : name) : bool :=
  match a, b with
  | c :: a', d :: b' => if decide (c = d) then leftof a' b' else comp_lt c d
  | _, _ => false
  end.

Lemma comp_lt_iff c d : comp_lt c d = true <-> (c.1 < d.1 \/ c.1 = d.1 /\ c.2 < d.2)%nat.
Proof. unfold comp_lt. by rewrite orb_true_iff, andb_true_iff, !Nat.ltb_lt, Nat.eqb_eq. Qed.
Lemma comp_lt_trans c d e : comp_lt c d = true -> comp_lt d e = true -> comp_lt c e = true.
Proof. rewrite !comp_lt_iff. lia. Qed.
Lemma comp_lt_irrefl c : comp_lt c c = false.
Proof. unfold comp_lt. by rewrite !Nat.ltb_irrefl, andb_false_r. Qed.
Lemma leftof_irrefl a : leftof a a = false.
Proof. induction a as [|c a IH]; [done|]. cbn. by rewrite decide_True. Qed.
Lemma leftof_trans a b c : leftof a b = true -> leftof b c = true -> leftof a c = true.
Proof.
  revert b c. induction a as [|x a IH]; intros [|y b] [|z c]; cbn; try done.
  destruct (decide (x = y)) as [->|Hxy], (decide (y = z)) as [->|Hyz]; intros H1 H2.
  - by eapply IH.
  - exact H2.
  - by rewrite decide_False.
  - pose proof (comp_lt_trans _ _ _ H1 H2) as H3. rewrite decide_False; [done|]. intros ->. by rewrite comp_lt_irrefl in H3.
Qed.
Lemma leftof_branch q n s t : leftof (q ++ (S n, 0%nat) :: s) (q ++ (S n, 1%nat) :: t) = true.
Proof.
  induction q as [|c q IH]; cbn; [|by rewrite decide_True]. rewrite decide_False by (intros [=]). unfold comp_lt. cbn. by rewrite Nat.eqb_refl, orb_true_r.
Qed.

Lemma leftmost {A} (f : A -> name) (l : list A) : l <> [] -> exists x, x ∈ l /\ forall y, y ∈ l -> leftof (f y) (f x) = false.
Proof.
  induction l as [|x l IH]; [done|]. intros _. destruct l as [|y l]; [exists x; split; [by left|]; intros z ->%list_elem_of_singleton; apply leftof_irrefl|].
  destruct IH as (z & Hz & Hm); [done|]. destruct (leftof (f x) (f z)) eqn:E.
  - exists x. split; [by left|]. intros w [->|Hw]%elem_of_cons; [apply leftof_irrefl|]. destruct (leftof (f w) (f x)) eqn:Ew; [|done].
    rewrite <- (Hm w Hw). symmetry. by eapply leftof_trans.
  - exists z. split; [by right|]. intros w [->|Hw]%elem_of_cons; [done|by apply Hm].
Qed.

Lemma filter_length_lt {A} (P Q : A -> Prop) `{!forall x, Decision (P x), !forall x, Decision (Q x)} a l :
  (forall x, Q x -> P x) -> a ∈ l -> P a -> ~ Q a -> (length (filter Q l) < length (filter P l))%nat.
Proof.
  intros Hi Ha HP HQ. assert (forall l, length (filter Q l) <= length (filter P l))%nat as Hle.
  { induction l0 as [|x l0 IH]; [done|]. rewrite !filter_cons. case_decide as H1; case_decide as H2; cbn; try lia. by destruct (H2 (Hi x H1)). }
  apply list_elem_of_split in Ha as (r1 & r2 & ->). rewrite !filter_app, !length_app, !filter_cons. rewrite decide_False, decide_True by done. cbn.
  pose proof (Hle r1). pose proof (Hle r2). lia.
Qed.

Lemma long_names (l : list process) : exists n, forall P : process, P ∈ l -> (length (x_name P.1) < n)%nat.
Proof.
  induction l as [|P l [n IH]]; [exists O; intros P HP; by apply not_elem_of_nil in HP|]. exists (n + S (length (x_name P.1)))%nat.
  intros Q [->|HQ]%elem_of_cons; [lia|]. specialize (IH Q HQ). lia.
Qed.

(** *** When no process can act by itself *)
Section calm.
Context (l : list process).
Context (Hcalm : forall P, P ∈ l -> live P.2 = true -> placed (x_name P.1) (x_fds P.1) /\
  ((exists argv, P.2 = Program argv) \/ exists P' j, P' ∈ l /\ live P'.2 = true /\ x_name P'.1 = child_name P.1 j)).

(** The running programs whose name begins with [p]. *)
Definition is_program (st : stage) : bool := match st with Program _ => true | _ => false end.
Definition running (p : name) : list process := filter (fun P => is_program P.2 = true /\ p `prefix_of` x_name P.1) l.

Lemma running_elem p P : P ∈ running p <-> P ∈ l /\ (exists argv, P.2 = Program argv) /\ p `prefix_of` x_name P.1.
Proof.
  unfold running. rewrite list_elem_of_filter. split.
  - intros ((H1 & H2) & H3). split; [done|]. split; [|done]. destruct P.2 as [|argv|]; [done| |done]. by exists argv.
  - intros (H1 & (argv & H2) & H3). split; [|done]. by rewrite H2.
Qed.

Lemma running_placed p P : P ∈ running p -> placed (x_name P.1) (x_fds P.1).
Proof. intros (H1 & (argv & H2) & _)%running_elem. apply Hcalm; [done|by rewrite H2]. Qed.

(** Under every process that has not exited there is a running program. *)
Lemma program_below P : P ∈ l -> live P.2 = true -> running (x_name P.1) <> [].
Proof.
  destruct (long_names l) as [n Hn]. remember (n - length (x_name P.1))%nat as d eqn:Ed. revert P Ed.
  induction (lt_wf d) as [d _ IH]. intros P Ed HP Hz. pose proof (Hn P HP) as Hlen. destruct (Hcalm P HP Hz) as [_ [[argv Ha]|(P' & j & HP' & Hz' & En)]].
  - assert (P ∈ running (x_name P.1)) as H by (apply running_elem; split; [done|]; split; [by exists argv|done]). intros E. rewrite E in H. by apply not_elem_of_nil in H.
  - pose proof (Hn P' HP') as Hlen'. assert (running (x_name P'.1) <> []) as H.
    { eapply IH; [|done|done|done]. rewrite Ed, En in *. unfold child_name in *. rewrite length_app in *. cbn in *. lia. }
    destruct (running (x_name P'.1)) as [|Q r] eqn:E; [done|]. assert (Q ∈ running (x_name P'.1)) as HQ by (rewrite E; by left).
    apply running_elem in HQ as (Q1 & Q2 & Q3). assert (Q ∈ running (x_name P.1)) as HQ'.
    { apply running_elem. split; [done|]. split; [done|]. etransitivity; [|exact Q3]. rewrite En. by exists [j]. }
    intros E'. rewrite E' in HQ'. by apply not_elem_of_nil in HQ'.
Qed.

(** The two ends of a pipe are on its two sides. *)
Lemma writer_name P q n : P ∈ l -> holds (OWrite q n) P -> (q ++ [(S n, 0%nat)]) `prefix_of` x_name P.1.
Proof.
  intros HP [Hz Ho]. apply list_elem_of_lookup in Ho as [k Hk]. destruct (Hcalm P HP Hz) as [Hp _]. destruct (Hp k _ Hk) as [_ [t ->]]. exists t. by rewrite <- app_assoc.
Qed.
Lemma reader_name P q n : P ∈ l -> holds (ORead q n) P -> (q ++ [(S n, 1%nat)]) `prefix_of` x_name P.1.
Proof.
  intros HP [Hz Ho]. apply list_elem_of_lookup in Ho as [k Hk]. destruct (Hcalm P HP Hz) as [Hp _]. destruct (Hp k _ Hk) as [_ (t & -> & _)]. exists t. by rewrite <- app_assoc.
Qed.

(** Of a pipe that has a writer, the first branch has a running program. *)
Lemma writer_runs P q n : P ∈ l -> holds (OWrite q n) P -> exists Q t, Q ∈ running [] /\ x_name Q.1 = q ++ (S n, 0%nat) :: t.
Proof.
  intros HP Ho. pose proof (program_below P HP (proj1 Ho)) as Hr. destruct (running (x_name P.1)) as [|Q r] eqn:E; [done|].
  assert (Q ∈ running (x_name P.1)) as (Q1 & Q2 & Q3)%running_elem by (rewrite E; by left). destruct (writer_name P q n HP Ho) as [t Et]. destruct Q3 as [u Eu].
  exists Q, (t ++ u). split; [apply running_elem; split; [done|]; split; [done|apply prefix_nil]|]. rewrite Eu, Et, <- !app_assoc. done.
Qed.

(** The leftmost program of all is not kept waiting by its input. *)
Lemma first_reads P : P ∈ running [] -> (forall Q, Q ∈ running [] -> leftof (x_name Q.1) (x_name P.1) = false) -> input_ends l P.1.
Proof.
  intros HP Hmin q n W Hi HW Ho. destruct (writer_runs W q n HW Ho) as (Q & t & HQ & EQ). destruct (running_placed _ _ HP 0%nat _ Hi) as [_ (u & Eu & _)].
  specialize (Hmin Q HQ). by rewrite EQ, Eu, leftof_branch in Hmin.
Qed.

(** Nor is the leftmost one of the second branch of a pipe, if it does not read that pipe. *)
Lemma branch_reads P q n : let p := q ++ [(S n, 1%nat)] in
  P ∈ running p -> (forall Q, Q ∈ running p -> leftof (x_name Q.1) (x_name P.1) = false) -> x_fds P.1 !! 0%nat <> Some (Some (ORead q n)) -> input_ends l P.1.
Proof.
  intros p HP Hmin Hno r m W Hi HW Ho. destruct (writer_runs W r m HW Ho) as (Q & t & HQ & EQ). destruct (running_placed _ _ HP 0%nat _ Hi) as [_ (u & Eu & Hu)].
  apply running_elem in HP as HP'. destruct HP' as (_ & _ & [v Ev]). unfold p in Ev. rewrite <- app_assoc in Ev. cbn in Ev. rewrite Eu in Ev.
  assert (r = q /\ m = n \/ exists w, r = q ++ (S n, 1%nat) :: w) as [[-> ->]|[w ->]]; [|done|].
  - apply app_eq_inv in Ev as [(w & E1 & E2)|(w & E1 & E2)].
    + destruct w as [|c w]; [left; cbn in E2; rewrite app_nil_r in E1; by injection E2 as [= ->]|]. right. injection E2 as <- _. by exists w.
    + destruct w as [|c w]; [left; cbn in E2; rewrite app_nil_r in E1; by injection E2 as [= ->]|]. exfalso. injection E2 as _ ->. apply Forall_app in Hu as [_ Hu].
      apply Forall_cons in Hu as [Hu _]. done.
  - assert (Q ∈ running p) as HQp.
    { apply running_elem in HQ as (Q1 & Q2 & _). apply running_elem. split; [done|]. split; [done|]. rewrite EQ. unfold p. rewrite <- app_assoc. exists (w ++ (S m, 0%nat) :: t). by rewrite <- !app_assoc. }
    specialize (Hmin Q HQp). by rewrite EQ, Eu, leftof_branch in Hmin.
Qed.

(** A program's output is taken, or some program further right can end. *)
Lemma flows P : P ∈ running [] -> drains l P.1 \/ exists Q, Q ∈ running [] /\ input_ends l Q.1 /\ drains l Q.1.
Proof.
  remember (length (filter (fun Q => leftof (x_name P.1) (x_name Q.1) = true) (running []))) as d eqn:Ed. revert P Ed. induction (lt_wf d) as [d _ IH]. intros P -> HP.
  assert (forall Q, Q ∈ running [] -> leftof (x_name P.1) (x_name Q.1) = true -> drains l Q.1 \/ exists R, R ∈ running [] /\ input_ends l R.1 /\ drains l R.1) as IHr.
  { intros Q HQ HPQ. eapply IH; [|done|done].
    apply (filter_length_lt _ _ Q); [intros R; by apply leftof_trans|done|done|by rewrite leftof_irrefl]. }
  clear IH. pose proof (running_placed _ _ HP) as Hpl.
  assert ((forall q n, Some (OWrite q n) ∈ x_fds P.1 -> x_fds P.1 !! 1%nat = Some (Some (OWrite q n)))) as Hout.
  { intros q n [k Hk]%list_elem_of_lookup. destruct (Hpl k _ Hk) as [-> _]. done. }
  destruct (x_fds P.1 !! 1%nat) as [[[a|a b|a b|q n]|]|] eqn:E1; try (left; constructor; intros q' n' H; apply Hout in H; congruence).
  destruct (Hpl 1%nat _ E1) as [_ [t Et]].
  assert (Decision (exists H, H ∈ l /\ holds (ORead q n) H)) as [(H & HH & Hh)|Hnone].
  { destruct (decide (Exists (holds (ORead q n)) l)) as [He|He]; [left|right]; rewrite Exists_exists in He; done. }
  2:{ left. constructor. intros q' n' H'. apply Hout in H'. simplify_eq. left. intros R HR Hr. apply Hnone. by exists R. }
  assert (Decision (exists R, R ∈ running [] /\ x_fds R.1 !! 0%nat = Some (Some (ORead q n)))) as [(R & HR & Hr)|Hnone].
  { destruct (decide (Exists (fun R : process => x_fds R.1 !! 0%nat = Some (Some (ORead q n))) (running []))) as [He|He]; [left|right]; rewrite Exists_exists in He; done. }
  - destruct (running_placed _ _ HR 0%nat _ Hr) as [_ (u & Eu & _)]. destruct (IHr R HR) as [Hd|Hd]; [by rewrite Et, Eu, leftof_branch| |by right].
    left. constructor. intros q' n' H'. apply Hout in H'. simplify_eq. right. apply running_elem in HR as (R1 & (argv & R2) & _). destruct R as [y st]. cbn in *. subst st. by exists y, argv.
  - pose proof (reader_name H q n HH Hh) as [u Eu]. pose proof (program_below H HH (proj1 Hh)) as Hb. set (p := q ++ [(S n, 1%nat)]) in *.
    assert (running p <> []) as Hp.
    { destruct (running (x_name H.1)) as [|Q r] eqn:E; [done|]. assert (Q ∈ running (x_name H.1)) as (Q1 & Q2 & Q3)%running_elem by (rewrite E; by left).
      assert (Q ∈ running p) as HQ by (apply running_elem; split; [done|]; split; [done|]; etransitivity; [|exact Q3]; rewrite Eu; by exists u).
      intros E'. rewrite E' in HQ. by apply not_elem_of_nil in HQ. }
    destruct (leftmost (fun P : process => x_name P.1) (running p) Hp) as (R & HR & Hmin). assert (R ∈ running []) as HR0.
    { apply running_elem in HR as (R1 & R2 & _). apply running_elem. split; [done|]. split; [done|apply prefix_nil]. }
    assert (input_ends l R.1) as Hin by (apply (branch_reads R q n HR Hmin); intros Hr; apply Hnone; by exists R).
    destruct (IHr R HR0) as [Hd|Hd]; [|right; by exists R|by right]. apply running_elem in HR as (_ & _ & [v Ev]). unfold p in Ev. rewrite Et, Ev, <- app_assoc. apply leftof_branch.
Qed.

Lemma some_program_ends P : P ∈ l -> live P.2 = true -> exists x argv, (x, Program argv) ∈ l /\ input_ends l x /\ drains l x.
Proof.
  intros HP Hz. assert (running [] <> []) as Hne.
  { pose proof (program_below P HP Hz) as Hb. destruct (running (x_name P.1)) as [|Q r] eqn:E; [done|]. assert (Q ∈ running (x_name P.1)) as (Q1 & Q2 & _)%running_elem by (rewrite E; by left).
    assert (Q ∈ running []) as HQ by (apply running_elem; split; [done|]; split; [done|apply prefix_nil]). intros E'. rewrite E' in HQ. by apply not_elem_of_nil in HQ. }
  destruct (leftmost (fun P : process => x_name P.1) (running []) Hne) as (R & HR & Hmin). pose proof (first_reads R HR Hmin) as Hin.
  assert (exists Q, Q ∈ running [] /\ input_ends l Q.1 /\ drains l Q.1) as (Q & HQ & H1 & H2) by (destruct (flows R HR) as [Hd|Hd]; [by exists R|done]).
  apply running_elem in HQ as (HQ & (argv & Ha) & _). destruct Q as [x st]. cbn in *. subst st. by exists x, argv.
Qed.
End calm.

Lemma elem_or {A} (X : Prop) (Y : A -> Prop) (l : list A) : (forall a, a ∈ l -> X \/ Y a) -> X \/ forall a, a ∈ l -> Y a.
Proof.
  induction l as [|a l IH]; intros H; [right; intros b Hb; by apply not_elem_of_nil in Hb|]. destruct (H a ltac:(by left)) as [?|Ha]; [by left|].
  destruct IH as [?|Hl]; [intros b Hb; apply H; by right|by left|]. right. intros b [->|Hb]%elem_of_cons; [done|by apply Hl].
Qed.

(** While a process has not exited, some process can go on: the waits end, and no program waits
    for ever at a pipe. *)
Lemma no_deadlock E s P : accounts E s -> family s -> P ∈ l_procs s -> P.2 <> Zombie -> exists s', step s s'.
Proof.
  intros (Ls & HF & _) Hfam HP Hz. assert (live P.2 = true) as Hl by by destruct P.2. destruct s as [es b l]. cbn [l_procs] in *.
  destruct (elem_or (exists s', step (Pool es b l) s') (fun P => live P.2 = true -> placed (x_name P.1) (x_fds P.1) /\
    ((exists argv, P.2 = Program argv) \/ exists P' j, P' ∈ l /\ live P'.2 = true /\ x_name P'.1 = child_name P.1 j)) l) as [?|Hcalm]; [|done|].
  - intros Q HQ. destruct (live Q.2) eqn:Hq; [|by right]. pose proof HQ as [i Hi]%list_elem_of_lookup. destruct (Forall2_lookup_l _ _ _ _ _ HF Hi) as (L & _ & HL).
    pose proof HQ as (l1 & l2 & El)%list_elem_of_split.
    destruct (acts_or_waits Q L HL Hq) as [(Ps & ev & b' & Ha)|[Hp [(k & j & Ek & Hj)|Hprog]]]; [left; rewrite El; eexists; by apply s_act| |right; by auto].
    destruct (Hfam Q j HQ Hj) as (P' & HP' & En). cbn [l_procs] in HP'. destruct (live P'.2) eqn:Hl'.
    + right. intros _. split; [done|]. right. by exists P', j.
    + left. destruct P' as [y [| |]]; [done|done|]. destruct Q as [x st]. cbn in Ek, Hj, En. subst st. rewrite El in HP' |- *. eexists. apply (s_wait es b l1 x k l2 j y Hj); [|done].
      rewrite elem_of_app, elem_of_cons in HP'. apply elem_of_app. naive_solver.
  - destruct (some_program_ends l Hcalm P HP Hl) as (x & argv & Hx & H1 & H2). apply list_elem_of_split in Hx as (l1 & l2 & ->). eexists. by apply s_ends.
Qed.

(** ** Waiting

    A child that is no longer among those its parent has to wait for has exited.  Names are used
    once: the children of [P] have components below [next P]. *)
Record settled (l : list process) : Prop := {
  st_names : NoDup ((fun P : process => x_name P.1) <$> l);
  st_fresh : forall P P' c t, P ∈ l -> P' ∈ l -> x_name P'.1 = x_name P.1 ++ c :: t -> comp_lt c (next P.1) = true;
  st_kids : forall P P' j, P ∈ l -> P' ∈ l -> x_name P'.1 = child_name P.1 j -> j ∈ x_kids P.1 \/ P'.2 = Zombie;
}.

Lemma settled_same l P P' : settled l -> P ∈ l -> P' ∈ l -> x_name P.1 = x_name P'.1 -> P = P'.
Proof.
  intros [Hn _ _] HP HP' E. apply list_elem_of_lookup in HP as [a Ha]. apply list_elem_of_lookup in HP' as [b Hb].
  assert (a = b) as ->; [|congruence]. apply (NoDup_lookup _ a b (x_name P.1) Hn); [by rewrite list_lookup_fmap, Ha|by rewrite list_lookup_fmap, Hb, E].
Qed.

(** A process goes on under its name; the children it no longer waits for have exited. *)
Lemma settled_go l1 P l2 P1 : settled (l1 ++ P :: l2) -> x_name P1.1 = x_name P.1 ->
  next P1.1 = next P.1 \/ comp_lt (next P.1) (next P1.1) = true -> P.2 <> Zombie ->
  (forall j, j ∈ x_kids P.1 -> j ∈ x_kids P1.1 \/ exists Q, Q ∈ l1 ++ l2 /\ x_name Q.1 = child_name P.1 j /\ Q.2 = Zombie) -> settled (l1 ++ P1 :: l2).
Proof.
  intros HS En Hx Hz Hk. pose proof HS as [S1 S2 S3].
  assert (forall Q, Q ∈ l1 ++ P1 :: l2 -> exists Q0, Q0 ∈ l1 ++ P :: l2 /\ x_name Q0.1 = x_name Q.1 /\ (Q = Q0 \/ Q0 = P /\ Q = P1)) as Hback.
  { intros Q HQ. rewrite elem_of_app, elem_of_cons in HQ. destruct HQ as [H|[->|H]]; [exists Q|exists P|exists Q]; (split; [set_solver|]); auto. }
  split.
  - rewrite fmap_app in *. cbn in *. by rewrite En.
  - intros Q Q' c t HQ HQ' E. destruct (Hback Q HQ) as (Q0 & A1 & A2 & A3). destruct (Hback Q' HQ') as (Q0' & B1 & B2 & _). rewrite <- A2, <- B2 in E.
    pose proof (S2 Q0 Q0' c t A1 B1 E) as Hc. destruct A3 as [->|[-> ->]]; [done|]. destruct Hx as [->|Hx]; [done|by eapply comp_lt_trans].
  - intros Q Q' j HQ HQ' E. destruct (Hback Q HQ) as (Q0 & A1 & A2 & A3). destruct (Hback Q' HQ') as (Q0' & B1 & B2 & B3). unfold child_name in E. rewrite <- A2, <- B2 in E.
    destruct (S3 Q0 Q0' j A1 B1 E) as [Hj|Hj].
    + destruct A3 as [->|[-> ->]]; [by left|]. destruct (Hk j Hj) as [?|(R & HR & ER & HRz)]; [by left|right].
      assert (R ∈ l1 ++ P :: l2) as HR' by (apply elem_of_app in HR; apply elem_of_app; rewrite elem_of_cons; tauto).
      assert (R = Q0') as -> by (apply (settled_same _ _ _ HS); [exact HR'|exact B1|by rewrite ER, E]). destruct B3 as [->|[-> _]]; [done|done].
    + right. destruct B3 as [->|[-> ->]]; done.
Qed.

Lemma settled_fork l1 x k l2 st st' : settled (l1 ++ (x, Code k) :: l2) -> settled (l1 ++ (forked x, Code st) :: (child x, Code st') :: l2).
Proof.
  intros HS. set (l := l1 ++ (x, Code k) :: l2) in *. assert ((x, Code k) ∈ l) as Hx by (unfold l; set_solver). pose proof HS as [S1 S2 S3].
  assert (forall Q t, Q ∈ l -> x_name Q.1 <> child_name x (next x) ++ t) as Hfresh.
  { intros Q t HQ E. unfold child_name in E. rewrite <- app_assoc in E. pose proof (S2 _ Q (next x) t Hx HQ E) as Hc. cbn in Hc. by rewrite comp_lt_irrefl in Hc. }
  assert (comp_lt (next x) (next (forked x)) = true) as Hlt by (apply comp_lt_iff; cbn; lia).
  assert (settled (l1 ++ (forked x, Code st) :: l2)) as HS'.
  { apply (settled_go l1 (x, Code k)); [done|done|by right|done|]. intros j Hj. left. by right. }
  pose proof HS' as [T1 T2 T3].
  assert (forall Q, Q ∈ l1 ++ (forked x, Code st) :: l2 -> exists Q0, Q0 ∈ l /\ x_name Q0.1 = x_name Q.1) as Hback.
  { intros Q HQ. unfold l. rewrite elem_of_app, elem_of_cons in HQ. destruct HQ as [H|[->|H]]; [exists Q|exists (x, Code k)|exists Q]; (split; [set_solver|done]). }
  assert (forall Q t, Q ∈ l1 ++ (forked x, Code st) :: l2 -> x_name Q.1 <> child_name x (next x) ++ t) as Hfresh'.
  { intros Q t HQ. destruct (Hback Q HQ) as (Q0 & H0 & <-). by apply Hfresh. }
  assert (forall Q, Q ∈ l1 ++ (forked x, Code st) :: (child x, Code st') :: l2 -> Q ∈ l1 ++ (forked x, Code st) :: l2 \/ Q = (child x, Code st')) as Hin by (intros Q; set_solver).
  assert ((forked x, Code st) ∈ l1 ++ (forked x, Code st) :: l2) as Hfx by set_solver. split.
  - assert (((fun P : process => x_name P.1) <$> (l1 ++ (forked x, Code st) :: (child x, Code st') :: l2)) ≡ₚ
      x_name (child x) :: ((fun P : process => x_name P.1) <$> (l1 ++ (forked x, Code st) :: l2))) as -> by (rewrite !fmap_app; cbn; solve_Permutation).
    apply NoDup_cons. split; [|done]. intros (Q & EQ & HQ)%list_elem_of_fmap. apply (Hfresh' Q [] HQ). by rewrite app_nil_r, <- EQ.
  - intros Q Q' c t HQ HQ' E. destruct (Hin Q HQ) as [A| ->], (Hin Q' HQ') as [B| ->].
    + by apply (T2 Q Q' c t).
    + cbn in E. unfold child_name in E. destruct t as [|d t _] using rev_ind.
      * apply app_inj_tail in E as [E <-]. assert (Q = (forked x, Code st)) as -> by (by apply (settled_same _ _ _ HS')). done.
      * rewrite app_comm_cons, app_assoc in E. apply app_inj_tail in E as [E _]. by apply (T2 Q (forked x, Code st) c t).
    + exfalso. by apply (Hfresh' Q' (c :: t) B).
    + exfalso. cbn in E. apply (f_equal length) in E. rewrite length_app in E. cbn in E. lia.
  - intros Q Q' j HQ HQ' E. destruct (Hin Q HQ) as [A| ->], (Hin Q' HQ') as [B| ->].
    + by apply (T3 Q Q' j).
    + cbn in E. unfold child_name in E. apply app_inj_tail in E as [E <-]. assert (Q = (forked x, Code st)) as -> by (by apply (settled_same _ _ _ HS')). left. by left.
    + exfalso. by apply (Hfresh' Q' [j] B).
    + exfalso. cbn in E. unfold child_name in E. apply (f_equal length) in E. rewrite !length_app in E. cbn in E. lia.
Qed.

Lemma settled_step s s' : settled (l_procs s) -> step s s' -> settled (l_procs s').
Proof.
  intros HS Hst. destruct Hst as [es b l1 P l2 Ps ev b' Ha|es b l1 x k l2 j y Hj Hy Ey|es b l1 x argv l2 l _ _]; cbn [l_procs] in *.
  - destruct Ha; cbn [app]; try (by eapply settled_fork);
      (eapply settled_go; [exact HS|done|first [by left|right; apply comp_lt_iff; cbn; lia]|done|by left]).
  - eapply settled_go; [exact HS|done|by left|done|]. intros i Hi. destruct (decide (i = j)) as [->|Hne]; [right; by exists (y, Zombie)|left]. by apply list_elem_of_filter.
  - eapply settled_go; [exact HS|done|by left|done|by left].
Qed.

Lemma settled_steps s s' : settled (l_procs s) -> rtc step s s' -> settled (l_procs s').
Proof. intros HI Hst. induction Hst as [|s1 s2 s3 H12 _ IH]; [done|]. by apply IH, (settled_step s1). Qed.

Lemma settled_start x p : settled (l_procs (start x p)).
Proof.
  split; cbn; [apply NoDup_singleton| |].
  - intros P P' c t ->%list_elem_of_singleton ->%list_elem_of_singleton E. apply (f_equal length) in E. rewrite length_app in E. cbn in E. lia.
  - intros P P' j ->%list_elem_of_singleton ->%list_elem_of_singleton E. unfold child_name in E. apply (f_equal length) in E. rewrite length_app in E. cbn in E. lia.
Qed.

(** ** What commands mean *)

(** Standard input, output and error, and nothing else. *)
Definition std (i o e : obj) : fdtable := Some i :: Some o :: Some e :: replicate 13 None.
(** No pipe. *)
Definition plain (o : obj) : Prop := match o with ORead _ _ | OWrite _ _ => False | _ => True end.

(** What a command run by process [q], which has [nf] children behind it, does: who runs which
    program with which descriptors, who waits, with which descriptors meanwhile, and who exits,
    leaving which children. *)
Fixpoint events (q : name) (nf : nat) (c : cmd word) (i o e : obj) : list event :=
  match c with
  | EXEC argv => match argv with [] => [EExit q []] | _ => [EExec q argv (std i o e) []; EExit q []] end
  | REDIR c file mode fd => if fd =? 0 then events q nf c (OFile file mode) o e else events q nf c i (OFile file mode) e
  | LIST a b => events (q ++ [(0%nat, nf)]) 0 a i o e ++ EWait q (std i o e) :: events q (S nf) b i o e
  | PIPE a b => events (q ++ [(1%nat, 0%nat)]) 0 a i (OWrite q 0) e ++ events (q ++ [(1%nat, 1%nat)]) 0 b (ORead q 0) o e ++
      [EWait q (std i o e); EWait q (std i o e); EExit q []]
  | BACK c => events (q ++ [(0%nat, nf)]) 0 c i o e ++ [EExit q [(0%nat, nf)]]
  end.

Lemma std_placed q i o e : in_ok q i -> out_ok q o -> plain e -> placed q (std i o e).
Proof.
  intros Hi Ho He k x Hk. destruct k as [|[|[|k]]].
  - injection Hk as <-. by destruct i.
  - injection Hk as <-. by destruct o.
  - injection Hk as <-. by destruct e.
  - exfalso. unfold std in Hk. cbn [lookup] in Hk. change (replicate 13 None !! k = Some (Some x)) in Hk. by apply lookup_replicate in Hk as [? _].
Qed.

Lemma in_ok_child q o c : in_ok q o -> right_side c = false -> in_ok (q ++ [c]) o.
Proof. destruct o; cbn; try done. intros (t & -> & Ht) Hc. exists (t ++ [c]). rewrite <- app_assoc. split; [done|]. apply Forall_app. split; [done|]. by constructor. Qed.
Lemma out_ok_child q o c : out_ok q o -> out_ok (q ++ [c]) o.
Proof. destruct o; cbn; try done. intros (t & ->). exists (t ++ [c]). by rewrite <- app_assoc. Qed.

Lemma does_fail x s L : exists L', programs L' ⊆+ programs L /\ does x (panic_ s) L'.
Proof. exists [exit_of x]. split; [apply submseteq_nil_l|done]. Qed.

Context (Hpid : forall q, 0 < pid_of q).

Lemma pid_cases q : (pid_of q =? -1) = false /\ (pid_of q =? 0) = false.
Proof. specialize (Hpid q). split; apply Z.eqb_neq; lia. Qed.

Lemma does_fork1 x k L1 L2 : does (child x) (k 0) L1 -> (forall pid, 0 < pid -> does (forked x) (k pid) L2) -> does x (fork1 k) (L1 ++ L2).
Proof.
  intros H1 H2. cbn [does fork1]. split; [apply does_fail|]. exists L1, L2. split; [done|]. split; [done|]. rewrite (proj1 (pid_cases _)). by apply H2.
Qed.

(** The second half of a pipe's parent: both ends closed, it waits twice. *)
Lemma does_pipe_waits q i o e inp nf : in_ok q i -> out_ok q o -> plain e ->
  does (Ctx q nf 1 [(1%nat, 1%nat); (1%nat, 0%nat)] (std i o e) inp) (PWait (fun _ => PWait (fun _ => PExit 0))) [EWait q (std i o e); EWait q (std i o e); EExit q []].
Proof.
  intros Hi Ho He. pose proof (std_placed q i o e Hi Ho He) as Hp. split; [done|]. split; [done|]. intros j Hj. exists [EWait q (std i o e); EExit q []]. split; [done|].
  set (x1 := reaped _ j). assert (exists j', x_kids x1 = [j']) as [j' Ej'].
  { cbn in Hj. apply elem_of_cons in Hj as [->|Hj]; [by exists (1%nat, 0%nat)|]. apply list_elem_of_singleton in Hj as ->. by exists (1%nat, 1%nat). }
  assert (x_name x1 = q /\ x_fds x1 = std i o e) as [En Ef] by done. clearbody x1. cbn [does]. rewrite Ej', En, Ef. split; [done|]. split; [done|].
  intros j2 ->%list_elem_of_singleton. exists [EExit q []]. split; [unfold wait_of; by rewrite En, Ef|]. unfold exit_of. cbn. rewrite En, Ej'. cbn.
  by rewrite decide_False by (by intros H; apply H).
Qed.

Lemma runcmd_does c : forall q nf i o e inp, fds_ok c -> in_ok q i -> out_ok q o -> plain e -> does (Ctx q nf 0 [] (std i o e) inp) (runcmd c) (events q nf c i o e).
Proof.
  induction c as [argv|c IH w m fd|a IHa b IHb|a IHa b IHb|c IH]; intros q nf i o e inp Hc Hi Ho He; cbn [runcmd events fds_ok] in *.
  - destruct argv as [|path argv]; [done|]. split; [done|]. split; [by apply std_placed|]. exists [EExit q []]. split; [apply submseteq_nil_l|done].
  - destruct Hc as [[->| ->] Hc].
    + split; [exists [EExit q []]; split; [apply submseteq_nil_l|done]|]. by apply IH.
    + split; [exists [EExit q []]; split; [apply submseteq_nil_l|done]|]. by apply IH.
  - destruct Hc as [Ha Hb]. cbn [does]. split; [intros x y; apply does_fail|]. intros x y f Ef. injection Ef as <- <- <-. cbn [Z.ltb Z.compare].
    apply does_fork1; [apply IHa; [done|by apply in_ok_child|by exists []|done]|]. intros pid Hp. destruct (Z.eqb_spec pid 0) as [?|_]; [lia|].
    apply does_fork1; [apply IHb; [done|by exists []|by apply out_ok_child|done]|]. intros pid2 Hp2.
    destruct (Z.eqb_spec pid2 0) as [?|_]; [lia|]. by apply does_pipe_waits.
  - destruct Hc as [Ha Hb]. apply does_fork1; [apply IHa; [done|by apply in_ok_child|by apply out_ok_child|done]|]. intros pid Hp. destruct (Z.eqb_spec pid 0) as [?|_]; [lia|].
    split; [by apply std_placed|]. split; [done|]. intros j Hj. cbn in Hj. apply list_elem_of_singleton in Hj as ->. eexists. split; [done|]. change (next _) with (0%nat, nf).
    assert (reaped (forked (Ctx q nf 0 [] (std i o e) inp)) (0%nat, nf) = Ctx q (S nf) 0 [] (std i o e) inp) as ->; [|by apply IHb].
    unfold reaped, forked, next. cbn. by rewrite decide_False by (by intros H; apply H).
  - apply does_fork1; [apply IH; [done|by apply in_ok_child|by apply out_ok_child|done]|]. intros pid Hp. destruct (Z.eqb_spec pid 0) as [?|_]; [lia|done].
Qed.

(** ** A session *)

(** The characters up to the end of a line, [n] at most, and the rest. *)
Fixpoint take_line (n : nat) (acc inp : word) : word * word :=
  match n, inp with
  | S n', c :: inp' => if (c =? 10) || (c =? 13) then (acc ++ [c], inp') else take_line n' (acc ++ [c]) inp'
  | _, _ => (acc, inp)
  end.

Lemma does_gets k L n : forall acc x, (let '(line, rest) := take_line n acc (x_in x) in does (with_in x rest) (k line) L) -> does x (gets_from n acc k) L.
Proof.
  induction n as [|n IH]; intros acc x; cbn [take_line gets_from does]; [by destruct x|]. destruct (x_in x) as [|c i] eqn:E.
  - cbn. destruct x as [q nf np ks f j]. cbn in E. by subst j.
  - cbn [Z.ltb Z.compare Pos.compare Pos.compare_cont]. destruct ((c =? 10) || (c =? 13)); [done|]. intros H. by apply IH.
Qed.

Lemma take_line_len n : forall acc inp line rest, take_line n acc inp = (line, rest) -> (length line + length rest = length acc + length inp)%nat.
Proof.
  induction n as [|n IH]; intros acc inp line rest; cbn [take_line]; [intros [= <- <-]; done|]. destruct inp as [|c inp]; [intros [= <- <-]; done|].
  destruct ((c =? 10) || (c =? 13)); [intros [= <- <-]|intros H; apply IH in H]; rewrite ?length_app in *; cbn in *; lia.
Qed.

(** What one line does, and a session with the input [inp]. *)
Definition line_events (q : name) (line : word) (i o e : obj) : list event :=
  match parsecmd line line with
  | Ret (c, marked) _ => events q 0 (cmap (fun w => text_at marked w.1) c) i o e
  | _ => [EExit q []]
  end.
Fixpoint session (fuel : nat) (q : name) (nf : nat) (inp : word) (i o e : obj) : list event :=
  match fuel with
  | O => []
  | S n =>
      let '(buf, rest) := take_line 99 [] inp in
      let line := until_nul buf in
      if bool_decide (line = []) then [EExit q []]
      else if is_cd line then session n q nf rest i o e
      else line_events (q ++ [(0%nat, nf)]) line i o e ++ EWait q (std i o e) :: session n q (S nf) rest i o e
  end.

Lemma until_nul_no_nul l : 0 ∉ until_nul l.
Proof. induction l as [|c l IH]; cbn; [set_solver|]. destruct (Z.eqb_spec c 0) as [|]; [set_solver|]. rewrite elem_of_cons. naive_solver. Qed.

Lemma fds_ok_cmap {V W} (f : V -> W) c : fds_ok (cmap f c) <-> fds_ok c.
Proof. induction c as [argv|c IH w m fd|a IHa b IHb|a IHa b IHb|c IH]; cbn; rewrite ?IH, ?IHa, ?IHb; done. Qed.

Lemma plain_ok q o : plain o -> in_ok q o /\ out_ok q o.
Proof. by destruct o. Qed.

Lemma run_line_does q line i o e inp : 0 ∉ line -> plain i -> plain o -> plain e ->
  does (Ctx q 0 0 [] (std i o e) inp) (run_line line) (line_events q line i o e).
Proof.
  intros Hn Hi Ho He. pose proof (parsecmd_ends line Hn) as H. unfold ends in H. unfold run_line, line_events. destruct (parsecmd line line) as [[c l] s| | | |]; try done.
  apply runcmd_does; [apply fds_ok_cmap, H|by apply plain_ok|by apply plain_ok|done].
Qed.

Lemma prompts_does fuel i o e : plain i -> plain o -> plain e -> forall q nf inp, (length inp < fuel)%nat ->
  does (Ctx q nf 0 [] (std i o e) inp) (prompts fuel) (session fuel q nf inp i o e).
Proof.
  intros Hi Ho He. induction fuel as [|n IH]; intros q nf inp Hf; [lia|]. cbn [prompts getcmd does session]. apply does_gets. cbn [x_in]. change (100 - 1)%nat with 99%nat.
  destruct (take_line 99 [] inp) as [buf rest] eqn:E. pose proof (take_line_len _ _ _ _ _ E) as Hlen. unfold with_in. cbn [x_name x_forks x_pipes x_kids x_fds]. cbv zeta.
  case_bool_decide as Hb; [done|]. assert (length rest < n)%nat as Hr by (destruct buf; [done|]; cbn [length] in Hlen; lia).
  destruct (is_cd (until_nul buf)); [intros r; destruct (r <? 0); by apply IH|]. apply does_fork1; [apply run_line_does; [apply until_nul_no_nul|done..]|].
  intros pid Hp. destruct (Z.eqb_spec pid 0) as [?|_]; [lia|]. split; [apply std_placed; [by apply plain_ok|by apply plain_ok|done]|]. split; [done|]. intros j Hj. cbn in Hj. apply list_elem_of_singleton in Hj as ->.
  eexists. split; [done|]. unfold reaped, forked, next. cbn. rewrite decide_False by (by intros H; apply H). by apply IH.
Qed.

Lemma main_does fuel q i o e inp : plain i -> plain o -> plain e -> (length inp < fuel)%nat -> does (Ctx q 0 0 [] (std i o e) inp) (main fuel) (session fuel q 0 inp i o e).
Proof. intros Hi Ho He Hf. split; [exists (session fuel q 0 inp i o e); split; [done|]|]; by apply prompts_does. Qed.
End pool.

(** ** Properties *)

(** C18: whatever the interleaving of the processes and whichever calls fail, [runcmd] starts only
    the programs of its command, each at most once, by the process and with the descriptors that
    the command says: redirected files in their place, each pipe's two ends at the two sides of
    its [|], descriptors 0, 1 and 2 open and no other (so no end of a pipe stays open in a program
    that does not use it), and with no child left to wait for.  When no call fails and all its
    processes have exited, the record is exactly that of the command: all programs have been
    started; the parent of a pipe has waited twice, and the process of a list once, with no end of
    the pipe open meanwhile; and every process has exited with all its children waited for, but
    for the one of an [&].  And waiting means that: a child its parent no longer has to wait for
    has exited (so the second part of a list starts after the processes of the first). *)
Theorem runcmd_wiring (pid_of : name -> Z) c i o e inp s : (forall q, 0 < pid_of q) -> fds_ok c -> plain i -> plain o -> plain e ->
  rtc (step pid_of) (start (Ctx [] 0 0 [] (std i o e) inp) (runcmd c)) s ->
  programs (l_log s) ⊆+ programs (events [] 0 c i o e) /\
  (l_failed s = false -> (forall P, P ∈ l_procs s -> P.2 = Zombie) -> l_log s ≡ₚ events [] 0 c i o e) /\
  (forall P P' j, P ∈ l_procs s -> P' ∈ l_procs s -> x_name P'.1 = child_name P.1 j -> j ∈ x_kids P.1 \/ P'.2 = Zombie).
Proof.
  intros Hp Hc Hi Ho He Hst. pose proof (runcmd_does pid_of Hp c [] 0 i o e inp Hc (proj1 (plain_ok [] i Hi)) (proj2 (plain_ok [] o Ho)) He) as Hd.
  destruct (does_runs pid_of _ _ _ _ Hd Hst) as [H1 H2]. split; [done|]. split; [done|]. apply st_kids. eapply (settled_steps pid_of); [|exact Hst]. apply settled_start.
Qed.

(** C20: a session of the shell on the console input [inp]: the lines are read as [gets] cuts them,
    each is parsed and run by a child, for which the shell waits, [cd] lines start nothing, and the
    end of the input ends it.  Every run starts only the programs of these lines; when no call
    fails and all processes have exited, the record is exactly that of the lines.  And the shell
    does not hang, although a program that reads a pipe ends only after all writing ends of the
    pipe are closed, and one that writes a pipe only if its output is taken: as long as a process
    has not exited, some process can go on. *)
Theorem shell_session (pid_of : name -> Z) i o e inp fuel s : (forall q, 0 < pid_of q) -> plain i -> plain o -> plain e -> (length inp < fuel)%nat ->
  rtc (step pid_of) (start (Ctx [] 0 0 [] (std i o e) inp) (main fuel)) s ->
  (programs (l_log s) ⊆+ programs (session fuel [] 0 inp i o e) /\ (l_failed s = false -> (forall P, P ∈ l_procs s -> P.2 = Zombie) -> l_log s ≡ₚ session fuel [] 0 inp i o e)) /\
  (forall P, P ∈ l_procs s -> P.2 <> Zombie -> exists s', step pid_of s s').
Proof.
  intros Hp Hi Ho He Hf Hst. pose proof (main_does pid_of Hp fuel [] i o e inp Hi Ho He Hf) as Hd. split; [by eapply does_runs|]. intros P HP Hz.
  apply (no_deadlock pid_of (session fuel [] 0 inp i o e) s P); [by apply (accounts_steps _ _ _ _ (start_accounts _ _ _ _ Hd))| |done|done]. eapply (family_steps pid_of); [|exact Hst].
  intros Q j HQ Hj. cbn in HQ. apply list_elem_of_singleton in HQ as ->. cbn in Hj. by apply not_elem_of_nil in Hj.
Qed.

(** ** Runs

    A scheduler that lets the first process go on that can. *)
Module Sched.
Definition no_write (o : option obj) : bool := match o with Some (OWrite _ _) => false | _ => true end.
(** Enough for [input_ends] and [drains]. *)
Definition ends_now (l : list process) (x : ctx) : bool :=
  match x_fds x !! 0%nat with
  | Some (Some (ORead q n)) => forallb (fun P => negb (bool_decide (holds (OWrite q n) P))) l
  | _ => true
  end &&
  forallb (fun o => match o with
    | Some (OWrite q n) => existsb (fun P : process => match P with
        | (y, Program _) => bool_decide (x_fds y !! 0%nat = Some (Some (ORead q n))) && forallb no_write (x_fds y)
        | _ => false
        end) l
    | _ => true
    end) (x_fds x).

Lemma no_writes x : forallb no_write (x_fds x) = true -> forall q n, Some (OWrite q n) ∉ x_fds x.
Proof. intros H q n Hx. rewrite forallb_forall in H. apply list_elem_of_In in Hx. by specialize (H _ Hx). Qed.

Lemma ends_now_ok l x : ends_now l x = true -> input_ends l x /\ drains l x.
Proof.
  intros [H1 H2]%andb_true_iff. split.
  - intros q n P Hi HP Ho. rewrite Hi, forallb_forall in H1. apply list_elem_of_In in HP. specialize (H1 P HP). by rewrite bool_decide_true in H1.
  - constructor. intros q n Hx. right. rewrite forallb_forall in H2. apply list_elem_of_In in Hx. specialize (H2 _ Hx). cbn in H2.
    apply existsb_exists in H2 as ([y [| argv|]] & Hy & H2); [done| |done]. apply andb_true_iff in H2 as [H2 H3]. apply bool_decide_eq_true in H2.
    exists y, argv. split; [by apply list_elem_of_In|]. split; [done|]. constructor. intros q' n' H'. by destruct (no_writes y H3 q' n').
Qed.

Definition has_exited (q : name) (Q : process) : bool := match Q with (y, Zombie) => bool_decide (x_name y = q) | _ => false end.

Section sched.
Context (pid_of : name -> Z).

Definition go (l1 : list process) (P : process) (l2 : list process) : option (list process * list event) :=
  let '(x, st) := P in
  match st with
  | Zombie => None
  | Program argv => if ends_now (l1 ++ P :: l2) x then Some ([(x, Zombie)], [exit_of x]) else None
  | Code (PExit _) => Some ([(x, Zombie)], [exit_of x])
  | Code PNofuel => None
  | Code (PClose fd k) => let '(r, f) := do_close (x_fds x) fd in Some ([(with_fds x f, Code (k r))], [])
  | Code (POpen path mode k) => let '(r, f) := do_open (x_fds x) (OFile path mode) in Some ([(with_fds x f, Code (k r))], [])
  | Code (PDup fd k) => let '(r, f) := do_dup (x_fds x) fd in Some ([(with_fds x f, Code (k r))], [])
  | Code (PPipe k) => '(a, b, f) ← do_pipe (x_fds x) (x_name x) (x_pipes x); Some ([(piped x f, Code (k 0 a b))], [])
  | Code (PFork k) => Some ([(forked x, Code (k (pid_of (child_name x (next x))))); (child x, Code (k 0))], [])
  | Code (PWait k) =>
      match x_kids x with
      | [] => Some ([(x, Code (k (-1)))], [])
      | _ => j ← List.find (fun j => existsb (has_exited (child_name x j)) (l1 ++ l2)) (x_kids x);
             Some ([(reaped x j, Code (k (pid_of (child_name x j))))], [wait_of x])
      end
  | Code (PExec _ argv k) => Some ([(x, Program argv)], [exec_of x argv])
  | Code (PRead k) => Some (match x_in x with [] => ([(x, Code (k 0 0))], []) | c :: i => ([(with_in x i, Code (k 1 c))], []) end)
  | Code (PPrint _ _ k) => Some ([(x, Code k)], [])
  | Code (PChdir _ k) => Some ([(x, Code (k 0))], [])
  end.

Lemma go_step es l1 P l2 Ps ev : go l1 P l2 = Some (Ps, ev) -> step pid_of (Pool es false (l1 ++ P :: l2)) (Pool (es ++ ev) false (l1 ++ Ps ++ l2)).
Proof.
  destruct P as [x [p|argv|]]; cbn; [| |done].
  2:{ destruct (ends_now _ x) eqn:E; [|done]. intros [= <- <-]. apply ends_now_ok in E as [E1 E2]. by apply s_ends. }
  assert (forall Ps ev, acts pid_of (x, Code p) Ps ev false -> step pid_of (Pool es false (l1 ++ (x, Code p) :: l2)) (Pool (es ++ ev) false (l1 ++ Ps ++ l2))) as Ha by (intros ? ?; apply (s_act _ es false)).
  destruct p; try done.
  - intros [= <- <-]. apply Ha, a_exit.
  - destruct (do_close _ _) as [r f] eqn:E. intros [= <- <-]. apply Ha. by apply a_close.
  - destruct (do_open _ _) as [r f] eqn:E. intros [= <- <-]. apply Ha. by apply a_open.
  - destruct (do_dup _ _) as [r f] eqn:E. intros [= <- <-]. apply Ha. by apply a_dup.
  - destruct (do_pipe _ _ _) as [[[a b] f]|] eqn:E; [|done]. intros [= <- <-]. apply Ha. by apply a_pipe.
  - intros [= <- <-]. apply Ha, a_fork.
  - destruct (x_kids x) as [|j0 js] eqn:Ek; [intros [= <- <-]; apply Ha; by apply a_wait_none|]. destruct (List.find _ _) as [j|] eqn:E; [|done]. intros [= <- <-].
    apply find_some in E as [E1 E2]. apply existsb_exists in E2 as ([y []] & Hy & E2); [done|done|]. apply bool_decide_eq_true in E2.
    apply (s_wait _ es false l1 x k l2 j y); [rewrite Ek; by apply list_elem_of_In|by apply list_elem_of_In|done].
  - intros [= <- <-]. apply Ha, a_exec.
  - destruct (x_in x) as [|c i] eqn:E; intros [= <- <-]; apply Ha; [by apply a_read_end|by apply a_read].
  - intros [= <- <-]. apply Ha, a_print.
  - intros [= <- <-]. apply Ha. apply (a_chdir _ _ _ _ 0).
Qed.

Fixpoint first (es : list event) (l1 l2 : list process) : option pool :=
  match l2 with
  | [] => None
  | P :: l2' =>
      match go l1 P l2' with
      | Some (Ps, ev) => Some (Pool (es ++ ev) false (l1 ++ Ps ++ l2'))
      | None => first es (l1 ++ [P]) l2'
      end
  end.

Lemma first_step es l2 : forall l1 s, first es l1 l2 = Some s -> step pid_of (Pool es false (l1 ++ l2)) s /\ l_failed s = false.
Proof.
  induction l2 as [|P l2 IH]; intros l1 s; cbn; [done|]. destruct (go l1 P l2) as [[Ps ev]|] eqn:E.
  - intros [= <-]. split; [by apply go_step|done].
  - intros H. apply IH in H. by rewrite <- app_assoc in H.
Qed.

Fixpoint sched (n : nat) (s : pool) : pool :=
  match n with
  | O => s
  | S n => match first (l_log s) [] (l_procs s) with Some s' => sched n s' | None => s end
  end.

Lemma sched_steps n : forall s, l_failed s = false -> rtc (step pid_of) s (sched n s) /\ l_failed (sched n s) = false.
Proof.
  induction n as [|n IH]; intros [es b l]; cbn; [done|]. intros ->. destruct (first es [] l) as [s'|] eqn:E; [|done].
  apply first_step in E as [E1 E2]. destruct (IH s' E2) as [H1 H2]. split; [by eapply rtc_l|done].
Qed.
End sched.

Definition all_exited (s : pool) : bool := forallb (fun P : process => negb (live P.2)) (l_procs s).
Lemma all_exited_ok s : all_exited s = true -> forall P, P ∈ l_procs s -> P.2 = Zombie.
Proof. unfold all_exited. rewrite forallb_forall. intros H P HP%list_elem_of_In. specialize (H P HP). by destruct P.2. Qed.
End Sched.

(** [(a | b) ; c < f] run to its end: three programs, five processes' waits and exits. *)
Lemma runcmd_wiring_witness :
  let c := LIST (PIPE (EXEC [str "a"]) (EXEC [str "b"])) (REDIR (EXEC [str "c"]) (str "f") RD_IN 0) in
  let s := Sched.sched (fun _ => 1) 60 (start (Ctx [] 0 0 [] (std (OCons 1) (OCons 1) (OCons 1)) []) (runcmd c)) in
  length (programs (l_log s)) = 3%nat /\ l_log s ≡ₚ events [] 0 c (OCons 1) (OCons 1) (OCons 1).
Proof.
  intros c s. split; [vm_compute; reflexivity|].
  destruct (Sched.sched_steps (fun _ => 1) 60 (start (Ctx [] 0 0 [] (std (OCons 1) (OCons 1) (OCons 1)) []) (runcmd c)) eq_refl) as [Hst Hf].
  apply (proj1 (proj2 (runcmd_wiring (fun _ => 1) c (OCons 1) (OCons 1) (OCons 1) [] s ltac:(done) ltac:(cbn; auto) I I I Hst))); [exact Hf|].
  apply Sched.all_exited_ok. vm_compute. reflexivity.
Defined.

(** The line "a|b" run to its end, and a state of that run in which the second program waits for
    its input while the first is still being started. *)
Lemma shell_session_witness :
  let inp := str "a|b" ++ [10] in
  let run n := Sched.sched (fun _ => 1) n (start (Ctx [] 0 0 [] (std (OCons 1) (OCons 1) (OCons 1)) inp) (main 6)) in
  l_log (run 80%nat) ≡ₚ session 6 [] 0 inp (OCons 1) (OCons 1) (OCons 1) /\ exists s', step (fun _ => 1) (run 22%nat) s'.
Proof.
  intros inp run. split.
  - destruct (Sched.sched_steps (fun _ => 1) 80 (start (Ctx [] 0 0 [] (std (OCons 1) (OCons 1) (OCons 1)) inp) (main 6)) eq_refl) as [Hst Hf].
    apply (proj1 (shell_session (fun _ => 1) (OCons 1) (OCons 1) (OCons 1) inp 6 (run 80%nat) ltac:(done) I I I ltac:(vm_compute; lia) Hst)); [exact Hf|].
    apply Sched.all_exited_ok. vm_compute. reflexivity.
  - destruct (Sched.sched_steps (fun _ => 1) 22 (start (Ctx [] 0 0 [] (std (OCons 1) (OCons 1) (OCons 1)) inp) (main 6)) eq_refl) as [Hst Hf].
    assert ((match l_procs (run 22%nat) with P :: _ => live P.2 | [] => false end) = true) as Hl by (vm_compute; reflexivity).
    assert (exists P, P ∈ l_procs (run 22%nat) /\ P.2 <> Zombie) as (P & HP & Hz).
    { destruct (l_procs (run 22%nat)) as [|P r]; [discriminate Hl|]. exists P. split; [by left|]. by destruct P as [x []]. }
    exact (proj2 (shell_session (fun _ => 1) (OCons 1) (OCons 1) (OCons 1) inp 6 (run 22%nat) ltac:(done) I I I ltac:(vm_compute; lia) Hst) P HP Hz).
Defined.
