(* ===== verification/FsDisk.v ===== *)
(** * What the file system relies on

    The layers below [fs.c] as it sees them inside one operation (between
    [begin_op] and [end_op]): the contents of the device's blocks, the buffers the
    process holds, the blocks the operation has logged, kernel memory and the locks
    held.  Class [DiskOk] says what [bread], [brelse], [log_write] and the copying
    routines do to this view; [FsReal.v] proves it of [bio.c], [log.c] and
    [proc.c]. *)

From Stdlib Require Import ZArith Lia.
From stdpp Require Import base numbers list gmap strings sets.
From S2P Require Import Prelude CString Riscv Spinlock Locks Bio BioView Block Log Fs.

(** A held buffer: its number and whether it was changed since it was read or
    logged. *)
Record aview := AV {
  acont : Z -> block;
  ahold : gmap Z (Z * bool);
  atxn : gset Z;
  amem : memory;
  alocks : gset Z;
  apid : Z }.

Definition a_hold (h : gmap Z (Z * bool)) (A : aview) : aview :=
  AV (acont A) h (atxn A) (amem A) (alocks A) (apid A).
Definition a_read (n b : Z) (A : aview) : aview := a_hold (<[n := (b, false)]> (ahold A)) A.
Definition a_relse (n : Z) (A : aview) : aview := a_hold (delete n (ahold A)) A.
Definition a_set (n b : Z) (d : block) (A : aview) : aview :=
  AV (upd_at (acont A) n d) (<[n := (b, true)]> (ahold A)) (atxn A) (amem A) (alocks A) (apid A).
Definition a_log (n b : Z) (A : aview) : aview :=
  AV (acont A) (<[n := (b, false)]> (ahold A)) ({[n]} ∪ atxn A) (amem A) (alocks A) (apid A).
Definition a_mem (m : memory) (A : aview) : aview :=
  AV (acont A) (ahold A) (atxn A) m (alocks A) (apid A).
Definition a_locks (x : gset Z) (A : aview) : aview :=
  AV (acont A) (ahold A) (atxn A) (amem A) x (apid A).

(** The buffers in use: held, or pinned by the log. *)
Definition in_use (A : aview) : gset Z := dom (ahold A) ∪ atxn A.

Definition card (X : gset Z) : nat := base.size X.

Definition good_block (d : block) : Prop := length d = Z.to_nat BSIZE /\ Forall is_byte d.

Class DiskOk (S : Type) `{FsBase S} (dv : Z) (nbufs : nat) := {
  drep : S -> aview -> Prop;
  d_locks : forall s A, drep s A -> held s = alocks A /\ curpid s = apid A;
  d_good : forall s A n, drep s A -> good_block (acont A n);
  (* the locks of [fs.c] *)
  d_set_held : forall s A x, drep s A -> (forall k, k ∈ x -> ITABLE_LOCK <= k) -> drep (set_held x s) (a_locks x A);
  d_kmem : forall s A, drep s A -> kmem s = amem A;
  d_set_kmem : forall s A m, drep s A -> drep (set_kmem m s) (a_mem m A);
  d_bdata : forall s A n b f, drep s A -> ahold A !! n = Some (b, f) -> bdata s b = acont A n;
  d_set : forall s A n b f d, drep s A -> ahold A !! n = Some (b, f) -> good_block d ->
    drep (set_bdata b d s) (a_set n b d A);
  (* a process that calls these may sleep, and therefore holds no spin lock *)
  d_bread : forall s A n, drep s A -> alocks A = ∅ -> ahold A !! n = None ->
    (card ({[n]} ∪ in_use A) <= nbufs)%nat ->
    wp (bread dv n) (fun b s' => drep s' (a_read n b A)) s;
  d_brelse : forall s A n b, drep s A -> alocks A = ∅ -> ahold A !! n = Some (b, false) ->
    wp (brelse b) (fun _ s' => drep s' (a_relse n A)) s;
  d_log_write : forall s A n b f, drep s A -> alocks A = ∅ -> ahold A !! n = Some (b, f) ->
    Z.of_nat (card ({[n]} ∪ atxn A)) <= MAXOPBLOCKS ->
    wp (log_write b) (fun _ s' => drep s' (a_log n b A)) s;
  d_copyout : forall s A n b f dst off len, drep s A -> ahold A !! n = Some (b, f) ->
    0 <= off -> 0 <= len -> off + len <= BSIZE ->
    wp (either_copyout false dst b off len) (fun r s' => r = 0 /\ exists m, drep s' (a_mem m A) /\
      forall a, rd8 m a = if decide (dst <= a < dst + len)
        then nth (Z.to_nat (off + (a - dst))) (acont A n) 0 else rd8 (amem A) a) s;
  d_copyin : forall s A n b f src off len, drep s A -> ahold A !! n = Some (b, f) ->
    0 <= off -> 0 <= len -> off + len <= BSIZE ->
    wp (either_copyin b off false src len) (fun r s' => r = 0 /\
      drep s' (a_set n b (splice (acont A n) off (bytes (amem A) src (Z.to_nat len))) A)) s;
}.

(** ** Rules for the code of [fs.c]

    The whole state: the view with [sb], [itable] and [cwd]. *)
Record fview := FV { fA : aview; fsb : superblock; fit : gmap Z inode; fcwd : Z }.

Definition on_a (f : aview -> aview) (F : fview) : fview := FV (f (fA F)) (fsb F) (fit F) (fcwd F).
Definition on_it (f : gmap Z inode -> gmap Z inode) (F : fview) : fview :=
  FV (fA F) (fsb F) (f (fit F)) (fcwd F).
Definition finode (F : fview) (i : Z) : inode := default inode0 (fit F !! i).
Definition cont (F : fview) (n : Z) : block := acont (fA F) n.
Definition hold (F : fview) : gmap Z (Z * bool) := ahold (fA F).
Definition txn (F : fview) : gset Z := atxn (fA F).
Definition locks (F : fview) : gset Z := alocks (fA F).

Section rules.
Context {S : Type} `{D : DiskOk S dv nbufs}.
Implicit Types (s : fstate S) (F : fview).

Record frep s F : Prop := {
  fr_base : drep (base s) (fA F);
  fr_sb : sb s = fsb F;
  fr_it : itable s = fit F;
  fr_cwd : cwd s = fcwd F;
}.

Lemma f_inode s F i : frep s F -> inode_of s i = finode F i.
Proof. intros [_ _ E _]. unfold inode_of, finode. by rewrite E. Qed.

Lemma wp_flift {A} (m : M S A) s F (P : A -> aview -> Prop) (Q : A -> fstate S -> Prop) : frep s F ->
  wp m (fun a x => exists A', P a A' /\ drep x A') (base s) ->
  (forall a s' A', P a A' -> frep s' (on_a (fun _ => A') F) -> Q a s') -> wp (lift m) Q s.
Proof.
  intros [R1 R2 R3 R4] Hm HQ. apply wp_zoom. eapply wp_mono; [exact Hm|]. cbn beta.
  intros a x (A' & HP & R). by apply (HQ a _ A').
Qed.

Lemma f_bread s F n (Q : Z -> fstate S -> Prop) : frep s F -> locks F = ∅ -> hold F !! n = None ->
  (card ({[n]} ∪ in_use (fA F)) <= nbufs)%nat ->
  (forall b s', frep s' (on_a (a_read n b) F) -> Q b s') -> wp (lift (bread dv n)) Q s.
Proof.
  intros R Hl Hh Hs HQ. apply (wp_flift _ s F (fun b A' => A' = a_read n b (fA F)) _ R).
  - eapply wp_mono; [by apply d_bread; [apply R|..]|]. cbn beta. eauto.
  - intros b s' A' -> R'. by apply HQ.
Qed.

Lemma f_brelse s F n b (Q : unit -> fstate S -> Prop) : frep s F -> locks F = ∅ -> hold F !! n = Some (b, false) ->
  (forall s', frep s' (on_a (a_relse n) F) -> Q tt s') -> wp (lift (brelse b)) Q s.
Proof.
  intros R Hl Hh HQ. apply (wp_flift _ s F (fun _ A' => A' = a_relse n (fA F)) _ R).
  - eapply wp_mono; [by apply d_brelse; [apply R|..]|]. cbn beta. eauto.
  - intros [] s' A' -> R'. by apply HQ.
Qed.

Lemma f_log s F n b f (Q : unit -> fstate S -> Prop) : frep s F -> locks F = ∅ -> hold F !! n = Some (b, f) ->
  Z.of_nat (card ({[n]} ∪ txn F)) <= MAXOPBLOCKS ->
  (forall s', frep s' (on_a (a_log n b) F) -> Q tt s') -> wp (lift (log_write b)) Q s.
Proof.
  intros R Hl Hh Hs HQ. apply (wp_flift _ s F (fun _ A' => A' = a_log n b (fA F)) _ R).
  - eapply wp_mono; [by eapply d_log_write; [apply R|..]|]. cbn beta. eauto.
  - intros [] s' A' -> R'. by apply HQ.
Qed.

Lemma f_data s F n b f (Q : block -> fstate S -> Prop) : frep s F -> hold F !! n = Some (b, f) ->
  Q (cont F n) s -> wp (buf_data b) Q s.
Proof. intros R Hh HQ. apply wp_gets. rewrite (d_bdata (base s) (fA F) n b f); [done|apply R|done]. Qed.

Lemma f_set s F n b f d (Q : unit -> fstate S -> Prop) : frep s F -> hold F !! n = Some (b, f) -> good_block d ->
  (forall s', frep s' (on_a (a_set n b d) F) -> Q tt s') -> wp (set_buf_data b d) Q s.
Proof.
  intros [R1 R2 R3 R4] Hh Hd HQ. apply wp_modify, HQ. split; try done. cbn. by apply (d_set _ _ _ _ f).
Qed.

Lemma f_gets {A} (g : fstate S -> A) v s F (Q : A -> fstate S -> Prop) : frep s F ->
  (forall s, frep s F -> g s = v) -> Q v s -> wp (gets g) Q s.
Proof. intros R Hg HQ. apply wp_gets. by rewrite Hg. Qed.

Lemma f_upd s F i f (Q : unit -> fstate S -> Prop) : frep s F ->
  (forall s', frep s' (on_it (insert i (f (finode F i))) F) -> Q tt s') -> wp (upd_inode i f) Q s.
Proof.
  intros R HQ. apply wp_modify, HQ. rewrite (f_inode _ _ _ R). destruct R as [R1 R2 R3 R4].
  split; try done. cbn. by rewrite R3.
Qed.

Lemma good_cont s F n : frep s F -> good_block (cont F n).
Proof. intros R. by apply (d_good (base s)), R. Qed.
End rules.
