(* ===== verification/FsBlocks.v ===== *)
(** * The block allocator

    [balloc] and [bfree] of [kernel/fs.c] on the free-block bitmap. *)

From Stdlib Require Import ZArith Lia.
From stdpp Require Import base numbers list gmap strings sets.
From S2P Require Import Prelude CString Riscv Spinlock Locks Bio BioView Block Log Fs FsDisk.

(** ** Bits of a bitmap block *)

Lemma bit_clear_testbit d bi : 0 <= bi -> bit_clear d bi = negb (Z.testbit (byte_at d (bi / 8)) (bi mod 8)).
Proof.
  intros Hb. unfold bit_clear, bit_mask. rewrite Z.shiftl_1_l.
  assert (0 <= bi mod 8 < 8) as Hm by by apply Z.mod_pos_bound.
  destruct (Z.testbit _ _) eqn:E; cbn [negb].
  - apply Z.eqb_neq. intros E0. apply (f_equal (fun x => Z.testbit x (bi mod 8))) in E0.
    rewrite Z.land_spec, Z.pow2_bits_true, E, Z.bits_0 in E0 by lia. done.
  - apply Z.eqb_eq, Z.bits_inj'. intros n Hn. rewrite Z.land_spec, Z.pow2_bits_eqb, Z.bits_0 by lia.
    destruct (Z.eqb_spec (bi mod 8) n) as [<-|]; [by rewrite E|by rewrite andb_false_r].
Qed.

Lemma byte_at_range d i : Forall is_byte d -> 0 <= byte_at d i < 256.
Proof.
  intros Hd. unfold byte_at. rewrite nth_lookup. destruct (d !! Z.to_nat i) as [x|] eqn:E; cbn; [|lia].
  exact (Forall_lookup_1 _ _ _ _ Hd E).
Qed.

Lemma byte_at_set d i j v : 0 <= i < Z.of_nat (length d) -> 0 <= j ->
  byte_at (set_byte d i v) j = if decide (i = j) then u8 v else byte_at d j.
Proof.
  intros Hi Hj. unfold byte_at, set_byte, block in *. rewrite !nth_lookup. case_decide as E.
  - subst j. by rewrite list_lookup_insert_eq by lia.
  - rewrite list_lookup_insert_ne by lia. done.
Qed.

Lemma good_set_byte d i v : good_block d -> good_block (set_byte d i v).
Proof.
  intros [Hl Hb]. unfold set_byte, block in *. split; [by rewrite length_insert|]. apply Forall_insert; [done|].
  unfold is_byte, u8. by apply Z.mod_pos_bound.
Qed.

(** Setting or clearing one bit. *)
Definition set_bit (d : block) (bi : Z) : block := set_byte d (bi / 8) (Z.lor (byte_at d (bi / 8)) (bit_mask bi)).
Definition clear_bit (d : block) (bi : Z) : block :=
  set_byte d (bi / 8) (Z.land (byte_at d (bi / 8)) (Z.lnot (bit_mask bi))).

Lemma testbit_u8 v k : 0 <= k < 8 -> Z.testbit (u8 v) k = Z.testbit v k.
Proof. intros. unfold u8. by rewrite Z.mod_pow2_bits_low by lia. Qed.

Lemma bit_place bi bj : 0 <= bi -> 0 <= bj -> bi / 8 = bj / 8 -> bi mod 8 = bj mod 8 -> bi = bj.
Proof. intros. dlia. Qed.

Lemma bit_clear_set d bi bj : good_block d -> 0 <= bi < BPB -> 0 <= bj ->
  bit_clear (set_bit d bi) bj = if decide (bi = bj) then false else bit_clear d bj.
Proof.
  intros [Hl Hb] Hi Hj. unfold set_bit. rewrite !bit_clear_testbit by done.
  assert (0 <= bi mod 8 < 8 /\ 0 <= bj mod 8 < 8) as [M1 M2] by (split; by apply Z.mod_pos_bound).
  rewrite byte_at_set by (rewrite ?Hl; unfold BPB, BSIZE in *; dlia).
  destruct (decide (bi / 8 = bj / 8)) as [E|E].
  - rewrite testbit_u8, Z.lor_spec, E by done. unfold bit_mask. rewrite Z.shiftl_1_l, Z.pow2_bits_eqb by lia.
    destruct (decide (bi = bj)) as [->|Hne]; [by rewrite Z.eqb_refl, orb_true_r|].
    destruct (Z.eqb_spec (bi mod 8) (bj mod 8)) as [E2|_]; [destruct Hne; apply bit_place; (done || lia)|by rewrite orb_false_r].
  - rewrite decide_False; [done|]. intros ->. done.
Qed.

Lemma bit_clear_clear d bi bj : good_block d -> 0 <= bi < BPB -> 0 <= bj ->
  bit_clear (clear_bit d bi) bj = if decide (bi = bj) then true else bit_clear d bj.
Proof.
  intros [Hl Hb] Hi Hj. unfold clear_bit. rewrite !bit_clear_testbit by done.
  assert (0 <= bi mod 8 < 8 /\ 0 <= bj mod 8 < 8) as [M1 M2] by (split; by apply Z.mod_pos_bound).
  rewrite byte_at_set by (rewrite ?Hl; unfold BPB, BSIZE in *; dlia).
  destruct (decide (bi / 8 = bj / 8)) as [E|E].
  - rewrite testbit_u8, Z.land_spec, E by done. unfold bit_mask.
    rewrite Z.lnot_spec, Z.shiftl_1_l, Z.pow2_bits_eqb by lia.
    destruct (decide (bi = bj)) as [->|Hne]; [by rewrite Z.eqb_refl, andb_false_r|].
    destruct (Z.eqb_spec (bi mod 8) (bj mod 8)) as [E2|_]; [destruct Hne; apply bit_place; (done || lia)|by rewrite andb_true_r].
  - rewrite decide_False; [done|]. intros ->. done.
Qed.

Lemma find_clear_Some n d b bi sz j : find_clear n d b bi sz = Some j -> 0 <= bi ->
  bi <= j < bi + Z.of_nat n /\ b + j < sz /\ bit_clear d j = true /\
  forall k, bi <= k < j -> bit_clear d k = false.
Proof.
  revert bi; induction n as [|n IH]; intros bi; cbn [find_clear]; [done|].
  destruct (b + bi <? sz) eqn:E1; cbn [negb]; [|done]. destruct (bit_clear d bi) eqn:E2; to_prop.
  - intros [= <-] Hb. repeat split; try done; lia.
  - intros Hf Hb. apply IH in Hf as (H1 & H2 & H3 & H4); [|lia]. split; [lia|]. split; [done|]. split; [done|].
    intros k Hk. destruct (decide (k = bi)) as [->|]; [done|]. apply H4. lia.
Qed.

Lemma find_clear_None n d b bi sz : find_clear n d b bi sz = None ->
  forall k, bi <= k < bi + Z.of_nat n -> b + k < sz -> bit_clear d k = false.
Proof.
  revert bi; induction n as [|n IH]; intros bi; cbn [find_clear]; [lia|].
  destruct (b + bi <? sz) eqn:E1; cbn [negb]; to_prop.
  - destruct (bit_clear d bi) eqn:E2; [done|]. intros Hf k Hk Hs.
    destruct (decide (k = bi)) as [->|]; [done|]. apply (IH (bi + 1)); [done|lia|done].
  - intros _ k Hk Hs. lia.
Qed.

(** ** The layout of the disk *)

(** The first block after the bitmap. *)
Definition dstart (sb : superblock) : Z := bmapstart sb + (sb_size sb - 1) / BPB + 1.

Record layout (sb : superblock) : Prop := {
  lay_size : 0 < sb_size sb < 2 ^ 31;
  lay_inodes : 0 < inodestart sb /\ inodestart sb + ninodes sb / IPB < bmapstart sb /\ 0 <= ninodes sb;
  lay_data : dstart sb <= sb_size sb;
}.

Definition used (F : fview) (b : Z) : bool := negb (bit_clear (cont F (BBLOCK b (fsb F))) (b mod BPB)).
Definition data_block (F : fview) (b : Z) : Prop := dstart (fsb F) <= b < sb_size (fsb F).

(** The bitmap marks everything before the data blocks. *)
Definition bitmap_ok (F : fview) : Prop := forall b, 0 <= b < dstart (fsb F) -> used F b = true.

Lemma bblock_range sb b : layout sb -> 0 <= b < sb_size sb -> bmapstart sb <= BBLOCK b sb < dstart sb.
Proof.
  intros [L1 L2 L3] Hb. unfold BBLOCK, dstart, BPB, BSIZE in *. split; [|]; dlia.
Qed.

Lemma bblock_data F b n : layout (fsb F) -> 0 <= b < sb_size (fsb F) -> data_block F n -> BBLOCK b (fsb F) <> n.
Proof. intros L Hb [Hn _]. pose proof (bblock_range _ _ L Hb). lia. Qed.

(** The view with block [b] allocated, or freed. *)
Definition put_cont (n : Z) (d : block) (F : fview) : fview :=
  on_a (fun A => AV (upd_at (acont A) n d) (ahold A) ({[n]} ∪ atxn A) (amem A) (alocks A) (apid A)) F.
Definition v_alloc (b : Z) (F : fview) : fview :=
  put_cont b zero_block (put_cont (BBLOCK b (fsb F)) (set_bit (cont F (BBLOCK b (fsb F))) (b mod BPB)) F).
Definition v_free (b : Z) (F : fview) : fview :=
  put_cont (BBLOCK b (fsb F)) (clear_bit (cont F (BBLOCK b (fsb F))) (b mod BPB)) F.

Lemma cont_put n d F x : cont (put_cont n d F) x = if decide (x = n) then d else cont F x.
Proof. done. Qed.

Lemma bblock_same b x sb : 0 <= b -> 0 <= x -> BBLOCK x sb = BBLOCK b sb -> x mod BPB = b mod BPB -> x = b.
Proof. unfold BBLOCK, BPB, BSIZE. intros. dlia. Qed.

(** Exactly the block's bit changes. *)
Lemma used_bit (F : fview) b x d : layout (fsb F) -> good_block (cont F (BBLOCK b (fsb F))) ->
  0 <= b -> 0 <= x ->
  (d = set_bit (cont F (BBLOCK b (fsb F))) (b mod BPB) \/ d = clear_bit (cont F (BBLOCK b (fsb F))) (b mod BPB)) ->
  negb (bit_clear (upd_at (acont (fA F)) (BBLOCK b (fsb F)) d (BBLOCK x (fsb F))) (x mod BPB)) =
  if decide (x = b) then negb (bit_clear d (b mod BPB)) else used F x.
Proof.
  intros L Hg Hb Hx Hd. unfold upd_at. case_decide as E; case_decide as E'; subst; try done.
  unfold used. rewrite E. fold (cont F (BBLOCK b (fsb F))).
  assert (0 <= b mod BPB < BPB /\ 0 <= x mod BPB < BPB) as [M1 M2] by (split; by apply Z.mod_pos_bound).
  destruct Hd as [-> | ->]; [rewrite bit_clear_set by (done || lia)|rewrite bit_clear_clear by (done || lia)];
    rewrite decide_False; try done; intros E2; apply E'; by apply (bblock_same _ _ (fsb F)).
Qed.

Lemma used_set_bit F b x : layout (fsb F) -> good_block (cont F (BBLOCK b (fsb F))) -> 0 <= b -> 0 <= x ->
  used (put_cont (BBLOCK b (fsb F)) (set_bit (cont F (BBLOCK b (fsb F))) (b mod BPB)) F) x =
    if decide (x = b) then true else used F x.
Proof.
  intros L Hg H0 Hx. etransitivity; [apply (used_bit F b x _ L Hg H0 Hx); by left|].
  case_decide; [|done]. assert (0 <= b mod BPB < BPB) as M1 by by apply Z.mod_pos_bound.
  by rewrite bit_clear_set, decide_True by (done || lia).
Qed.

(** Data blocks are not in the bitmap. *)
Lemma used_put_data F n d x : layout (fsb F) -> data_block F n -> 0 <= x < sb_size (fsb F) ->
  used (put_cont n d F) x = used F x.
Proof.
  intros L Hn Hx. unfold used. rewrite cont_put. cbn [fsb put_cont on_a].
  rewrite decide_False; [done|]. by apply bblock_data.
Qed.

Lemma used_alloc F b x : layout (fsb F) -> good_block (cont F (BBLOCK b (fsb F))) ->
  data_block F b -> 0 <= b -> 0 <= x < sb_size (fsb F) ->
  used (v_alloc b F) x = if decide (x = b) then true else used F x.
Proof.
  intros L Hg Hb H0 Hx. unfold v_alloc. rewrite used_put_data by done. apply used_set_bit; (done || lia).
Qed.

Lemma used_free F b x : layout (fsb F) -> good_block (cont F (BBLOCK b (fsb F))) ->
  0 <= b -> 0 <= x -> used (v_free b F) x = if decide (x = b) then false else used F x.
Proof.
  intros L Hg H0 Hx. etransitivity; [apply (used_bit F b x _ L Hg H0 Hx); by right|].
  case_decide; [|done]. assert (0 <= b mod BPB < BPB) as M1 by by apply Z.mod_pos_bound.
  by rewrite bit_clear_clear, decide_True by (done || lia).
Qed.

(** ** Room in the transaction and in the cache

    The operation may log the blocks of [M] (the bitmap, the inode's block) and [k]
    others. *)
Definition budget (M : gset Z) (F : fview) (k : Z) : Prop :=
  Z.of_nat (card (M ∪ txn F)) + k <= MAXOPBLOCKS.
Definition few (k : nat) (F : fview) : Prop := (base.size (hold F) <= k)%nat.

Lemma card_le X Y : X ⊆ Y -> (card X <= card Y)%nat.
Proof. apply subseteq_size. Qed.
Lemma card_add n X : (card ({[n]} ∪ X) <= 1 + card X)%nat.
Proof. unfold card. rewrite size_union_alt, size_singleton. pose proof (subseteq_size (X ∖ {[n]}) X). set_solver by lia. Qed.
Lemma card_union X Y : (card (X ∪ Y) <= card X + card Y)%nat.
Proof. unfold card. rewrite size_union_alt. assert (base.size (Y ∖ X) <= base.size Y)%nat by (apply subseteq_size; set_solver). lia. Qed.

Lemma bread_room M F k n nb : budget M F k -> 0 <= k -> few 2 F -> (13 <= nb)%nat ->
  (card ({[n]} ∪ in_use (fA F)) <= nb)%nat.
Proof.
  unfold budget, few, in_use, MAXOPBLOCKS. intros Hb Hk Hf Hnb.
  assert (card (dom (ahold (fA F))) <= 2)%nat as H1 by (unfold card; rewrite size_dom; exact Hf).
  assert (card (atxn (fA F)) <= card (M ∪ txn F))%nat as H2 by (apply card_le; unfold txn; set_solver).
  pose proof (card_union (dom (ahold (fA F))) (atxn (fA F))).
  pose proof (card_add n (dom (ahold (fA F)) ∪ atxn (fA F))). lia.
Qed.

Lemma log_room M F n k : budget M F (if decide (n ∈ M ∪ txn F) then k else k + 1) -> 0 <= k ->
  Z.of_nat (card ({[n]} ∪ txn F)) <= MAXOPBLOCKS.
Proof.
  unfold budget. intros Hb Hk. assert (card ({[n]} ∪ txn F) <= card ({[n]} ∪ (M ∪ txn F)))%nat by (apply card_le; set_solver).
  case_decide as E.
  - replace ({[n]} ∪ (M ∪ txn F)) with (M ∪ txn F) in H by set_solver. lia.
  - pose proof (card_add n (M ∪ txn F)). lia.
Qed.

Lemma budget_put M F n d k : budget M F (if decide (n ∈ M ∪ txn F) then k else k + 1) -> budget M (put_cont n d F) k.
Proof.
  unfold budget. change (txn (put_cont n d F)) with ({[n]} ∪ txn F). intros Hb. case_decide as E.
  - replace (M ∪ ({[n]} ∪ txn F)) with (M ∪ txn F) by set_solver. lia.
  - replace (M ∪ ({[n]} ∪ txn F)) with ({[n]} ∪ (M ∪ txn F)) by set_solver. pose proof (card_add n (M ∪ txn F)). lia.
Qed.

Lemma budget_le M F k k' : budget M F k -> k' <= k -> budget M F k'.
Proof. unfold budget. lia. Qed.

(** Reading a block, changing it, logging and releasing it. *)
Lemma view_update F n b d : hold F !! n = None ->
  on_a (a_relse n) (on_a (a_log n b) (on_a (a_set n b d) (on_a (a_read n b) F))) = put_cont n d F.
Proof.
  intros Hn. unfold put_cont, on_a, a_relse, a_hold, a_log, a_set, a_read. cbn. do 2 f_equal.
  rewrite !insert_insert_eq. by apply delete_insert_id.
Qed.
Lemma view_read F n b : hold F !! n = None -> on_a (a_relse n) (on_a (a_read n b) F) = F.
Proof.
  intros Hn. unfold on_a, a_relse, a_hold, a_read. destruct F as [[]]. cbn in *. do 2 f_equal. by apply delete_insert_id.
Qed.

Lemma hold_read F n b x : hold (on_a (a_read n b) F) !! x = if decide (n = x) then Some (b, false) else hold F !! x.
Proof. unfold hold. cbn. rewrite lookup_insert. done. Qed.

Lemma good_zero : good_block zero_block.
Proof. split; [done|]. unfold zero_block. apply Forall_replicate. unfold is_byte. lia. Qed.

Lemma dstart_pos F : layout (fsb F) -> 0 < dstart (fsb F).
Proof.
  intros [L1 (L2 & L3 & L4) _]. unfold dstart. change BPB with 8192. change IPB with 16 in L3. dlia.
Qed.

Section blocks.
Context (M : gset Z).
Implicit Types F : fview.

(** What every routine of [fs.c] below assumes: the process holds no spin lock and
    at most [k] buffers, and the bitmap is in [M]. *)
Record calm (k : nat) F : Prop := {
  c_locks : locks F = ∅;
  c_few : few k F;
  c_layout : layout (fsb F);
  c_map : forall b, 0 <= b < sb_size (fsb F) -> BBLOCK b (fsb F) ∈ M;
  c_bits : bitmap_ok F;
  c_held : forall n, hold F !! n <> None -> data_block F n /\ used F n = true;
  c_txn : forall n, n ∈ txn F -> n ∈ M \/ data_block F n;
}.

Lemma calm_le k k' F : (k <= k')%nat -> calm k F -> calm k' F.
Proof. intros Hk [? ? ? ? ? ? ?]. split; try done. unfold few in *. lia. Qed.

(** Marking more blocks, and writing data blocks, keeps the assumptions. *)
Lemma calm_more k F F' : calm k F -> hold F' = hold F -> locks F' = locks F -> fsb F' = fsb F ->
  (forall n, n ∈ txn F' -> n ∈ txn F \/ n ∈ M \/ data_block F n) ->
  (forall x, 0 <= x < sb_size (fsb F) -> used F x = true -> used F' x = true) -> calm k F'.
Proof.
  intros [C1 C2 C3 C4 C5 C6 C7] Eh El Es Ht Hu. pose proof (dstart_pos F C3) as Hd. pose proof (lay_data _ C3).
  split; unfold few, bitmap_ok, data_block in *; rewrite ?Eh, ?El, ?Es; try done.
  - intros b Hb. apply Hu; [lia|by apply C5].
  - intros n Hn. destruct (C6 n Hn) as [H1 H2]. split; [done|]. apply Hu; [lia|done].
  - intros n Hn. destruct (Ht n Hn); [by apply C7|done].
Qed.

Lemma txn_put n d F x : x ∈ txn (put_cont n d F) -> x = n \/ x ∈ txn F.
Proof. unfold txn. cbn. set_solver. Qed.

Lemma calm_set_bit k F b : calm k F -> good_block (cont F (BBLOCK b (fsb F))) -> 0 <= b < sb_size (fsb F) ->
  calm k (put_cont (BBLOCK b (fsb F)) (set_bit (cont F (BBLOCK b (fsb F))) (b mod BPB)) F).
Proof.
  intros C Hg Hb. apply (calm_more k F); try done.
  { intros n [->|]%txn_put; [right; left; by apply (c_map _ _ C)|by left]. }
  intros x Hx Hu. pose proof (c_layout _ _ C).
  rewrite used_set_bit by (done || lia). by case_decide.
Qed.

Lemma calm_alloc k F b : calm k F -> good_block (cont F (BBLOCK b (fsb F))) -> data_block F b -> calm k (v_alloc b F).
Proof.
  intros C Hg Hb. pose proof (c_layout _ _ C) as L. pose proof (dstart_pos F L). apply (calm_more k F); try done.
  { intros n [->|[->|]%txn_put]%txn_put; [right; by right|right; left|by left]. apply (c_map _ _ C). destruct Hb. lia. }
  intros x Hx Hu. destruct Hb. rewrite used_alloc by (done || lia). by case_decide.
Qed.

Context {S : Type} `{D : DiskOk S dv nbufs} (Hnb : (13 <= nbufs)%nat).
Implicit Types s : fstate S.

Lemma calm_bread k F n s j (Q : Z -> fstate S -> Prop) : frep s F -> calm k F -> (k <= 2)%nat -> budget M F j -> 0 <= j ->
  hold F !! n = None -> (forall b s', frep s' (on_a (a_read n b) F) -> Q b s') -> wp (lift (bread dv n)) Q s.
Proof.
  intros R C Hk Hb Hj Hn HQ. apply (f_bread s F); [done|apply C|done| |done].
  apply (bread_room M F j); try done. apply (c_few _ _ (calm_le k 2 F Hk C)).
Qed.

(** A block read, changed, logged and released. *)
Lemma calm_update F n s k j d (b : Z) (Q : unit -> fstate S -> Prop) : calm k F ->
  hold F !! n = None -> budget M F (if decide (n ∈ M ∪ txn F) then j else j + 1) -> 0 <= j -> good_block d ->
  frep s (on_a (a_read n b) F) -> (forall s', frep s' (put_cont n d F) -> Q tt s') ->
  wp (set_buf_data b d;; lift (log_write b);; lift (brelse b)) Q s.
Proof.
  intros C Hn Hb Hj Hd R HQ.
  apply wp_bind. eapply (f_set _ _ n b); [exact R|rewrite hold_read, decide_True by done; done|done|].
  intros s1 R1. apply wp_bind. eapply (f_log _ _ n b true); [exact R1|apply C|cbn; by rewrite lookup_insert_eq| |].
  { exact (log_room M F n j Hb Hj). }
  intros s2 R2. eapply (f_brelse _ _ n b); [exact R2|apply C|cbn; by rewrite lookup_insert_eq|].
  intros s3 R3. rewrite view_update in R3 by done. by apply HQ.
Qed.

Lemma bzero_ok F n s k j : frep s F -> calm k F -> (k <= 2)%nat -> hold F !! n = None ->
  budget M F (if decide (n ∈ M ∪ txn F) then j else j + 1) -> 0 <= j ->
  wp (bzero dv n) (fun _ s' => frep s' (put_cont n zero_block F)) s.
Proof.
  intros R C Hk Hn Hb Hj. unfold bzero. apply wp_bind.
  apply (calm_bread k F n s _ _ R C Hk Hb); [case_decide; lia|done|]. intros b s1 R1.
  by apply (calm_update F n s1 k j zero_block b _ C Hn Hb Hj good_zero R1).
Qed.

Lemma balloc_step F s k j i sz : sz = sb_size (fsb F) -> frep s F -> calm k F -> (k <= 2)%nat -> budget M F (j + 1) -> 0 <= j ->
  0 <= i -> i * BPB < sz ->
  wp (bp ← gets (fun s => BBLOCK (i * BPB) (sb s)) ≫= (fun n => lift (bread dv n));
      d ← buf_data bp;
      match find_clear (Z.to_nat BPB) d (i * BPB) 0 sz with
      | Some bi =>
          set_buf_data bp (set_byte d (bi / 8) (Z.lor (byte_at d (bi / 8)) (bit_mask bi)));;
          lift (log_write bp);;
          lift (brelse bp);;
          bzero dv (i * BPB + bi);;
          mret (inr (i * BPB + bi))
      | None => lift (brelse bp);; mret (inl (i * BPB + BPB))
      end) (fun r s' => match r with
        | inr b => data_block F b /\ used F b = false /\ frep s' (v_alloc b F) /\ budget M (v_alloc b F) j
        | inl b => b = i * BPB + BPB /\ frep s' F /\
            forall x, i * BPB <= x < b -> x < sz -> used F x = true
        end) s.
Proof.
  intros -> R C Hk Hb Hj Hi Hlt. pose proof (c_layout _ _ C) as L. assert (BPB = 8192) as HBPB by done.
  set (sz := sb_size (fsb F)) in *. set (n := BBLOCK (i * BPB) (fsb F)).
  assert (forall bi, 0 <= bi < BPB -> BBLOCK (i * BPB + bi) (fsb F) = n /\ (i * BPB + bi) mod BPB = bi) as Hplace.
  { intros bi Hbi. unfold n, BBLOCK. split; [f_equal|]; rewrite HBPB in *; dlia. }
  assert (hold F !! n = None) as Hn.
  { destruct (hold F !! n) as [v|] eqn:E; [|done]. destruct (c_held _ _ C n ltac:(by rewrite E)) as [Hd _].
    exfalso. apply (bblock_data F (i * BPB) n L); [split; [lia|exact Hlt]|done|done]. }
  assert (n ∈ M) as HM by (apply (c_map _ _ C); split; [lia|exact Hlt]).
  apply wp_bind, wp_bind. apply (f_gets _ n s F _ R); [intros s0 R0; unfold n; by rewrite (fr_sb _ _ R0)|].
  apply (calm_bread k F n s _ _ R C Hk Hb); [lia|done|]. intros bp s2 R2.
  apply wp_bind. eapply (f_data _ _ n bp); [exact R2|rewrite hold_read, decide_True by done; done|].
  change (cont (on_a (a_read n bp) F) n) with (cont F n). pose proof (good_cont _ _ n R2) as Hg.
  change (cont (on_a (a_read n bp) F) n) with (cont F n) in Hg.
  destruct (find_clear (Z.to_nat BPB) (cont F n) (i * BPB) 0 sz) as [bi|] eqn:Ef.
  - apply find_clear_Some in Ef as (F1 & F2 & F3 & _); [|lia]. rewrite Z2Nat.id in F1 by done.
    destruct (Hplace bi ltac:(lia)) as [P1 P2]. set (b := i * BPB + bi) in *.
    assert (used F b = false) as Hub by (unfold used; rewrite P1, P2, F3; done).
    assert (data_block F b) as Hdb.
    { split; [|exact F2]. destruct (Z.lt_ge_cases b (dstart (fsb F))) as [Hlt'|]; [|done].
      rewrite (c_bits _ _ C b) in Hub; [done|]. split; [unfold b; lia|done]. }
    assert (hold F !! b = None) as Hnb'.
    { destruct (hold F !! b) as [v|] eqn:E; [|done]. destruct (c_held _ _ C b ltac:(by rewrite E)) as [_ Hu]. congruence. }
    assert (budget M F (if decide (n ∈ M ∪ txn F) then j + 1 else j + 1 + 1)) as Hb1 by (rewrite decide_True by set_solver; done).
    change (set_byte (cont F n) (bi / 8) (Z.lor (byte_at (cont F n) (bi / 8)) (bit_mask bi))) with (set_bit (cont F n) bi).
    set (F1' := put_cont n (set_bit (cont F n) bi) F).
    assert (F1' = put_cont (BBLOCK b (fsb F)) (set_bit (cont F (BBLOCK b (fsb F))) (b mod BPB)) F) as E1 by (unfold F1'; by rewrite P1, P2).
    assert (wp (set_buf_data bp (set_bit (cont F n) bi);; lift (log_write bp);; lift (brelse bp)) (fun _ s' => frep s' F1') s2) as Hup.
    { apply (calm_update F n s2 k (j + 1) _ bp _ C Hn Hb1); [lia|by apply good_set_byte|exact R2|done]. }
    apply wp_bind_inv in Hup. apply wp_bind. eapply wp_mono; [exact Hup|]. cbn beta. intros [] s3 Hup3.
    apply wp_bind_inv in Hup3. apply wp_bind. eapply wp_mono; [exact Hup3|]. cbn beta. intros [] s4 Hup4.
    apply wp_bind. eapply wp_mono; [exact Hup4|]. cbn beta. intros [] s5 R5.
    assert (calm k F1') as C1 by (rewrite E1; apply calm_set_bit; [done|by rewrite P1|unfold b in *; lia]).
    assert (budget M F1' (if decide (b ∈ M ∪ txn F1') then j else j + 1)) as Hb2.
    { apply (budget_le _ _ (j + 1)); [by apply budget_put|]. destruct (decide (b ∈ M ∪ txn F1')); lia. }
    apply wp_bind. eapply wp_mono; [by apply (bzero_ok F1' b s5 k j R5 C1)|]. cbn beta. intros [] s6 R6.
    apply wp_ret. split; [done|]. split; [done|].
    assert (v_alloc b F = put_cont b zero_block F1') as -> by (rewrite E1; done). split; [done|by apply budget_put].
  - apply wp_bind. eapply (f_brelse _ _ n bp); [exact R2|apply C|rewrite hold_read, decide_True by done; done|].
    intros s3 R3. rewrite view_read in R3 by done. apply wp_ret. split; [done|]. split; [done|].
    intros x Hx Hxs. pose proof (find_clear_None _ _ _ _ _ Ef (x - i * BPB)) as Hc.
    rewrite Z2Nat.id in Hc by done. destruct (Hplace (x - i * BPB) ltac:(lia)) as [P1 P2].
    replace (i * BPB + (x - i * BPB)) with x in P1, P2, Hc by lia. unfold used. rewrite P1, P2, Hc by lia. done.
Qed.

(** The first free block, if any, is taken: its bit is set and it is zeroed. *)
Lemma balloc_ok F s k j : frep s F -> calm k F -> (k <= 2)%nat -> budget M F (j + 1) -> 0 <= j ->
  wp (balloc dv) (fun r s' =>
    (r = 0 /\ frep s' F /\ forall b, 0 <= b < sb_size (fsb F) -> used F b = true) \/
    (data_block F r /\ used F r = false /\ frep s' (v_alloc r F) /\ budget M (v_alloc r F) j)) s.
Proof.
  intros R C Hk Hb Hj. pose proof (c_layout _ _ C) as L. pose proof (lay_size _ L) as Hsz.
  set (sz := sb_size (fsb F)) in *. unfold balloc. apply wp_bind.
  apply (f_gets _ sz s F _ R); [intros s0 R0; by rewrite (fr_sb _ _ R0)|]. assert (BPB = 8192) as HBPB by done.
  apply (wp_loop _ (fun b s1 => exists i, b = i * BPB /\ 0 <= i /\ b < sz + BPB /\ frep s1 F /\
      forall x, 0 <= x < b -> x < sz -> used F x = true)
    (fun b _ => Z.to_nat ((sz + BPB - b) / BPB))).
  - intros b s1 (i & -> & Hi & Hlt & R1 & Hused).
    destruct (i * BPB <? sz) eqn:Eb; to_prop; cbn [negb].
    2:{ apply wp_ret. left. split; [done|]. split; [done|]. intros x Hx. apply Hused; lia. }
    eapply wp_mono; [by apply (balloc_step F s1 k j i sz)|]. cbn beta. intros [b|b] s2.
    + intros (-> & R2 & Hx). split; [|rewrite HBPB in *; dlia]. exists (i + 1). split; [lia|]. split; [lia|].
      split; [rewrite HBPB in *; lia|]. split; [done|]. intros x Hx1 Hx2.
      destruct (Z.lt_ge_cases x (i * BPB)); [apply Hused; lia|apply Hx; lia].
    + intros Hd. right. exact Hd.
  - exists 0. split; [done|]. split; [lia|]. split; [lia|]. split; [done|]. lia.
  - rewrite HBPB. assert ((sz + 8192 - 0) / 8192 = sz / 8192 + 1) as -> by dlia.
    assert (0 <= sz / 8192) by (apply Z.div_pos; lia). lia.
Qed.

(** [bfree] of a block in use clears its bit. *)
Lemma bfree_ok F s k j b : frep s F -> calm k F -> (k <= 2)%nat -> budget M F j -> 0 <= j ->
  data_block F b -> used F b = true ->
  wp (bfree dv b) (fun _ s' => frep s' (v_free b F)) s.
Proof.
  intros R C Hk Hb Hj Hd Hu. pose proof (c_layout _ _ C) as L. pose proof (dstart_pos F L).
  assert (0 <= b < sb_size (fsb F)) as Hb0 by (destruct Hd; lia).
  set (n := BBLOCK b (fsb F)). assert (hold F !! n = None) as Hn.
  { destruct (hold F !! n) as [v|] eqn:E; [|done]. destruct (c_held _ _ C n ltac:(by rewrite E)) as [Hd' _].
    exfalso. by apply (bblock_data F b n L). }
  assert (n ∈ M) as HM by by apply (c_map _ _ C).
  unfold bfree. apply wp_bind, wp_bind. apply (f_gets _ n s F _ R); [intros s0 R0; unfold n; by rewrite (fr_sb _ _ R0)|].
  apply (calm_bread k F n s _ _ R C Hk Hb Hj Hn). intros bp s2 R2.
  apply wp_bind. eapply (f_data _ _ n bp); [exact R2|rewrite hold_read, decide_True by done; done|].
  change (cont (on_a (a_read n bp) F) n) with (cont F n). unfold used in Hu. fold n in Hu.
  apply negb_true_iff in Hu as ->.
  apply (calm_update F n s2 k j (clear_bit (cont F n) (b mod BPB)) bp _ C Hn); [|done| |exact R2|done].
  - by rewrite decide_True by set_solver.
  - apply good_set_byte. exact (good_cont _ _ n R2).
Qed.
End blocks.
