(* ===== verification/FsInode.v ===== *)
(** * The blocks of a file

    [bmap] of [kernel/fs.c]: the block numbers of an inode, twelve in the inode and 256 in
    the indirect block, and what allocating one of them does to the disk. *)

From Stdlib Require Import ZArith Lia.
From stdpp Require Import base numbers list gmap strings sets.
From S2P Require Import Prelude CString Riscv Spinlock Locks Bio BioView Block Log Fs FsDisk FsBlocks.

Definition ind_of (d : dinode) : Z := nth 12 (di_addrs d) 0.

(** The block that holds block [bn] of the file; 0 if there is none. *)
Definition addr_at (F : fview) (d : dinode) (bn : Z) : Z :=
  if bn <? NDIRECT then nth (Z.to_nat bn) (di_addrs d) 0
  else if ind_of d =? 0 then 0 else ind_get (cont F (ind_of d)) (bn - NDIRECT).

(** The blocks of the file are data blocks in use, each in one place. *)
Record wfi (F : fview) (d : dinode) : Prop := {
  wi_len : length (di_addrs d) = 13%nat;
  wi_ind : ind_of d <> 0 -> data_block F (ind_of d) /\ used F (ind_of d) = true;
  wi_data : forall bn, 0 <= bn < MAXFILE -> addr_at F d bn <> 0 ->
    data_block F (addr_at F d bn) /\ used F (addr_at F d bn) = true /\ addr_at F d bn <> ind_of d;
  wi_inj : forall b1 b2, 0 <= b1 < MAXFILE -> 0 <= b2 < MAXFILE -> addr_at F d b1 <> 0 ->
    addr_at F d b1 = addr_at F d b2 -> b1 = b2;
}.

Definition mine (F : fview) (d : dinode) (b : Z) : Prop :=
  b <> 0 /\ (b = ind_of d \/ exists bn, 0 <= bn < MAXFILE /\ addr_at F d bn = b).

Lemma maxfile : MAXFILE = 268.
Proof. reflexivity. Qed.
Lemma ndirect : NDIRECT = 12.
Proof. reflexivity. Qed.

Lemma ind_get_set d i j v : good_block d -> 0 <= i < 256 -> 0 <= j -> 0 <= v < 2 ^ 32 ->
  ind_get (wru 4 (4 * i) v d) j = if decide (i = j) then v else ind_get d j.
Proof.
  intros [Hl _] Hi Hj Hv. unfold ind_get. case_decide as E.
  - subst. rewrite rdu_wru_eq by (rewrite ?Hl; unfold BSIZE; lia). by rewrite Z.mod_small.
  - rewrite rdu_wru_ne by lia. done.
Qed.

Lemma ind_get_zero j : 0 <= j < 256 -> ind_get zero_block j = 0.
Proof.
  intros Hj. unfold ind_get, rdu, slice, zero_block.
  rewrite drop_replicate, take_replicate.
  generalize (Z.to_nat (Z.of_nat 4) `min` (Z.to_nat BSIZE - Z.to_nat (4 * j)))%nat. intros n.
  induction n as [|n IH]; cbn [replicate le_get]; [done|]. rewrite IH. done.
Qed.

Lemma good_wru d n off v : good_block d -> good_block (wru n off v d).
Proof. intros [Hl Hb]. split; [by rewrite length_wru|by apply wru_bytes]. Qed.

(** ** Two views that agree on the blocks of the file *)

Lemma addr_at_ext F F' d bn : (ind_of d <> 0 -> cont F' (ind_of d) = cont F (ind_of d)) -> addr_at F' d bn = addr_at F d bn.
Proof.
  intros Hc. unfold addr_at. destruct (bn <? NDIRECT); [done|]. destruct (Z.eqb_spec (ind_of d) 0); [done|]. by rewrite Hc.
Qed.

Lemma wfi_ext F F' d : wfi F d -> fsb F' = fsb F -> (ind_of d <> 0 -> cont F' (ind_of d) = cont F (ind_of d)) ->
  (forall b, data_block F b -> used F b = true -> used F' b = true) -> wfi F' d.
Proof.
  intros [W1 W2 W3 W4] Es Hc Hu.
  assert (forall bn, addr_at F' d bn = addr_at F d bn) as E by (intros; by apply addr_at_ext).
  assert (forall b, data_block F b -> data_block F' b) as Hd by (intros b; unfold data_block; by rewrite Es).
  split; [done| | |].
  - intros Hn. destruct (W2 Hn). eauto.
  - intros bn Hbn. rewrite !E. intros Hn. destruct (W3 bn Hbn Hn) as (? & ? & ?). eauto.
  - intros b1 b2 H1 H2. rewrite !E. by apply W4.
Qed.

(** ** The effect of allocating blocks for the file

    What was there stays, new blocks are zero, and no block in use that belongs to
    something else is touched, but for those in [X] (which the file takes over). *)
Record growsX (X : Z -> Prop) (F : fview) (d : dinode) (F' : fview) (d' : dinode) : Prop := {
  g_sb : fsb F' = fsb F;
  g_fields : (di_type d', di_major d', di_minor d', di_nlink d', di_size d') = (di_type d, di_major d, di_minor d, di_nlink d, di_size d);
  g_wf : wfi F' d';
  g_old : forall bn, 0 <= bn < MAXFILE -> addr_at F d bn <> 0 ->
    addr_at F' d' bn = addr_at F d bn /\ cont F' (addr_at F d bn) = cont F (addr_at F d bn);
  g_new : forall bn, 0 <= bn < MAXFILE -> addr_at F d bn = 0 -> addr_at F' d' bn <> 0 -> cont F' (addr_at F' d' bn) = zero_block;
  g_used : forall b, data_block F b -> used F b = true -> used F' b = true;
  g_other : forall b, data_block F b -> used F b = true -> ~ mine F d b -> ~ X b -> cont F' b = cont F b /\ ~ mine F' d' b;
  g_meta : forall b, 0 <= b < bmapstart (fsb F) -> cont F' b = cont F b;
}.

Definition grows := growsX (fun _ => False).

Lemma grows_same F d : wfi F d -> grows F d F d.
Proof. intros W. by split. Qed.

Lemma grows_then X F1 d1 F2 d2 F3 d3 : grows F1 d1 F2 d2 -> growsX X F2 d2 F3 d3 ->
  (forall b, used F1 b = true -> ~ X b) -> grows F1 d1 F3 d3.
Proof.
  intros [A1 A2 A3 A4 A5 A6 A7 A8] [B1 B2 B3 B4 B5 B6 B7 B8] HX.
  assert (forall b, data_block F1 b -> data_block F2 b) as Hd by (intros b; unfold data_block; by rewrite A1).
  split.
  - congruence.
  - congruence.
  - done.
  - intros bn Hb Hn. destruct (A4 bn Hb Hn) as [E1 E2]. destruct (B4 bn Hb) as [E3 E4]; [by rewrite E1|].
    rewrite E1 in E3, E4. split; congruence.
  - intros bn Hb Hz Hn. destruct (Z.eq_dec (addr_at F2 d2 bn) 0) as [E|E]; [by apply B5|].
    destruct (B4 bn Hb E) as [E3 E4]. rewrite E3, E4. by apply A5.
  - auto.
  - intros b Hb Hu Hm _. destruct (A7 b Hb Hu Hm) as [E1 M1]; [tauto|]. destruct (B7 b) as [E2 M2]; auto. split; [congruence|done].
  - intros b Hb. rewrite B8 by (by rewrite A1). by apply A8.
Qed.

(** A block of the file that is not there yet. *)
Record fresh (F : fview) (d : dinode) (r : Z) : Prop := {
  fr_data : data_block F r;
  fr_used : used F r = true;
  fr_mine : ~ mine F d r;
  fr_zero : cont F r = zero_block;
  fr_pos : 0 < r < 2 ^ 32;
}.

Lemma cont_alloc F b x : x <> b -> x <> BBLOCK b (fsb F) -> cont (v_alloc b F) x = cont F x.
Proof. intros H1 H2. unfold v_alloc. rewrite !cont_put. by rewrite !decide_False. Qed.

Lemma mine_data F d b : wfi F d -> mine F d b -> data_block F b /\ used F b = true.
Proof.
  intros [_ W2 W3 _] [Hb [->|(bn & Hbn & <-)]]; [by apply W2|]. by destruct (W3 bn Hbn Hb) as (? & ? & _).
Qed.

Lemma mine_ext F F' d b : (ind_of d <> 0 -> cont F' (ind_of d) = cont F (ind_of d)) -> mine F' d b -> mine F d b.
Proof.
  intros Hc [Hb Hm]. split; [done|]. destruct Hm as [->|(bn & Hbn & E)]; [by left|right]. exists bn. split; [done|].
  rewrite <- E. symmetry. by apply addr_at_ext.
Qed.

Lemma grows_alloc F d b : layout (fsb F) -> good_block (cont F (BBLOCK b (fsb F))) -> wfi F d -> data_block F b -> used F b = false ->
  grows F d (v_alloc b F) d /\ fresh (v_alloc b F) d b.
Proof.
  intros L Hg W Hb Hu. pose proof (dstart_pos F L) as Hp. assert (0 <= b < sb_size (fsb F)) as Hb0 by (destruct Hb; lia).
  assert (forall x, data_block F x -> used F x = true -> cont (v_alloc b F) x = cont F x) as Hc.
  { intros x Hx Hux. apply cont_alloc; [congruence|]. intros ->. by apply (bblock_data F b (BBLOCK b (fsb F)) L Hb0). }
  assert (ind_of d <> 0 -> cont (v_alloc b F) (ind_of d) = cont F (ind_of d)) as Hi by (intros Hn; destruct (wi_ind _ _ W Hn); by apply Hc).
  assert (forall x, data_block F x -> used F x = true -> used (v_alloc b F) x = true) as Hus.
  { intros x Hx Hux. rewrite used_alloc by (done || destruct Hx; lia). by case_decide. }
  assert (forall bn, addr_at (v_alloc b F) d bn = addr_at F d bn) as Ea by (intros; by apply addr_at_ext).
  assert (wfi (v_alloc b F) d) as W' by by apply (wfi_ext F).
  assert (~ mine F d b) as Hm by (intros Hm; destruct (mine_data _ _ _ W Hm); congruence).
  split; [split|split]; try done.
  - intros bn Hbn Hn. rewrite Ea. split; [done|]. destruct (wi_data _ _ W bn Hbn Hn) as (? & ? & _). by apply Hc.
  - intros bn Hbn Hz. by rewrite Ea.
  - intros x Hx Hux Hmx _. split; [by apply Hc|]. intros Hm'. apply Hmx. by eapply mine_ext.
  - intros x Hx. pose proof (bblock_range _ b L Hb0). apply cont_alloc; [|lia]. destruct Hb as [Hb _]. lia.
  - rewrite used_alloc, decide_True by (done || lia). done.
  - intros Hm'. apply Hm. by eapply mine_ext.
  - unfold v_alloc. rewrite cont_put. by rewrite decide_True.
  - pose proof (lay_size _ L). destruct Hb. lia.
Qed.

Lemma addr_set F d bn r x : 0 <= bn < NDIRECT -> length (di_addrs d) = 13%nat -> 0 <= x ->
  addr_at F (set_di_addr bn r d) x = if decide (x = bn) then r else addr_at F d x.
Proof.
  rewrite ndirect. intros Hbn Hl Hx. unfold addr_at, set_di_addr, ind_of. cbn [di_addrs]. rewrite ndirect.
  assert (nth 12 (<[Z.to_nat bn := r]> (di_addrs d)) 0 = nth 12 (di_addrs d) 0) as ->.
  { rewrite !nth_lookup. by rewrite list_lookup_insert_ne by lia. }
  case_decide as E.
  - subst. rewrite (proj2 (Z.ltb_lt _ _)) by lia. rewrite nth_lookup, list_lookup_insert_eq by lia. done.
  - destruct (Z.ltb_spec x 12); [|done]. rewrite !nth_lookup, list_lookup_insert_ne by lia. done.
Qed.

(** One more block, at [bn]: the new numbers are [f]. *)
Lemma grows_one F d F' d' bn r : layout (fsb F) -> wfi F d -> fresh F d r -> 0 <= bn < MAXFILE -> addr_at F d bn = 0 ->
  fsb F' = fsb F -> length (di_addrs d') = 13%nat ->
  (di_type d', di_major d', di_minor d', di_nlink d', di_size d') = (di_type d, di_major d, di_minor d, di_nlink d, di_size d) ->
  ind_of d' = ind_of d ->
  (forall x, 0 <= x < MAXFILE -> addr_at F' d' x = if decide (x = bn) then r else addr_at F d x) ->
  (forall x, (x = ind_of d -> x = 0) -> cont F' x = cont F x) -> (forall x, data_block F x -> used F' x = used F x) ->
  growsX (eq r) F d F' d' /\ addr_at F' d' bn = r.
Proof.
  intros L W [R1 R2 R3 R4 R5] Hbn Hz Es Hl Ef Ei Ea Hc Hu.
  assert (addr_at F' d' bn = r) as Ebn by (rewrite Ea by done; by rewrite decide_True).
  assert (r <> ind_of d) as Hri by (intros ->; apply R3; split; [lia|by left]).
  assert (forall x, 0 <= x < MAXFILE -> addr_at F d x <> r) as Hnr.
  { intros x Hx E. apply R3. split; [lia|]. right. by exists x. }
  assert (forall x, data_block F x -> data_block F' x) as Hd by (intros x; unfold data_block; by rewrite Es).
  split; [|done]. split; try done.
  - split; [done| | |].
    + rewrite Ei. intros Hn. destruct (wi_ind _ _ W Hn). split; [auto|by rewrite Hu].
    + intros x Hx. rewrite Ea by done. rewrite Ei. case_decide as E.
      * intros _. split; [auto|]. split; [by rewrite Hu|done].
      * intros Hn. destruct (wi_data _ _ W x Hx Hn) as (? & ? & ?). split; [auto|]. split; [by rewrite Hu|done].
    + intros x y Hx Hy. rewrite !Ea by done. repeat case_decide; subst; try done.
      * intros _ E. exfalso. by apply (Hnr y).
      * intros _ E. exfalso. by apply (Hnr x).
      * by apply (wi_inj _ _ W).
  - intros x Hx Hn. rewrite Ea by done. rewrite decide_False by (intros ->; done). split; [done|].
    apply Hc. by destruct (wi_data _ _ W x Hx Hn) as (_ & _ & ?).
  - intros x Hx Hxz. rewrite Ea by done. case_decide as E; [|done]. intros _. rewrite Hc by done. done.
  - intros x Hx Hux. by rewrite Hu.
  - intros x Hx Hux Hm Hne. pose proof (dstart_pos F L). destruct Hx as [Hx1 Hx2]. split.
    + apply Hc. intros ->. exfalso. apply Hm. split; [lia|by left].
    + intros [_ [->|(y & Hy & Ey)]]; [apply Hm; split; [lia|left; by rewrite Ei]|].
      rewrite Ea in Ey by done. case_decide; [done|]. apply Hm. split; [lia|]. right. by exists y.
  - intros x Hx. apply Hc. intros ->. destruct (Z.eq_dec (ind_of d) 0) as [|Hn]; [done|]. exfalso.
    destruct (wi_ind _ _ W Hn) as [[Hd1 _] _]. pose proof (lay_size _ L). unfold dstart, BPB in Hd1.
    assert (0 <= (sb_size (fsb F) - 1) / (BSIZE * 8)) by (apply Z.div_pos; unfold BSIZE; lia). lia.
Qed.

Lemma grows_ind F d r : layout (fsb F) -> wfi F d -> fresh F d r -> ind_of d = 0 ->
  growsX (eq r) F d F (set_di_addr 12 r d) /\ ind_of (set_di_addr 12 r d) = r.
Proof.
  intros L W [R1 R2 R3 R4 R5] Hz. pose proof (wi_len _ _ W) as Hl. set (d' := set_di_addr 12 r d).
  assert (ind_of d' = r) as Ei by (unfold d', ind_of, set_di_addr; cbn; rewrite nth_lookup, list_lookup_insert_eq by lia; done).
  assert (forall x, 0 <= x < MAXFILE -> addr_at F d' x = addr_at F d x) as Ea.
  { intros x Hx. unfold addr_at. rewrite Ei, Hz. cbn [Z.eqb]. rewrite (proj2 (Z.eqb_neq r 0)) by lia.
    destruct (Z.ltb_spec x NDIRECT); rewrite ndirect, maxfile in *.
    - unfold d', set_di_addr. cbn [di_addrs]. rewrite !nth_lookup, list_lookup_insert_ne by lia. done.
    - rewrite R4. apply ind_get_zero. lia. }
  assert (forall x, 0 <= x < MAXFILE -> addr_at F d x <> r) as Hnr by (intros x Hx E; apply R3; split; [lia|right; by exists x]).
  split; [|done]. split; try done.
  - split.
    + unfold d', set_di_addr. cbn [di_addrs]. by rewrite length_insert.
    + by rewrite Ei.
    + intros x Hx. rewrite Ea, Ei by done. intros Hn. destruct (wi_data _ _ W x Hx Hn) as (? & ? & _). auto.
    + intros x y Hx Hy. rewrite !Ea by done. by apply (wi_inj _ _ W).
  - intros x Hx Hn. by rewrite Ea.
  - intros x Hx Hxz. by rewrite Ea.
  - intros x Hx Hux Hm Hne. split; [done|]. intros [Hx0 [->|(y & Hy & Ey)]]; [by rewrite Ei in Hne|].
    rewrite Ea in Ey by done. apply Hm. split; [done|]. right. by exists y.
Qed.

Lemma grows_entry F d r j : layout (fsb F) -> wfi F d -> fresh F d r -> ind_of d <> 0 -> 0 <= j < 256 ->
  good_block (cont F (ind_of d)) -> addr_at F d (12 + j) = 0 ->
  let F' := put_cont (ind_of d) (wru 4 (4 * j) r (cont F (ind_of d))) F in
  growsX (eq r) F d F' d /\ addr_at F' d (12 + j) = r.
Proof.
  intros L W R Hn Hj Hg Hz F'. destruct (wi_ind _ _ W Hn) as [Hd Hu]. pose proof (fr_pos _ _ _ R) as Hp.
  apply (grows_one F d F' d (12 + j) r L W R); try done.
  - rewrite maxfile. lia.
  - apply W.
  - intros x Hx. unfold addr_at. rewrite ndirect, maxfile in *. destruct (Z.ltb_spec x 12); [by rewrite decide_False by lia|].
    rewrite (proj2 (Z.eqb_neq _ 0) Hn). unfold F'. rewrite cont_put, decide_True by done.
    rewrite ind_get_set by (done || lia). do 2 case_decide; try done; lia.
  - intros x Hx. unfold F'. rewrite cont_put, decide_False; [done|]. intros E. apply Hn. rewrite <- E. by apply Hx.
  - intros x Hx. unfold F'. pose proof (dstart_pos F L). apply used_put_data; [done|done|]. destruct Hx. lia.
Qed.

Lemma grows_direct F d r bn : layout (fsb F) -> wfi F d -> fresh F d r -> 0 <= bn < NDIRECT -> addr_at F d bn = 0 ->
  growsX (eq r) F d F (set_di_addr bn r d) /\ addr_at F (set_di_addr bn r d) bn = r.
Proof.
  intros L W R Hbn Hz. pose proof (wi_len _ _ W) as Hl. rewrite ndirect in Hbn.
  apply (grows_one F d F (set_di_addr bn r d) bn r L W R); try done.
  - rewrite maxfile. lia.
  - unfold set_di_addr. cbn [di_addrs]. by rewrite length_insert.
  - unfold ind_of, set_di_addr. cbn [di_addrs]. rewrite !nth_lookup, list_lookup_insert_ne by lia. done.
  - intros x Hx. apply addr_set; [by rewrite ndirect|done|lia].
Qed.

(** ** [bmap] *)

(** Logging the indirect block may need one more block of the transaction. *)
Definition icost (M : gset Z) (F : fview) (d : dinode) : Z :=
  if decide (ind_of d <> 0 /\ ind_of d ∈ M ∪ txn F) then 0 else 1.

(** Everything but the disk, the transaction and the inode table. *)
Definition rest (F : fview) := (hold F, amem (fA F), locks F, apid (fA F), fcwd F).

Definition set_dn (ip : Z) (d : dinode) (F : fview) : fview := on_it (insert ip (set_i_d d (finode F ip))) F.
Definition dn (F : fview) (ip : Z) : dinode := i_d (finode F ip).

Lemma alloc_read r n b F : v_alloc r (on_a (a_read n b) F) = on_a (a_read n b) (v_alloc r F).
Proof. reflexivity. Qed.

Lemma icost_range M F d : 0 <= icost M F d <= 1.
Proof. unfold icost. case_decide; lia. Qed.

Lemma icost_grow M F F' d : txn F ⊆ txn F' -> icost M F' d <= icost M F d.
Proof. intros Hs. unfold icost. repeat case_decide; try lia. exfalso. set_solver. Qed.

Lemma budget_dec M F k b : budget M F k -> budget M F (k - 1 + (if decide (b ∈ M ∪ txn F) then 0 else 1)).
Proof. intros Hb. apply (budget_le _ _ k _ Hb). case_decide; lia. Qed.

Lemma txn_alloc r F : r ∈ txn (v_alloc r F) /\ txn F ⊆ txn (v_alloc r F).
Proof. unfold v_alloc, txn, put_cont. cbn. set_solver. Qed.

Lemma wfi_set_dn ip x F d : wfi F d -> wfi (set_dn ip x F) d.
Proof. intros [W1 W2 W3 W4]. by split. Qed.

Lemma grows_set_dn X ip x F d F' d' : growsX X F d F' d' -> growsX X F d (set_dn ip x F') d'.
Proof. intros [G1 G2 G3 G4 G5 G6 G7 G8]. split; try done. by apply wfi_set_dn. Qed.

Section bmap.
Context (M : gset Z).
Implicit Types F : fview.

Lemma calm_read k F n b : calm M k F -> hold F !! n = None -> data_block F n -> used F n = true -> calm M (k + 1) (on_a (a_read n b) F).
Proof.
  intros [C1 C2 C3 C4 C5 C6 C7] Hn Hd Hu. split; try done.
  - unfold few, hold in *. cbn. rewrite map_size_insert_None by done. lia.
  - intros x. rewrite hold_read. case_decide as E; [subst; done|apply C6].
Qed.

Lemma calm_set_dn k F ip d : calm M k F -> calm M k (set_dn ip d F).
Proof. intros [C1 C2 C3 C4 C5 C6 C7]. by split. Qed.

(** The inode table with the inode's [struct dinode] fields replaced. *)
Definition it_upd ip d F F' : Prop := forall i, finode F' i = if decide (i = ip) then set_i_d d (finode F ip) else finode F i.

Lemma it_upd_set ip d F F' : fit F' = fit (set_dn ip d F) -> it_upd ip d F F'.
Proof. intros E i. unfold finode at 1. rewrite E. unfold set_dn, on_it. cbn. rewrite lookup_insert. case_decide; repeat case_decide; congruence || done. Qed.

Lemma it_upd_refl ip F : it_upd ip (dn F ip) F F.
Proof. intros i. case_decide; [subst|done]. unfold dn, set_i_d. by destruct (finode F ip). Qed.

(** What [bmap] returns: the block with a view of the same file, or 0 on a full disk. *)
Definition full F : Prop := forall b, 0 <= b < sb_size (fsb F) -> used F b = true.
Definition bmapped F ip bn j a F' : Prop :=
  exists d', it_upd ip d' F F' /\ grows F (dn F ip) F' d' /\ rest F' = rest F /\ calm M 0 F' /\
    (a = 0 /\ full F' /\ budget M F' j \/
     a <> 0 /\ a = addr_at F' d' bn /\ budget M F' (j + icost M F' d' + (if decide (a ∈ M ∪ txn F') then 0 else 1))).

Lemma calm0_hold F : calm M 0 F -> hold F = ∅.
Proof. intros C. pose proof (c_few _ _ _ C) as Hf. unfold few in Hf. apply map_size_empty_inv. lia. Qed.

(** Room to log the indirect block after a block was allocated. *)
Lemma budget_ind F d r j : budget M (v_alloc r F) (j + icost M F d) -> ind_of d <> 0 ->
  budget M (v_alloc r F) (if decide (ind_of d ∈ M ∪ txn (v_alloc r F)) then j else j + 1).
Proof.
  intros Hb Hn. apply (budget_le _ _ _ _ Hb). unfold icost. destruct (txn_alloc r F) as [_ T2].
  repeat case_decide; try lia. exfalso. set_solver.
Qed.

(** A block already there. *)
Lemma bmapped_old F ip bn j : wfi F (dn F ip) -> calm M 0 F -> addr_at F (dn F ip) bn <> 0 ->
  budget M F (j + 1 + icost M F (dn F ip)) -> bmapped F ip bn j (addr_at F (dn F ip) bn) F.
Proof.
  intros W C Hn Hb. exists (dn F ip). split; [apply it_upd_refl|]. split; [by apply grows_same|]. split; [done|]. split; [done|].
  right. split; [done|]. split; [done|]. apply (budget_le _ _ _ _ Hb). case_decide; lia.
Qed.

(** No block is left. *)
Lemma bmapped_full F ip bn j : wfi F (dn F ip) -> calm M 0 F -> 0 <= j -> full F ->
  budget M F (j + 1 + icost M F (dn F ip)) -> bmapped F ip bn j 0 F.
Proof.
  intros W C Hj Hfull Hb. exists (dn F ip). split; [apply it_upd_refl|]. split; [by apply grows_same|]. split; [done|]. split; [done|].
  left. split; [done|]. split; [done|]. apply (budget_le _ _ _ _ Hb). pose proof (icost_range M F (dn F ip)). lia.
Qed.

Lemma bmapped_trans F ip F1 d1 bn j a F' : it_upd ip d1 F F1 -> grows F (dn F ip) F1 d1 -> rest F1 = rest F ->
  bmapped F1 ip bn j a F' -> bmapped F ip bn j a F'.
Proof.
  intros I1 G1 E1 (d' & I2 & G2 & E2 & C2 & Hr). assert (dn F1 ip = d1) as Ed by (unfold dn; rewrite I1, decide_True; done).
  rewrite Ed in G2. exists d'. split; [|split; [|split; [congruence|done]]].
  - intros i. rewrite I2, !I1. by repeat case_decide.
  - apply (grows_then (fun _ => False) _ _ _ _ _ _ G1 G2). auto.
Qed.

Context {S : Type} `{D : DiskOk S dv nbufs} (Hnb : (13 <= nbufs)%nat).
Implicit Types s : fstate S.

Lemma f_addr s F ip bn (Q : Z -> fstate S -> Prop) : frep s F -> length (di_addrs (dn F ip)) = 13%nat -> 0 <= bn <= 12 ->
  Q (nth (Z.to_nat bn) (di_addrs (dn F ip)) 0) s -> wp (addr_of ip bn) Q s.
Proof.
  intros R Hl Hbn HQ. unfold addr_of. apply wp_bind, wp_gets. rewrite (f_inode _ _ _ R).
  destruct (lookup_lt_is_Some_2 (di_addrs (dn F ip)) (Z.to_nat bn)) as [v Hv]; [lia|].
  unfold i_addrs. fold (dn F ip). rewrite Hv. apply wp_ret. rewrite nth_lookup, Hv in HQ. exact HQ.
Qed.

Lemma f_set_addr s F ip bn a (Q : unit -> fstate S -> Prop) : frep s F ->
  (forall s', frep s' (set_dn ip (set_di_addr bn a (dn F ip)) F) -> Q tt s') -> wp (set_addr ip bn a) Q s.
Proof. intros R HQ. unfold set_addr. by apply (f_upd _ _ _ _ _ R). Qed.

Lemma f_dev s F ip (Q : Z -> fstate S -> Prop) : frep s F -> Q (i_dev (finode F ip)) s -> wp (gets (fun s => i_dev (inode_of s ip))) Q s.
Proof. intros R HQ. apply wp_gets. by rewrite (f_inode _ _ _ R). Qed.

Lemma bmap_direct s F ip bn j : frep s F -> calm M 0 F -> i_dev (finode F ip) = dv -> wfi F (dn F ip) -> 0 <= bn < NDIRECT ->
  budget M F (j + 1 + icost M F (dn F ip)) -> 0 <= j ->
  wp (bmap ip bn) (fun a s' => exists F', frep s' F' /\ bmapped F ip bn j a F') s.
Proof.
  intros R C Hdv W Hbn Hb Hj. pose proof (wi_len _ _ W) as Hl. pose proof (c_layout _ _ _ C) as L. unfold bmap. rewrite ndirect in *.
  apply wp_bind, (f_dev _ _ _ _ R). rewrite Hdv, (proj2 (Z.ltb_lt bn 12)) by lia.
  assert (nth (Z.to_nat bn) (di_addrs (dn F ip)) 0 = addr_at F (dn F ip) bn) as Ea.
  { unfold addr_at. rewrite ndirect, (proj2 (Z.ltb_lt bn 12)) by lia. done. }
  apply wp_bind, (f_addr _ _ _ _ _ R Hl); [lia|]. rewrite Ea. destruct (Z.eqb_spec (addr_at F (dn F ip) bn) 0) as [Hz|Hn].
  2:{ apply wp_ret. exists F. split; [done|]. by apply bmapped_old. }
  pose proof (icost_range M F (dn F ip)) as Hic.
  apply wp_bind. eapply wp_mono; [eapply (balloc_ok M Hnb F s 0 (j + icost M F (dn F ip)) R C)|].
  { lia. } { apply (budget_le _ _ _ _ Hb). lia. } { lia. }
  cbn beta. intros r s1 [(-> & R1 & Hfull)|(Hd & Hu & R1 & Hb1)].
  { cbn [Z.eqb]. apply wp_ret. exists F. split; [done|]. by apply bmapped_full. }
  destruct (grows_alloc F (dn F ip) r L (good_cont _ _ _ R) W Hd Hu) as [G1 Fr1].
  destruct (Z.eqb_spec r 0) as [->|Hr]; [destruct (fr_pos _ _ _ Fr1); lia|].
  assert (addr_at (v_alloc r F) (dn F ip) bn = 0) as Hz1.
  { unfold addr_at in Hz |- *. rewrite ndirect in *. by rewrite (proj2 (Z.ltb_lt bn 12)) in * by lia. }
  destruct (grows_direct (v_alloc r F) (dn F ip) r bn L (g_wf _ _ _ _ _ G1) Fr1) as [G2 Ea2]; [by rewrite ndirect|done|].
  apply wp_bind, (f_set_addr _ _ _ _ _ _ R1). intros s2 R2. apply wp_ret.
  change (dn (v_alloc r F) ip) with (dn F ip) in R2. set (d' := set_di_addr bn r (dn F ip)) in *.
  exists (set_dn ip d' (v_alloc r F)). split; [done|]. exists d'. split; [by apply it_upd_set|]. split.
  { apply (grows_then (eq r) F (dn F ip) (v_alloc r F) (dn F ip)); [done|by apply grows_set_dn|]. intros b Hb2 <-. congruence. }
  split; [done|]. split; [apply calm_set_dn, calm_alloc; [done|exact (good_cont _ _ _ R)|done]|].
  right. split; [done|]. split; [done|]. change (txn (set_dn ip d' (v_alloc r F))) with (txn (v_alloc r F)).
  destruct (txn_alloc r F) as [T1 T2]. rewrite decide_True by set_solver. rewrite Z.add_0_r. apply (budget_le _ _ _ _ Hb1).
  assert (icost M (set_dn ip d' (v_alloc r F)) d' <= icost M F (dn F ip)); [|lia].
  assert (ind_of d' = ind_of (dn F ip)) as Ei.
  { unfold ind_of, d', set_di_addr. cbn [di_addrs]. rewrite !nth_lookup, list_lookup_insert_ne by lia. done. }
  unfold icost. rewrite Ei. change (txn (set_dn ip d' (v_alloc r F))) with (txn (v_alloc r F)). repeat case_decide; try lia. exfalso. set_solver.
Qed.

(** [bmap] from the indirect block on. *)
Lemma bmap_entry s F ip bn j : frep s F -> calm M 0 F -> wfi F (dn F ip) -> ind_of (dn F ip) <> 0 -> 0 <= bn < NINDIRECT ->
  budget M F (j + 1 + icost M F (dn F ip)) -> 0 <= j ->
  wp (bp ← lift (bread dv (ind_of (dn F ip)));
      d ← buf_data bp;
      let addr := ind_get d bn in
      addr ← (if addr =? 0 then
                addr ← balloc dv;
                mwhen (negb (addr =? 0)) (
                  d ← buf_data bp;
                  set_buf_data bp (wru 4 (4 * bn) addr d);;
                  lift (log_write bp));;
                mret addr
              else mret addr);
      lift (brelse bp);;
      mret addr) (fun a s' => exists F', frep s' F' /\ bmapped F ip (NDIRECT + bn) j a F') s.
Proof.
  intros R C W Hn Hbn Hb Hj. change NINDIRECT with 256 in Hbn. rewrite ndirect. pose proof (c_layout _ _ _ C) as L.
  set (ind := ind_of (dn F ip)) in *. destruct (wi_ind _ _ W Hn) as [Hdi Hui]. fold ind in Hdi, Hui.
  assert (hold F !! ind = None) as Hh by (by rewrite (calm0_hold F C)). pose proof (icost_range M F (dn F ip)) as Hic.
  apply wp_bind. apply (calm_bread M Hnb 0 F ind s _ _ R C ltac:(lia) Hb); [lia|done|]. intros b s1 R1.
  apply wp_bind. eapply (f_data _ _ ind b); [exact R1|rewrite hold_read, decide_True by done; done|].
  change (cont (on_a (a_read ind b) F) ind) with (cont F ind). cbn zeta.
  assert (addr_at F (dn F ip) (12 + bn) = ind_get (cont F ind) bn) as Ea.
  { unfold addr_at. rewrite ndirect, (proj2 (Z.ltb_ge (12 + bn) 12)) by lia. fold ind. rewrite (proj2 (Z.eqb_neq ind 0) Hn). f_equal. lia. }
  assert (forall s2 a, frep s2 (on_a (a_read ind b) F) -> bmapped F ip (12 + bn) j a F ->
    wp (lift (brelse b);; mret a) (fun a s' => exists F', frep s' F' /\ bmapped F ip (12 + bn) j a F') s2) as Hrel.
  { intros s2 a R2 HB. apply wp_bind. eapply (f_brelse _ _ ind b); [exact R2|apply C|rewrite hold_read, decide_True by done; done|].
    intros s3 R3. rewrite view_read in R3 by done. apply wp_ret. by exists F. }
  destruct (Z.eqb_spec (ind_get (cont F ind) bn) 0) as [Hz|Hnz].
  2:{ apply wp_bind, wp_ret. apply Hrel; [done|]. rewrite <- Ea. apply bmapped_old; [done|done|by rewrite Ea|done]. }
  apply wp_bind, wp_bind.
  eapply wp_mono; [eapply (balloc_ok M Hnb (on_a (a_read ind b) F) s1 1 (j + icost M F (dn F ip)) R1)|].
  { by apply (calm_read 0). } { lia. } { apply (budget_le _ _ _ _ Hb). lia. } { lia. }
  cbn beta. intros r s2 [(-> & R2 & Hfull)|(Hd & Hu & R2 & Hb2)].
  { cbn [Z.eqb negb mwhen]. apply wp_bind, wp_ret, wp_ret, Hrel; [done|]. by apply bmapped_full. }
  rewrite alloc_read in R2. change (data_block F r) in Hd. change (used F r = false) in Hu. change (budget M (v_alloc r F) (j + icost M F (dn F ip))) in Hb2.
  destruct (grows_alloc F (dn F ip) r L (good_cont _ _ _ R) W Hd Hu) as [G1 Fr1].
  destruct (Z.eqb_spec r 0) as [->|Hr]; [destruct (fr_pos _ _ _ Fr1); lia|]. cbn [negb mwhen].
  set (F1 := v_alloc r F) in *.
  assert (cont F1 ind = cont F ind) as Ec.
  { apply cont_alloc; [congruence|]. intros E. apply (bblock_data F r (BBLOCK r (fsb F)) L); [|by rewrite <- E|done].
    pose proof (dstart_pos F L). destruct Hd. lia. }
  assert (hold F1 !! ind = None) as Hh1 by exact Hh.
  assert (hold (on_a (a_read ind b) F1) !! ind = Some (b, false)) as Hh2 by (rewrite hold_read, decide_True; done).
  apply wp_bind, wp_bind. eapply (f_data _ _ ind b); [exact R2|exact Hh2|].
  change (cont (on_a (a_read ind b) F1) ind) with (cont F1 ind).
  apply wp_bind. eapply (f_set _ _ ind b); [exact R2|exact Hh2|apply good_wru, (good_cont s2 _ ind R2)|]. intros s3 R3.
  pose proof (budget_ind F (dn F ip) r j Hb2 Hn) as Hb3.
  eapply (f_log _ _ ind b true); [exact R3|apply C|cbn; by rewrite lookup_insert_eq|exact (log_room M F1 ind j Hb3 Hj)|]. intros s4 R4.
  apply wp_ret, wp_bind. eapply (f_brelse _ _ ind b); [exact R4|apply C|cbn; by rewrite lookup_insert_eq|]. intros s5 R5.
  rewrite view_update in R5 by done. apply wp_ret. set (F2 := put_cont ind (wru 4 (4 * bn) r (cont F1 ind)) F1) in *.
  assert (addr_at F1 (dn F ip) (12 + bn) = 0) as Hz1.
  { rewrite (addr_at_ext F F1) by (intros _; exact Ec). by rewrite Ea. }
  destruct (grows_entry F1 (dn F ip) r bn L (g_wf _ _ _ _ _ G1) Fr1 Hn Hbn (good_cont s2 _ ind R2) Hz1) as [G2 Ea2]. fold ind in G2, Ea2. fold F2 in G2, Ea2.
  exists F2. split; [done|]. exists (dn F ip). split; [exact (it_upd_refl ip F)|]. split.
  { apply (grows_then (eq r) F (dn F ip) F1 (dn F ip) F2 (dn F ip) G1 G2). intros x Hx <-. congruence. }
  split; [done|]. split.
  { assert (calm M 0 F1) as C1 by (apply calm_alloc; [done|exact (good_cont _ _ _ R)|done]).
    apply (calm_more M 0 F1); try done; [intros n [->|]%txn_put; auto|]. intros x Hx Hux. unfold F2. rewrite used_put_data; done. }
  right. split; [done|]. split; [by rewrite Ea2|]. pose proof (budget_put M F1 ind (wru 4 (4 * bn) r (cont F1 ind)) j Hb3) as Hb4. fold F2 in Hb4.
  destruct (txn_alloc r F) as [T1 T2]. assert (txn F2 = {[ind]} ∪ txn F1) as Et by done.
  rewrite decide_True by (rewrite Et; set_solver). unfold icost. fold ind. rewrite decide_True by (split; [done|rewrite Et; set_solver]).
  by rewrite !Z.add_0_r.
Qed.

Lemma bmap_ok s F ip bn j : frep s F -> calm M 0 F -> i_dev (finode F ip) = dv -> wfi F (dn F ip) -> 0 <= bn < MAXFILE ->
  budget M F (j + 1 + icost M F (dn F ip)) -> 0 <= j ->
  wp (bmap ip bn) (fun a s' => exists F', frep s' F' /\ bmapped F ip bn j a F') s.
Proof.
  intros R C Hdv W Hbn Hb Hj. destruct (Z.lt_ge_cases bn NDIRECT) as [Hlt|Hge]; [by apply bmap_direct; try lia|].
  pose proof (c_layout _ _ _ C) as L. pose proof (wi_len _ _ W) as Hl. unfold bmap. apply wp_bind, (f_dev _ _ _ _ R). rewrite Hdv.
  rewrite (proj2 (Z.ltb_ge bn NDIRECT)) by done. assert (0 <= bn - NDIRECT < NINDIRECT) as Hbn' by (rewrite maxfile, ndirect in *; change NINDIRECT with 256; lia).
  rewrite (proj2 (Z.ltb_lt (bn - NDIRECT) NINDIRECT)) by lia. assert (NDIRECT + (bn - NDIRECT) = bn) as Ebn by lia.
  apply wp_bind, (f_addr _ _ _ _ _ R Hl); [rewrite ndirect; lia|]. change (nth (Z.to_nat NDIRECT) (di_addrs (dn F ip)) 0) with (ind_of (dn F ip)).
  destruct (Z.eqb_spec (ind_of (dn F ip)) 0) as [Hz|Hn].
  2:{ apply wp_bind, wp_ret. rewrite (proj2 (Z.eqb_neq _ 0) Hn).
      pose proof (bmap_entry s F ip (bn - NDIRECT) j R C W Hn Hbn' Hb Hj) as Hw. rewrite Ebn in Hw. exact Hw. }
  assert (icost M F (dn F ip) = 1) as Eic by (unfold icost; rewrite decide_False; [done|]; intros [? _]; done).
  rewrite Eic in Hb. apply wp_bind, wp_bind. eapply wp_mono; [eapply (balloc_ok M Hnb F s 0 (j + 1) R C)|].
  { lia. } { apply (budget_le _ _ _ _ Hb). lia. } { lia. }
  cbn beta. intros r s1 [(-> & R1 & Hfull)|(Hd & Hu & R1 & Hb1)].
  { cbn [Z.eqb negb mwhen]. apply wp_bind, wp_ret, wp_ret. cbn [Z.eqb]. apply wp_ret. exists F. split; [done|].
    apply bmapped_full; try done. by rewrite Eic. }
  destruct (grows_alloc F (dn F ip) r L (good_cont _ _ _ R) W Hd Hu) as [G1 Fr1].
  destruct (Z.eqb_spec r 0) as [->|Hr]; [destruct (fr_pos _ _ _ Fr1); lia|]. cbn [negb mwhen].
  destruct (grows_ind (v_alloc r F) (dn F ip) r L (g_wf _ _ _ _ _ G1) Fr1 Hz) as [G2 Ei2].
  apply wp_bind, (f_set_addr _ _ _ _ _ _ R1). intros s2 R2. change (dn (v_alloc r F) ip) with (dn F ip) in R2. rewrite ndirect in R2 at 1.
  set (d1 := set_di_addr 12 r (dn F ip)) in *. apply wp_ret. rewrite (proj2 (Z.eqb_neq r 0) Hr). set (F1 := set_dn ip d1 (v_alloc r F)) in *.
  assert (it_upd ip d1 F F1) as I1 by by apply it_upd_set.
  assert (dn F1 ip = d1) as Ed by (unfold dn; rewrite I1, decide_True; done).
  assert (grows F (dn F ip) F1 d1) as G3.
  { apply (grows_then (eq r) F (dn F ip) (v_alloc r F) (dn F ip)); [done|by apply grows_set_dn|]. intros x Hx <-. congruence. }
  destruct (txn_alloc r F) as [T1 _].
  assert (icost M F1 d1 = 0) as Eic1 by (unfold icost; rewrite Ei2, decide_True; [done|]; split; [done|]; change (txn F1) with (txn (v_alloc r F)); set_solver).
  pose proof (bmap_entry s2 F1 ip (bn - NDIRECT) j R2) as Hw. rewrite Ebn, Ed, Ei2 in Hw. eapply wp_mono; [apply Hw|].
  - apply calm_set_dn, calm_alloc; [done|exact (good_cont _ _ _ R)|done].
  - apply G3.
  - done.
  - done.
  - rewrite Eic1. apply (budget_le _ _ (j + 1)); [exact Hb1|lia].
  - done.
  - cbn beta. intros a s3 (F' & R3 & HB). exists F'. split; [done|]. by eapply bmapped_trans.
Qed.
End bmap.
