(* ===== verification/FsFile.v ===== *)
(** * The contents of a file

    [writei], [readi] and [iupdate] of [kernel/fs.c] against the bytes of a file: writing
    replaces and extends, reading returns, and the blocks of other files stay as they
    are. *)

From Stdlib Require Import ZArith Lia.
From stdpp Require Import base numbers list gmap strings sets.
From S2P Require Import Prelude CString Riscv Spinlock Locks Bio BioView Block Log Fs FsDisk FsBlocks FsInode.

Definition file_byte (F : fview) (d : dinode) (o : Z) : Z := byte_at (cont F (addr_at F d (o / BSIZE))) (o mod BSIZE).
Definition content (F : fview) (d : dinode) : list Z := (fun i => file_byte F d (Z.of_nat i)) <$> seq 0 (Z.to_nat (di_size d)).

(** No holes below the size. *)
Record file_ok (F : fview) (d : dinode) : Prop := {
  fo_wf : wfi F d;
  fo_size : 0 <= di_size d <= MAXFILE * BSIZE;
  fo_full : forall bn, 0 <= bn -> bn * BSIZE < di_size d -> addr_at F d bn <> 0;
}.

(** The file after [tot] of the bytes [bs] were written at [off]; its size is not updated
    yet. *)
Record wrote (F : fview) (d : dinode) (F' : fview) (d' : dinode) (off tot : Z) (bs : list Z) : Prop := {
  w_sb : fsb F' = fsb F;
  w_fields : (di_type d', di_major d', di_minor d', di_nlink d', di_size d') = (di_type d, di_major d, di_minor d, di_nlink d, di_size d);
  w_wf : wfi F' d';
  w_old : forall bn, 0 <= bn < MAXFILE -> addr_at F d bn <> 0 -> addr_at F' d' bn = addr_at F d bn;
  w_new : forall o, off <= o < off + tot -> addr_at F' d' (o / BSIZE) <> 0;
  w_byte : forall o, 0 <= o < MAXFILE * BSIZE -> addr_at F' d' (o / BSIZE) <> 0 ->
    file_byte F' d' o = if decide (off <= o < off + tot) then nth (Z.to_nat (o - off)) bs 0
                        else if decide (addr_at F d (o / BSIZE) = 0) then 0 else file_byte F d o;
  w_used : forall b, data_block F b -> used F b = true -> used F' b = true;
  w_other : forall b, data_block F b -> used F b = true -> ~ mine F d b -> cont F' b = cont F b /\ ~ mine F' d' b;
  w_meta : forall b, 0 <= b < bmapstart (fsb F) -> cont F' b = cont F b;
}.

Lemma bsize : BSIZE = 1024.
Proof. reflexivity. Qed.

Lemma block_of o : 0 <= o < MAXFILE * BSIZE -> 0 <= o / BSIZE < MAXFILE /\ 0 <= o mod BSIZE < BSIZE.
Proof. rewrite maxfile, bsize. intros. dlia. Qed.

Lemma byte_zero i : byte_at zero_block i = 0.
Proof.
  unfold byte_at, zero_block. rewrite nth_lookup. destruct (replicate _ 0 !! _) eqn:E; [|done].
  by apply lookup_replicate in E as [-> _].
Qed.

Lemma wrote_refl F d off bs : wfi F d -> wrote F d F d off 0 bs.
Proof.
  intros W. split; try done.
  - lia.
  - intros o Ho Hn. rewrite decide_False by lia. by rewrite decide_False.
Qed.

(** Allocating blocks. *)
Lemma wrote_grows F d F1 d1 F2 d2 off tot bs : wrote F d F1 d1 off tot bs -> 0 <= off -> off + tot <= MAXFILE * BSIZE ->
  grows F1 d1 F2 d2 -> wrote F d F2 d2 off tot bs.
Proof.
  intros [A1 A2 A3 A4 A5 A6 A7 A8 A9] Hoff Htot [B1 B2 B3 B4 B5 B6 B7 B8].
  assert (forall b, data_block F b -> data_block F1 b) as Hd by (intros b; unfold data_block; by rewrite A1).
  split; try done; try congruence.
  - intros bn Hbn Hn. destruct (B4 bn Hbn) as [E _]; [by rewrite A4|]. rewrite E. by apply A4.
  - intros o Ho. destruct (block_of o ltac:(lia)) as [Hb _]. destruct (B4 _ Hb (A5 o Ho)) as [-> _]. by apply A5.
  - intros o Ho Hn. destruct (block_of o Ho) as [Hb _]. destruct (Z.eq_dec (addr_at F1 d1 (o / BSIZE)) 0) as [E|E].
    + unfold file_byte at 1. rewrite B5, byte_zero by done. rewrite decide_False by (intros Hr; by apply (A5 o Hr)).
      rewrite decide_True; [done|]. destruct (Z.eq_dec (addr_at F d (o / BSIZE)) 0) as [|E0]; [done|]. by rewrite <- (A4 _ Hb E0) in E0.
    + rewrite <- A6 by done. unfold file_byte. by destruct (B4 _ Hb E) as [-> ->].
  - auto.
  - intros b Hb Hu Hm. destruct (A8 b Hb Hu Hm) as [E1 M1]. destruct (B7 b) as [E2 M2]; auto. split; [congruence|done].
  - intros b Hb. rewrite B8 by (by rewrite A1). by apply A9.
Qed.

Lemma byte_splice c p l i : 0 <= p -> 0 <= i -> p + Z.of_nat (length l) <= Z.of_nat (length c) ->
  byte_at (splice c p l) i = if decide (p <= i < p + Z.of_nat (length l)) then nth (Z.to_nat (i - p)) l 0 else byte_at c i.
Proof.
  intros Hp Hi Hl. unfold byte_at. rewrite !nth_lookup. case_decide.
  - rewrite lookup_splice_in by lia. do 2 f_equal. lia.
  - by rewrite lookup_splice_out by lia.
Qed.

(** One block written. *)
Lemma wrote_put F d F2 d2 off tot m bs a : layout (fsb F) -> wrote F d F2 d2 off tot bs -> 0 <= off -> 0 <= tot -> 0 < m ->
  (off + tot) mod BSIZE + m <= BSIZE -> off + tot + m <= MAXFILE * BSIZE -> tot + m <= Z.of_nat (length bs) ->
  a = addr_at F2 d2 ((off + tot) / BSIZE) -> a <> 0 -> good_block (cont F2 a) ->
  wrote F d (put_cont a (splice (cont F2 a) ((off + tot) mod BSIZE) (slice bs tot m)) F2) d2 off (tot + m) bs.
Proof.
  intros L [A1 A2 A3 A4 A5 A6 A7 A8 A9] Hoff Htot Hm Hmod Hmax Hlen Ea Ha [Hg _].
  destruct (block_of (off + tot) ltac:(lia)) as [Hbn Hbm]. rewrite Ea in Ha.
  destruct (wi_data _ _ A3 _ Hbn Ha) as (Hda & Hua & Hai). rewrite <- Ea in Hda, Hua, Hai, Ha.
  set (F3 := put_cont a _ F2). assert (layout (fsb F2)) as L2 by (by rewrite A1).
  assert (forall bn, addr_at F3 d2 bn = addr_at F2 d2 bn) as Eaddr.
  { intros bn. apply addr_at_ext. intros _. unfold F3. by rewrite cont_put, decide_False by done. }
  assert (forall b, data_block F2 b -> used F3 b = used F2 b) as Hu3.
  { intros b Hb. unfold F3. pose proof (dstart_pos F2 L2). apply used_put_data; [done|done|destruct Hb; lia]. }
  assert (length (slice bs tot m) = Z.to_nat m) as Hsl by (apply length_slice; lia).
  assert (forall b, data_block F b -> data_block F2 b) as Hd by (intros b; unfold data_block; by rewrite A1).
  split; try done.
  - apply (wfi_ext F2); [done|done| |].
    + intros _. unfold F3. by rewrite cont_put, decide_False by done.
    + intros b Hb Hub. by rewrite Hu3.
  - intros bn Hb Hn. rewrite Eaddr. by apply A4.
  - intros o Ho. rewrite Eaddr. destruct (Z.lt_ge_cases o (off + tot)); [apply A5; lia|].
    assert (o / BSIZE = (off + tot) / BSIZE) as -> by (rewrite bsize in *; dlia). congruence.
  - intros o Ho. rewrite Eaddr. intros Hn. destruct (block_of o Ho) as [Hob Hom]. unfold file_byte at 1. rewrite Eaddr. unfold F3. rewrite cont_put.
    destruct (Z.eq_dec (o / BSIZE) ((off + tot) / BSIZE)) as [Eq|Ne].
    + rewrite Eq, <- Ea, decide_True by done. rewrite byte_splice by (rewrite ?Hsl, ?Hg, ?bsize in *; lia). rewrite Hsl.
      assert (o - (off + tot) = o mod BSIZE - (off + tot) mod BSIZE) as Eo by (rewrite bsize in *; dlia).
      destruct (decide ((off + tot) mod BSIZE <= o mod BSIZE < (off + tot) mod BSIZE + Z.of_nat (Z.to_nat m))) as [Hin|Hout].
      * rewrite decide_True by lia. rewrite !nth_lookup, lookup_slice by lia. do 2 f_equal. lia.
      * rewrite Ea, <- Eq. change (byte_at (cont F2 (addr_at F2 d2 (o / BSIZE))) (o mod BSIZE)) with (file_byte F2 d2 o).
        rewrite A6 by done. repeat case_decide; try done; lia.
    + rewrite decide_False.
      2:{ intros E. apply Ne. apply (wi_inj _ _ A3); [done|done|done|congruence]. }
      change (byte_at (cont F2 (addr_at F2 d2 (o / BSIZE))) (o mod BSIZE)) with (file_byte F2 d2 o). rewrite A6 by done.
      repeat case_decide; try done; exfalso; rewrite bsize in *; [lia|apply Ne; dlia..].
  - intros b Hb Hub. rewrite Hu3 by auto. auto.
  - intros b Hb Hub Hmb. destruct (A8 b Hb Hub Hmb) as [E1 M1]. assert (b <> a) as Hne.
    { intros ->. apply M1. split; [done|]. right. exists ((off + tot) / BSIZE). split; [done|congruence]. }
    split; [unfold F3; by rewrite cont_put, decide_False|]. intros Hm'. apply M1. eapply mine_ext; [|exact Hm'].
    intros _. unfold F3. by rewrite cont_put, decide_False by done.
  - intros b Hb. unfold F3. rewrite cont_put, decide_False; [by apply A9|]. intros ->. destruct Hda as [Hda _].
    rewrite A1 in Hda. unfold dstart in Hda. pose proof (lay_size _ L).
    assert (0 <= (sb_size (fsb F) - 1) / BPB) by (apply Z.div_pos; [lia|done]). lia.
Qed.

(** ** [writei] *)

(** The number of blocks a write of [n] bytes at [off] touches. *)
Definition nblk (off n : Z) : Z := if n <=? 0 then 0 else (off + n - 1) / BSIZE - off / BSIZE + 1.

Lemma nblk_range off n : 0 <= off -> 0 <= n -> 0 <= nblk off n <= n / BSIZE + 2.
Proof. unfold nblk. rewrite bsize. intros. destruct (Z.leb_spec n 0); dlia. Qed.

Lemma nblk_step off n m : 0 <= off -> 0 < n -> m = Z.min n (BSIZE - off mod BSIZE) ->
  0 < m /\ off mod BSIZE + m <= BSIZE /\ nblk off n = 1 + nblk (off + m) (n - m).
Proof.
  unfold nblk. rewrite bsize. intros Ho Hn ->. split; [dlia|]. split; [dlia|].
  destruct (Z.leb_spec n 0); [lia|]. destruct (Z.leb_spec (n - Z.min n (1024 - off mod 1024)) 0); dlia.
Qed.

Lemma slice_bytes_at (m : memory) p n o k : 0 <= o -> 0 <= k -> o + k <= n ->
  slice (bytes m p (Z.to_nat n)) o k = bytes m (p + o) (Z.to_nat k).
Proof.
  intros Ho Hk Hn. apply list_eq. intros i. destruct (Nat.lt_ge_cases i (Z.to_nat k)) as [Hi|Hi].
  - rewrite lookup_slice by lia. unfold bytes. rewrite !list_lookup_fmap, !lookup_seq_lt by lia.
    cbn [fmap option_fmap option_map Nat.add]. replace (p + Z.of_nat (Z.to_nat o + i)) with (p + o + Z.of_nat i) by lia. done.
  - rewrite !lookup_ge_None_2; [done|by rewrite length_bytes|]. unfold slice. rewrite length_take. lia.
Qed.

Section files.
Context {S : Type} `{D : DiskOk S dv nbufs}.
Implicit Types (s : fstate S) (F : fview).

Lemma f_copyin s F n b f src off len (Q : Z -> fstate S -> Prop) : frep s F -> hold F !! n = Some (b, f) ->
  0 <= off -> 0 <= len -> off + len <= BSIZE ->
  (forall s', frep s' (on_a (a_set n b (splice (cont F n) off (bytes (amem (fA F)) src (Z.to_nat len)))) F) -> Q 0 s') ->
  wp (lift (either_copyin b off false src len)) Q s.
Proof.
  intros R Hh H1 H2 H3 HQ.
  apply (wp_flift _ s F (fun r A' => r = 0 /\ A' = a_set n b (splice (cont F n) off (bytes (amem (fA F)) src (Z.to_nat len))) (fA F)) _ R).
  - eapply wp_mono; [by eapply d_copyin; [apply R|..]|]. cbn beta. intros r x [-> Rx]. eauto.
  - intros r s' A' [-> ->] R'. by apply HQ.
Qed.

Lemma f_copyout s F n b f dst off len (Q : Z -> fstate S -> Prop) : frep s F -> hold F !! n = Some (b, f) ->
  0 <= off -> 0 <= len -> off + len <= BSIZE ->
  (forall s' m, frep s' (on_a (a_mem m) F) ->
    (forall a, rd8 m a = if decide (dst <= a < dst + len) then byte_at (cont F n) (off + (a - dst)) else rd8 (amem (fA F)) a) -> Q 0 s') ->
  wp (lift (either_copyout false dst b off len)) Q s.
Proof.
  intros R Hh H1 H2 H3 HQ.
  apply (wp_flift _ s F (fun r A' => r = 0 /\ exists m, A' = a_mem m (fA F) /\
    forall a, rd8 m a = if decide (dst <= a < dst + len) then byte_at (cont F n) (off + (a - dst)) else rd8 (amem (fA F)) a) _ R).
  - eapply wp_mono; [by eapply d_copyout; [apply R|..]|]. cbn beta. intros r x [-> (m & Rx & Hm)].
    exists (a_mem m (fA F)). split; [|done]. split; [done|]. by exists m.
  - intros r s' A' [-> (m & -> & Hm)] R'. apply (HQ s' m); [exact R'|exact Hm].
Qed.

Context (Hnb : (13 <= nbufs)%nat) (M : gset Z).

(** One turn of the loop of [writei], with the block found. *)
Lemma write_block {A} s F2 a src off m (k1 k2 : Prelude.M (fstate S) A) (Q : A -> fstate S -> Prop) j : frep s F2 -> calm M 0 F2 ->
  0 <= off -> 0 < m -> off + m <= BSIZE ->
  budget M F2 (j + (if decide (a ∈ M ∪ txn F2) then 0 else 1)) -> 0 <= j ->
  (forall s', frep s' (put_cont a (splice (cont F2 a) off (bytes (amem (fA F2)) src (Z.to_nat m))) F2) -> wp k2 Q s') ->
  wp (bp ← lift (bread dv a);
      r ← lift (either_copyin bp off false src m);
      if r =? -1 then lift (brelse bp);; k1 else lift (log_write bp);; lift (brelse bp);; k2) Q s.
Proof.
  intros R C Hoff Hm Hle Hb Hj HQ. assert (hold F2 !! a = None) as Hh by (by rewrite (calm0_hold M F2 C)).
  apply wp_bind. apply (calm_bread M Hnb 0 F2 a s _ _ R C ltac:(lia) Hb); [case_decide; lia|done|]. intros b s1 R1.
  apply wp_bind. eapply f_copyin; [exact R1|rewrite hold_read, decide_True by done; done|lia|lia|lia|]. intros s2 R2. cbn [Z.eqb].
  apply wp_bind. eapply (f_log _ _ a b true); [exact R2|apply C|cbn; by rewrite lookup_insert_eq| |].
  { apply (log_room M F2 a j); [|done]. case_decide; rewrite ?Z.add_0_r in Hb; done. }
  intros s3 R3. apply wp_bind. eapply (f_brelse _ _ a b); [exact R3|apply C|cbn; by rewrite lookup_insert_eq|]. intros s4 R4.
  change (amem (fA (on_a (a_read a b) F2))) with (amem (fA F2)) in R4. change (cont (on_a (a_read a b) F2) a) with (cont F2 a) in R4.
  rewrite view_update in R4 by done. by apply HQ.
Qed.

(** What holds in the loop of [writei] after [tot] bytes. *)
Record writing F ip off n bs tot F1 d1 : Prop := {
  wg_it : it_upd ip d1 F F1;
  wg_wrote : wrote F (dn F ip) F1 d1 off tot bs;
  wg_rest : rest F1 = rest F;
  wg_calm : calm M 0 F1;
  wg_tot : 0 <= tot <= n;
}.

Lemma dn_upd ip d F F' : it_upd ip d F F' -> dn F' ip = d.
Proof. intros I. unfold dn. rewrite I, decide_True by done. done. Qed.

Lemma calm_put_data k F a x : calm M k F -> data_block F a -> calm M k (put_cont a x F).
Proof. intros C Hd. apply (calm_more M k F); try done; [intros n [->|]%txn_put; auto|]. intros b Hb Hu. rewrite used_put_data; try done. apply C. Qed.

(** [bmap], then the block written. *)
Lemma writing_step F ip off n bs tot F1 d1 F2 d2 a m : writing F ip off n bs tot F1 d1 -> 0 <= off -> off + n <= MAXFILE * BSIZE ->
  layout (fsb F) -> n <= Z.of_nat (length bs) ->
  it_upd ip d2 F1 F2 -> grows F1 d1 F2 d2 -> rest F2 = rest F1 -> calm M 0 F2 -> a <> 0 -> a = addr_at F2 d2 ((off + tot) / BSIZE) ->
  good_block (cont F2 a) -> 0 < m -> tot + m <= n -> (off + tot) mod BSIZE + m <= BSIZE ->
  writing F ip off n bs (tot + m) (put_cont a (splice (cont F2 a) ((off + tot) mod BSIZE) (slice bs tot m)) F2) d2.
Proof.
  intros [I1 W1 E1 C1 T1] Hoff Hmax L Hlen I2 G2 E2 C2 Ha Ea Hg Hm Hmn Hmod.
  assert (wrote F (dn F ip) F2 d2 off tot bs) as W2 by (apply (wrote_grows _ _ F1 d1); (done || lia)).
  assert (data_block F2 a) as Hda.
  { destruct (block_of (off + tot) ltac:(lia)) as [Hbn _]. rewrite Ea. apply (wi_data _ _ (w_wf _ _ _ _ _ _ _ W2) _ Hbn). congruence. }
  split; [| |by rewrite <- E1, <- E2|by apply calm_put_data|lia].
  - intros i. change (finode (put_cont _ _ F2) i) with (finode F2 i). rewrite I2, !I1. by repeat case_decide.
  - apply wrote_put; try done; lia.
Qed.

Lemma writei_loop s F ip src off n : frep s F -> calm M 0 F -> i_dev (finode F ip) = dv -> wfi F (dn F ip) ->
  0 <= off -> 0 <= n -> off + n <= MAXFILE * BSIZE -> 0 <= src -> src + n < 2 ^ 64 ->
  budget M F (nblk off n + icost M F (dn F ip)) ->
  wp (loop (Z.to_nat (n / BSIZE + 3)) (fun '(tot, off, src) =>
        if negb (tot <? n) then mret (inr (tot, off)) else
        addr ← bmap ip (off / BSIZE);
        if addr =? 0 then mret (inr (tot, off)) else
        dv ← gets (fun s => i_dev (inode_of s ip));
        bp ← lift (bread dv addr);
        let m := Z.min (n - tot) (BSIZE - off mod BSIZE) in
        r ← lift (either_copyin bp (off mod BSIZE) false src m);
        if r =? -1 then lift (brelse bp);; mret (inr (tot, off)) else
        lift (log_write bp);;
        lift (brelse bp);;
        mret (inl (tot + m, u32 (off + m), u64 (src + m)))) (0, off, src))
     (fun '(tot, o) s' => o = off + tot /\ exists F1 d1, frep s' F1 /\ budget M F1 0 /\ (tot < n -> full F1) /\
        writing F ip off n (bytes (amem (fA F)) src (Z.to_nat n)) tot F1 d1) s.
Proof.
  intros R C Hdv W Hoff Hn Hmax Hs1 Hs2 Hb. pose proof (c_layout _ _ _ C) as L. set (bs := bytes (amem (fA F)) src (Z.to_nat n)).
  assert (length bs = Z.to_nat n) as Hlen by apply length_bytes. assert (MAXFILE * BSIZE = 274432) as HM by reflexivity.
  apply (wp_loop _ (fun '(tot, o, sr) s1 => o = off + tot /\ sr = src + tot /\ exists F1 d1, frep s1 F1 /\
      budget M F1 (nblk (off + tot) (n - tot) + icost M F1 d1) /\ writing F ip off n bs tot F1 d1)
    (fun '(tot, _, _) _ => Z.to_nat (nblk (off + tot) (n - tot)))).
  - intros [[tot o] sr] s1 (-> & -> & F1 & d1 & R1 & B1 & G). pose proof (wg_tot _ _ _ _ _ _ _ _ G) as Htot.
    pose proof (icost_range M F1 d1) as Hic1. pose proof (nblk_range (off + tot) (n - tot) ltac:(lia) ltac:(lia)) as Hnb1.
    destruct (Z.ltb_spec tot n) as [Hlt|Hge]; cbn [negb].
    2:{ apply wp_ret. split; [done|]. exists F1, d1. split; [done|]. split; [apply (budget_le _ _ _ _ B1); lia|]. split; [lia|done]. }
    destruct (nblk_step (off + tot) (n - tot) _ ltac:(lia) ltac:(lia) eq_refl) as (Hm1 & Hm2 & Hm3).
    set (m := Z.min (n - tot) (BSIZE - (off + tot) mod BSIZE)) in *. set (j := nblk (off + tot + m) (n - tot - m)) in *.
    assert (0 <= j) as Hj by (apply nblk_range; lia). assert (tot + m <= n) as Hmn by lia.
    destruct (block_of (off + tot) ltac:(lia)) as [Hbn _].
    pose proof (wg_it _ _ _ _ _ _ _ _ G) as I1. pose proof (dn_upd _ _ _ _ I1) as Ed.
    assert (i_dev (finode F1 ip) = dv) as Hdv1 by (rewrite I1, decide_True; done).
    apply wp_bind. eapply wp_mono; [apply (bmap_ok M Hnb s1 F1 ip ((off + tot) / BSIZE) j R1)|].
    { apply G. } { done. } { rewrite Ed. apply G. } { done. } { rewrite Ed. apply (budget_le _ _ _ _ B1). lia. } { done. }
    cbn beta. intros a s2 (F2 & R2 & d2 & I2 & G2 & E2 & C2 & [(-> & Hf & B2)|(Ha & Ea & B2)]); rewrite Ed in G2.
    + cbn [Z.eqb]. apply wp_ret. split; [done|]. exists F2, d2. split; [done|]. split; [apply (budget_le _ _ _ _ B2); lia|]. split; [done|].
      destruct G as [_ G1 G3 _ _]. split; [|apply (wrote_grows _ _ F1 d1); (done || lia)|congruence|done|done].
      intros i. rewrite I2, !I1. by repeat case_decide.
    + rewrite (proj2 (Z.eqb_neq a 0) Ha). pose proof (icost_range M F2 d2) as Hic2.
      assert (i_dev (finode F2 ip) = dv) as Hdv2 by (rewrite I2, decide_True; done).
      apply wp_bind, (f_dev _ _ _ _ R2). rewrite Hdv2. cbv zeta.
      apply (write_block s2 F2 a (src + tot) ((off + tot) mod BSIZE) m _ _ _ (j + icost M F2 d2) R2 C2); [rewrite bsize; dlia|done|done|done|lia|].
      intros s3 R3. apply wp_ret.
      assert (amem (fA F2) = amem (fA F)) as Em by (pose proof (wg_rest _ _ _ _ _ _ _ _ G) as E1; unfold rest in *; congruence).
      assert (bytes (amem (fA F2)) (src + tot) (Z.to_nat m) = slice bs tot m) as Ebs by (rewrite Em; unfold bs; rewrite slice_bytes_at by lia; done).
      rewrite Ebs in R3.
      assert (u32 (off + tot + m) = off + (tot + m)) as -> by (unfold u32; rewrite Z.mod_small by lia; lia).
      assert (u64 (src + tot + m) = src + (tot + m)) as -> by (unfold u64; rewrite Z.mod_small by lia; lia).
      replace (off + (tot + m)) with (off + tot + m) by lia. replace (n - (tot + m)) with (n - tot - m) by lia.
      split; [|fold j; lia]. split; [lia|]. split; [done|]. eexists _, d2. split; [exact R3|]. split.
      * fold j. apply (budget_le _ _ (j + icost M F2 d2)); [|].
        { apply budget_put. case_decide; [by rewrite Z.add_0_r in B2|done]. }
        { pose proof (icost_grow M F2 (put_cont a (splice (cont F2 a) ((off + tot) mod BSIZE) (slice bs tot m)) F2) d2 ltac:(unfold txn; cbn; set_solver)). lia. }
      * eapply writing_step; try done; [lia|exact (good_cont _ _ _ R2)].
  - split; [lia|]. split; [lia|]. exists F, (dn F ip). rewrite Z.add_0_r, Z.sub_0_r. split; [done|]. split; [done|].
    split; [apply it_upd_refl|by apply wrote_refl|done|done|lia].
  - rewrite Z.add_0_r, Z.sub_0_r. pose proof (nblk_range off n Hoff Hn). rewrite bsize in *. assert (0 <= n / 1024) by (apply Z.div_pos; lia). lia.
Qed.
End files.
