(* ===== verification/FsWrite.v ===== *)
(** * Reading and writing files

    [iupdate], [writei] and [readi] of [kernel/fs.c] on top of [FsFile.v]: the on-disk inode
    is a faithful copy, [writei] splices bytes into the file, [readi] returns them. *)

From Stdlib Require Import ZArith Lia.
From stdpp Require Import base numbers list gmap strings sets.
From S2P Require Import Prelude CString Riscv Spinlock Locks Bio BioView Block Log Fs FsDisk FsBlocks FsInode FsFile.

(** ** The on-disk inode *)

Definition is_short (x : Z) : Prop := - 2 ^ 15 <= x < 2 ^ 15.
Record dinode_ok (d : dinode) : Prop := {
  do_type : is_short (di_type d);
  do_major : is_short (di_major d);
  do_minor : is_short (di_minor d);
  do_nlink : is_short (di_nlink d);
  do_size : 0 <= di_size d < 2 ^ 32;
  do_len : length (di_addrs d) = 13%nat;
  do_addrs : Forall (fun a => 0 <= a < 2 ^ 32) (di_addrs d);
}.

Lemma i16_mod x : is_short x -> i16 (x mod 2 ^ (8 * Z.of_nat 2)) = x.
Proof. unfold is_short, i16. intros. change (8 * Z.of_nat 2) with 16. dlia. Qed.

Lemma length_put_addrs o a d : length (put_addrs o a d) = length d.
Proof. revert o d; induction a as [|x a IH]; intros o d; cbn [put_addrs]; [done|]. by rewrite IH, length_wru. Qed.

Lemma put_addrs_bytes o a d : Forall is_byte d -> Forall is_byte (put_addrs o a d).
Proof. revert o d; induction a as [|x a IH]; intros o d Hd; cbn [put_addrs]; [done|]. by apply IH, wru_bytes. Qed.

Lemma put_addrs_ne o a d off n : 0 <= o -> 0 <= off -> off + Z.of_nat n <= o \/ o + 4 * Z.of_nat (length a) <= off ->
  rdu n off (put_addrs o a d) = rdu n off d.
Proof.
  revert o d; induction a as [|x a IH]; intros o d Ho Hoff Hd; cbn [put_addrs length] in *; [done|].
  rewrite IH by lia. apply rdu_wru_ne; lia.
Qed.

Lemma put_addrs_eq o a d i : 0 <= o -> o + 4 * Z.of_nat (length a) <= Z.of_nat (length d) -> (i < length a)%nat ->
  rdu 4 (o + 4 * Z.of_nat i) (put_addrs o a d) = nth i a 0 mod 2 ^ 32.
Proof.
  revert o d i; induction a as [|x a IH]; intros o d i Ho Hl Hi; cbn [put_addrs length nth] in *; [lia|].
  destruct i as [|i].
  - rewrite Z.add_0_r, put_addrs_ne by lia. by rewrite rdu_wru_eq by lia.
  - replace (o + 4 * Z.of_nat (S i)) with (o + 4 + 4 * Z.of_nat i) by lia. apply IH; rewrite ?length_wru; lia.
Qed.

Lemma good_put_dinode o di d : good_block d -> good_block (put_dinode o di d).
Proof.
  intros [Hl Hb]. unfold put_dinode. split; [by rewrite length_put_addrs, !length_wru|].
  apply put_addrs_bytes. by repeat apply wru_bytes.
Qed.

(** Fields do not overlap. *)
Lemma put_dinode_get o di d : dinode_ok di -> 0 <= o -> o + sizeof_dinode <= Z.of_nat (length d) ->
  get_dinode o (put_dinode o di d) = di.
Proof.
  intros [D1 D2 D3 D4 D5 D6 D7] Ho Hl. unfold sizeof_dinode in Hl. unfold get_dinode, put_dinode.
  rewrite !put_addrs_ne by lia. rewrite !rdu_wru_eq, !rdu_wru_ne by (rewrite ?length_wru; lia).
  rewrite ?rdu_wru_eq by (rewrite ?length_wru; lia).
  repeat (rewrite rdu_wru_ne by lia; rewrite ?rdu_wru_eq by (rewrite ?length_wru; lia)).
  rewrite !i16_mod by done. rewrite Z.mod_small by done. destruct di as [t1 t2 t3 t4 sz a]; cbn [di_type di_major di_minor di_nlink di_size di_addrs] in *.
  f_equal. apply list_eq. intros i. destruct (Nat.lt_ge_cases i 13) as [Hi|Hi].
  - rewrite list_lookup_fmap, lookup_seq_lt by lia. cbn [fmap option_fmap option_map Nat.add].
    rewrite put_addrs_eq by (rewrite ?length_wru; lia). destruct (a !! i) as [x|] eqn:E; [|apply lookup_ge_None_1 in E; lia].
    rewrite nth_lookup, E. cbn. by rewrite Z.mod_small by exact (Forall_lookup_1 _ _ _ _ D7 E).
  - rewrite !lookup_ge_None_2; [done|lia|]. rewrite length_fmap, length_seq. lia.
Qed.

Lemma put_dinode_ne o o' di d : length (di_addrs di) = 13%nat -> 0 <= o -> 0 <= o' -> o + sizeof_dinode <= o' \/ o' + sizeof_dinode <= o ->
  get_dinode o' (put_dinode o di d) = get_dinode o' d.
Proof.
  intros Hl Ho Ho' Hd. unfold sizeof_dinode in Hd. unfold get_dinode, put_dinode.
  rewrite !put_addrs_ne by lia. rewrite !rdu_wru_ne by lia. f_equal.
  apply list_fmap_ext. intros i x E. apply lookup_seq in E as [-> Hi]. rewrite put_addrs_ne by lia. by rewrite !rdu_wru_ne by lia.
Qed.

(** Writing a block before the bitmap keeps the files' blocks. *)
Lemma used_put_meta F n x b : layout (fsb F) -> n < bmapstart (fsb F) -> 0 <= b < sb_size (fsb F) -> used (put_cont n x F) b = used F b.
Proof.
  intros L Hn Hb. unfold used. rewrite cont_put. cbn [fsb put_cont on_a]. rewrite decide_False; [done|].
  pose proof (bblock_range _ _ L Hb). lia.
Qed.

Lemma data_meta F b : layout (fsb F) -> data_block F b -> bmapstart (fsb F) <= b < sb_size (fsb F) /\ 0 <= b.
Proof.
  intros L [H1 H2]. pose proof (lay_size _ L) as Hs. destruct (lay_inodes _ L) as (Hi & Hi2 & Hi3). unfold dstart in H1. change IPB with 16 in *. change BPB with 8192 in *. split; [|]; dlia.
Qed.

Lemma wfi_addrs F d : layout (fsb F) -> wfi F d -> Forall (fun a => 0 <= a < 2 ^ 32) (di_addrs d).
Proof.
  intros L W. apply Forall_lookup. intros i x Hx. destruct (Z.eq_dec x 0) as [->|Hn]; [lia|]. pose proof (lay_size _ L).
  assert (data_block F x) as Hd; [|destruct (data_meta F x L Hd); lia].
  pose proof (lookup_lt_Some _ _ _ Hx) as Hi. rewrite (wi_len _ _ W) in Hi. destruct (Nat.eq_dec i 12%nat) as [->|Hi'].
  - assert (ind_of d = x) as Ex by (unfold ind_of; by rewrite nth_lookup, Hx). rewrite <- Ex in Hn |- *. by destruct (wi_ind _ _ W Hn).
  - assert (addr_at F d (Z.of_nat i) = x) as Ex.
    { unfold addr_at. rewrite ndirect, (proj2 (Z.ltb_lt _ _)) by lia. by rewrite Nat2Z.id, nth_lookup, Hx. }
    rewrite <- Ex in Hn |- *. destruct (wi_data _ _ W (Z.of_nat i)); [rewrite maxfile; lia|done|done].
Qed.

(** A view in which a block before the bitmap and sizes changed. *)
Lemma meta_addr F n x d sz bn : layout (fsb F) -> wfi F d -> n < bmapstart (fsb F) ->
  addr_at (put_cont n x F) (set_di_size sz d) bn = addr_at F d bn.
Proof.
  intros L W Hn. change (addr_at (put_cont n x F) (set_di_size sz d) bn) with (addr_at (put_cont n x F) d bn). apply addr_at_ext.
  intros Hi. rewrite cont_put, decide_False; [done|]. destruct (wi_ind _ _ W Hi) as [Hd _]. pose proof (data_meta F _ L Hd). lia.
Qed.

Lemma meta_wfi F n x d sz : layout (fsb F) -> wfi F d -> n < bmapstart (fsb F) -> wfi (put_cont n x F) (set_di_size sz d).
Proof.
  intros L W Hn. assert (wfi (put_cont n x F) d) as [W1 W2 W3 W4]; [|by split].
  apply (wfi_ext F); [done|done| |].
  - intros Hi. rewrite cont_put, decide_False; [done|]. destruct (wi_ind _ _ W Hi) as [Hd _]. pose proof (data_meta F _ L Hd). lia.
  - intros b Hb Hu. pose proof (data_meta F _ L Hb). rewrite used_put_meta by (done || lia). done.
Qed.

Lemma meta_byte F n x d sz o : layout (fsb F) -> wfi F d -> n < bmapstart (fsb F) -> 0 <= o < MAXFILE * BSIZE -> addr_at F d (o / BSIZE) <> 0 ->
  file_byte (put_cont n x F) (set_di_size sz d) o = file_byte F d o.
Proof.
  intros L W Hn Ho Ha. unfold file_byte. rewrite meta_addr by done. rewrite cont_put, decide_False; [done|].
  destruct (block_of o Ho) as [Hb _]. destruct (wi_data _ _ W _ Hb Ha) as [Hd _]. pose proof (data_meta F _ L Hd). lia.
Qed.

(** ** What [writei] does

    The bytes [bs] replace what was at [off], the file grows if they reach past its end, the
    on-disk copy of the inode is up to date, and everything else in use is left alone. *)
Record written (F : fview) (ip off : Z) (bs : list Z) (F' : fview) : Prop := {
  wr_it : it_upd ip (dn F' ip) F F';
  wr_fields : (di_type (dn F' ip), di_major (dn F' ip), di_minor (dn F' ip), di_nlink (dn F' ip)) =
              (di_type (dn F ip), di_major (dn F ip), di_minor (dn F ip), di_nlink (dn F ip));
  wr_ok : file_ok F' (dn F' ip);
  wr_content : content F' (dn F' ip) =
    take (Z.to_nat off) (content F (dn F ip)) ++ bs ++ drop (Z.to_nat off + length bs) (content F (dn F ip));
  wr_disk : forall inum, 0 <= inum < ninodes (fsb F) ->
    get_dinode (sizeof_dinode * (inum mod IPB)) (cont F' (IBLOCK inum (fsb F))) =
      if decide (inum = i_inum (finode F ip)) then dn F' ip
      else get_dinode (sizeof_dinode * (inum mod IPB)) (cont F (IBLOCK inum (fsb F)));
  wr_meta : forall b, 0 <= b < bmapstart (fsb F) -> b <> IBLOCK (i_inum (finode F ip)) (fsb F) -> cont F' b = cont F b;
  wr_used : forall b, data_block F b -> used F b = true -> used F' b = true;
  wr_other : forall b, data_block F b -> used F b = true -> ~ mine F (dn F ip) b -> cont F' b = cont F b /\ ~ mine F' (dn F' ip) b;
  wr_logged : IBLOCK (i_inum (finode F ip)) (fsb F) ∈ txn F';
  wr_rest : rest F' = rest F /\ fsb F' = fsb F;
}.

Lemma length_content F d : length (content F d) = Z.to_nat (di_size d).
Proof. unfold content. by rewrite length_fmap, length_seq. Qed.

Lemma lookup_content F d i : (i < Z.to_nat (di_size d))%nat -> content F d !! i = Some (file_byte F d (Z.of_nat i)).
Proof. intros Hi. unfold content. rewrite list_lookup_fmap, lookup_seq_lt by lia. done. Qed.

(** The size, then the on-disk inode. *)
Definition new_size (sz off tot : Z) : Z := if sz <? off + tot then off + tot else sz.

Lemma finish_file_ok F d F1 d1 off tot bs n x : layout (fsb F) -> file_ok F d -> wrote F d F1 d1 off tot bs -> 0 <= off <= di_size d ->
  0 <= tot -> off + tot <= MAXFILE * BSIZE -> n < bmapstart (fsb F) ->
  file_ok (put_cont n x F1) (set_di_size (new_size (di_size d) off tot) d1).
Proof.
  intros L [W Hs Hf] Hw Hoff Htot Hmax Hn. pose proof (w_sb _ _ _ _ _ _ _ Hw) as Es. assert (layout (fsb F1)) as L1 by by rewrite Es.
  pose proof (w_wf _ _ _ _ _ _ _ Hw) as W1. assert (n < bmapstart (fsb F1)) as Hn1 by by rewrite Es. unfold new_size. split.
  - by apply meta_wfi.
  - cbn. destruct (Z.ltb_spec (di_size d) (off + tot)); lia.
  - intros bn Hb Hlt. rewrite meta_addr by done. cbn in Hlt. rewrite bsize, maxfile in *. destruct (Z.lt_ge_cases (bn * 1024) (di_size d)) as [H1|H1].
    + rewrite (w_old _ _ _ _ _ _ _ Hw) by (rewrite ?maxfile; first [lia|by apply Hf]). by apply Hf.
    + destruct (Z.ltb_spec (di_size d) (off + tot)); [|lia].
      pose proof (w_new _ _ _ _ _ _ _ Hw (bn * 1024) ltac:(lia)) as Hw1. rewrite bsize, Z.div_mul in Hw1 by lia. done.
Qed.

Lemma finish_content F d F1 d1 off tot bs n x : layout (fsb F) -> file_ok F d -> wrote F d F1 d1 off tot bs -> 0 <= off <= di_size d ->
  0 <= tot <= Z.of_nat (length bs) -> off + tot <= MAXFILE * BSIZE -> n < bmapstart (fsb F) ->
  content (put_cont n x F1) (set_di_size (new_size (di_size d) off tot) d1) =
  take (Z.to_nat off) (content F d) ++ take (Z.to_nat tot) bs ++ drop (Z.to_nat off + length (take (Z.to_nat tot) bs)) (content F d).
Proof.
  intros L Ho Hw Hoff Htot Hmax Hn. pose proof (finish_file_ok F d F1 d1 off tot bs n x L Ho Hw Hoff ltac:(lia) Hmax Hn) as Hfo.
  pose proof (w_sb _ _ _ _ _ _ _ Hw) as Es. assert (layout (fsb F1)) as L1 by by rewrite Es. assert (n < bmapstart (fsb F1)) as Hn1 by by rewrite Es.
  pose proof (w_wf _ _ _ _ _ _ _ Hw) as W1. rewrite length_take_le by lia. set (sz := di_size d) in *. set (sz' := new_size sz off tot) in *.
  assert (sz' = Z.max sz (off + tot)) as Esz by (unfold sz', new_size; destruct (Z.ltb_spec sz (off + tot)); lia).
  assert (length (take (Z.to_nat off) (content F d)) = Z.to_nat off) as Hl1 by (rewrite length_take_le; rewrite ?length_content; fold sz; lia).
  assert (length (take (Z.to_nat tot) bs) = Z.to_nat tot) as Hl2 by (rewrite length_take_le; lia).
  apply list_eq. intros i. destruct (Nat.lt_ge_cases i (Z.to_nat sz')) as [Hi|Hi].
  2:{ rewrite !lookup_ge_None_2; [done| |by rewrite length_content]. rewrite !length_app, Hl1, Hl2, length_drop, length_content. fold sz. lia. }
  rewrite lookup_content by done. set (o := Z.of_nat i).
  pose proof (fo_size _ _ Hfo) as Hsz. cbn in Hsz. fold sz' in Hsz.
  assert (addr_at F1 d1 (o / BSIZE) <> 0) as Ha.
  { rewrite <- (meta_addr F1 n x d1 sz') by done. apply (fo_full _ _ Hfo); cbn; fold sz'; unfold o; rewrite bsize; dlia. }
  assert (0 <= o < MAXFILE * BSIZE) as Hob by (unfold o; lia).
  rewrite meta_byte by done. rewrite (w_byte _ _ _ _ _ _ _ Hw) by done.
  assert (o < sz -> addr_at F d (o / BSIZE) <> 0) as Hold by (intros ?; apply (fo_full _ _ Ho); fold sz; unfold o in *; rewrite bsize; dlia).
  destruct (Nat.lt_ge_cases i (Z.to_nat off)) as [H1|H1].
  - rewrite lookup_app_l by lia. rewrite lookup_take_lt, lookup_content by (fold sz; lia). rewrite decide_False by lia.
    rewrite decide_False by (apply Hold; lia). done.
  - rewrite lookup_app_r, Hl1 by lia. destruct (Nat.lt_ge_cases i (Z.to_nat (off + tot))) as [H2|H2].
    + rewrite lookup_app_l by lia. rewrite lookup_take_lt by lia. rewrite decide_True by lia.
      destruct (lookup_lt_is_Some_2 bs (i - Z.to_nat off)) as [v Hv]; [lia|]. rewrite Hv. f_equal. rewrite nth_lookup.
      replace (Z.to_nat (o - off)) with (i - Z.to_nat off)%nat by lia. by rewrite Hv.
    + rewrite lookup_app_r, Hl2 by lia. rewrite lookup_drop. rewrite decide_False by lia. rewrite decide_False by (apply Hold; lia).
      replace (Z.to_nat off + Z.to_nat tot + (i - Z.to_nat off - Z.to_nat tot))%nat with i by lia. by rewrite lookup_content by (fold sz; lia).
Qed.

Lemma wrote_set_dn ip x F d F1 d1 off tot bs : wrote F d F1 d1 off tot bs -> wrote F d (set_dn ip x F1) d1 off tot bs.
Proof. intros [A1 A2 A3 A4 A5 A6 A7 A8 A9]. split; try done. by apply wfi_set_dn. Qed.

Lemma iblock_meta sb inum : layout sb -> 0 <= inum < ninodes sb -> 0 <= IBLOCK inum sb < bmapstart sb.
Proof. intros L Hi. destruct (lay_inodes _ L) as (H1 & H2 & H3). unfold IBLOCK. change IPB with 16 in *. dlia. Qed.

Lemma iblock_slot sb i j : 0 <= i -> 0 <= j -> IBLOCK i sb = IBLOCK j sb -> i <> j ->
  sizeof_dinode * (i mod IPB) + sizeof_dinode <= sizeof_dinode * (j mod IPB) \/ sizeof_dinode * (j mod IPB) + sizeof_dinode <= sizeof_dinode * (i mod IPB).
Proof. unfold IBLOCK, sizeof_dinode. change IPB with 16. intros. dlia. Qed.

Lemma calm_put_meta M k F n x : calm M k F -> n ∈ M -> n < bmapstart (fsb F) -> calm M k (put_cont n x F).
Proof. intros C HM Hn. apply (calm_more M k F); try done; [intros j [->|]%txn_put; auto|]. intros b Hb Hu. rewrite used_put_meta; try done. apply C. Qed.

(** The on-disk inode as [writei] leaves it. *)
Definition flush (ip : Z) (F : fview) : fview :=
  let inum := i_inum (finode F ip) in
  put_cont (IBLOCK inum (fsb F)) (put_dinode (sizeof_dinode * (inum mod IPB)) (dn F ip) (cont F (IBLOCK inum (fsb F)))) F.

Lemma dinode_ok_grown F d F1 d1 off tot bs sz : layout (fsb F) -> dinode_ok d -> wrote F d F1 d1 off tot bs -> 0 <= sz < 2 ^ 32 ->
  dinode_ok (set_di_size sz d1).
Proof.
  intros L [D1 D2 D3 D4 D5 D6 D7] [A1 A2 A3 _ _ _ _ _ _] Hs. assert (layout (fsb F1)) as L1 by by rewrite A1.
  injection A2 as E1 E2 E3 E4 E5. split; cbn; rewrite ?E1, ?E2, ?E3, ?E4; try done; [apply A3|by apply (wfi_addrs F1)].
Qed.

Lemma finish_written F ip F1 d1 off tot n bs : layout (fsb F) -> file_ok F (dn F ip) -> dinode_ok (dn F ip) ->
  0 <= off <= di_size (dn F ip) -> 0 <= tot <= Z.of_nat (length bs) -> off + tot <= MAXFILE * BSIZE ->
  n = new_size (di_size (dn F ip)) off tot -> 0 <= i_inum (finode F ip) < ninodes (fsb F) ->
  it_upd ip (set_di_size n d1) F F1 -> wrote F (dn F ip) F1 d1 off tot bs -> rest F1 = rest F ->
  (forall b, good_block (cont F1 b)) -> written F ip off (take (Z.to_nat tot) bs) (flush ip F1).
Proof.
  intros L Ho Hd Hoff Htot Hmax En Hi I Hw Er Hg. set (d2 := set_di_size n d1) in *. pose proof (dn_upd _ _ _ _ I) as Ed.
  assert (dn (flush ip F1) ip = d2) as Ed' by exact Ed. assert (0 <= n < 2 ^ 32) as Hnr.
  { pose proof (fo_size _ _ Ho). change (MAXFILE * BSIZE) with 274432 in *. subst n. unfold new_size. destruct (_ <? _); lia. }
  pose proof (w_sb _ _ _ _ _ _ _ Hw) as Es. assert (layout (fsb F1)) as L1 by by rewrite Es.
  assert (finode F1 ip = set_i_d d2 (finode F ip)) as Ei by (rewrite I, decide_True; done).
  assert (dinode_ok d2) as Hd2 by by apply (dinode_ok_grown F (dn F ip) F1 d1 off tot bs).
  pose proof (iblock_meta _ _ L Hi) as Hib. unfold flush. rewrite Ei, Es, Ed. cbn [i_inum set_i_d]. set (inum := i_inum (finode F ip)) in *.
  set (nb := IBLOCK inum (fsb F)) in *. set (F' := put_cont nb _ F1) in *.
  assert (dn F' ip = d2) as Ed2 by exact Ed. split; rewrite ?Ed2.
  - intros i. change (finode F' i) with (finode F1 i). apply I.
  - pose proof (w_fields _ _ _ _ _ _ _ Hw). cbn. congruence.
  - subst d2 n. apply (finish_file_ok F (dn F ip) F1 d1 off tot bs); (done || lia).
  - subst d2 n. by apply (finish_content F (dn F ip) F1 d1 off tot bs); [..|lia].
  - intros k Hk. unfold F'. rewrite cont_put. pose proof (iblock_meta _ _ L Hk) as Hkb.
    destruct (decide (IBLOCK k (fsb F) = nb)) as [E|E].
    + rewrite E. case_decide as Ek.
      * subst k. apply put_dinode_get; [done|unfold sizeof_dinode; change IPB with 16; dlia|].
        destruct (Hg nb) as [-> _]. rewrite bsize. unfold sizeof_dinode. change IPB with 16. dlia.
      * rewrite put_dinode_ne; [|apply Hd2|unfold sizeof_dinode; change IPB with 16; dlia..|]; [by rewrite (w_meta _ _ _ _ _ _ _ Hw) by done|].
        apply (iblock_slot (fsb F)); [lia|lia|done|done].
    + rewrite decide_False by (intros ->; done). by rewrite (w_meta _ _ _ _ _ _ _ Hw) by done.
  - intros b Hb Hne. unfold F'. rewrite cont_put, decide_False by done. by apply (w_meta _ _ _ _ _ _ _ Hw).
  - intros b Hb Hu. pose proof (data_meta F b L Hb). unfold F'. rewrite used_put_meta by (rewrite ?Es; done || lia). by apply (w_used _ _ _ _ _ _ _ Hw).
  - intros b Hb Hu Hm. destruct (w_other _ _ _ _ _ _ _ Hw b Hb Hu Hm) as [E1 M1]. pose proof (data_meta F b L Hb). split.
    + unfold F'. rewrite cont_put, decide_False by lia. done.
    + intros [Hb0 Hm']. apply M1. split; [done|]. destruct Hm' as [->|(bn & Hbn & E)]; [by left|right]. exists bn. split; [done|].
      rewrite <- E. symmetry. unfold F', d2. apply meta_addr; [done|apply Hw|rewrite Es; lia].
  - unfold F', txn. cbn. set_solver.
  - done.
Qed.

Lemma take_bytes (m : memory) p k n : (k <= n)%nat -> take k (bytes m p n) = bytes m p k.
Proof. intros Hk. unfold bytes. rewrite <- fmap_take, take_seq. by rewrite Nat.min_l. Qed.

Section io.
Context {S : Type} `{D : DiskOk S dv nbufs} (M : gset Z) (Hnb : (13 <= nbufs)%nat).
Implicit Types (s : fstate S) (F : fview).

(** What the routines assume of the inode. *)
Record inode_ok F ip : Prop := {
  io_dev : i_dev (finode F ip) = dv;
  io_inum : 0 <= i_inum (finode F ip) < ninodes (fsb F);
  io_blk : IBLOCK (i_inum (finode F ip)) (fsb F) ∈ M;
  io_d : dinode_ok (dn F ip);
  io_file : file_ok F (dn F ip);
}.

Lemma iupdate_ok s F ip : frep s F -> calm M 0 F -> i_dev (finode F ip) = dv -> IBLOCK (i_inum (finode F ip)) (fsb F) ∈ M ->
  budget M F 0 -> wp (iupdate ip) (fun _ s' => frep s' (flush ip F)) s.
Proof.
  intros R C Hdv HM Hb. set (nb := IBLOCK (i_inum (finode F ip)) (fsb F)) in *. assert (hold F !! nb = None) as Hh by (by rewrite (calm0_hold M F C)).
  unfold iupdate. apply wp_bind, (f_gets _ (finode F ip) s F _ R); [intros s0 R0; by apply f_inode|].
  apply wp_bind, wp_bind, (f_gets _ nb s F _ R); [intros s0 R0; unfold nb; by rewrite (fr_sb _ _ R0)|]. rewrite Hdv.
  apply (calm_bread M Hnb 0 F nb s _ _ R C ltac:(lia) Hb ltac:(lia) Hh). intros bp s1 R1.
  apply wp_bind. eapply (f_data _ _ nb bp); [exact R1|rewrite hold_read, decide_True by done; done|].
  change (cont (on_a (a_read nb bp) F) nb) with (cont F nb).
  apply (calm_update M F nb s1 0 0 _ bp _ C Hh); [by rewrite decide_True by set_solver|lia| |exact R1|done].
  apply good_put_dinode. exact (good_cont _ _ nb R).
Qed.

Lemma writei_in s F ip src off n : frep s F -> calm M 0 F -> inode_ok F ip ->
  0 <= off <= di_size (dn F ip) -> 0 <= n -> off + n <= MAXFILE * BSIZE -> 0 <= src -> src + n < 2 ^ 64 ->
  budget M F (nblk off n + icost M F (dn F ip)) ->
  wp (writei ip false src off n) (fun r s' => exists F', frep s' F' /\ calm M 0 F' /\ 0 <= r <= n /\ (r < n -> full F') /\
    budget M F' 0 /\ written F ip off (bytes (amem (fA F)) src (Z.to_nat r)) F') s.
Proof.
  intros R C [Hdv Hin HM Hd Ho] Hoff Hn Hmax Hs1 Hs2 Hb. pose proof (c_layout _ _ _ C) as L. assert (MAXFILE * BSIZE = 274432) as HMB by reflexivity.
  set (sz := di_size (dn F ip)) in *. unfold writei. apply wp_bind, (f_gets _ sz s F _ R); [intros s0 R0; by rewrite (f_inode _ _ _ R0)|].
  assert (u32 (off + n) = off + n) as -> by (unfold u32; rewrite Z.mod_small; lia).
  rewrite (proj2 (Z.ltb_ge sz off)), (proj2 (Z.ltb_ge (off + n) off)), (proj2 (Z.ltb_ge (MAXFILE * BSIZE) (off + n))) by lia. cbn [orb].
  apply wp_bind. eapply wp_mono; [apply (writei_loop Hnb M s F ip src off n R C Hdv (fo_wf _ _ Ho)); (done || lia)|].
  cbn beta. intros [tot o] s1 (-> & F1 & d1 & R1 & B1 & Hfull & [I1 W1 E1 C1 T1]). pose proof (dn_upd _ _ _ _ I1) as Ed.
  assert (di_size d1 = sz) as Esz by (pose proof (w_fields _ _ _ _ _ _ _ W1) as E; injection E; done).
  apply wp_bind, (f_gets _ sz s1 F1 _ R1); [intros s0 R0; rewrite (f_inode _ _ _ R0); unfold i_size; fold (dn F1 ip); by rewrite Ed|].
  set (d2 := set_di_size (new_size sz off tot) d1).
  assert (wp (mwhen (sz <? off + tot) (upd_inode ip (fun i => set_i_d (set_di_size (off + tot) (i_d i)) i)))
    (fun _ s' => exists F2, frep s' F2 /\ it_upd ip d2 F F2 /\ calm M 0 F2 /\ budget M F2 0 /\ (full F1 -> full F2) /\ rest F2 = rest F /\
      wrote F (dn F ip) F2 d1 off tot (bytes (amem (fA F)) src (Z.to_nat n))) s1) as Hsz.
  { apply wp_when; intros Hb1; to_prop.
    - apply (f_upd _ _ _ _ _ R1). intros s2 R2. fold (dn F1 ip) in R2. rewrite Ed in R2.
      assert (set_di_size (off + tot) d1 = d2) as Ed2 by (unfold d2, new_size; by rewrite (proj2 (Z.ltb_lt sz (off + tot)))). rewrite Ed2 in R2. exists (set_dn ip d2 F1). split; [exact R2|].
      split; [|split; [by apply calm_set_dn|split; [done|split; [done|split; [done|by apply wrote_set_dn]]]]].
      intros i. rewrite (it_upd_set ip d2 F1 (set_dn ip d2 F1) eq_refl i), !I1. by repeat case_decide.
    - assert (d2 = d1) as -> by (unfold d2, new_size; rewrite (proj2 (Z.ltb_ge sz (off + tot))), <- Esz by done; by destruct d1).
      exists F1. done. }
  apply wp_bind. eapply wp_mono; [exact Hsz|]. cbn beta. intros _ s2 (F2 & R2 & I2 & C2 & B2 & Hfull2 & E2 & W2).
  pose proof (w_sb _ _ _ _ _ _ _ W2) as Es. assert (finode F2 ip = set_i_d d2 (finode F ip)) as Ei by (rewrite I2, decide_True; done).
  apply wp_bind. eapply wp_mono; [apply (iupdate_ok s2 F2 ip R2 C2)|]; [by rewrite Ei|by rewrite Ei, Es|done|]. cbn beta. intros _ s3 R3.
  apply wp_ret. rewrite i32_id by lia. exists (flush ip F2). pose proof (iblock_meta _ _ L Hin) as Hib. split; [done|].
  split; [apply calm_put_meta; [done|by rewrite Ei, Es|rewrite Ei, Es; cbn; lia]|]. split; [done|]. split; [|split].
  - intros Hr b Hb0. change (fsb (flush ip F2)) with (fsb F2) in Hb0. unfold flush. rewrite used_put_meta; [by apply Hfull2; [apply Hfull|]|by rewrite Es|rewrite Ei, Es; cbn; lia|done].
  - apply budget_put. rewrite decide_True; [done|]. rewrite Ei, Es. cbn [i_inum set_i_d]. set_solver.
  - rewrite <- (take_bytes (amem (fA F)) src (Z.to_nat tot) (Z.to_nat n)) by lia.
    apply (finish_written F ip F2 d1 off tot (new_size sz off tot)); try done; [rewrite length_bytes; lia|lia|]. intros b. exact (good_cont _ _ b R2).
Qed.

(** ** [readi] *)

Lemma bmap_old s F ip bn : frep s F -> calm M 0 F -> budget M F 0 -> i_dev (finode F ip) = dv -> wfi F (dn F ip) ->
  0 <= bn < MAXFILE -> addr_at F (dn F ip) bn <> 0 ->
  wp (bmap ip bn) (fun a s' => a = addr_at F (dn F ip) bn /\ frep s' F) s.
Proof.
  intros R C Hb Hdv W Hbn Ha. pose proof (wi_len _ _ W) as Hl. unfold bmap. apply wp_bind, (f_dev _ _ _ _ R). rewrite Hdv.
  unfold addr_at in *. destruct (Z.ltb_spec bn NDIRECT) as [Hd|Hd].
  { apply wp_bind, (f_addr Hnb _ _ _ _ _ R Hl); [rewrite ndirect in *; lia|]. rewrite (proj2 (Z.eqb_neq _ 0) Ha). by apply wp_ret. }
  destruct (Z.eqb_spec (ind_of (dn F ip)) 0) as [|Hi]; [done|].
  rewrite (proj2 (Z.ltb_lt (bn - NDIRECT) NINDIRECT)) by (rewrite maxfile, ndirect in *; change NINDIRECT with 256; lia).
  apply wp_bind, (f_addr Hnb _ _ _ _ _ R Hl); [rewrite ndirect; lia|]. change (nth (Z.to_nat NDIRECT) (di_addrs (dn F ip)) 0) with (ind_of (dn F ip)).
  rewrite (proj2 (Z.eqb_neq _ 0) Hi). apply wp_bind, wp_ret. rewrite (proj2 (Z.eqb_neq _ 0) Hi). set (nb := ind_of (dn F ip)) in *.
  assert (hold F !! nb = None) as Hh by (by rewrite (calm0_hold M F C)).
  apply wp_bind, (calm_bread M Hnb 0 F nb s _ _ R C ltac:(lia) Hb ltac:(lia) Hh). intros bp s1 R1.
  apply wp_bind. eapply (f_data _ _ nb bp); [exact R1|rewrite hold_read, decide_True by done; done|].
  change (cont (on_a (a_read nb bp) F) nb) with (cont F nb). cbv zeta. rewrite (proj2 (Z.eqb_neq _ 0) Ha).
  apply wp_bind, wp_ret, wp_bind. eapply (f_brelse _ _ nb bp); [exact R1|apply C|rewrite hold_read, decide_True by done; done|].
  intros s2 R2. rewrite view_read in R2 by done. by apply wp_ret.
Qed.

(** Memory [m'] is [m] with [l] at [dst]. *)
Definition mem_put (m : memory) (dst : Z) (l : list Z) (m' : memory) : Prop :=
  forall a, rd8 m' a = if decide (dst <= a < dst + Z.of_nat (length l)) then nth (Z.to_nat (a - dst)) l 0 else rd8 m a.

Lemma mem_put_nil m dst c off : mem_put m dst (slice c off 0) m.
Proof. intros a. rewrite decide_False; [done|]. unfold slice. change (Z.to_nat 0) with 0%nat. rewrite take_0. cbn [length]. lia. Qed.

Lemma slice_content F d off k : 0 <= off -> off + k <= di_size d -> forall i, (i < Z.to_nat k)%nat ->
  slice (content F d) off k !! i = Some (file_byte F d (off + Z.of_nat i)).
Proof. intros Ho Hk i Hi. rewrite lookup_slice by lia. rewrite lookup_content by lia. do 2 f_equal. lia. Qed.

Lemma length_slice_content F d off k : 0 <= off -> 0 <= k -> off + k <= di_size d -> length (slice (content F d) off k) = Z.to_nat k.
Proof. intros. apply length_slice; rewrite ?length_content; lia. Qed.

(** One more piece of the file. *)
Lemma mem_put_step F d off tot k dst m0 m1 m2 : 0 <= off -> 0 <= tot -> 0 < k -> off + tot + k <= di_size d ->
  (off + tot) mod BSIZE + k <= BSIZE -> mem_put m0 dst (slice (content F d) off tot) m1 ->
  (forall a, rd8 m2 a = if decide (dst + tot <= a < dst + tot + k)
     then byte_at (cont F (addr_at F d ((off + tot) / BSIZE))) ((off + tot) mod BSIZE + (a - (dst + tot))) else rd8 m1 a) ->
  mem_put m0 dst (slice (content F d) off (tot + k)) m2.
Proof.
  intros Ho Ht Hk Hsz Hmod H1 H2 a. unfold mem_put in H1. rewrite length_slice_content in * by lia. rewrite H2, H1.
  destruct (decide (dst + tot <= a < dst + tot + k)) as [Hin|Hout].
  - rewrite decide_True by lia. rewrite nth_lookup, slice_content by lia. cbn. unfold file_byte.
    replace (off + Z.of_nat (Z.to_nat (a - dst))) with (off + tot + (a - (dst + tot))) by lia. set (x := a - (dst + tot)).
    assert (0 <= x < k) as Hx by lia.
    assert ((off + tot + x) / BSIZE = (off + tot) / BSIZE /\ (off + tot + x) mod BSIZE = (off + tot) mod BSIZE + x) as [-> ->]; [|done].
    rewrite bsize in *. split; dlia.
  - repeat case_decide; try done; try lia. rewrite !nth_lookup, !slice_content by lia. done.
Qed.

Lemma calm_mem k F m : calm M k F -> calm M k (on_a (a_mem m) F).
Proof. intros C. apply (calm_more M k F); try done. by left. Qed.

(** The number of bytes [readi] returns. *)
Definition readable (sz off n : Z) : Z := if sz <? off then 0 else Z.min n (sz - off).

Lemma readi_ok s F ip dst off n : frep s F -> calm M 0 F -> budget M F 0 -> i_dev (finode F ip) = dv -> file_ok F (dn F ip) ->
  0 <= off < 2 ^ 32 -> 0 <= n -> off + n < 2 ^ 32 -> 0 <= dst -> dst + n < 2 ^ 64 ->
  wp (readi ip false dst off n) (fun r s' => r = readable (di_size (dn F ip)) off n /\ exists m, frep s' (on_a (a_mem m) F) /\
    mem_put (amem (fA F)) dst (slice (content F (dn F ip)) off r) m) s.
Proof.
  intros R C Hb Hdv Ho Hoff Hn Hmax Hd1 Hd2. set (d := dn F ip) in *. set (sz := di_size d). pose proof (fo_size _ _ Ho) as Hsz. fold sz in Hsz.
  assert (MAXFILE * BSIZE = 274432) as HMB by reflexivity. unfold readable. unfold readi.
  apply wp_bind, (f_gets _ sz s F _ R); [intros s0 R0; by rewrite (f_inode _ _ _ R0)|].
  assert (u32 (off + n) = off + n) as -> by (unfold u32; rewrite Z.mod_small; lia). rewrite (proj2 (Z.ltb_ge (off + n) off)), orb_false_r by lia.
  destruct (Z.ltb_spec sz off) as [Hlt|Hge].
  { apply wp_ret. split; [done|]. exists (amem (fA F)). split; [by destruct F as [[]]|]. apply mem_put_nil. }
  cbv zeta. assert ((if sz <? off + n then sz - off else n) = Z.min n (sz - off)) as -> by (destruct (Z.ltb_spec sz (off + n)); lia).
  set (n' := Z.min n (sz - off)). assert (0 <= n' <= n /\ off + n' <= sz) as [Hn' Hn2] by lia.
  apply (wp_loop _ (fun '(tot, o, ds) s1 => o = off + tot /\ ds = dst + tot /\ 0 <= tot <= n' /\ exists m, frep s1 (on_a (a_mem m) F) /\
      mem_put (amem (fA F)) dst (slice (content F d) off tot) m)
    (fun '(tot, _, _) _ => Z.to_nat (nblk (off + tot) (n' - tot)))).
  - intros [[tot o] ds] s1 (-> & -> & Htot & m & R1 & Hm). destruct (Z.ltb_spec tot n') as [Hlt|Hge']; cbn [negb].
    2:{ apply wp_ret. rewrite i32_id by lia. split; [lia|]. exists m. replace (Z.min n (sz - off)) with tot by lia. done. }
    destruct (nblk_step (off + tot) (n' - tot) _ ltac:(lia) ltac:(lia) eq_refl) as (Hm1 & Hm2 & Hm3).
    set (k := Z.min (n' - tot) (BSIZE - (off + tot) mod BSIZE)) in *. destruct (block_of (off + tot) ltac:(lia)) as [Hbn Hbm].
    set (F1 := on_a (a_mem m) F) in *. assert (calm M 0 F1) as C1 by by apply calm_mem.
    assert (wfi F1 d) as W1 by (apply (wfi_ext F); try done; apply Ho).
    assert (addr_at F d ((off + tot) / BSIZE) <> 0) as Ha by (apply (fo_full _ _ Ho); fold sz; rewrite bsize; dlia).
    apply wp_bind. eapply wp_mono; [by apply (bmap_old s1 F1 ip ((off + tot) / BSIZE) R1 C1)|]. cbn beta. intros a s2 [Ea R2].
    change (addr_at F1 (dn F1 ip) ((off + tot) / BSIZE)) with (addr_at F d ((off + tot) / BSIZE)) in Ea. rewrite <- Ea in Ha.
    rewrite (proj2 (Z.eqb_neq a 0) Ha). apply wp_bind, (f_dev _ _ _ _ R2). change (i_dev (finode F1 ip)) with (i_dev (finode F ip)). rewrite Hdv.
    assert (hold F1 !! a = None) as Hh by (by rewrite (calm0_hold M F1 C1)).
    apply wp_bind, (calm_bread M Hnb 0 F1 a s2 0 _ R2 C1 ltac:(lia) Hb ltac:(lia) Hh). intros bp s3 R3. cbv zeta.
    apply wp_bind. eapply f_copyout; [exact R3|rewrite hold_read, decide_True by done; done|lia|lia|lia|]. intros s4 m2 R4 Hm4. cbn [Z.eqb].
    apply wp_bind. eapply (f_brelse _ _ a bp); [exact R4|apply C|cbn; by rewrite lookup_insert_eq|]. intros s5 R5. apply wp_ret.
    assert (u32 (off + tot + k) = off + (tot + k)) as -> by (unfold u32; rewrite Z.mod_small by lia; lia).
    assert (u64 (dst + tot + k) = dst + (tot + k)) as -> by (unfold u64; rewrite Z.mod_small by lia; lia).
    split.
    2:{ replace (off + (tot + k)) with (off + tot + k) by lia. replace (n' - (tot + k)) with (n' - tot - k) by lia.
        pose proof (nblk_range (off + tot + k) (n' - tot - k) ltac:(lia) ltac:(lia)). lia. }
    split; [done|]. split; [done|]. split; [lia|]. exists m2. split.
    + assert (on_a (a_relse a) (on_a (a_mem m2) (on_a (a_read a bp) F1)) = on_a (a_mem m2) F) as <-; [|done].
      unfold F1, on_a, a_relse, a_hold, a_mem, a_read. destruct F as [[]]. cbn in *. do 2 f_equal. by apply delete_insert_id.
    + rewrite Ea in Hm4. eapply mem_put_step; [..|exact Hm|exact Hm4]; try (fold sz; lia).
  - split; [lia|]. split; [lia|]. split; [lia|]. exists (amem (fA F)). split; [by destruct F as [[]]|]. apply mem_put_nil.
  - rewrite Z.add_0_r, Z.sub_0_r. pose proof (nblk_range off n' ltac:(lia) ltac:(lia)). rewrite bsize in *. assert (0 <= n' / 1024) by (apply Z.div_pos; lia). lia.
Qed.
End io.
