(* ===== verification/FsReal.v ===== *)
(** * The file system on the real buffer cache and log

    Class [FsBase] of [Fs.v] implemented by [bio.c] and [log.c], and the proof that they
    keep the promises of class [DiskOk] to an operation that runs in a transaction: between
    [begin_op] and [end_op], the buffers in use are those the process holds and those the log
    pins.  Copies to and from user memory are parameters. *)

From Stdlib Require Import ZArith Lia.
From stdpp Require Import base numbers list gmap strings sets.
From S2P Require Import Prelude CString Riscv Spinlock Locks Bio BioView Block Log Fs FsDisk FsBlocks.

(** Kernel memory with [l] at [a]. *)
Fixpoint put_buf (m : memory) (a : Z) (l : list Z) : memory :=
  match l with
  | [] => m
  | x :: r => put_buf (wr8 m a x) (a + 1) r
  end.

Lemma rd8_put_buf m a l x : Forall is_byte l ->
  rd8 (put_buf m a l) x = if decide (a <= x < a + Z.of_nat (length l)) then nth (Z.to_nat (x - a)) l 0 else rd8 m x.
Proof.
  intros Hl. revert m a. induction Hl as [|b l Hb Hl IH]; intros m a; cbn [put_buf length].
  - by rewrite decide_False by lia.
  - rewrite IH. destruct (decide (a + 1 <= x < a + 1 + Z.of_nat (length l))).
    + rewrite decide_True by lia. by replace (Z.to_nat (x - a)) with (S (Z.to_nat (x - (a + 1)))) by lia.
    + destruct (decide (x = a)) as [->|].
      * rewrite decide_True by lia. rewrite Z.sub_diag. cbn [Z.to_nat nth]. rewrite rd8_wr8_eq. unfold u8, is_byte in *. by rewrite Z.mod_small by lia.
      * rewrite decide_False by lia. by rewrite rd8_wr8_ne by lia.
Qed.

Record rstate := mkR { rl : lstate; rmem : memory }.

#[export] #[refine] Instance rstate_locks : HasLocks rstate := {
  held := fun s => held (rl s);
  set_held := fun x s => mkR (set_held x (rl s)) (rmem s);
  curpid := fun s => curpid (rl s);
}.
Proof. all: by intros; try destruct s as [[[]]]. Defined.

Definition onlog {A} (m : M lstate A) : M rstate A := zoom rl (fun l s => mkR l (rmem s)) m.
Definition buf_bytes (s : rstate) (b : Z) : block := data (buf_of (bio (rl s)) b).

Section real.
(** [copyout] and [copyin] of the process's page table, [None] when they fail. *)
Context (uout : memory -> Z -> list Z -> option memory) (uin : memory -> Z -> Z -> option (list Z)).

Definition real_copyout (user_dst : bool) (dst b off len : Z) : M rstate Z := fun s =>
  let src := slice (buf_bytes s b) off len in
  if user_dst then
    match uout (rmem s) dst src with
    | Some m => Ret 0 (mkR (rl s) m)
    | None => Ret (-1) s
    end
  else Ret 0 (mkR (rl s) (put_buf (rmem s) dst src)).

Definition real_set_bdata (b : Z) (d : block) (s : rstate) : rstate :=
  mkR (mkL (set_buf b (set_data d (buf_of (bio (rl s)) b)) (bio (rl s))) (log (rl s))) (rmem s).

Definition real_copyin (b off : Z) (user_src : bool) (src len : Z) : M rstate Z := fun s =>
  if user_src then
    match uin (rmem s) src len with
    | Some l => Ret 0 (real_set_bdata b (splice (buf_bytes s b) off l) s)
    | None => Ret (-1) s
    end
  else Ret 0 (real_set_bdata b (splice (buf_bytes s b) off (bytes (rmem s) src (Z.to_nat len))) s).

#[local] Instance real_base : FsBase rstate := {
  fb_locks := rstate_locks;
  bread := fun dv n => onlog (onbio (Bio.bread dv n));
  brelse := fun b => onlog (onbio (Bio.brelse b));
  log_write := fun b => onlog (Log.log_write b);
  initlog := fun dv sb => onlog (Log.initlog dv sb);
  bdata := buf_bytes;
  set_bdata := real_set_bdata;
  kmem := rmem;
  set_kmem := fun m s => mkR (rl s) m;
  either_copyout := real_copyout;
  either_copyin := real_copyin;
}.

(** ** The invariant of a transaction *)

(** References to the buffer of a block: the holder's and the log's. *)
Definition nrefs (A : aview) (n : Z) : Z :=
  (if decide (ahold A !! n = None) then 0 else 1) + (if decide (n ∈ atxn A) then 1 else 0).

Record in_txn (dv : Z) (A : aview) (V : view) (L : logst) : Prop := {
  it_cont : forall n, vcont V n = acont A n /\ good_block (acont A n);
  it_lock : forall n, vlock V n = fst <$> (ahold A !! n);
  it_refs : forall n, vrefs V n = nrefs A n;
  it_free : (vfree V + card (in_use A))%nat = Z.to_nat NBUF;
  it_clean : forall n, n ∉ atxn A -> (exists b, ahold A !! n = Some (b, true)) \/ acont A n = dblock (vdisk V) n;
  it_held : vheld V = alocks A /\ vpid V = apid A /\ LOG_LOCK ∉ alocks A;
  it_log : 0 <= lh_n L <= MAXOPBLOCKS /\ LOGSIZE <= size L /\ length (lh_block L) = Z.to_nat LOGSIZE /\ outstanding L = 1 /\ ldev L = dv /\ committing L = 0;
  it_logged : NoDup (logged L) /\ forall n, n ∈ logged L <-> n ∈ atxn A;
}.

(** What the transaction started with: the disk, the writes done to it so far, and the
    log's place. *)
Definition real_rep (dv st : Z) (d : gmap Z block * list (Z * block)) (s : rstate) (A : aview) : Prop :=
  exists V L, lrep (rl s) V L /\ in_txn dv A V L /\ rmem s = amem A /\ (vdisk V, vwrites V) = d /\ start L = st.

(** ** The laws *)

Lemma card_in n X : n ∈ X -> card ({[n]} ∪ X) = card X.
Proof. intros. f_equal. set_solver. Qed.
Lemma card_out n X : n ∉ X -> card ({[n]} ∪ X) = Datatypes.S (card X).
Proof. intros. unfold card. rewrite size_union, size_singleton by set_solver. done. Qed.

Lemma in_use_spec A n : n ∈ in_use A <-> ahold A !! n <> None \/ n ∈ atxn A.
Proof. unfold in_use. rewrite elem_of_union, elem_of_dom. unfold is_Some. destruct (ahold A !! n); naive_solver. Qed.

Lemma nrefs_pos A n : 0 <= nrefs A n <= 2 /\ (nrefs A n = 0 <-> n ∉ in_use A).
Proof. unfold nrefs. rewrite in_use_spec. repeat case_decide; split; try lia; split; naive_solver lia. Qed.

Context (dv st : Z) (d : gmap Z block * list (Z * block)).
Notation rrep := (real_rep dv st d).

Lemma wp_onlog {A} (m : M lstate A) (Q : A -> rstate -> Prop) s :
  wp m (fun a l => Q a (mkR l (rmem s))) (rl s) -> wp (onlog m) Q s.
Proof. intros H. apply wp_zoom. exact H. Qed.

Lemma real_bread s A n : rrep s A -> alocks A = ∅ -> ahold A !! n = None -> (card ({[n]} ∪ in_use A) <= Z.to_nat NBUF)%nat ->
  wp (onlog (onbio (Bio.bread dv n))) (fun b s' => rrep s' (a_read n b A)) s.
Proof.
  intros (V & L & R & [T1 T2 T3 T4 T5 T6 T7 T8] & Em & Ed & Es) Hl Hn Hc. apply wp_onlog.
  destruct T7 as (L1 & L2 & L3 & L4 & L5 & L6). rewrite <- L5. pose proof (nrefs_pos A n) as [Hr1 Hr2].
  assert (nrefs A n = 0 -> (0 < vfree V)%nat) as Hf by (intros E; apply Hr2 in E; rewrite card_out in Hc by done; lia).
  apply (l_bread _ V L); [done|by rewrite T2, Hn|rewrite T3; destruct (Z.eq_dec (nrefs A n) 0); [right; auto|left; lia]|rewrite T3; lia|].
  intros b l' R'. exists (v_read b n V), L. split; [done|]. split; [|done].
  assert (in_use (a_read n b A) = {[n]} ∪ in_use A) as Eu by (unfold in_use; cbn; rewrite dom_insert_L; set_solver).
  split; try done; cbn.
  - intros x. rewrite lookup_insert. unfold upd_at. case_decide as E; [subst; by rewrite decide_True|]. rewrite decide_False by congruence. apply T2.
  - intros x. unfold upd_at, nrefs. cbn. rewrite lookup_insert. destruct (decide (x = n)) as [->|Hx].
    + rewrite !(decide_True (P := n = n)) by done. rewrite T3. unfold nrefs. rewrite (decide_True (P := ahold A !! n = None)) by done.
      rewrite (decide_False (P := Some (b, false) = None)) by done. lia.
    + rewrite (decide_False (P := n = x)) by congruence. apply T3.
  - rewrite Eu, T3. destruct (Z.eqb_spec (nrefs A n) 0) as [E|E].
    + specialize (Hf E). apply Hr2 in E. rewrite card_out by done. lia.
    + rewrite card_in; [done|]. destruct (decide (n ∈ in_use A)); [done|]. exfalso. by apply E, Hr2.
  - intros x Hx. rewrite lookup_insert. case_decide as E; [subst x|by apply T5].
    destruct (T5 n Hx) as [[b' Hb]|Hc']; [congruence|by right].
Qed.

Lemma hold_relse n A x : ahold (a_relse n A) !! x = if decide (n = x) then None else ahold A !! x.
Proof. unfold a_relse, a_hold. cbn [ahold]. rewrite lookup_delete. done. Qed.

Lemma real_brelse s A n b : rrep s A -> ahold A !! n = Some (b, false) ->
  wp (onlog (onbio (Bio.brelse b))) (fun _ s' => rrep s' (a_relse n A)) s.
Proof.
  intros (V & L & R & [T1 T2 T3 T4 T5 T6 T7 T8] & Em & Ed & Es) Hn. apply wp_onlog. pose proof (nrefs_pos A n) as [Hr1 Hr2].
  assert (nrefs A n = 1 + (if decide (n ∈ atxn A) then 1 else 0)) as Er by (unfold nrefs; rewrite decide_False by congruence; lia).
  apply (l_brelse _ V L n b); [done|by rewrite T2, Hn|rewrite T3; lia| |].
  { rewrite T3, Er. intros E. case_decide as Ht; [lia|]. destruct (T5 n Ht) as [[b' Hb]|Hc]; [congruence|]. by rewrite (proj1 (T1 n)). }
  intros l' R'. exists (v_relse n V), L. split; [done|]. split; [|done]. split; try done; cbn [v_relse vcont vrefs vlock vfree].
  - intros x. rewrite hold_relse. unfold upd_at. destruct (decide (x = n)) as [->|]; [by rewrite decide_True by done|]. rewrite decide_False by congruence. apply T2.
  - intros x. unfold upd_at, nrefs. rewrite hold_relse. change (atxn (a_relse n A)) with (atxn A). destruct (decide (x = n)) as [->|Hx].
    + rewrite T3, Er, (decide_True (P := n = n)) by done. rewrite (decide_True (P := None = None)) by done. lia.
    + rewrite (decide_False (P := n = x)) by congruence. apply T3.
  - rewrite T3, Er. case_decide as Ht.
    + change (1 + 1 =? 1) with false. cbn iota. assert (in_use (a_relse n A) = in_use A) as ->; [|done].
      apply set_eq. intros x. rewrite !in_use_spec. rewrite hold_relse. change (atxn (a_relse n A)) with (atxn A). case_decide; [subst; naive_solver|naive_solver].
    + change (1 + 0 =? 1) with true. cbn iota. assert (in_use A = {[n]} ∪ in_use (a_relse n A)) as E.
      { apply set_eq. intros x. rewrite elem_of_union, elem_of_singleton, !in_use_spec, hold_relse. change (atxn (a_relse n A)) with (atxn A).
        case_decide; [subst; split; [by left|intros _; left; congruence]|naive_solver]. }
      rewrite E, card_out in T4; [lia|]. rewrite in_use_spec, hold_relse, decide_True by done. naive_solver.
  - intros x Hx. change (x ∉ atxn A) in Hx. rewrite hold_relse. change (acont (a_relse n A) x) with (acont A x). destruct (decide (n = x)) as [<-|]; [|by apply T5]. destruct (T5 n Hx) as [[b' Hb]|Hc]; [congruence|by right].
Qed.

Lemma txn_card A V L : in_txn dv A V L -> lh_n L = Z.of_nat (card (atxn A)).
Proof.
  intros [_ _ _ _ _ _ (L1 & L2 & L3 & _) [N1 N2]]. assert (atxn A = list_to_set (logged L)) as -> by (apply set_eq; intros x; rewrite elem_of_list_to_set; naive_solver).
  unfold card. rewrite size_list_to_set by done. rewrite length_logged; [lia|]. rewrite L3. unfold LOGSIZE, MAXOPBLOCKS in *. lia.
Qed.

Lemma hold_log n b A x : ahold (a_log n b A) !! x = if decide (n = x) then Some (b, false) else ahold A !! x.
Proof. cbn. by rewrite lookup_insert. Qed.

Lemma real_log_write s A n b f : rrep s A -> alocks A = ∅ -> ahold A !! n = Some (b, f) -> Z.of_nat (card ({[n]} ∪ atxn A)) <= MAXOPBLOCKS ->
  wp (onlog (Log.log_write b)) (fun _ s' => rrep s' (a_log n b A)) s.
Proof.
  intros (V & L & R & T & Em & Ed & Es) Hl Hn Hc. pose proof (txn_card _ _ _ T) as Hlh. destruct T as [T1 T2 T3 T4 T5 T6 T7 [N1 N2]].
  destruct T7 as (L1 & L2 & L3 & L4 & L5 & L6). pose proof (nrefs_pos A n) as [Hr1 Hr2].
  assert (nrefs A n = 1 + (if decide (n ∈ atxn A) then 1 else 0)) as Er by (unfold nrefs; rewrite decide_False by congruence; lia).
  assert (in_use (a_log n b A) = in_use A) as Eu.
  { apply set_eq. intros x. rewrite !in_use_spec, hold_log. change (atxn (a_log n b A)) with ({[n]} ∪ atxn A).
    rewrite elem_of_union, elem_of_singleton. destruct (decide (n = x)) as [<-|Hx]; [|naive_solver]. rewrite Hn. naive_solver. }
  assert (forall x, x <> n -> nrefs (a_log n b A) x = nrefs A x) as Hox.
  { intros x Hx. unfold nrefs. rewrite hold_log, (decide_False (P := n = x)) by congruence. f_equal. change (atxn (a_log n b A)) with ({[n]} ∪ atxn A). repeat case_decide; set_solver. }
  assert (nrefs (a_log n b A) n = 2) as Hnn.
  { unfold nrefs. rewrite hold_log, (decide_True (P := n = n)) by done. rewrite (decide_False (P := Some (b, false) = None)) by done.
    rewrite decide_True by (cbn; set_solver). done. }
  apply wp_onlog. eapply wp_mono; [apply (log_write_ok (rl s) V L n b R); try done|].
  { by rewrite T2, Hn. } { destruct T6 as (-> & _ & ?). done. } { unfold LOGSIZE, MAXOPBLOCKS in *. lia. } { unfold LOGSIZE, MAXOPBLOCKS in *. lia. } { lia. } { rewrite T3. lia. }
  cbn beta. intros _ l' R'. eexists _, _. split; [exact R'|]. split; [|split; [done|split]]; [|by case_decide|unfold add_block; by case_decide].
  assert (forall x, x ∉ atxn (a_log n b A) -> (exists b', ahold (a_log n b A) !! x = Some (b', true)) \/ acont A x = dblock (vdisk V) x) as Hclean.
  { intros x Hx. change (atxn (a_log n b A)) with ({[n]} ∪ atxn A) in Hx. rewrite hold_log, decide_False by set_solver. apply T5. set_solver. }
  unfold add_block. destruct (decide (n ∈ logged L)) as [Hin|Hin].
  - pose proof (proj1 (N2 n) Hin) as Hin'. split; try done.
    + intros x. rewrite T2, hold_log. destruct (decide (n = x)) as [<-|]; [by rewrite Hn|done].
    + intros x. destruct (decide (x = n)) as [->|Hx]; [|by rewrite Hox]. rewrite Hnn, T3, Er, decide_True by done. lia.
    + by rewrite Eu.
    + split; [done|]. intros x. rewrite N2. cbn. set_solver.
  - assert (n ∉ atxn A) as Hin' by (by rewrite <- N2). rewrite card_out in Hc by done.
    destruct (Ops.logged_add n L) as [E1 E2]; [unfold LOGSIZE, MAXOPBLOCKS in *; lia|done|done|]. unfold add_block in E1, E2. rewrite decide_False in E1, E2 by done.
    split; try done.
    + intros x. cbn [v_pin v_set vcont]. split; [|apply T1]. rewrite <- (proj1 (T1 x) : _ = acont (a_log n b A) x). unfold upd_at. by destruct (decide (x = n)) as [->|].
    + intros x. cbn [v_pin v_set vlock]. rewrite T2, hold_log. destruct (decide (n = x)) as [<-|]; [by rewrite Hn|done].
    + intros x. cbn [v_pin v_set vrefs]. unfold upd_at. destruct (decide (x = n)) as [->|Hx]; [rewrite Hnn, T3, Er, decide_False by done; lia|by rewrite T3, Hox].
    + cbn [v_pin v_set vfree]. by rewrite Eu.
    + split; [cbn; lia|]. split; [done|]. split; [|done]. cbn. by rewrite length_insert.
    + rewrite E1. split; [apply NoDup_app; split; [done|split; [set_solver|apply NoDup_singleton]]|].
      intros x. rewrite elem_of_app, N2. cbn. set_solver.
Qed.

Lemma real_set s A n b f x : rrep s A -> ahold A !! n = Some (b, f) -> good_block x -> rrep (real_set_bdata b x s) (a_set n b x A).
Proof.
  intros (V & L & R & [T1 T2 T3 T4 T5 T6 T7 [N1 N2]] & Em & Ed & Es) Hn Hx. exists (v_data n x V), L.
  split; [|split; [|done]].
  - destruct R as [R1 R2]. split; [|done]. cbn. apply data_ok; [done|by rewrite T2, Hn].
  - assert (forall y, ahold (a_set n b x A) !! y = if decide (n = y) then Some (b, true) else ahold A !! y) as Eh by (intros y; cbn; by rewrite lookup_insert).
    assert (forall y, nrefs (a_set n b x A) y = nrefs A y) as Er.
    { intros y. unfold nrefs. rewrite Eh. change (atxn (a_set n b x A)) with (atxn A). destruct (decide (n = y)) as [<-|]; [|done].
      f_equal. rewrite !decide_False by congruence. done. }
    split; try done.
    + intros y. cbn [v_data v_set vcont a_set acont]. unfold upd_at. case_decide; [done|apply T1].
    + intros y. rewrite Eh. cbn [v_data v_set vlock]. rewrite T2. destruct (decide (n = y)) as [<-|]; [by rewrite Hn|done].
    + intros y. rewrite Er. cbn [v_data v_set vrefs]. unfold upd_at. by destruct (decide (y = n)) as [->|].
    + cbn [v_data v_set vfree]. rewrite <- T4. do 2 f_equal. apply set_eq. intros y. rewrite !in_use_spec, Eh. destruct (decide (n = y)) as [<-|]; [rewrite Hn; naive_solver|done].
    + intros y Hy. rewrite Eh. cbn [a_set acont v_data v_set vdisk]. unfold upd_at. destruct (decide (n = y)) as [<-|]; [left; by exists b|].
      rewrite decide_False by congruence. by apply T5.
Qed.

Lemma real_held s A : rrep s A -> held s = alocks A /\ curpid s = apid A.
Proof.
  intros (V & L & [[l R] _] & T & _). destruct (it_held _ _ _ _ T) as (<- & <- & _). destruct (rp_rest _ _ _ _ R) as (_ & _ & E1 & E2). done.
Qed.

Lemma real_set_held s A x : rrep s A -> (forall k, k ∈ x -> ITABLE_LOCK <= k) -> rrep (set_held x s) (a_locks x A).
Proof.
  intros (V & L & [R E] & [T1 T2 T3 T4 T5 T6 T7 T8] & Em & Ed & Es) Hx. exists (v_held x V), L. split; [|split; [|done]].
  - split; [|done]. apply rep_set_held; [done|]. intros k Hk Hin. specialize (Hx k Hin). unfold bio_lock, BCACHE_LOCK, ITABLE_LOCK, NBUF, MAXOPBLOCKS in *. lia.
  - split; try done. cbn. split; [done|]. split; [apply T6|]. intros Hin. specialize (Hx _ Hin). unfold ITABLE_LOCK, LOG_LOCK in Hx. lia.
Qed.

Lemma real_mem s A m : rrep s A -> rrep (mkR (rl s) m) (a_mem m A).
Proof. intros (V & L & R & [T1 T2 T3 T4 T5 T6 T7 T8] & Em & Ed & Es). by exists V, L. Qed.

Lemma real_data s A n b f : rrep s A -> ahold A !! n = Some (b, f) -> buf_bytes s b = acont A n.
Proof.
  intros (V & L & [R _] & T & _) Hn. unfold buf_bytes. rewrite <- (proj1 (it_cont _ _ _ _ T n)).
  apply (rep_buf (ldev L) (bio (rl s)) V n b R). by rewrite (it_lock _ _ _ _ T), Hn.
Qed.

Lemma real_good s A n : rrep s A -> good_block (acont A n).
Proof. intros (V & L & _ & T & _). apply (it_cont _ _ _ _ T). Qed.

Lemma bytes_is_byte (m : memory) p k : Forall is_byte (bytes m p k).
Proof. unfold bytes. apply Forall_fmap, Forall_forall. intros i _. apply rd8_range. Qed.

#[local] Instance real_ok : DiskOk rstate dv (Z.to_nat NBUF).
Proof.
  refine {| drep := real_rep dv st d |}.
  - exact real_held.
  - intros s A n R. by apply (real_good s).
  - exact real_set_held.
  - intros s A (V & L & _ & _ & E & _). exact E.
  - exact real_mem.
  - intros s A n b f. apply real_data.
  - intros s A n b f x. apply real_set.
  - intros s A n R Hl Hh Hc. by apply real_bread.
  - intros s A n b R _ Hh. by apply real_brelse.
  - intros s A n b f R Hl Hh Hc. by apply (real_log_write s A n b f).
  - intros s A n b f dst off len R Hh H1 H2 H3. unfold wp. cbn [either_copyout real_base]. unfold real_copyout. cbv zeta. split; [done|].
    rewrite (real_data s A n b f R Hh). eexists. split; [by apply real_mem|]. intros a.
    destruct (real_good s A n R) as [G1 G2]. assert (rmem s = amem A) as Em by by destruct R as (? & ? & _ & _ & ? & _).
    rewrite rd8_put_buf, Em by by apply slice_bytes. rewrite length_slice by (rewrite ?G1; lia). rewrite Z2Nat.id by lia.
    case_decide; [|done]. rewrite !nth_lookup, lookup_slice by lia. do 2 f_equal. lia.
  - intros s A n b f src off len R Hh H1 H2 H3. unfold wp. cbn [either_copyin real_base]. unfold real_copyin. split; [done|]. rewrite (real_data s A n b f R Hh).
    assert (rmem s = amem A) as -> by by destruct R as (? & ? & _ & _ & ? & _).
    apply (real_set s A n b f); [done|done|]. destruct (real_good s A n R) as [G1 G2].
    split; [by rewrite length_splice|]. apply splice_bytes; [done|apply bytes_is_byte].
Defined.
End real.
