(* ===== verification/FsCrash.v ===== *)
(** * A file write and a crash

    [writei] in a transaction on the real buffer cache and log, ended by [end_op]: after the
    machine stops at any point of the commit and starts again, the disk holds the file system
    with the whole write, or without any of it. *)

From Stdlib Require Import ZArith Lia.
From stdpp Require Import base numbers list gmap strings sets.
From S2P Require Import Prelude CString Riscv Spinlock Locks Bio BioView Block Log Fs FsDisk FsBlocks FsInode FsFile FsWrite FsReal.

Section crash.
Context (uout : memory -> Z -> list Z -> option memory) (uin : memory -> Z -> Z -> option (list Z)).
Context (dv st : Z) (d : gmap Z block * list (Z * block)).
#[local] Instance rbase : FsBase rstate := real_base uout uin.
#[local] Instance dok : DiskOk rstate dv (Z.to_nat NBUF) := real_ok uout uin dv st d.
Implicit Types (s : fstate rstate) (F : fview).
Context (M : gset Z).

Definition log_area (b : Z) : Prop := st <= b <= st + LOGSIZE.

(** The log lies before the inodes, and the operation's fixed blocks are elsewhere. *)
Record log_apart F : Prop := {
  la_st : 0 <= st /\ st + LOGSIZE < inodestart (fsb F);
  la_M : forall n, n ∈ M -> inodestart (fsb F) <= n < 2 ^ 31;
}.

Lemma apart_data F n : layout (fsb F) -> log_apart F -> n ∈ M \/ data_block F n -> ~ log_area n /\ 0 <= n < 2 ^ 31.
Proof.
  intros L [[H1 H2] HM] [Hn|Hn]; unfold log_area; assert (LOGSIZE = 30) by reflexivity.
  - specialize (HM n Hn). lia.
  - destruct (data_meta F n L Hn) as [H3 H4]. pose proof (lay_size _ L). destruct (lay_inodes _ L) as (I1 & I2 & I3).
    change IPB with 16 in *. assert (0 <= ninodes (fsb F) / 16) by (apply Z.div_pos; lia). lia.
Qed.

(** The content of a block that is not logged or changed is on the disk. *)
Lemma unlogged_disk s F n : frep s F -> hold F = ∅ -> n ∉ txn F -> cont F n = dblock d.1 n.
Proof.
  intros [(V & L & R & T & _ & Ed & _) _ _ _] Hh Hn. unfold hold in Hh. destruct (it_clean _ _ _ _ T n Hn) as [[b Hb]|Hc].
  - rewrite Hh in Hb. done.
  - rewrite <- Ed. exact Hc.
Qed.

(** A finished operation is ready to commit. *)
Lemma txn_ready s F : frep s F -> calm M 0 F -> budget M F 0 -> log_apart F -> hd_n (cont F st) = 0 ->
  exists V L, lrep (rl (base s)) V L /\ ready V L /\ in_txn dv (fA F) V L /\ (vdisk V, vwrites V) = d /\ start L = st.
Proof.
  intros [(V & L & R & T & Em & Ed & Es) _ _ _] C Hb Ha Hhd. exists V, L. split; [done|]. split; [|done].
  pose proof (calm0_hold M F C) as Hh. pose proof (txn_card dv _ _ _ T) as Hn. destruct T as [T1 T2 T3 T4 T5 T6 T7 [N1 N2]].
  destruct T7 as (L1 & L2 & L3 & L4 & L5 & L6). unfold hold in Hh.
  assert (forall x, ahold (fA F) !! x = None) as Hx by (intros x; rewrite Hh; apply lookup_empty).
  assert (forall x, vrefs V x = if decide (x ∈ txn F) then 1 else 0) as Hr.
  { intros x. rewrite T3. unfold nrefs. rewrite Hx. rewrite (decide_True (P := None = None)) by done. unfold txn. lia. }
  split.
  - split; [|done]. unfold LOGSIZE, MAXOPBLOCKS in *. lia.
  - done.
  - intros x Hin. apply N2 in Hin. destruct (apart_data F x (c_layout _ _ _ C) Ha (c_txn _ _ _ C x Hin)) as [Hl Hr0].
    unfold log_area in Hl. unfold in_log. rewrite Es. split; [done|]. split; [done|]. split; [by rewrite T2, Hx|]. rewrite Hr.
    fold (txn F) in Hin. rewrite decide_True by done. lia.
  - intros x Hin. assert (x ∉ txn F) as Hx'.
    { intros Ht. destruct (apart_data F x (c_layout _ _ _ C) Ha (c_txn _ _ _ C x Ht)) as [Hl _]. apply Hl. unfold log_area. by rewrite <- Es. }
    split; [by rewrite T2, Hx|]. rewrite Hr, decide_False by done. split; [done|]. rewrite (proj1 (T1 x)).
    destruct (T5 x Hx') as [[b Hb']|]; [by rewrite Hx in Hb'|done].
  - assert (card (in_use (fA F)) = card (txn F)) as Ec by (f_equal; unfold in_use; rewrite Hh, dom_empty_L; unfold txn; set_solver).
    rewrite Ec in T4. unfold txn in T4. unfold NBUF, MAXOPBLOCKS in *. lia.
  - rewrite Es, (proj1 (T1 st)). split; [apply T1|done].
Qed.

(** What is on the disk after the commit. *)
Lemma new_block_cont F V L b : in_txn dv (fA F) V L -> hold F = ∅ -> new_block V L b = cont F b.
Proof.
  intros [T1 T2 T3 T4 T5 T6 T7 [N1 N2]] Hh. unfold hold in Hh. unfold new_block. case_decide as E; [apply T1|].
  destruct (T5 b) as [[x Hx]|Hc]; [by rewrite <- N2|by rewrite Hh in Hx|done].
Qed.

Lemma txn_writes F V L : in_txn dv (fA F) V L -> 0 < lh_n L <-> txn F <> ∅.
Proof.
  intros T. rewrite (txn_card _ _ _ _ T). unfold card. fold (txn F). split.
  - intros H E. by rewrite E, size_empty in H.
  - intros H. assert (base.size (txn F) <> 0%nat); [|lia]. intros E. apply H. by apply leibniz_equiv, size_empty_inv.
Qed.

(** The end of the operation: [end_op] commits, and a crash on the way is harmless. *)
Lemma end_op_crash s0 F0 s F sb pid : frep s0 F0 -> hold F0 = ∅ -> txn F0 = ∅ ->
  frep s F -> calm M 0 F -> budget M F 0 -> log_apart F -> hd_n (cont F st) = 0 -> txn F <> ∅ -> logstart sb = st ->
  wp (lift (onlog end_op)) (fun _ s' => exists W, writes (bio (rl (base s'))) = d.2 ++ W /\
    (forall b, ~ log_area b -> disk_block (bio (rl (base s'))) b = cont F b) /\
    forall k, wp (boot_log dv sb) (fun _ (s'' : lstate) => exists G, (G = F0 \/ G = F) /\ forall b, ~ log_area b -> disk_block (bio s'') b = cont G b)
      (reboot (apply (take k W) d.1) pid)) s.
Proof.
  intros R0 Hh0 Ht0 R C Hb Ha Hhd Ht Hsb. destruct (txn_ready s F R C Hb Ha Hhd) as (V & L & RL & Hr & T & Ed & Es).
  destruct (it_log _ _ _ _ T) as (L1 & L2 & L3 & L4 & L5 & L6). destruct (it_held _ _ _ _ T) as (E1 & E2 & E3).
  pose proof (calm0_hold M F C) as Hh. pose proof (proj2 (txn_writes F V L T) Ht) as Hpos.
  assert (ldev L <> 0) as Hdv by (destruct RL as [[l RL] _]; apply (rp_dev _ _ _ _ RL)).
  assert (vdisk V = d.1 /\ vwrites V = d.2) as [Ed1 Ew] by by rewrite <- Ed.
  apply wp_zoom, wp_onlog. eapply wp_mono; [apply (end_op_last _ V L RL); [by rewrite E1|done..]|]. cbn beta.
  intros _ l' (V' & [[x R'] _] & _ & Hw & _ & Hd'). exists (commit_writes V L). destruct (rp_rest _ _ _ _ R') as (P1 & P2 & _).
  split; [cbn; by rewrite P2, Hw, Ew|]. split.
  - intros b Hnb. cbn. unfold disk_block. rewrite P1. fold (dblock (vdisk V') b). rewrite Hd' by (unfold in_log; by rewrite Es). by apply new_block_cont.
  - intros k. rewrite <- Ed1, <- L5. eapply wp_mono; [apply (crash_boot V L sb pid k Hr Hdv); by rewrite Es|]. cbn beta. intros _ s'' [_ Hs].
    destruct (decide (k <= Z.to_nat (lh_n L))%nat) as [Hk|Hk].
    + exists F0. split; [by left|]. intros b Hnb. rewrite Hs by (unfold in_log; by rewrite Es). unfold old_block. rewrite Ed1.
      symmetry. apply (unlogged_disk s0 F0); [done|done|]. by rewrite Ht0.
    + exists F. split; [by right|]. intros b Hnb. rewrite Hs by (unfold in_log; by rewrite Es). by apply new_block_cont.
Qed.

(** C1: a crash-safe write.  A process has begun a transaction (nothing is logged yet, it
    holds no buffer) and writes [n] bytes of kernel memory at offset [off] of a file, then ends
    the transaction.  The calls return, some number [r] of bytes was written ([r < n] only if
    the disk is full), and the disk holds the file system in which these bytes replaced those
    at [off] and nothing else in use changed.  If the machine stops after any number of the
    commit's block writes, starting it again leaves on the disk either exactly the file system
    from before the call or exactly the one after it. *)
Theorem crash_safe_write s F ip src off n sb pid :
  frep s F -> calm M 0 F -> txn F = ∅ -> log_apart F -> hd_n (cont F st) = 0 -> logstart sb = st ->
  inode_ok (dv := dv) M F ip -> 0 <= off <= di_size (dn F ip) -> 0 <= n -> off + n <= MAXFILE * BSIZE ->
  0 <= src -> src + n < 2 ^ 64 -> budget M F (nblk off n + icost M F (dn F ip)) ->
  wp (r ← writei ip false src off n; lift (onlog end_op);; mret r) (fun r s' => exists F' W,
    0 <= r <= n /\ (r < n -> full F') /\ written F ip off (bytes (amem (fA F)) src (Z.to_nat r)) F' /\
    writes (bio (rl (base s'))) = d.2 ++ W /\
    (forall b, ~ log_area b -> disk_block (bio (rl (base s'))) b = cont F' b) /\
    forall k, wp (boot_log dv sb) (fun _ (s'' : lstate) => exists G, (G = F \/ G = F') /\
        forall b, ~ log_area b -> disk_block (bio s'') b = cont G b)
      (reboot (apply (take k W) d.1) pid)) s.
Proof.
  intros R C Ht Ha Hhd Hsb Hi Hoff Hn Hmax Hs1 Hs2 Hb. apply wp_bind.
  assert (13 <= Z.to_nat NBUF)%nat as Hnb by (unfold NBUF, MAXOPBLOCKS; lia).
  eapply wp_mono; [apply (writei_in M Hnb s F ip src off n R C Hi); done|]. cbn beta.
  intros r s1 (F' & R1 & C1 & Hr & Hfull & B1 & HW). destruct (wr_rest _ _ _ _ _ HW) as [_ Esb].
  destruct (la_st _ Ha) as [Hst1 Hst2]. pose proof (io_inum _ _ _ Hi) as Hinum. pose proof (c_layout _ _ _ C) as L.
  destruct (lay_inodes _ L) as (I1 & I2 & I3). change IPB with 16 in I2. assert (0 <= ninodes (fsb F) / 16) by (apply Z.div_pos; lia).
  assert (LOGSIZE = 30) as HLS by reflexivity.
  assert (cont F' st = cont F st) as Ec by (apply (wr_meta _ _ _ _ _ HW); unfold IBLOCK; change IPB with 16; dlia).
  apply wp_bind. eapply wp_mono.
  - apply (end_op_crash s F s1 F' sb pid R (calm0_hold _ _ C) Ht R1 C1 B1); [|by rewrite Ec| |done].
    + destruct Ha. split; by rewrite Esb.
    + pose proof (wr_logged _ _ _ _ _ HW). set_solver.
  - cbn beta. intros _ s2 (W & H1 & H2 & H3). apply wp_ret. exists F', W.
    exact (conj Hr (conj Hfull (conj HW (conj H1 (conj H2 H3))))).
Qed.
End crash.

(** ** A run: an empty file on a disk of 200 blocks *)

Module Demo.
Definition sb : superblock := mkSb FSMAGIC 200 157 16 31 2 40 42.
Definition bitmap : block := [255; 255; 255; 255; 255; 7] ++ replicate 1018 0.
Definition disk : gmap Z block := {[42 := bitmap]}.
Definition mem : memory := mem_of_list 1000 [104; 101; 108; 108; 111].
Definition ino : inode := mkInode 1 1 1 (mkSleep 1 0 1) 1 (mkDinode T_FILE 0 0 1 0 (replicate 13 0)).
Definition fixed : gset Z := {[40; 42]}.
Definition V0 : fview := FV (AV (dblock disk) ∅ ∅ mem ∅ 1) sb {[0 := ino]} 0.
Definition L0 : logst := mkLog 2 31 1 0 1 0 (replicate (Z.to_nat LOGSIZE) 0).
Definition uout : memory -> Z -> list Z -> option memory := fun _ _ _ => None.
Definition uin : memory -> Z -> Z -> option (list Z) := fun _ _ _ => None.
#[local] Instance demo_base : FsBase rstate := real_base uout uin.
#[local] Instance demo_ok : DiskOk rstate 1 (Z.to_nat NBUF) := real_ok uout uin 1 2 (disk, []).

Lemma good n : good_block (dblock disk n).
Proof.
  unfold disk, dblock. destruct (decide (n = 42)) as [->|Hn].
  - rewrite lookup_singleton_eq. cbn [default id]. split; [reflexivity|]. unfold bitmap. apply Forall_app. split; [repeat constructor; lia|].
    apply Forall_replicate. unfold is_byte. lia.
  - rewrite lookup_singleton_ne by congruence. apply good_zero.
Qed.

Lemma start : exists s, frep s V0.
Proof.
  destruct (proj1 (wp_exists _ _ _) (binit_ok 1 disk 1 ltac:(done))) as (u & b & _ & Rb).
  exists (mkFs (mkR (mkL b L0) mem) sb {[0 := ino]} 0). split; try done.
  exists (v_boot disk 1), L0. split; [by split|]. split; [|done]. split; try done.
  - intros n. split; [done|apply good].
  - intros n. by right.
  - split; [apply NoDup_nil_2|]. intros n. change (logged L0) with (@nil Z). cbn. set_solver.
Qed.

Lemma blocks_used b : 0 <= b < 43 -> used V0 b = true.
Proof.
  intros Hb. assert (forallb (fun i => used V0 (Z.of_nat i)) (seq 0 43) = true) as H by (vm_compute; reflexivity).
  rewrite forallb_forall in H. specialize (H (Z.to_nat b)). rewrite Z2Nat.id in H by lia. apply H. apply in_seq. lia.
Qed.

Lemma calm0 : calm fixed 0 V0.
Proof.
  split; try done.
  - unfold few. change (hold V0) with (∅ : gmap Z (Z * bool)). by rewrite map_size_empty.
  - intros b Hb. cbn in Hb. unfold BBLOCK, BPB, BSIZE. cbn. rewrite Z.div_small by lia. unfold fixed. set_solver.
  - intros b Hb. by apply blocks_used.
Qed.

Lemma no_addr bn : addr_at V0 (i_d ino) bn = 0.
Proof.
  unfold addr_at. destruct (bn <? NDIRECT); [|reflexivity]. change (di_addrs (i_d ino)) with (replicate 13 0). rewrite nth_lookup. destruct (replicate 13 0 !! Z.to_nat bn) eqn:E; [|done].
  by apply lookup_replicate in E as [-> _].
Qed.

Lemma file : inode_ok (dv := 1) fixed V0 0.
Proof.
  split; change (finode V0 0) with ino; change (dn V0 0) with (i_d ino).
  - done.
  - cbn. lia.
  - unfold fixed. change (IBLOCK (i_inum ino) (fsb V0)) with 40. set_solver.
  - split; cbn; unfold is_short, T_FILE; try lia; repeat constructor; lia.
  - split.
    + split; [done|done| |]; intros bn; rewrite no_addr; done.
    + cbn. change (MAXFILE * BSIZE) with 274432. lia.
    + intros bn Hb Hlt. cbn in Hlt. unfold BSIZE in Hlt. lia.
Qed.
End Demo.

Lemma crash_safe_write_witness : exists s, wp (let H := Demo.demo_base in r ← writei 0 false 1000 0 5; lift (onlog end_op);; mret r) (fun r _ => 0 <= r <= 5) s.
Proof.
  destruct Demo.start as [s R]. exists s.
  eapply wp_mono; [apply (crash_safe_write Demo.uout Demo.uin 1 2 (Demo.disk, []) Demo.fixed s Demo.V0 0 1000 0 5 Demo.sb 1 R Demo.calm0)|].
  - reflexivity.
  - split; [cbn; unfold LOGSIZE, MAXOPBLOCKS; lia|]. unfold Demo.fixed. intros n [->%elem_of_singleton| ->%elem_of_singleton]%elem_of_union; cbn; lia.
  - vm_compute. reflexivity.
  - reflexivity.
  - exact Demo.file.
  - change (dn Demo.V0 0) with (i_d Demo.ino). cbn. lia.
  - lia.
  - change (MAXFILE * BSIZE) with 274432. lia.
  - lia.
  - lia.
  - vm_compute. congruence.
  - cbn beta. intros r s' (F' & W & H & _). exact H.
Defined.
