(* ===== verification/FsSpec.v ===== *)
(** * Files and blocks: round trips

    What is written to a file is read back, and a block that is allocated and freed is free
    again; over any layers below that keep the promises of class [DiskOk]. *)

From Stdlib Require Import ZArith Lia.
From stdpp Require Import base numbers list gmap strings sets.
From S2P Require Import Prelude CString Riscv Spinlock Locks Bio BioView Block Log Fs FsDisk FsBlocks FsInode FsFile FsWrite FsReal FsCrash.

(** Reading back what was just written. *)
Lemma slice_written (c bs : list Z) off : (off <= length c)%nat ->
  slice (take off c ++ bs ++ drop (off + length bs) c) (Z.of_nat off) (Z.of_nat (length bs)) = bs.
Proof.
  intros Ho. unfold slice. rewrite !Nat2Z.id. rewrite drop_app_length' by (rewrite length_take; lia). by rewrite take_app_length.
Qed.

Lemma mem_put_bytes m dst l m' : mem_put m dst l m' -> bytes m' dst (length l) = l.
Proof.
  intros Hm. apply list_eq. intros i. destruct (Nat.lt_ge_cases i (length l)) as [Hi|Hi].
  - unfold bytes. rewrite list_lookup_fmap, lookup_seq_lt by lia. cbn [fmap option_fmap option_map Nat.add].
    rewrite Hm, decide_True by lia. replace (Z.to_nat (dst + Z.of_nat i - dst)) with i by lia. rewrite nth_lookup.
    destruct (lookup_lt_is_Some_2 l i Hi) as [x ->]. done.
  - rewrite !lookup_ge_None_2; [done|done|by rewrite length_bytes].
Qed.

Section spec.
Context {S : Type} `{D : DiskOk S dv nbufs} (M : gset Z) (Hnb : (13 <= nbufs)%nat).
Implicit Types (s : fstate S) (F : fview).

(** C2: reading back a write.  [writei] of [n] bytes at [src] to offset [off] of a file (at
    most its size), followed by [readi] of as many bytes as were written, at the same offset,
    to [dst]: the read returns all of them, they are the bytes of [src], memory outside the
    destination is as before, and the file contains the bytes at [off] with what came before
    and after in place.  Fewer than [n] bytes are written only when the disk is full. *)
Theorem write_read s F ip src dst off n : frep s F -> calm M 0 F -> inode_ok (dv := dv) M F ip ->
  0 <= off <= di_size (dn F ip) -> 0 <= n -> off + n <= MAXFILE * BSIZE ->
  0 <= src -> src + n < 2 ^ 64 -> 0 <= dst -> dst + n < 2 ^ 64 -> budget M F (nblk off n + icost M F (dn F ip)) ->
  wp (r ← writei ip false src off n; r' ← readi ip false dst off r; mret (r, r')) (fun '(r, r') s' => exists F' m,
    r' = r /\ 0 <= r <= n /\ (r < n -> full F') /\ frep s' (on_a (a_mem m) F') /\
    bytes m dst (Z.to_nat r) = bytes (amem (fA F)) src (Z.to_nat r) /\
    (forall a, ~ dst <= a < dst + r -> rd8 m a = rd8 (amem (fA F)) a) /\
    content F' (dn F' ip) = take (Z.to_nat off) (content F (dn F ip)) ++ bytes (amem (fA F)) src (Z.to_nat r) ++
      drop (Z.to_nat off + Z.to_nat r) (content F (dn F ip))) s.
Proof using Hnb.
  intros R C Hi Hoff Hn Hmax Hs1 Hs2 Hd1 Hd2 Hb. assert (MAXFILE * BSIZE = 274432) as HM by reflexivity.
  apply wp_bind. eapply wp_mono; [by apply (writei_in M Hnb s F ip src off n R C Hi)|]. cbn beta.
  intros r s1 (F' & R1 & C1 & Hr & Hfull & B1 & HW). pose proof (wr_content _ _ _ _ _ HW) as Ec. pose proof (wr_ok _ _ _ _ _ HW) as Ho.
  set (bs := bytes (amem (fA F)) src (Z.to_nat r)) in *. assert (length bs = Z.to_nat r) as Hl by apply length_bytes.
  assert (i_dev (finode F' ip) = dv) as Hdv by (rewrite (wr_it _ _ _ _ _ HW), decide_True by done; apply Hi).
  apply wp_bind. eapply wp_mono; [apply (readi_ok M Hnb s1 F' ip dst off r R1 C1 B1 Hdv Ho); lia|]. cbn beta.
  intros r' s2 [-> (m & R2 & Hm)]. apply wp_ret. exists F', m.
  assert (Z.of_nat (length (content F' (dn F' ip))) = di_size (dn F' ip)) as Hsz by (rewrite length_content, Z2Nat.id; [done|apply Ho]).
  rewrite Ec, !length_app, length_take, Hl, length_drop, length_content in Hsz.
  assert (readable (di_size (dn F' ip)) off r = r) as Er by (unfold readable; rewrite (proj2 (Z.ltb_ge _ _)); lia). rewrite Er in *.
  assert (slice (content F' (dn F' ip)) off r = bs) as Es.
  { rewrite Ec. pose proof (slice_written (content F (dn F ip)) bs (Z.to_nat off) ltac:(rewrite length_content; lia)) as Hs.
    rewrite Hl, !Z2Nat.id in Hs by lia. rewrite <- Hs at 3. by rewrite Hl. }
  rewrite Es in Hm. destruct (wr_rest _ _ _ _ _ HW) as [Erest _]. assert (amem (fA F') = amem (fA F)) as Em by (unfold rest in Erest; congruence).
  rewrite Em in Hm. split; [done|]. split; [done|]. split; [exact Hfull|]. split; [exact R2|]. split.
  { fold bs. pose proof (mem_put_bytes _ _ _ _ Hm) as Hmb. by rewrite Hl in Hmb. }
  split.
  - intros a Ha. rewrite Hm, Hl, decide_False by lia. done.
  - by rewrite Ec, Hl.
Qed.

(** C9: the block allocator.  [balloc] returns 0 only when every block of the disk is in use.
    Otherwise it returns a data block that was free, now marked and zeroed, and no other
    block's content or mark changes; [bfree] of it then restores the free-block map. *)
Theorem balloc_bfree s F : frep s F -> calm M 0 F -> budget M F 1 ->
  wp (b ← balloc dv; if b =? 0 then mret 0 else bfree dv b;; mret b) (fun b s' =>
    (b = 0 /\ frep s' F /\ full F) \/
    (data_block F b /\ used F b = false /\ exists F', frep s' F' /\ cont F' b = zero_block /\
      (forall x, 0 <= x < sb_size (fsb F) -> used F' x = used F x) /\
      (forall x, x <> b -> x <> BBLOCK b (fsb F) -> cont F' x = cont F x))) s.
Proof using Hnb.
  intros R C Hb. pose proof (c_layout _ _ _ C) as L. apply wp_bind. eapply wp_mono; [apply (balloc_ok M Hnb F s 0 0 R C); [lia|done|lia]|]. cbn beta.
  intros b s1 [(-> & R1 & Hf)|(Hd & Hu & R1 & B1)]; [apply wp_ret; by left|]. pose proof (dstart_pos F L) as Hp.
  assert (b <> 0) as Hb0 by (destruct Hd; lia). rewrite (proj2 (Z.eqb_neq b 0) Hb0). pose proof (good_cont _ _ (BBLOCK b (fsb F)) R) as Hg.
  assert (0 <= b < sb_size (fsb F)) as Hbr by (destruct Hd; lia).
  apply wp_bind. eapply wp_mono; [apply (bfree_ok M Hnb (v_alloc b F) s1 0 0 b R1); [by apply calm_alloc|lia|done|lia|done|]|].
  { rewrite used_alloc, decide_True by (done || lia). done. }
  cbn beta. intros _ s2 R2. apply wp_ret. right. split; [done|]. split; [done|]. exists (v_free b (v_alloc b F)). split; [done|].
  pose proof (bblock_data F b b L Hbr Hd) as Hne. split; [|split].
  - unfold v_free. rewrite cont_put, decide_False by (intros E; by apply Hne). unfold v_alloc. by rewrite cont_put, decide_True.
  - intros x Hx. rewrite used_free; [|done|exact (good_cont _ _ _ R1)|lia|lia]. case_decide as E; [by subst|].
    rewrite used_alloc by (done || lia). by rewrite decide_False.
  - intros x Hx1 Hx2. unfold v_free. rewrite cont_put, decide_False by done. by apply cont_alloc.
Qed.
End spec.

Lemma write_read_witness : exists s, wp (let H := Demo.demo_base in r ← writei 0 false 1000 0 5; r' ← readi 0 false 2000 0 r; mret (r, r'))
  (fun '(r, r') _ => r' = r) s.
Proof.
  destruct Demo.start as [s R]. exists s.
  eapply wp_mono; [apply (write_read (D := Demo.demo_ok) Demo.fixed ltac:(unfold NBUF, MAXOPBLOCKS; lia) s Demo.V0 0 1000 2000 0 5 R Demo.calm0 Demo.file)|].
  - change (dn Demo.V0 0) with (i_d Demo.ino). cbn. lia.
  - lia.
  - change (MAXFILE * BSIZE) with 274432. lia.
  - lia.
  - lia.
  - lia.
  - lia.
  - vm_compute. congruence.
  - cbn beta. intros [r r'] s' (F' & m & H & _). exact H.
Defined.

Lemma balloc_bfree_witness : exists s, wp (let H := Demo.demo_base in b ← balloc 1; if b =? 0 then mret 0 else bfree 1 b;; mret b)
  (fun b _ => b = 0 \/ 43 <= b < 200) s.
Proof.
  destruct Demo.start as [s R]. exists s.
  eapply wp_mono; [apply (balloc_bfree (D := Demo.demo_ok) Demo.fixed ltac:(unfold NBUF, MAXOPBLOCKS; lia) s Demo.V0 R Demo.calm0)|].
  - vm_compute. congruence.
  - cbn beta. intros b s' [[H _]|[H _]]; [by left|right; exact H].
Defined.
