(* ===== verification/File.v ===== *)
(** * Open files

    [kernel/file.c] with [struct file] of [file.h], and [pipealloc] of [pipe.c].  A
    pointer to [ftable.file[i]] is [i + 1], the null pointer is 0; pointers to pipes
    and inodes are numbers with 0 for null.  What the code calls in [fs.c], [log.c],
    [pipe.c], [vm.c], [kalloc.c] and through [devsw] is class [FileEnv]. *)

From Stdlib Require Import ZArith Lia.
From stdpp Require Import base numbers list gmap strings sets.
From S2P Require Import Prelude Riscv Spinlock Locks Fs Pipe.

Inductive ftype := FD_NONE | FD_PIPE | FD_INODE | FD_DEVICE.
#[export] Instance ftype_eq_dec : EqDecision ftype.
Proof. solve_decision. Defined.

Record file := mkFile {
  f_type : ftype; f_ref : Z; readable : bool; writable : bool;
  f_pipe : Z; f_ip : Z; f_off : Z; f_major : Z }.

Definition set_f_type v f := mkFile v (f_ref f) (readable f) (writable f) (f_pipe f) (f_ip f) (f_off f) (f_major f).
Definition set_f_ref v f := mkFile (f_type f) v (readable f) (writable f) (f_pipe f) (f_ip f) (f_off f) (f_major f).
Definition set_f_rw r w f := mkFile (f_type f) (f_ref f) r w (f_pipe f) (f_ip f) (f_off f) (f_major f).
Definition set_f_pipe v f := mkFile (f_type f) (f_ref f) (readable f) (writable f) v (f_ip f) (f_off f) (f_major f).
Definition set_f_ip v f := mkFile (f_type f) (f_ref f) (readable f) (writable f) (f_pipe f) v (f_off f) (f_major f).
Definition set_f_off v f := mkFile (f_type f) (f_ref f) (readable f) (writable f) (f_pipe f) (f_ip f) v (f_major f).
Definition set_f_major v f := mkFile (f_type f) (f_ref f) (readable f) (writable f) (f_pipe f) (f_ip f) (f_off f) v.

(** [ftable] is static storage. *)
Definition file0 : file := mkFile FD_NONE 0 false false 0 0 0 0.

Class FileEnv (S : Type) := {
  fe_locks :: HasLocks S;
  begin_op : M S unit;
  end_op : M S unit;
  ilock : Z -> M S unit;
  iunlock : Z -> M S unit;
  iput : Z -> M S unit;
  stati : Z -> M S stat;
  readi : Z -> bool -> Z -> Z -> Z -> M S Z;       (* ip, user_dst, dst, off, n *)
  writei : Z -> bool -> Z -> Z -> Z -> M S Z;
  copyout_stat : Z -> stat -> M S Z;               (* copyout(p->pagetable, addr, &st, sizeof(st)) *)
  devread : Z -> option (Z -> Z -> M S Z);         (* devsw[major].read(1, addr, n) *)
  devwrite : Z -> option (Z -> Z -> M S Z);
  pipeclose : Z -> bool -> M S unit;
  piperead : Z -> Z -> Z -> M S Z;
  pipewrite : Z -> Z -> Z -> M S Z;
  pipe_at : S -> Z -> pipe;
  set_pipe_at : Z -> pipe -> S -> S;
  kalloc : M S Z;
  kfree : Z -> M S unit;
}.

Record filest (S : Type) := mkFl { fenv : S; ftable : gmap Z file }.
Arguments mkFl {S} _ _.
Arguments fenv {S} _.
Arguments ftable {S} _.

Definition FTABLE_LOCK : Z := 701.

Section file_c.
Context {S : Type} `{FileEnv S}.
Implicit Types s : filest S.

#[export] #[refine] Instance filest_locks : HasLocks (filest S) := {
  held := fun s => held (fenv s);
  set_held := fun x s => mkFl (set_held x (fenv s)) (ftable s);
  curpid := fun s => curpid (fenv s);
}.
Proof.
  - intros x s. cbn. apply held_set.
  - intros s. rewrite set_held_held. by destruct s.
  - intros x y s. cbn. by rewrite set_held_set.
Defined.

Definition flift {A} (m : M S A) : M (filest S) A := zoom fenv (fun e s => mkFl e (ftable s)) m.
Definition file_of s (f : Z) : file := default file0 (ftable s !! f).
Definition fget {A} (f : Z) (g : file -> A) : M (filest S) A := gets (fun s => g (file_of s f)).
Definition upd_file (f : Z) (g : file -> file) : M (filest S) unit :=
  modify (fun s => mkFl (fenv s) (<[f := g (file_of s f)]> (ftable s))).

Definition fileinit : M (filest S) unit := initlock FTABLE_LOCK.

(** The scan of [filealloc]. *)
Fixpoint find_free (n : nat) (t : gmap Z file) (f : Z) : Z :=
  match n with
  | O => 0
  | Datatypes.S k => if f_ref (default file0 (t !! f)) =? 0 then f else find_free k t (f + 1)
  end.

Definition filealloc : M (filest S) Z :=
  acquire FTABLE_LOCK;;
  f ← gets (fun s => find_free (Z.to_nat NFILE) (ftable s) 1);
  if f =? 0 then release FTABLE_LOCK;; mret 0 else
  upd_file f (set_f_ref 1);;
  release FTABLE_LOCK;;
  mret f.

Definition filedup (f : Z) : M (filest S) Z :=
  acquire FTABLE_LOCK;;
  r ← fget f f_ref;
  if r <? 1 then panic "filedup" else
  upd_file f (fun x => set_f_ref (i32 (f_ref x + 1)) x);;
  release FTABLE_LOCK;;
  mret f.

Definition fileclose (f : Z) : M (filest S) unit :=
  acquire FTABLE_LOCK;;
  r ← fget f f_ref;
  if r <? 1 then panic "fileclose" else
  upd_file f (fun x => set_f_ref (f_ref x - 1) x);;
  r ← fget f f_ref;
  if 0 <? r then release FTABLE_LOCK else
  ff ← fget f (fun x => x);
  upd_file f (set_f_ref 0);;
  upd_file f (set_f_type FD_NONE);;
  release FTABLE_LOCK;;
  match f_type ff with
  | FD_PIPE => flift (pipeclose (f_pipe ff) (writable ff))
  | FD_INODE | FD_DEVICE =>
      flift begin_op;;
      flift (iput (f_ip ff));;
      flift end_op
  | FD_NONE => mret tt
  end.

Definition filestat (f addr : Z) : M (filest S) Z :=
  x ← fget f (fun x => x);
  match f_type x with
  | FD_INODE | FD_DEVICE =>
      flift (ilock (f_ip x));;
      st ← flift (stati (f_ip x));
      flift (iunlock (f_ip x));;
      r ← flift (copyout_stat addr st);
      mret (if r <? 0 then -1 else 0)
  | _ => mret (-1)
  end.

(** [devsw[major].read] or [.write], when the number is in range. *)
Definition dev_op {A} (ops : Z -> option A) (major : Z) : option A :=
  if (major <? 0) || (NDEV <=? major) then None else ops major.

(** [f->off += r] *)
Definition advance (f r : Z) : M (filest S) unit :=
  mwhen (0 <? r) (upd_file f (fun x => set_f_off (u32 (f_off x + r)) x)).

Definition fileread (f addr n : Z) : M (filest S) Z :=
  x ← fget f (fun x => x);
  if negb (readable x) then mret (-1) else
  match f_type x with
  | FD_PIPE => flift (piperead (f_pipe x) addr n)
  | FD_DEVICE =>
      match dev_op devread (f_major x) with
      | None => mret (-1)
      | Some op => flift (op addr n)
      end
  | FD_INODE =>
      flift (ilock (f_ip x));;
      off ← fget f f_off;
      r ← flift (readi (f_ip x) true addr off (u32 n));
      advance f r;;
      flift (iunlock (f_ip x));;
      mret r
  | FD_NONE => panic "fileread"
  end.

(** The most [filewrite] hands to [writei] at a time. *)
Definition max_write : Z := ((MAXOPBLOCKS - 1 - 1 - 2) / 2) * BSIZE.

Definition filewrite (f addr n : Z) : M (filest S) Z :=
  x ← fget f (fun x => x);
  if negb (writable x) then mret (-1) else
  match f_type x with
  | FD_PIPE => flift (pipewrite (f_pipe x) addr n)
  | FD_DEVICE =>
      match dev_op devwrite (f_major x) with
      | None => mret (-1)
      | Some op => flift (op addr n)
      end
  | FD_INODE =>
      i ← loop (Z.to_nat n + 1) (fun i =>
        if negb (i <? n) then mret (inr i) else
        let n1 := if max_write <? n - i then max_write else n - i in
        flift begin_op;;
        flift (ilock (f_ip x));;
        off ← fget f f_off;
        r ← flift (writei (f_ip x) true (u64 (addr + i)) off n1);
        advance f r;;
        flift (iunlock (f_ip x));;
        flift end_op;;
        mret (if negb (r =? n1) then inr i else inl (i + r))) 0;
      mret (if i =? n then n else -1)
  | FD_NONE => panic "filewrite"
  end.

(** ** [pipealloc] *)

(** The label [bad]; [pi] is null whenever it is reached with a null file, and the
    allocation of [pi] is the last thing that can fail. *)
Definition pipealloc_bad (f0 f1 pi : Z) : M (filest S) (option (Z * Z)) :=
  mwhen (negb (pi =? 0)) (flift (kfree pi));;
  mwhen (negb (f0 =? 0)) (fileclose f0);;
  mwhen (negb (f1 =? 0)) (fileclose f1);;
  mret None.

(** The result is the pair of files, or [None] for -1. *)
Definition pipealloc : M (filest S) (option (Z * Z)) :=
  f0 ← filealloc;
  if f0 =? 0 then pipealloc_bad 0 0 0 else
  f1 ← filealloc;
  if f1 =? 0 then pipealloc_bad f0 0 0 else
  pi ← flift kalloc;
  if pi =? 0 then pipealloc_bad f0 f1 0 else
  modify (fun s => mkFl (set_pipe_at pi (mkPipe (pdata (pipe_at (fenv s) pi)) 0 0 1 1) (fenv s)) (ftable s));;
  initlock PIPE_LOCK;;
  upd_file f0 (fun x => set_f_pipe pi (set_f_rw true false (set_f_type FD_PIPE x)));;
  upd_file f1 (fun x => set_f_pipe pi (set_f_rw false true (set_f_type FD_PIPE x)));;
  mret (Some (f0, f1)).
End file_c.
