(* ===== verification/Args.v ===== *)
(** * System-call arguments

    [fetchaddr], [fetchstr], [argraw], [argint], [argaddr] and [argstr] of
    [kernel/syscall.c], over what they use: the argument registers in the trap frame,
    the size of the process, [copyin] and [copyinstr], kernel memory. *)

From Stdlib Require Import ZArith Lia.
From stdpp Require Import base numbers list gmap strings sets.
From S2P Require Import Prelude CString Riscv.

Class ArgEnv (S : Type) := {
  tf_a : S -> Z -> Z;                    (* p->trapframe->a0 ... a7 *)
  set_tf_a : Z -> Z -> S -> S;
  psz : S -> Z;                          (* p->sz *)
  kmem : S -> memory;
  set_kmem : memory -> S -> S;
  copyin8 : Z -> M S (option Z);         (* copyin(p->pagetable, ip, addr, 8); None when it fails *)
  copyinstr : Z -> Z -> Z -> M S Z;      (* copyinstr(p->pagetable, dst, srcva, max) *)
}.

Section syscall_c.
Context {S : Type} `{ArgEnv S}.

(** [None] is the error -1, otherwise the word stored through [ip]. *)
Definition fetchaddr (addr : Z) : M S (option Z) :=
  size ← gets psz;
  if (size <=? addr) || (size <? u64 (addr + 8)) then mret None else
  copyin8 addr.

Definition fetchstr (addr buf max : Z) : M S Z :=
  r ← copyinstr buf addr max;
  if r <? 0 then mret (-1) else
  n ← gets (fun s => strlen (Z.to_nat max + 1) (kmem s) buf);
  match n with Some n => mret n | None => nofuel end.

Definition argraw (n : Z) : M S Z :=
  if (0 <=? n) && (n <=? 5) then gets (fun s => tf_a s n) else panic "argraw".

Definition argint (n : Z) : M S Z := x ← argraw n; mret (i32 x).
Definition argaddr (n : Z) : M S Z := argraw n.
Definition argstr (n buf max : Z) : M S Z := addr ← argaddr n; fetchstr addr buf max.
End syscall_c.
