(* ===== verification/SysFile.v ===== *)
(** * The file system calls

    [kernel/sysfile.c].  The state is the file table over the layers below, with the
    open files and the current directory of the calling process.  Local arrays of
    the C functions (paths, names, a directory entry) and the strings "." and ".." are
    kernel addresses, fixed in section [locals]; a pointer that may be null is a number
    with 0 for null.  What [sysfile.c] calls in [fs.c], [exec.c] and [vm.c] is class
    [SysEnv]. *)

From Stdlib Require Import ZArith Lia.
From stdpp Require Import base numbers list gmap strings sets.
From S2P Require Import Prelude CString Riscv Spinlock Locks Fs Pipe File Args.

(** [fcntl.h] *)
Definition O_RDONLY : Z := 0x000.
Definition O_WRONLY : Z := 0x001.
Definition O_RDWR : Z := 0x002.
Definition O_CREATE : Z := 0x200.
Definition O_TRUNC : Z := 0x400.

Class SysEnv (S : Type) := {
  se_file :: FileEnv S;
  se_args :: ArgEnv S;
  namei : Z -> M S Z;
  nameiparent : Z -> Z -> M S Z;
  dirlookup : Z -> Z -> M S (option (Z * Z));    (* the inode and the offset for poff *)
  dirlink : Z -> Z -> Z -> M S Z;
  ialloc : Z -> Z -> M S Z;
  iupdate : Z -> M S unit;
  itrunc : Z -> M S unit;
  inode_at : S -> Z -> inode;
  set_inode_at : Z -> inode -> S -> S;
  copyout_int : Z -> Z -> M S Z;                 (* copyout(p->pagetable, addr, &x, sizeof(int)) *)
  exec : Z -> list Z -> M S Z;
  swapread : Z -> Z -> M S unit;
  swapwrite : Z -> Z -> M S unit;
  nr_sectors_read : S -> Z;
  nr_sectors_write : S -> Z;
}.

Record sysst (S : Type) := mkSys { sfile : filest S; ofile : list Z; p_cwd : Z }.
Arguments mkSys {S} _ _ _.
Arguments sfile {S} _.
Arguments ofile {S} _.
Arguments p_cwd {S} _.

Section sysfile_c.
Context {S : Type} `{SysEnv S}.
Implicit Types s : sysst S.

Definition onfile {A} (m : M (filest S) A) : M (sysst S) A :=
  zoom sfile (fun x s => mkSys x (ofile s) (p_cwd s)) m.
Definition onenv {A} (m : M S A) : M (sysst S) A := onfile (flift m).
Definition senv s : S := fenv (sfile s).
Definition ino s (ip : Z) : inode := inode_at (senv s) ip.
Definition iget_ {A} (ip : Z) (f : inode -> A) : M (sysst S) A := gets (fun s => f (ino s ip)).
Definition upd_ino (ip : Z) (f : inode -> inode) : M (sysst S) unit :=
  onenv (modify (fun e => set_inode_at ip (f (inode_at e ip)) e)).
Definition set_nlink (v : Z) (i : inode) : inode := set_i_d (set_di_nlink v (i_d i)) i.
Definition set_majmin (ma mi : Z) (i : inode) : inode := set_i_d (set_di_major ma (set_di_minor mi (i_d i))) i.
Definition iunlockput (ip : Z) : M (sysst S) unit := onenv (iunlock ip);; onenv (iput ip).
Definition set_ofile (fd f : Z) : M (sysst S) unit :=
  modify (fun s => mkSys (sfile s) (<[Z.to_nat fd := f]> (ofile s)) (p_cwd s)).

(** [None] is -1; otherwise the descriptor and the file. *)
Definition argfd (n : Z) : M (sysst S) (option (Z * Z)) :=
  fd ← onenv (argint n);
  if (fd <? 0) || (NOFILE <=? fd) then mret None else
  f ← gets (fun s => nth (Z.to_nat fd) (ofile s) 0);
  if f =? 0 then mret None else mret (Some (fd, f)).

(** The scan of [fdalloc]. *)
Fixpoint find_fd (l : list Z) (fd : Z) : Z :=
  match l with
  | [] => -1
  | x :: r => if x =? 0 then fd else find_fd r (fd + 1)
  end.

Definition fdalloc (f : Z) : M (sysst S) Z :=
  fd ← gets (fun s => find_fd (take (Z.to_nat NOFILE) (ofile s)) 0);
  if fd <? 0 then mret (-1) else
  set_ofile fd f;;
  mret fd.

Definition sys_dup : M (sysst S) Z :=
  a ← argfd 0;
  match a with
  | None => mret (-1)
  | Some (_, f) =>
      fd ← fdalloc f;
      if fd <? 0 then mret (-1) else
      onfile (filedup f);;
      mret fd
  end.

Definition sys_read : M (sysst S) Z :=
  p ← onenv (argaddr 1);
  n ← onenv (argint 2);
  a ← argfd 0;
  match a with None => mret (-1) | Some (_, f) => onfile (fileread f p n) end.

Definition sys_write : M (sysst S) Z :=
  p ← onenv (argaddr 1);
  n ← onenv (argint 2);
  a ← argfd 0;
  match a with None => mret (-1) | Some (_, f) => onfile (filewrite f p n) end.

Definition sys_close : M (sysst S) Z :=
  a ← argfd 0;
  match a with
  | None => mret (-1)
  | Some (fd, f) =>
      set_ofile fd 0;;
      onfile (fileclose f);;
      mret 0
  end.

Definition sys_fstat : M (sysst S) Z :=
  st ← onenv (argaddr 1);
  a ← argfd 0;
  match a with None => mret (-1) | Some (_, f) => onfile (filestat f st) end.

Section locals.
Context (path name new old de dot dotdot : Z).

(** The label [bad] of [sys_link]. *)
Definition sys_link_bad (ip : Z) : M (sysst S) Z :=
  onenv (ilock ip);;
  upd_ino ip (fun i => set_nlink (i16 (i_nlink i - 1)) i);;
  onenv (iupdate ip);;
  iunlockput ip;;
  onenv end_op;;
  mret (-1).

Definition sys_link : M (sysst S) Z :=
  r ← onenv (argstr 0 old MAXPATH);
  if r <? 0 then mret (-1) else
  r ← onenv (argstr 1 new MAXPATH);
  if r <? 0 then mret (-1) else
  onenv begin_op;;
  ip ← onenv (namei old);
  if ip =? 0 then onenv end_op;; mret (-1) else
  onenv (ilock ip);;
  ty ← iget_ ip i_type;
  if ty =? T_DIR then iunlockput ip;; onenv end_op;; mret (-1) else
  upd_ino ip (fun i => set_nlink (i16 (i_nlink i + 1)) i);;
  onenv (iupdate ip);;
  onenv (iunlock ip);;
  dp ← onenv (nameiparent new name);
  if dp =? 0 then sys_link_bad ip else
  onenv (ilock dp);;
  d1 ← iget_ dp i_dev;
  d2 ← iget_ ip i_dev;
  inum ← iget_ ip i_inum;
  r ← (if negb (d1 =? d2) then mret (-1) else onenv (dirlink dp name inum));
  if r <? 0 then iunlockput dp;; sys_link_bad ip else
  iunlockput dp;;
  onenv (iput ip);;
  onenv end_op;;
  mret 0.

(** Is the directory empty except for "." and ".."? *)
Definition isdirempty (dp : Z) : M (sysst S) bool :=
  n ← iget_ dp i_size;
  loop (Z.to_nat (n / sizeof_dirent + 2)) (fun off =>
    sz ← iget_ dp i_size;
    if negb (off <? sz) then mret (inr true) else
    r ← onenv (readi dp false de off sizeof_dirent);
    if negb (r =? sizeof_dirent) then panic "isdirempty: readi" else
    i ← gets (fun s => de_inum (kmem (senv s)) de);
    if negb (i =? 0) then mret (inr false) else
    mret (inl (off + sizeof_dirent))) (2 * sizeof_dirent).

(** The label [bad] of [sys_unlink]. *)
Definition sys_unlink_bad (dp : Z) : M (sysst S) Z :=
  iunlockput dp;;
  onenv end_op;;
  mret (-1).

Definition sys_unlink : M (sysst S) Z :=
  r ← onenv (argstr 0 path MAXPATH);
  if r <? 0 then mret (-1) else
  onenv begin_op;;
  dp ← onenv (nameiparent path name);
  if dp =? 0 then onenv end_op;; mret (-1) else
  onenv (ilock dp);;
  dots ← gets (fun s => (namecmp (kmem (senv s)) name dot =? 0) || (namecmp (kmem (senv s)) name dotdot =? 0));
  if (dots : bool) then sys_unlink_bad dp else
  o ← onenv (dirlookup dp name);
  match o with
  | None => sys_unlink_bad dp
  | Some (ip, off) =>
      onenv (ilock ip);;
      nl ← iget_ ip i_nlink;
      if nl <? 1 then panic "unlink: nlink < 1" else
      ty ← iget_ ip i_type;
      full ← (if ty =? T_DIR then e ← isdirempty ip; mret (negb e) else mret false);
      if (full : bool) then iunlockput ip;; sys_unlink_bad dp else
      onenv (modify (fun e => set_kmem (memset (kmem e) de 0 sizeof_dirent) e));;
      r ← onenv (writei dp false de off sizeof_dirent);
      if negb (r =? sizeof_dirent) then panic "unlink: writei" else
      ty ← iget_ ip i_type;
      mwhen (ty =? T_DIR) (
        upd_ino dp (fun i => set_nlink (i16 (i_nlink i - 1)) i);;
        onenv (iupdate dp));;
      iunlockput dp;;
      upd_ino ip (fun i => set_nlink (i16 (i_nlink i - 1)) i);;
      onenv (iupdate ip);;
      iunlockput ip;;
      onenv end_op;;
      mret 0
  end.

(** The label [fail] of [create]. *)
Definition create_fail (dp ip : Z) : M (sysst S) Z :=
  upd_ino ip (set_nlink 0);;
  onenv (iupdate ip);;
  iunlockput ip;;
  iunlockput dp;;
  mret 0.

Definition create (pth type major minor : Z) : M (sysst S) Z :=
  dp ← onenv (nameiparent pth name);
  if dp =? 0 then mret 0 else
  onenv (ilock dp);;
  o ← onenv (dirlookup dp name);
  match o with
  | Some (ip, _) =>
      iunlockput dp;;
      onenv (ilock ip);;
      ty ← iget_ ip i_type;
      if (type =? T_FILE) && ((ty =? T_FILE) || (ty =? T_DEVICE)) then mret ip else
      iunlockput ip;;
      mret 0
  | None =>
      dv ← iget_ dp i_dev;
      ip ← onenv (ialloc dv type);
      if ip =? 0 then iunlockput dp;; mret 0 else
      onenv (ilock ip);;
      upd_ino ip (set_majmin major minor);;
      upd_ino ip (set_nlink 1);;
      onenv (iupdate ip);;
      inum ← iget_ ip i_inum;
      dnum ← iget_ dp i_inum;
      r ← (if type =? T_DIR then
             r ← onenv (dirlink ip dot inum);
             if r <? 0 then mret r else onenv (dirlink ip dotdot dnum)
           else mret 0);
      if r <? 0 then create_fail dp ip else
      r ← onenv (dirlink dp name inum);
      if r <? 0 then create_fail dp ip else
      mwhen (type =? T_DIR) (
        upd_ino dp (fun i => set_nlink (i16 (i_nlink i + 1)) i);;
        onenv (iupdate dp));;
      iunlockput dp;;
      mret ip
  end.

(** The rest of [sys_open] once [ip] is locked. *)
Definition sys_open_with (ip omode : Z) : M (sysst S) Z :=
  i ← iget_ ip (fun i => i);
  if (i_type i =? T_DEVICE) && ((i_major i <? 0) || (NDEV <=? i_major i)) then
    iunlockput ip;; onenv end_op;; mret (-1)
  else
  f ← onfile filealloc;
  fd ← (if f =? 0 then mret (-1) else fdalloc f);
  if fd <? 0 then
    mwhen (negb (f =? 0)) (onfile (fileclose f));;
    iunlockput ip;;
    onenv end_op;;
    mret (-1)
  else
  onfile (upd_file f (fun x =>
    if i_type i =? T_DEVICE then set_f_major (i_major i) (set_f_type FD_DEVICE x)
    else set_f_off 0 (set_f_type FD_INODE x)));;
  onfile (upd_file f (set_f_ip ip));;
  onfile (upd_file f (set_f_rw (negb (tst omode O_WRONLY)) (tst omode O_WRONLY || tst omode O_RDWR)));;
  mwhen (tst omode O_TRUNC && (i_type i =? T_FILE)) (onenv (itrunc ip));;
  onenv (iunlock ip);;
  onenv end_op;;
  mret fd.

Definition sys_open : M (sysst S) Z :=
  omode ← onenv (argint 1);
  n ← onenv (argstr 0 path MAXPATH);
  if n <? 0 then mret (-1) else
  onenv begin_op;;
  if tst omode O_CREATE then
    ip ← create path T_FILE 0 0;
    if ip =? 0 then onenv end_op;; mret (-1) else
    sys_open_with ip omode
  else
    ip ← onenv (namei path);
    if ip =? 0 then onenv end_op;; mret (-1) else
    onenv (ilock ip);;
    ty ← iget_ ip i_type;
    if (ty =? T_DIR) && negb (omode =? O_RDONLY) then
      iunlockput ip;; onenv end_op;; mret (-1)
    else sys_open_with ip omode.

Definition sys_mkdir : M (sysst S) Z :=
  onenv begin_op;;
  r ← onenv (argstr 0 path MAXPATH);
  ip ← (if r <? 0 then mret 0 else create path T_DIR 0 0);
  if ip =? 0 then onenv end_op;; mret (-1) else
  iunlockput ip;;
  onenv end_op;;
  mret 0.

(** [major] and [minor] become [short] in the call of [create]. *)
Definition sys_mknod : M (sysst S) Z :=
  onenv begin_op;;
  major ← onenv (argint 1);
  minor ← onenv (argint 2);
  r ← onenv (argstr 0 path MAXPATH);
  ip ← (if r <? 0 then mret 0 else create path T_DEVICE (i16 major) (i16 minor));
  if ip =? 0 then onenv end_op;; mret (-1) else
  iunlockput ip;;
  onenv end_op;;
  mret 0.

Definition sys_chdir : M (sysst S) Z :=
  onenv begin_op;;
  r ← onenv (argstr 0 path MAXPATH);
  ip ← (if r <? 0 then mret 0 else onenv (namei path));
  if ip =? 0 then onenv end_op;; mret (-1) else
  onenv (ilock ip);;
  ty ← iget_ ip i_type;
  if negb (ty =? T_DIR) then iunlockput ip;; onenv end_op;; mret (-1) else
  onenv (iunlock ip);;
  c ← gets p_cwd;
  onenv (iput c);;
  onenv end_op;;
  modify (fun s => mkSys (sfile s) (ofile s) ip);;
  mret 0.

(** The two loops of [sys_exec]: the arguments fetched so far, and whether all of
    them were ([false]: the label [bad]). *)
Definition fetch_args (uargv : Z) : M (sysst S) (list Z * bool) :=
  loop (Z.to_nat MAXARG + 1) (fun argv : list Z =>
    let i := Z.of_nat (length argv) in
    if MAXARG <=? i then mret (inr (argv, false)) else
    o ← onenv (fetchaddr (u64 (uargv + 8 * i)));
    match o with
    | None => mret (inr (argv, false))
    | Some uarg =>
        if uarg =? 0 then mret (inr (argv, true)) else
        a ← onenv kalloc;
        if a =? 0 then mret (inr (argv, false)) else
        r ← onenv (fetchstr uarg a PGSIZE);
        if r <? 0 then mret (inr (argv ++ [a], false)) else mret (inl (argv ++ [a]))
    end) [].

Fixpoint kfree_all (argv : list Z) : M (sysst S) unit :=
  match argv with
  | [] => mret tt
  | a :: r => onenv (kfree a);; kfree_all r
  end.

Definition sys_exec : M (sysst S) Z :=
  uargv ← onenv (argaddr 1);
  r ← onenv (argstr 0 path MAXPATH);
  if r <? 0 then mret (-1) else
  a ← fetch_args uargv;
  let '(argv, ok) := a in
  if (ok : bool) then
    ret ← onenv (exec path argv);
    kfree_all argv;;
    mret ret
  else
    kfree_all argv;;
    mret (-1).
End locals.

Definition sys_pipe : M (sysst S) Z :=
  fdarray ← onenv (argaddr 0);
  o ← onfile pipealloc;
  match o with
  | None => mret (-1)
  | Some (rf, wf) =>
      fd0 ← fdalloc rf;
      fd1 ← (if fd0 <? 0 then mret (-1) else fdalloc wf);
      if (fd0 <? 0) || (fd1 <? 0) then
        mwhen (0 <=? fd0) (set_ofile fd0 0);;
        onfile (fileclose rf);;
        onfile (fileclose wf);;
        mret (-1)
      else
      r ← onenv (copyout_int fdarray fd0);
      r ← (if r <? 0 then mret r else onenv (copyout_int (u64 (fdarray + 4)) fd1));
      if r <? 0 then
        set_ofile fd0 0;;
        set_ofile fd1 0;;
        onfile (fileclose rf);;
        onfile (fileclose wf);;
        mret (-1)
      else mret 0
  end.

Definition sys_swapread : M (sysst S) Z :=
  ptr ← onenv (argaddr 0);
  blkno ← onenv (argint 1);
  onenv (swapread ptr blkno);;
  mret 0.

Definition sys_swapwrite : M (sysst S) Z :=
  ptr ← onenv (argaddr 0);
  blkno ← onenv (argint 1);
  onenv (swapwrite ptr blkno);;
  mret 0.

Definition sys_swapstat : M (sysst S) Z :=
  a ← onenv (argaddr 0);
  b ← onenv (argaddr 1);
  nr ← gets (fun s => nr_sectors_read (senv s));
  r ← onenv (copyout_int a nr);
  if r <? 0 then mret (-1) else
  nw ← gets (fun s => nr_sectors_write (senv s));
  r ← onenv (copyout_int b nw);
  mret (if r <? 0 then -1 else 0).
End sysfile_c.
