(* ===== verification/SysRefs.v ===== *)
(** * References held by system calls

    A system call of [sysfile.c] takes references to inodes and files, locks inodes,
    and opens a transaction.  Whatever it returns, it must have ended the transaction,
    unlocked every inode, and kept exactly the references that open files and the
    current directory stand for.  Class [RefOk] says what the calls into [fs.c],
    [log.c], [pipe.c], [vm.c] and [kalloc.c] do to the references, locks and transaction
    of the process when they return; they may also panic ([walk] on a bad address, [kalloc]
    when a page cannot be evicted) or sleep ([begin_op], [ilock], [piperead], a device), as the
    [Stops] at hand admit ([goes]).  This file derives what the routines of [sysfile.c] and [file.c] do. *)

From Stdlib Require Import ZArith Lia.
From stdpp Require Import base numbers list gmap strings sets.
From S2P Require Import Prelude CString Riscv Spinlock Locks Stops Fs Pipe File Args SysFile.

(** The references held to each inode, the inodes the process has locked, whether it is
    inside a transaction, the spin locks it holds, and what it knows: inodes that are
    directories, inodes with a link, entries (directory, offset) in use. *)
Record rview := RV {
  refs : Z -> Z; lkd : gset Z; inop : bool; rlk : gset Z;
  dirs : gset Z; linked : gset Z; ents : gset (Z * Z) }.

Definition v_refs (d : Z) (ip : Z) (V : rview) : rview :=
  RV (fun x => refs V x + d * Z.b2z (x =? ip)) (lkd V) (inop V) (rlk V) (dirs V) (linked V) (ents V).
Definition v_ref (ip : Z) (V : rview) : rview := v_refs 1 ip V.
Definition v_lock (ip : Z) (V : rview) : rview :=
  RV (refs V) ({[ip]} ∪ lkd V) (inop V) (rlk V) (dirs V) (linked V) (ents V).
(** Links and entries are known only while the inodes are locked. *)
Definition v_unlock (ip : Z) (V : rview) : rview :=
  RV (refs V) (lkd V ∖ {[ip]}) (inop V) (rlk V) (dirs V) (linked V ∖ {[ip]}) ∅.
Definition v_trunc (V : rview) : rview :=
  RV (refs V) (lkd V) (inop V) (rlk V) (dirs V) (linked V) ∅.
Definition v_forget (V : rview) : rview :=
  RV (refs V) (lkd V) (inop V) (rlk V) (dirs V) ∅ ∅.
Definition v_op (b : bool) (V : rview) : rview :=
  RV (refs V) (lkd V) b (rlk V) (dirs V) (linked V) (ents V).
Definition v_rlk (x : gset Z) (V : rview) : rview :=
  RV (refs V) (lkd V) (inop V) x (dirs V) (linked V) (ents V).
Definition v_dir (ip : Z) (V : rview) : rview :=
  RV (refs V) (lkd V) (inop V) (rlk V) ({[ip]} ∪ dirs V) (linked V) (ents V).
Definition v_ent (dp off ip : Z) (V : rview) : rview :=
  RV (refs V) (lkd V) (inop V) (rlk V) (dirs V) ({[ip]} ∪ linked V) ({[(dp, off)]} ∪ ents V).
(** Dropping a reference: nothing more is known of the inode. *)
Definition v_put (ip : Z) (V : rview) : rview :=
  let W := v_refs (-1) ip V in
  RV (refs W) (lkd W) (inop W) (rlk W) (dirs W ∖ {[ip]}) (linked W ∖ {[ip]}) (ents W).

(** In a transaction, holding no spin lock. *)
Definition busy (V : rview) : Prop := inop V = true /\ rlk V = ∅.

Class RefOk (S : Type) `{SysEnv S} {SP : Stops} (dot dotdot : Z) := {
  rrep : S -> rview -> Prop;
  r_locks : forall s V, rrep s V -> held s = rlk V;
  r_set_held : forall s V x, rrep s V -> rrep (set_held x s) (v_rlk x V);
  r_refs : forall s V ip, rrep s V -> 0 <= refs V ip;
  r_forget : forall s V, rrep s V -> rrep s (v_forget V);
  r_set_kmem : forall s V m, rrep s V -> rrep (set_kmem m s) V;
  r_set_pipe : forall s V a p, rrep s V -> rrep (set_pipe_at a p s) V;
  (* a locked inode may be changed, but not its type or size *)
  r_get_set : forall s ip i, inode_at (set_inode_at ip i s) ip = i;
  r_set_inode : forall s V ip i, rrep s V -> ip ∈ lkd V ->
    i_type i = i_type (inode_at s ip) -> i_size i = i_size (inode_at s ip) -> rrep (set_inode_at ip i s) V;
  r_begin_op : forall s V, rrep s V -> inop V = false -> rlk V = ∅ -> lkd V = ∅ ->
    goes begin_op (fun _ s' => rrep s' (v_op true V)) s;
  r_end_op : forall s V, rrep s V -> busy V -> lkd V = ∅ -> goes end_op (fun _ s' => rrep s' (v_op false V)) s;
  r_namei : forall s V p, rrep s V -> busy V -> lkd V = ∅ ->
    goes (namei p) (fun r s' => (r = 0 /\ rrep s' V) \/ (r <> 0 /\ rrep s' (v_ref r V))) s;
  r_nameiparent : forall s V p n, rrep s V -> busy V -> lkd V = ∅ ->
    goes (nameiparent p n) (fun r s' => (r = 0 /\ rrep s' V) \/ (r <> 0 /\ rrep s' (v_dir r (v_ref r V)))) s;
  (* only "." and ".." name a directory that is already locked *)
  r_dirlookup : forall s V dp n, rrep s V -> busy V -> dp ∈ lkd V -> dp ∈ dirs V ->
    goes (dirlookup dp n) (fun o s' =>
      match o with
      | None => rrep s' V
      | Some (ip, off) => ip <> 0 /\ rrep s' (v_ent dp off ip (v_ref ip V)) /\
          (ip ∈ lkd V -> namecmp (kmem s) n dot = 0 \/ namecmp (kmem s) n dotdot = 0)
      end) s;
  r_dirlink : forall s V dp n i, rrep s V -> busy V -> dp ∈ lkd V -> dp ∈ dirs V ->
    goes (dirlink dp n i) (fun _ s' => rrep s' V) s;
  r_ialloc : forall s V dv ty, rrep s V -> busy V ->
    goes (ialloc dv ty) (fun r s' => (r = 0 /\ rrep s' V) \/
      (r <> 0 /\ r ∉ lkd V /\ rrep s' ((if ty =? T_DIR then v_dir r else id) (v_ref r V)))) s;
  r_ilock : forall s V ip, rrep s V -> rlk V = ∅ -> 1 <= refs V ip -> ip ∉ lkd V ->
    goes (ilock ip) (fun _ s' => rrep s' (v_lock ip V) /\ (ip ∈ linked V -> 1 <= i_nlink (inode_at s' ip))) s;
  r_iunlock : forall s V ip, rrep s V -> rlk V = ∅ -> 1 <= refs V ip -> ip ∈ lkd V ->
    goes (iunlock ip) (fun _ s' => rrep s' (v_unlock ip V)) s;
  r_iput : forall s V ip, rrep s V -> busy V -> 1 <= refs V ip -> ip ∉ lkd V ->
    goes (iput ip) (fun _ s' => rrep s' (v_put ip V)) s;
  r_iupdate : forall s V ip, rrep s V -> busy V -> ip ∈ lkd V -> goes (iupdate ip) (fun _ s' => rrep s' V) s;
  r_itrunc : forall s V ip, rrep s V -> busy V -> ip ∈ lkd V -> goes (itrunc ip) (fun _ s' => rrep s' (v_trunc V)) s;
  r_stati : forall s V ip, rrep s V -> rlk V = ∅ -> ip ∈ lkd V -> goes (stati ip) (fun _ s' => rrep s' V) s;
  r_readi : forall s V ip u a off n, rrep s V -> rlk V = ∅ -> ip ∈ lkd V ->
    goes (readi ip u a off n) (fun r s' => (0 <= n -> r <= n) /\ rrep s' V /\ inode_at s' ip = inode_at s ip /\
      (u = false -> 0 <= off -> 0 <= n -> off + n <= i_size (inode_at s ip) -> r = n)) s;
  r_writei : forall s V ip u a off n, rrep s V -> busy V -> ip ∈ lkd V -> 0 <= n <= max_write ->
    goes (writei ip u a off n) (fun r s' => r <= n /\ rrep s' V /\
      (u = false -> (ip, off) ∈ ents V -> n = sizeof_dirent -> r = n)) s;
  (* a directory is made of whole entries *)
  r_dirsize : forall s V ip, rrep s V -> ip ∈ lkd V -> i_type (inode_at s ip) = T_DIR ->
    i_size (inode_at s ip) mod sizeof_dirent = 0 /\ 0 <= i_size (inode_at s ip);
  r_pipeclose : forall s V a w, rrep s V -> rlk V = ∅ -> goes (pipeclose a w) (fun _ s' => rrep s' V) s;
  r_piperead : forall s V p a n, rrep s V -> rlk V = ∅ -> goes (piperead p a n) (fun _ s' => rrep s' V) s;
  r_pipewrite : forall s V p a n, rrep s V -> rlk V = ∅ -> goes (pipewrite p a n) (fun _ s' => rrep s' V) s;
  r_devread : forall s V mj op a n, rrep s V -> rlk V = ∅ -> devread mj = Some op -> goes (op a n) (fun _ s' => rrep s' V) s;
  r_devwrite : forall s V mj op a n, rrep s V -> rlk V = ∅ -> devwrite mj = Some op -> goes (op a n) (fun _ s' => rrep s' V) s;
  r_kalloc : forall s V, rrep s V -> rlk V = ∅ -> goes kalloc (fun _ s' => rrep s' V) s;
  r_kfree : forall s V a, rrep s V -> rlk V = ∅ -> a <> 0 -> goes (kfree a) (fun _ s' => rrep s' V) s;
  r_copyout_int : forall s V a x, rrep s V -> rlk V = ∅ -> goes (copyout_int a x) (fun _ s' => rrep s' V) s;
  r_copyout_stat : forall s V a x, rrep s V -> rlk V = ∅ -> goes (copyout_stat a x) (fun _ s' => rrep s' V) s;
  r_copyinstr : forall s V b a max, rrep s V -> rlk V = ∅ -> 0 <= max ->
    goes (copyinstr b a max) (fun r s' => rrep s' V /\
      (0 <= r -> exists n, strlen (Z.to_nat max + 1) (kmem s') b = Some n)) s;
  r_copyin8 : forall s V a, rrep s V -> rlk V = ∅ -> goes (copyin8 a) (fun _ s' => rrep s' V) s;
  r_exec : forall s V p av, rrep s V -> inop V = false -> rlk V = ∅ -> lkd V = ∅ -> goes (exec p av) (fun _ s' => rrep s' V) s;
  r_set_tf : forall s V i x, rrep s V -> rrep (set_tf_a i x s) V;
}.

(** ** Counting *)

Fixpoint occ (x : Z) (l : list Z) : Z :=
  match l with [] => 0 | y :: r => Z.b2z (x =? y) + occ x r end.

Lemma occ_nonneg x l : 0 <= occ x l.
Proof. induction l as [|y l IH]; cbn; [lia|]. destruct (x =? y); cbn; lia. Qed.

Lemma occ_insert x l i y z : l !! i = Some y -> occ x (<[i := z]> l) = occ x l - Z.b2z (x =? y) + Z.b2z (x =? z).
Proof.
  revert i. induction l as [|w l IH]; intros [|i] Hi; try done.
  - cbn in *. simplify_eq. lia.
  - change (<[Datatypes.S i := z]> (w :: l)) with (w :: <[i := z]> l). cbn [occ]. rewrite (IH i Hi). lia.
Qed.

Lemma occ_pos x l i : l !! i = Some x -> 1 <= occ x l.
Proof.
  revert i. induction l as [|y l IH]; intros [|i] Hi; cbn in *; [done..| |].
  - simplify_eq. rewrite Z.eqb_refl. pose proof (occ_nonneg x l). cbn. lia.
  - pose proof (IH i Hi). destruct (x =? y); cbn; lia.
Qed.

Lemma occ_length x l : occ x l <= Z.of_nat (length l).
Proof. induction l as [|y l IH]; cbn; [lia|]. destruct (x =? y); cbn; lia. Qed.

(** The files that hold a reference to [ip]. *)
Definition has_ip (ty : ftype) : bool := match ty with FD_INODE | FD_DEVICE => true | _ => false end.
Definition holds (x : file) (ip : Z) : bool := (0 <? f_ref x) && has_ip (f_type x) && (f_ip x =? ip).
Fixpoint refs_upto (n : nat) (T : gmap Z file) (ip : Z) : Z :=
  match n with
  | O => 0
  | Datatypes.S k => refs_upto k T ip + Z.b2z (holds (default file0 (T !! Z.of_nat n)) ip)
  end.
Definition file_refs (T : gmap Z file) (ip : Z) : Z := refs_upto (Z.to_nat NFILE) T ip.

Lemma refs_upto_insert n T f x ip : 1 <= f ->
  refs_upto n (<[f := x]> T) ip = refs_upto n T ip +
    (if decide (f <= Z.of_nat n) then Z.b2z (holds x ip) - Z.b2z (holds (default file0 (T !! f)) ip) else 0).
Proof.
  intros Hf. induction n as [|n IH]; cbn [refs_upto].
  - rewrite decide_False by lia. lia.
  - rewrite IH, lookup_insert. destruct (decide (f = Z.of_nat (Datatypes.S n))) as [->|Hne].
    + rewrite decide_False, decide_True by lia. cbn. lia.
    + destruct (decide (f <= Z.of_nat n)); [rewrite decide_True by lia|rewrite decide_False by lia]; lia.
Qed.

Lemma file_refs_insert T f x ip : 1 <= f <= NFILE ->
  file_refs (<[f := x]> T) ip = file_refs T ip + Z.b2z (holds x ip) - Z.b2z (holds (default file0 (T !! f)) ip).
Proof. intros Hf. unfold file_refs. rewrite refs_upto_insert, decide_True by (unfold NFILE in *; lia). lia. Qed.

Lemma refs_upto_nonneg n T ip : 0 <= refs_upto n T ip.
Proof. induction n as [|n IH]; cbn [refs_upto]; [lia|]. destruct (holds _ _); cbn [Z.b2z]; lia. Qed.

Lemma file_refs_nonneg T ip : 0 <= file_refs T ip.
Proof. apply refs_upto_nonneg. Qed.

#[local] Opaque file_refs.

Lemma file_refs_pos T f ip : 1 <= f <= NFILE -> holds (default file0 (T !! f)) ip = true -> 1 <= file_refs T ip.
Proof.
  intros Hf Hh. pose proof (file_refs_insert T f file0 ip Hf) as E. rewrite Hh in E.
  pose proof (file_refs_nonneg (<[f := file0]> T) ip).
  change (Z.b2z (holds file0 ip)) with 0 in E. cbn [Z.b2z] in E. lia.
Qed.

(** ** The file table *)

Section refs.
Context {S : Type} {dot dotdot : Z} `{RO : RefOk S dot dotdot}.
Implicit Types (V : rview) (T : gmap Z file) (t : filest S) (s : sysst S).

Definition tfile T (f : Z) : file := default file0 (T !! f).

Record frep t V T : Prop := { fp_env : rrep (fenv t) V; fp_tab : ftable t = T }.

Lemma v_rlk_id V : rlk V = ∅ -> v_rlk (({[FTABLE_LOCK]} ∪ rlk V) ∖ {[FTABLE_LOCK]}) (v_rlk ({[FTABLE_LOCK]} ∪ rlk V) V) = V.
Proof. intros E. unfold v_rlk. destruct V. cbn in *. f_equal. set_solver. Qed.

(** Code between [acquire(&ftable.lock)] and [release(&ftable.lock)]. *)
Lemma fl_acquire t V T (Q : unit -> filest S -> Prop) : frep t V T -> rlk V = ∅ ->
  (forall t', frep t' (v_rlk ({[FTABLE_LOCK]} ∪ rlk V) V) T -> Q tt t') -> goes (acquire FTABLE_LOCK) Q t.
Proof.
  intros [R1 R2] Hl HQ. pose proof (r_locks _ _ R1) as E. apply goes_acquire.
  - cbn. rewrite E, Hl. set_solver.
  - apply HQ. split; [|done]. cbn. rewrite E. by apply r_set_held.
Qed.

Lemma fl_release t V T (Q : unit -> filest S -> Prop) : rlk V = ∅ ->
  frep t (v_rlk ({[FTABLE_LOCK]} ∪ rlk V) V) T -> (forall t', frep t' V T -> Q tt t') -> goes (release FTABLE_LOCK) Q t.
Proof.
  intros Hl [R1 R2] HQ. pose proof (r_locks _ _ R1) as E. cbn in E. apply goes_release.
  - cbn. rewrite E. set_solver.
  - apply HQ. split; [|done]. cbn. rewrite E. apply (r_set_held _ _ (({[FTABLE_LOCK]} ∪ rlk V) ∖ {[FTABLE_LOCK]})) in R1.
    by rewrite v_rlk_id in R1.
Qed.

Lemma fl_get {A} t V T f (g : file -> A) (Q : A -> filest S -> Prop) : frep t V T -> Q (g (tfile T f)) t -> goes (fget f g) Q t.
Proof. intros [_ <-] HQ. by apply goes_gets. Qed.

Lemma fl_upd t V T f g (Q : unit -> filest S -> Prop) : frep t V T ->
  (forall t', frep t' V (<[f := g (tfile T f)]> T) -> Q tt t') -> goes (upd_file f g) Q t.
Proof. intros [R1 <-] HQ. apply goes_modify, HQ. by split. Qed.

Lemma fl_env {A} (m : M S A) t V T (Q : A -> filest S -> Prop) : frep t V T ->
  goes m (fun a e => exists V', rrep e V' /\ forall t', fenv t' = e -> frep t' V' T -> Q a t') (fenv t) -> goes (flift m) Q t.
Proof.
  intros [R1 R2] Hm. apply goes_zoom. eapply goes_mono; [exact Hm|]. cbn beta. intros a e (V' & R' & HQ).
  by apply HQ; [|split].
Qed.

(** An operation after which the references, locks and transaction are as before. *)
Lemma fl_keep {A} (m : M S A) t V T (Q : A -> filest S -> Prop) : frep t V T -> goes m (fun _ e => rrep e V) (fenv t) ->
  (forall a t', frep t' V T -> Q a t') -> goes (flift m) Q t.
Proof.
  intros R Hm HQ. apply (fl_env m t V T Q R). eapply goes_mono; [exact Hm|]. cbn beta. intros a e R'. exists V. eauto.
Qed.

Lemma find_free_spec n T f : 1 <= f ->
  find_free n T f = 0 \/ (f <= find_free n T f < f + Z.of_nat n /\ f_ref (tfile T (find_free n T f)) = 0).
Proof.
  revert f. induction n as [|n IH]; intros f Hf; cbn [find_free]; [by left|].
  destruct (Z.eqb_spec (f_ref (default file0 (T !! f))) 0) as [E|E].
  - right. split; [lia|done].
  - destruct (IH (f + 1) ltac:(lia)) as [?|[? ?]]; [by left|right]. split; [lia|done].
Qed.

Lemma filealloc_ok t V T : frep t V T -> rlk V = ∅ ->
  goes filealloc (fun f t' => (f = 0 /\ frep t' V T) \/
    (1 <= f <= NFILE /\ f_ref (tfile T f) = 0 /\ frep t' V (<[f := set_f_ref 1 (tfile T f)]> T))) t.
Proof.
  intros R Hl. unfold filealloc. apply goes_bind, (fl_acquire t V T _ R Hl). intros t1 R1.
  apply goes_bind, goes_gets. rewrite (fp_tab _ _ _ R1). set (f := find_free _ _ _).
  destruct (find_free_spec (Z.to_nat NFILE) T 1 ltac:(done)) as [E|[Hf E]]; fold f in E; [|fold f in Hf].
  - rewrite E. cbn [Z.eqb]. apply goes_bind, (fl_release t1 V T _ Hl R1). intros t2 R2. apply goes_ret. by left.
  - assert (1 <= f <= NFILE) as Hf' by (unfold NFILE in *; lia).
    destruct (Z.eqb_spec f 0); [lia|]. apply goes_bind, (fl_upd _ _ _ _ _ _ R1). intros t2 R2.
    apply goes_bind, (fl_release _ V _ _ Hl R2). intros t3 R3. apply goes_ret. by right.
Qed.

Lemma filedup_ok t V T f : frep t V T -> rlk V = ∅ -> 1 <= f_ref (tfile T f) < 2 ^ 31 - 1 ->
  goes (filedup f) (fun r t' => r = f /\ frep t' V (<[f := set_f_ref (f_ref (tfile T f) + 1) (tfile T f)]> T)) t.
Proof.
  intros R Hl Hr. unfold filedup. apply goes_bind, (fl_acquire t V T _ R Hl). intros t1 R1.
  apply goes_bind, (fl_get _ _ _ _ _ _ R1). destruct (Z.ltb_spec (f_ref (tfile T f)) 1); [lia|].
  apply goes_bind, (fl_upd _ _ _ _ _ _ R1). intros t2 R2. rewrite i32_id in R2 by lia.
  apply goes_bind, (fl_release _ V _ _ Hl R2). intros t3 R3. by apply goes_ret.
Qed.

(** The table after [fileclose]. *)
Definition t_close (f : Z) T : gmap Z file :=
  let x := tfile T f in
  <[f := if 1 <? f_ref x then set_f_ref (f_ref x - 1) x else set_f_type FD_NONE (set_f_ref 0 x)]> T.

(** The same locks and transaction. *)
Definition like V V' : Prop := lkd V' = lkd V /\ inop V' = inop V /\ rlk V' = rlk V.

(** An inode's reference goes with the last reference to its file. *)
Definition closable V T (f : Z) : Prop :=
  forall ip, holds (tfile T f) ip = true -> 1 <= refs V ip /\ (f_ref (tfile T f) = 1 -> inop V = false /\ lkd V = ∅).

Lemma holds_ip x : 0 < f_ref x -> f_type x = FD_INODE \/ f_type x = FD_DEVICE -> holds x (f_ip x) = true.
Proof. intros Hr Ht. unfold holds. rewrite Z.eqb_refl, (proj2 (Z.ltb_lt _ _) Hr). destruct Ht as [-> | ->]; done. Qed.

(** [begin_op(); iput(ip); end_op();] *)
Lemma put_op_ok t V T ip : frep t V T -> rlk V = ∅ -> inop V = false -> lkd V = ∅ -> 1 <= refs V ip ->
  goes (flift begin_op;; flift (iput ip);; flift end_op) (fun _ t' => frep t' (v_op false (v_put ip (v_op true V))) T) t.
Proof.
  intros R Hl Ho Hk Hr. apply goes_bind, (fl_env _ _ _ _ _ R). eapply goes_mono; [by apply (r_begin_op _ V); [apply R|..]|].
  cbn beta. intros _ e Re. exists (v_op true V). split; [done|]. intros t1 <- R1.
  apply goes_bind, (fl_env _ _ _ _ _ R1). eapply goes_mono; [apply (r_iput _ (v_op true V)); [apply R1|done|done|cbn; rewrite Hk; set_solver]|].
  cbn beta. intros _ e2 Re2. exists (v_put ip (v_op true V)). split; [done|]. intros t2 <- R2.
  apply (fl_env _ _ _ _ _ R2). eapply goes_mono; [apply (r_end_op _ (v_put ip (v_op true V))); [apply R2|done|done]|].
  cbn beta. eauto.
Qed.

Lemma fileclose_ok t V T f : frep t V T -> rlk V = ∅ -> 1 <= f <= NFILE -> 1 <= f_ref (tfile T f) -> closable V T f ->
  goes (fileclose f) (fun _ t' => exists V', frep t' V' (t_close f T) /\ like V V' /\
    forall x, refs V' x = refs V x - file_refs T x + file_refs (t_close f T) x) t.
Proof.
  intros R Hl Hf Hr Hc. unfold fileclose. apply goes_bind, (fl_acquire t V T _ R Hl). intros t1 R1.
  apply goes_bind, (fl_get _ _ _ _ _ _ R1). destruct (Z.ltb_spec (f_ref (tfile T f)) 1) as [|_]; [lia|].
  apply goes_bind, (fl_upd _ _ _ _ _ _ R1). intros t2 R2. apply goes_bind, (fl_get _ _ _ _ _ _ R2).
  set (x := tfile T f) in *. set (T1 := <[f := set_f_ref (f_ref x - 1) x]> T) in *.
  assert (tfile T1 f = set_f_ref (f_ref x - 1) x) as E1 by (unfold tfile, T1; by rewrite lookup_insert_eq).
  assert (forall y, file_refs (t_close f T) y = file_refs T y + Z.b2z (holds (if 1 <? f_ref x then set_f_ref (f_ref x - 1) x
    else set_f_type FD_NONE (set_f_ref 0 x)) y) - Z.b2z (holds x y)) as Efr.
  { intros y. unfold t_close. fold x. by rewrite file_refs_insert. }
  rewrite E1. cbn [f_ref set_f_ref]. destruct (Z.ltb_spec 0 (f_ref x - 1)) as [Hpos|Hz].
  - assert (t_close f T = T1) as Et by (unfold t_close; fold x; destruct (Z.ltb_spec 1 (f_ref x)); [done|lia]).
    apply (fl_release _ V _ _ Hl R2). intros t3 R3. exists V. rewrite Et. split; [done|]. split; [done|].
    intros y. rewrite <- Et, Efr. destruct (Z.ltb_spec 1 (f_ref x)); [|lia].
    assert (holds (set_f_ref (f_ref x - 1) x) y = holds x y) as ->; [|lia].
    unfold holds. cbn [f_ref f_type f_ip set_f_ref]. by destruct (Z.ltb_spec 0 (f_ref x - 1)), (Z.ltb_spec 0 (f_ref x)); try lia.
  - assert (f_ref x = 1) as Er by lia.
    apply goes_bind, (fl_get _ _ _ _ _ _ R2). rewrite E1. apply goes_bind, (fl_upd _ _ _ _ _ _ R2). intros t3 R3.
    apply goes_bind, (fl_upd _ _ _ _ _ _ R3). intros t4 R4. rewrite E1 in R4.
    assert (frep t4 (v_rlk ({[FTABLE_LOCK]} ∪ rlk V) V) (t_close f T)) as R4'.
    { destruct R4 as [R4a R4b]. split; [done|]. rewrite R4b. unfold T1, tfile. rewrite lookup_insert_eq, !insert_insert_eq.
      unfold t_close. fold x. by rewrite Er. }
    apply goes_bind, (fl_release _ V _ _ Hl R4'). intros t5 R5.
    rewrite Er in Efr. cbn [Z.ltb Z.compare Pos.compare Pos.compare_cont] in Efr.
    assert (forall y, holds (set_f_type FD_NONE (set_f_ref 0 x)) y = false) as Hno by done.
    assert (f_type x = FD_INODE \/ f_type x = FD_DEVICE ->
      goes (flift begin_op;; flift (iput (f_ip x));; flift end_op) (fun _ t' => exists V', frep t' V' (t_close f T) /\ like V V' /\
        forall y, refs V' y = refs V y - file_refs T y + file_refs (t_close f T) y) t5) as Hput.
    { intros Ht. destruct (Hc (f_ip x)) as [H1 H2]; [by apply holds_ip; [fold x; lia|]|]. destruct (H2 Er) as [Ho Hk].
      eapply goes_mono; [by apply (put_op_ok _ _ _ _ R5)|]. cbn beta. intros _ t' R'.
      eexists. split; [exact R'|]. split; [by split; [|split]|]. intros y. rewrite Efr, Hno. cbn [refs v_op v_put v_refs Z.b2z].
      unfold holds. rewrite Er, (Z.eqb_sym y). destruct Ht as [-> | ->]; cbn; destruct (f_ip x =? y); cbn; lia. }
    cbn [f_type set_f_ref f_ip f_pipe]. destruct (f_type x) eqn:Et; [| |by apply Hput; left|by apply Hput; right].
    + apply goes_ret. exists V. split; [done|]. split; [done|]. intros y. rewrite Efr, Hno. unfold holds. rewrite Er, Et. cbn. lia.
    + eapply (fl_keep _ _ _ _ _ R5); [by apply r_pipeclose; [apply R5|]|]. intros _ t6 R6.
      exists V. split; [done|]. split; [done|]. intros y. rewrite Efr, Hno. unfold holds. rewrite Er, Et. cbn. lia.
Qed.

(** ** Reading and writing *)

(** The tables differ in file offsets only. *)
Definition moved T T' : Prop := forall f, set_f_off 0 (tfile T' f) = set_f_off 0 (tfile T f).

Lemma moved_trans T1 T2 T3 : moved T1 T2 -> moved T2 T3 -> moved T1 T3.
Proof. intros H1 H2 f. by rewrite H2. Qed.

Lemma moved_off T f o : moved T (<[f := set_f_off o (tfile T f)]> T).
Proof. intros g. unfold tfile. rewrite lookup_insert. case_decide; [by subst|done]. Qed.

Lemma moved_ref T T' f : moved T T' -> f_ref (tfile T' f) = f_ref (tfile T f) /\ f_type (tfile T' f) = f_type (tfile T f) /\
  f_ip (tfile T' f) = f_ip (tfile T f).
Proof. intros Hm. specialize (Hm f). injection Hm. auto. Qed.

Lemma moved_refs T T' ip : moved T T' -> file_refs T' ip = file_refs T ip.
Proof.
  Transparent file_refs. intros Hm. unfold file_refs. generalize (Z.to_nat NFILE). intros n.
  induction n as [|n IH]; cbn [refs_upto]; [done|]. rewrite IH. do 2 f_equal.
  destruct (moved_ref _ _ (Z.of_nat (Datatypes.S n)) Hm) as (E1 & E2 & E3). unfold tfile in *. unfold holds. by rewrite E1, E2, E3.
Qed.
#[local] Opaque file_refs.

Definition covered V T : Prop := forall ip, file_refs T ip <= refs V ip.

Lemma covered_ip V T f : covered V T -> 1 <= f <= NFILE -> 1 <= f_ref (tfile T f) -> has_ip (f_type (tfile T f)) = true ->
  1 <= refs V (f_ip (tfile T f)).
Proof.
  intros Hc Hf Hr Ht. assert (1 <= file_refs T (f_ip (tfile T f))); [|pose proof (Hc (f_ip (tfile T f))); lia].
  apply (file_refs_pos T f); [done|]. apply holds_ip; [unfold tfile in *; lia|]. unfold tfile in *.
  destruct (f_type _); try done; auto.
Qed.

Lemma advance_ok t V T f r : frep t V T -> goes (advance f r) (fun _ t' => exists T', frep t' V T' /\ moved T T') t.
Proof.
  intros R. apply goes_when; intros _; [|by exists T].
  apply (fl_upd _ _ _ _ _ _ R). intros t' R'. eexists. split; [exact R'|]. apply moved_off.
Qed.

(** Nothing is locked, and nothing known that needs a lock. *)
Definition unlocked V : Prop := lkd V = ∅ /\ linked V = ∅ /\ ents V = ∅.

Lemma v_unlock_lock V ip : unlocked V -> v_unlock ip (v_lock ip V) = V.
Proof.
  intros (E1 & E2 & E3). destruct V. unfold v_unlock, v_lock. cbn in *. subst. f_equal; set_solver.
Qed.

Lemma fl_ilock t V T ip (Q : unit -> filest S -> Prop) : frep t V T -> rlk V = ∅ -> 1 <= refs V ip -> ip ∉ lkd V ->
  (forall t', frep t' (v_lock ip V) T -> Q tt t') -> goes (flift (ilock ip)) Q t.
Proof.
  intros R Hl Hr Hk HQ. apply (fl_env _ _ _ _ _ R). eapply goes_mono; [by apply (r_ilock _ V); [apply R|..]|].
  cbn beta. intros [] e [Re _]. exists (v_lock ip V). eauto.
Qed.

Lemma fl_iunlock t V T ip (Q : unit -> filest S -> Prop) : unlocked V -> frep t (v_lock ip V) T -> rlk V = ∅ -> 1 <= refs V ip ->
  (forall t', frep t' V T -> Q tt t') -> goes (flift (iunlock ip)) Q t.
Proof.
  intros Hk R Hl Hr HQ. apply (fl_env _ _ _ _ _ R). eapply goes_mono; [apply (r_iunlock _ (v_lock ip V)); [apply R|done|done|cbn; set_solver]|].
  cbn beta. intros [] e Re. rewrite v_unlock_lock in Re by done. exists V. eauto.
Qed.

Lemma filestat_ok t V T f addr : frep t V T -> rlk V = ∅ -> unlocked V -> covered V T -> 1 <= f <= NFILE -> 1 <= f_ref (tfile T f) ->
  goes (filestat f addr) (fun _ t' => frep t' V T) t.
Proof.
  intros R Hl Hk Hc Hf Hr. unfold filestat. apply goes_bind, (fl_get _ _ _ _ _ _ R). set (x := tfile T f).
  assert (has_ip (f_type x) = true ->
    goes (flift (ilock (f_ip x));; st ← flift (stati (f_ip x)); flift (iunlock (f_ip x));;
        r ← flift (copyout_stat addr st); mret (if r <? 0 then -1 else 0)) (fun _ t' => frep t' V T) t) as Hdo.
  { intros Ht. pose proof (covered_ip V T f Hc Hf Hr Ht) as Hi. fold x in Hi.
    apply goes_bind, (fl_ilock _ _ _ _ _ R); [done..|destruct Hk as (-> & _); set_solver|]. intros t1 R1.
    apply goes_bind. eapply (fl_keep _ _ _ _ _ R1); [apply r_stati; [apply R1|done|cbn; set_solver]|]. intros st t2 R2.
    apply goes_bind, (fl_iunlock _ _ _ _ _ Hk R2 Hl Hi). intros t3 R3.
    apply goes_bind. eapply (fl_keep _ _ _ _ _ R3); [by apply r_copyout_stat; [apply R3|]|]. intros r t4 R4. by apply goes_ret. }
  destruct (f_type x) eqn:Et; [by apply goes_ret..|by apply Hdo|by apply Hdo].
Qed.

Lemma fileread_ok t V T f addr n : frep t V T -> rlk V = ∅ -> unlocked V -> covered V T -> 1 <= f <= NFILE -> 1 <= f_ref (tfile T f) ->
  f_type (tfile T f) <> FD_NONE ->
  goes (fileread f addr n) (fun _ t' => exists T', frep t' V T' /\ moved T T') t.
Proof.
  intros R Hl Hk Hc Hf Hr Hty. unfold fileread. apply goes_bind, (fl_get _ _ _ _ _ _ R). set (x := tfile T f) in *.
  destruct (readable x); cbn [negb]; [|apply goes_ret; by exists T].
  destruct (f_type x) eqn:Et; [done| | |].
  - eapply (fl_keep _ _ _ _ _ R); [by apply r_piperead; [apply R|]|]. intros _ t1 R1. by exists T.
  - assert (1 <= refs V (f_ip x)) as Hi by (apply (covered_ip V T f); [done..|]; fold x; by rewrite Et).
    apply goes_bind, (fl_ilock _ _ _ _ _ R); [done..|destruct Hk as (-> & _); set_solver|]. intros t1 R1.
    apply goes_bind, (fl_get _ _ _ _ _ _ R1). apply goes_bind.
    eapply (fl_keep _ _ _ _ _ R1); [eapply goes_mono; [apply (r_readi _ (v_lock (f_ip x) V)); [apply R1|done|cbn; set_solver]|by intros ? ? (_ & ? & _)]|].
    intros r t2 R2. apply goes_bind. eapply goes_mono; [by apply (advance_ok _ _ _ _ r R2)|]. cbn beta. intros _ t3 (T' & R3 & Hm).
    apply goes_bind, (fl_iunlock _ _ _ _ _ Hk R3 Hl Hi). intros t4 R4. apply goes_ret. eauto.
  - destruct (dev_op devread (f_major x)) as [op|] eqn:Eo; [|apply goes_ret; by exists T].
    unfold dev_op in Eo. destruct (_ || _); [done|].
    eapply (fl_keep _ _ _ _ _ R); [by eapply r_devread; [apply R|..]|]. intros _ t1 R1. by exists T.
Qed.

(** One turn of the loop of [filewrite]: a transaction of its own. *)
Lemma filewrite_turn t V T f addr n i : frep t V T -> rlk V = ∅ -> unlocked V -> inop V = false -> 1 <= refs V (f_ip (tfile T f)) ->
  i < n ->
  let n1 := if max_write <? n - i then max_write else n - i in
  goes (flift begin_op;; flift (ilock (f_ip (tfile T f)));;
      off ← fget f f_off;
      r ← flift (writei (f_ip (tfile T f)) true (u64 (addr + i)) off n1);
      advance f r;; flift (iunlock (f_ip (tfile T f)));; flift end_op;;
      mret (if negb (r =? n1) then inr i else inl (i + r)))
    (fun r t' => (exists T', frep t' V T' /\ moved T T') /\
      match r with inl j => i < j <= n | inr j => j = i end) t.
Proof.
  intros R Hl Hk Ho Hi Hlt n1. set (ip := f_ip (tfile T f)) in *. assert (0 < n1 <= max_write /\ i + n1 <= n) as Hn1.
  { unfold n1. assert (max_write = 3072) as -> by done. destruct (Z.ltb_spec 3072 (n - i)); lia. }
  apply goes_bind, (fl_env _ _ _ _ _ R). eapply goes_mono; [by apply (r_begin_op _ V); [apply R|..|apply Hk]|].
  cbn beta. intros _ e Re. exists (v_op true V). split; [done|]. intros t1 <- R1.
  apply goes_bind, (fl_ilock _ _ _ _ _ R1); [done|done|cbn; destruct Hk as (-> & _); set_solver|]. intros t2 R2.
  apply goes_bind, (fl_get _ _ _ _ _ _ R2). apply goes_bind.
  eapply (fl_keep _ _ _ _ _ R2); [eapply goes_mono; [apply (r_writei _ (v_lock ip (v_op true V))); [apply R2|done|cbn; set_solver|lia]|by intros ? ? (_ & ? & _)]|].
  intros r t3 R3. apply goes_bind. eapply goes_mono; [by apply (advance_ok _ _ _ _ r R3)|]. cbn beta. intros _ t4 (T' & R4 & Hm).
  apply goes_bind, (fl_iunlock _ (v_op true V) _ _ _ Hk R4 Hl Hi). intros t5 R5.
  apply goes_bind, (fl_env _ _ _ _ _ R5). eapply goes_mono; [by apply (r_end_op _ (v_op true V)); [apply R5|..|apply Hk]|].
  cbn beta. intros _ e6 Re6. exists V. assert (v_op false (v_op true V) = V) as E by (destruct V; cbn in *; by rewrite Ho).
  rewrite E in Re6. split; [done|]. intros t6 <- R6. apply goes_ret. split; [by exists T'|].
  destruct (Z.eqb_spec r n1); cbn [negb]; [lia|done].
Qed.

Lemma filewrite_ok t V T f addr n : frep t V T -> rlk V = ∅ -> unlocked V -> inop V = false -> covered V T -> 1 <= f <= NFILE ->
  1 <= f_ref (tfile T f) -> f_type (tfile T f) <> FD_NONE ->
  goes (filewrite f addr n) (fun _ t' => exists T', frep t' V T' /\ moved T T') t.
Proof.
  intros R Hl Hk Ho Hc Hf Hr Hty. unfold filewrite. apply goes_bind, (fl_get _ _ _ _ _ _ R). set (x := tfile T f) in *.
  destruct (writable x); cbn [negb]; [|apply goes_ret; by exists T].
  destruct (f_type x) eqn:Et; [done| | |].
  - eapply (fl_keep _ _ _ _ _ R); [by apply r_pipewrite; [apply R|]|]. intros _ t1 R1. by exists T.
  - assert (1 <= refs V (f_ip x)) as Hi by (apply (covered_ip V T f); [done..|]; fold x; by rewrite Et).
    apply goes_bind. eapply goes_mono.
    + apply (goes_loop _ (fun i t1 => exists T', frep t1 V T' /\ moved T T') (fun i _ => Z.to_nat (n - i))
        (fun _ t1 => exists T', frep t1 V T' /\ moved T T')).
      2:{ by exists T. } 2:{ lia. }
      intros i t1 (T1 & R1 & M1). destruct (Z.ltb_spec i n); cbn [negb]; [|apply goes_ret; eauto].
      destruct (moved_ref _ _ f M1) as (_ & _ & Eip). fold x in Eip. rewrite <- Eip in Hi |- *.
      eapply goes_mono; [by apply (filewrite_turn _ V T1)|]. cbn beta.
      intros [j|j] t2 ((T2 & R2 & M2) & Hj); [split; [|lia]|]; exists T2; split; try done; by eapply moved_trans.
    + cbn beta. intros i t1 Ht. by apply goes_ret.
  - destruct (dev_op devwrite (f_major x)) as [op|] eqn:Eo; [|apply goes_ret; by exists T].
    unfold dev_op in Eo. destruct (_ || _); [done|].
    eapply (fl_keep _ _ _ _ _ R); [by eapply r_devwrite; [apply R|..]|]. intros _ t1 R1. by exists T.
Qed.

(** ** The invariant of the file table

    [O]: the open files; [P]: references to files in local variables; [U]: references to
    files whose type is not set yet; [B]: the references to inodes that are not a
    file's; [extf]: the references to files held by other processes. *)

Context (extf : Z -> Z) (Hextf : forall f, 0 <= extf f < 2 ^ 30).

Definition untyped (x : file) : Z := match f_type x with FD_NONE => f_ref x | _ => 0 end.

Record gd (O P U : list Z) (B : Z -> Z) V T : Prop := {
  fo_len : length O = Z.to_nat NOFILE;
  fo_in : forall i f, O !! i = Some f -> 0 <= f <= NFILE;
  fo_ref : forall f, 1 <= f <= NFILE -> f_ref (tfile T f) = occ f O + occ f P + extf f;
  fo_typ : forall f, 1 <= f <= NFILE -> untyped (tfile T f) = occ f U;
  fo_none : forall f, 1 <= f <= NFILE -> f_ref (tfile T f) = 0 -> f_type (tfile T f) = FD_NONE;
  fo_bal : forall ip, refs V ip = file_refs T ip + B ip;
  fo_free : forall ip, 0 <= B ip;
}.

Lemma tfile_insert T f x g : tfile (<[f := x]> T) g = if decide (f = g) then x else tfile T g.
Proof. unfold tfile. rewrite lookup_insert. by case_decide. Qed.

Lemma gd_covered O P U B V T : gd O P U B V T -> covered V T.
Proof. intros G ip. rewrite (fo_bal _ _ _ _ _ _ G). pose proof (fo_free _ _ _ _ _ _ G ip). lia. Qed.

(** One entry of the table changes. *)
Lemma gd_upd O P U P' U' B V V' T f x : gd O P U B V T -> 1 <= f <= NFILE ->
  f_ref x = occ f O + occ f P' + extf f -> untyped x = occ f U' -> (f_ref x = 0 -> f_type x = FD_NONE) ->
  (forall g, g <> f -> occ g P' = occ g P /\ occ g U' = occ g U) ->
  (forall ip, refs V' ip = refs V ip - file_refs T ip + file_refs (<[f := x]> T) ip) -> gd O P' U' B V' (<[f := x]> T).
Proof.
  intros [G1 G2 G3 G4 G5 G6 G7] Hf H1 H2 H3 H4 H5. split; try done; [intros g Hg; rewrite tfile_insert..|intros ip].
  - case_decide as E; [by subst|]. rewrite G3 by done. destruct (H4 g) as [-> _]; [done|lia].
  - case_decide as E; [by subst|]. rewrite G4 by done. by destruct (H4 g) as [_ ->].
  - case_decide as E; [by subst|]. by apply G5.
  - rewrite H5, G6. lia.
Qed.

Lemma occ_other f g l : g <> f -> occ g (f :: l) = occ g l.
Proof. intros Hn. cbn. by rewrite (proj2 (Z.eqb_neq g f) Hn). Qed.
Lemma occ_self f l : occ f (f :: l) = 1 + occ f l.
Proof. cbn. by rewrite Z.eqb_refl. Qed.

Lemma filealloc_gd t V T O P U B : frep t V T -> rlk V = ∅ -> gd O P U B V T ->
  goes filealloc (fun f t' => (f = 0 /\ frep t' V T) \/
    (1 <= f <= NFILE /\ exists T', frep t' V T' /\ gd O (f :: P) (f :: U) B V T' /\
      f_type (tfile T' f) = FD_NONE /\ occ f O = 0 /\ occ f P = 0 /\ occ f U = 0 /\ forall g, g <> f -> tfile T' g = tfile T g)) t.
Proof.
  intros R Hl G. eapply goes_mono; [by apply filealloc_ok|]. cbn beta. intros f t' [[-> R']|(Hf & Hz & R')]; [by left|right].
  split; [done|]. eexists. split; [exact R'|]. pose proof (fo_none _ _ _ _ _ _ G f Hf Hz) as Hn.
  pose proof (fo_ref _ _ _ _ _ _ G f Hf) as Hr. pose proof (fo_typ _ _ _ _ _ _ G f Hf) as Hu.
  pose proof (occ_nonneg f O). pose proof (occ_nonneg f P). pose proof (Hextf f). unfold untyped in Hu. rewrite Hn in Hu. split.
  - apply (gd_upd O P U (f :: P) (f :: U) B V V T f _ G Hf).
    + cbn [f_ref set_f_ref]. rewrite occ_self. lia.
    + unfold untyped. cbn [f_ref f_type set_f_ref]. rewrite Hn, occ_self. lia.
    + cbn. lia.
    + intros g Hg. by rewrite !occ_other.
    + intros ip. rewrite file_refs_insert by done. unfold holds. fold (tfile T f). cbn [f_ref f_type set_f_ref].
      rewrite Hz, Hn. cbn. lia.
  - rewrite tfile_insert, decide_True by done. repeat (split; [done || lia|]).
    intros g Hg. by rewrite tfile_insert, decide_False.
Qed.

Lemma gd_ref_pos O P U B V T f : gd O (f :: P) U B V T -> 1 <= f <= NFILE -> 1 <= f_ref (tfile T f).
Proof.
  intros G Hf. rewrite (fo_ref _ _ _ _ _ _ G f Hf), occ_self. pose proof (occ_nonneg f O). pose proof (occ_nonneg f P).
  pose proof (Hextf f). lia.
Qed.

(** [U]: [f] itself when its type is not set. *)
Lemma fileclose_gd t V T O P U U' B f : frep t V T -> rlk V = ∅ -> gd O (f :: P) U B V T -> 1 <= f <= NFILE ->
  U = (match f_type (tfile T f) with FD_NONE => f :: U' | _ => U' end) ->
  (has_ip (f_type (tfile T f)) = true -> inop V = false /\ lkd V = ∅) ->
  goes (fileclose f) (fun _ t' => exists V' T', frep t' V' T' /\ like V V' /\ gd O P U' B V' T' /\
    forall g, g <> f -> tfile T' g = tfile T g) t.
Proof.
  intros R Hl G Hf HU Hop. pose proof (gd_ref_pos _ _ _ _ _ _ _ G Hf) as Hr. pose proof (gd_covered _ _ _ _ _ _ G) as Hc.
  eapply goes_mono.
  - apply (fileclose_ok t V T f R Hl Hf Hr). intros ip Hh. unfold holds in Hh. apply andb_true_iff in Hh as [Hh Hip].
    apply andb_true_iff in Hh as [_ Hty]. apply Z.eqb_eq in Hip as <-. split; [by apply covered_ip|auto].
  - cbn beta. intros _ t' (V' & R' & HL & Href). exists V', (t_close f T). split; [done|]. split; [done|].
    pose proof (fo_ref _ _ _ _ _ _ G f Hf) as Er. pose proof (fo_typ _ _ _ _ _ _ G f Hf) as Eu. rewrite occ_self in Er.
    unfold t_close in *. set (x := tfile T f) in *. unfold untyped in Eu.
    split; [|intros g Hg; by rewrite tfile_insert, decide_False].
    apply (gd_upd O (f :: P) U P U' B V V' T f _ G Hf).
    + destruct (Z.ltb_spec 1 (f_ref x)); cbn; lia.
    + unfold untyped. destruct (f_type x) eqn:Et; rewrite HU in Eu; rewrite ?occ_self in Eu;
        destruct (Z.ltb_spec 1 (f_ref x)); cbn; rewrite ?Et; lia.
    + destruct (Z.ltb_spec 1 (f_ref x)); cbn; [lia|done].
    + intros g Hg. rewrite occ_other by done. split; [done|]. rewrite HU. destruct (f_type x); by rewrite ?occ_other.
    + done.
Qed.

Lemma gd_dup V T O P U B f : gd O P U B V T -> 1 <= f <= NFILE -> 1 <= f_ref (tfile T f) -> f_type (tfile T f) <> FD_NONE ->
  gd O (f :: P) U B V (<[f := set_f_ref (f_ref (tfile T f) + 1) (tfile T f)]> T).
Proof.
  intros G Hf Hr Hty. pose proof (fo_ref _ _ _ _ _ _ G f Hf) as Er. pose proof (fo_typ _ _ _ _ _ _ G f Hf) as Eu.
  apply (gd_upd O P U (f :: P) U B V V T f _ G Hf).
  - rewrite occ_self. cbn. lia.
  - rewrite <- Eu. unfold untyped. cbn. by destruct (f_type _).
  - cbn. lia.
  - intros g Hg. by rewrite occ_other.
  - intros ip. rewrite file_refs_insert by done. fold (tfile T f).
    assert (holds (set_f_ref (f_ref (tfile T f) + 1) (tfile T f)) ip = holds (tfile T f) ip) as ->; [|lia].
    unfold holds. cbn [f_ref f_type f_ip set_f_ref]. by rewrite !(proj2 (Z.ltb_lt _ _)) by lia.
Qed.

(** A reference in a local variable becomes that of a free descriptor, and back. *)
Lemma gd_fd V T O P U B f fd : gd O (f :: P) U B V T -> 1 <= f <= NFILE -> O !! fd = Some 0 -> gd (<[fd := f]> O) P U B V T.
Proof.
  intros [G1 G2 G3 G4 G5 G6 G7] Hf Hfd. split; try done.
  - by rewrite length_insert.
  - intros i g Hi. apply list_lookup_insert_Some in Hi as [(-> & <- & _)|[_ Hi]]; [lia|by eapply G2].
  - intros g Hg. rewrite G3, (occ_insert _ _ _ 0) by done. cbn [occ].
    rewrite (proj2 (Z.eqb_neq g 0)) by lia. cbn. lia.
Qed.

Lemma gd_unfd V T O P U B f fd : gd O P U B V T -> 1 <= f <= NFILE -> O !! fd = Some f -> gd (<[fd := 0]> O) (f :: P) U B V T.
Proof.
  intros [G1 G2 G3 G4 G5 G6 G7] Hf Hfd. split; try done.
  - by rewrite length_insert.
  - intros i g Hi. apply list_lookup_insert_Some in Hi as [(-> & <- & _)|[_ Hi]]; [unfold NFILE; lia|by eapply G2].
  - intros g Hg. rewrite G3, (occ_insert _ _ _ f) by done. cbn [occ].
    rewrite (proj2 (Z.eqb_neq g 0)) by lia. cbn. lia.
Qed.

(** An open file. *)
Lemma gd_open V T O B i f : gd O [] [] B V T -> O !! i = Some f -> f <> 0 ->
  1 <= f <= NFILE /\ 1 <= f_ref (tfile T f) < 2 ^ 31 - 1 /\ f_type (tfile T f) <> FD_NONE.
Proof.
  intros G Hi Hz. pose proof (fo_in _ _ _ _ _ _ G i f Hi). assert (1 <= f <= NFILE) as Hf by lia.
  pose proof (fo_ref _ _ _ _ _ _ G f Hf) as Er. pose proof (fo_typ _ _ _ _ _ _ G f Hf) as Eu. pose proof (Hextf f).
  pose proof (occ_pos f O i Hi). pose proof (occ_length f O) as Hlen. rewrite (fo_len _ _ _ _ _ _ G) in Hlen.
  unfold NOFILE in Hlen. cbn [occ] in *. split; [done|]. split; [lia|]. intros E. unfold untyped in Eu. rewrite E in Eu. lia.
Qed.

(** The type of a new file is set; the file may take over a reference to an inode. *)
Lemma gd_typed O P U U' B B' V V' T f x : gd O P U B V T -> 1 <= f <= NFILE -> f_type (tfile T f) = FD_NONE ->
  1 <= occ f U -> occ f U' = 0 -> (forall g, g <> f -> occ g U' = occ g U) ->
  f_type x <> FD_NONE -> f_ref x = f_ref (tfile T f) ->
  (forall ip, refs V' ip = refs V ip) -> (forall ip, B' ip = B ip - Z.b2z (holds x ip)) -> (forall ip, 0 <= B' ip) ->
  gd O P U' B' V' (<[f := x]> T).
Proof.
  intros [G1 G2 G3 G4 G5 G6 G7] Hf Hn Hz Hz' HU Hty Hr HV HB HB0. split; try done.
  - intros g Hg. rewrite tfile_insert. case_decide as E; [subst; by rewrite Hr, G3|by apply G3].
  - intros g Hg. rewrite tfile_insert. case_decide as E.
    + subst. rewrite Hz'. unfold untyped. by destruct (f_type x).
    + rewrite HU by done. by apply G4.
  - intros g Hg. rewrite tfile_insert. case_decide as E; [subst|by apply G5]. rewrite Hr. intros E.
    pose proof (G4 g Hf) as E4. unfold untyped in E4. rewrite Hn in E4. lia.
  - intros ip. rewrite HV, G6, HB, file_refs_insert by done. fold (tfile T f).
    assert (holds (tfile T f) ip = false) as -> by (unfold holds; rewrite Hn; cbn; by rewrite andb_false_r). cbn. lia.
Qed.

Lemma like_trans V1 V2 V3 : like V1 V2 -> like V2 V3 -> like V1 V3.
Proof. unfold like. intros (-> & -> & ->) (-> & -> & ->). done. Qed.

Lemma gd_perm O P P' U U' B V T : gd O P U B V T -> (forall g, occ g P' = occ g P) -> (forall g, occ g U' = occ g U) ->
  gd O P' U' B V T.
Proof. intros [G1 G2 G3 G4 G5 G6 G7] HP HU. split; try done; intros g Hg; rewrite ?HP, ?HU; auto. Qed.

(** A file whose type is not set is closed without further effect. *)
Lemma close_new t V T O P U B f : frep t V T -> rlk V = ∅ -> gd O (f :: P) (f :: U) B V T -> 1 <= f <= NFILE ->
  f_type (tfile T f) = FD_NONE ->
  goes (fileclose f) (fun _ t' => exists V' T', frep t' V' T' /\ like V V' /\ gd O P U B V' T' /\
    forall g, g <> f -> tfile T' g = tfile T g) t.
Proof. intros R Hl G Hf Hn. apply (fileclose_gd t V T O P (f :: U) U); try done; rewrite Hn; done. Qed.

Lemma pipealloc_gd t V T O B : frep t V T -> rlk V = ∅ -> gd O [] [] B V T ->
  goes pipealloc (fun o t' => exists V' T', frep t' V' T' /\ like V V' /\
    match o with
    | None => gd O [] [] B V' T'
    | Some (f0, f1) => gd O [f0; f1] [] B V' T' /\ 1 <= f0 <= NFILE /\ 1 <= f1 <= NFILE /\ f1 <> f0 /\
        f_type (tfile T' f0) = FD_PIPE /\ f_type (tfile T' f1) = FD_PIPE
    end) t.
Proof.
  intros R Hl G. unfold pipealloc. apply goes_bind. eapply goes_mono; [by eapply (filealloc_gd _ _ _ _ _ _ _ R)|].
  cbn beta. intros f0 t1 [[-> R1]|(Hf0 & T1 & R1 & G1 & N1 & _ & _ & _ & _)].
  { cbn. apply goes_ret. by exists V, T. }
  destruct (Z.eqb_spec f0 0); [lia|]. apply goes_bind. eapply goes_mono; [by eapply (filealloc_gd _ _ _ _ _ _ _ R1)|].
  cbn beta. intros f1 t2 [[-> R2]|(Hf1 & T2 & R2 & G2 & N2 & _ & Hp & _ & Ho)].
  { cbn [Z.eqb]. unfold pipealloc_bad. cbn [Z.eqb negb mwhen]. apply goes_bind, goes_ret, goes_bind.
    destruct (Z.eqb_spec f0 0); [lia|]. cbn [negb mwhen]. eapply goes_mono; [by eapply (close_new _ _ _ _ _ _ _ _ R2)|].
    cbn beta. intros _ t3 (V3 & T3 & R3 & L3 & G3 & _). apply goes_bind, goes_ret, goes_ret. eauto. }
  assert (f1 <> f0) as Hne by (intros ->; rewrite occ_self in Hp; cbn in Hp; lia).
  rewrite <- (Ho f0) in N1 by done. destruct (Z.eqb_spec f1 0); [lia|]. apply goes_bind.
  eapply (fl_keep _ _ _ _ _ R2); [by apply r_kalloc; [apply R2|]|]. intros pi t3 R3.
  destruct (Z.eqb_spec pi 0) as [->|Hpi].
  { unfold pipealloc_bad. cbn [Z.eqb negb mwhen]. apply goes_bind, goes_ret, goes_bind.
    destruct (Z.eqb_spec f0 0), (Z.eqb_spec f1 0); try lia. cbn [negb mwhen].
    eapply (gd_perm _ _ [f0; f1] _ [f0; f1]) in G2; [|intros g; cbn; lia..].
    eapply goes_mono; [by eapply (close_new _ _ _ _ _ _ _ _ R3)|]. cbn beta. intros _ t4 (V4 & T4 & R4 & L4 & G4 & Ho4).
    apply goes_bind. eapply goes_mono; [eapply (close_new _ _ _ _ _ _ _ _ R4)|].
    - destruct L4 as (_ & _ & ->). done.
    - done.
    - done.
    - by rewrite Ho4.
    - cbn beta. intros _ t5 (V5 & T5 & R5 & L5 & G5 & _). apply goes_ret. exists V5, T5. split; [done|]. split; [by eapply like_trans|done]. }
  apply goes_bind, goes_modify. cbn beta. destruct R3 as [R3 E3].
  match goal with |- context [mkFl ?e (ftable t3)] => assert (frep (mkFl e (ftable t3)) V T2) as R4 by (split; [by apply r_set_pipe|done]) end.
  match goal with |- context [mkFl ?e (ftable t3)] => revert R4; generalize (mkFl e (ftable t3)) end. intros t4 R4.
  apply goes_bind. unfold initlock. apply goes_modify. cbn beta.
  match goal with |- goes _ _ ?t => assert (frep t V T2) as R5 end.
  { destruct R4 as [R4 E4]. split; [|done]. cbn. rewrite (r_locks _ _ R4), Hl.
    apply (r_set_held _ _ (∅ ∖ {[PIPE_LOCK]})) in R4. assert (v_rlk (∅ ∖ {[PIPE_LOCK]}) V = V) as E; [|by rewrite E in R4].
    destruct V. unfold v_rlk. cbn in *. by rewrite Hl. }
  match goal with |- goes _ _ ?t => revert R5; generalize t end. intros t5 R5.
  apply goes_bind, (fl_upd _ _ _ _ _ _ R5). intros t6 R6. apply goes_bind, (fl_upd _ _ _ _ _ _ R6). intros t7 R7.
  apply goes_ret. eexists V, _. split; [exact R7|]. split; [done|].
  assert (gd O [f1; f0] [] B V (ftable t7)) as G7; [|rewrite (fp_tab _ _ _ R7) in G7].
  { rewrite (fp_tab _ _ _ R7). apply (gd_typed O [f1; f0] [f1] [] B B V V); try done.
    - apply (gd_typed O [f1; f0] [f1; f0] [f1] B B V V); try done.
      + cbn. rewrite Z.eqb_refl. destruct (f0 =? f1); cbn; lia.
      + cbn. by rewrite (proj2 (Z.eqb_neq f0 f1)).
      + intros g Hg. cbn. rewrite (proj2 (Z.eqb_neq g f0)) by done. cbn. lia.
      + intros ip. unfold holds. cbn. rewrite andb_false_r. cbn. lia.
      + by apply (fo_free _ _ _ _ _ _ G).
    - rewrite tfile_insert, decide_False by done. done.
    - cbn. by rewrite Z.eqb_refl.
    - intros g Hg. cbn. by rewrite (proj2 (Z.eqb_neq g f1)).
    - intros ip. unfold holds. cbn. rewrite andb_false_r. cbn. lia.
    - by apply (fo_free _ _ _ _ _ _ G). }
  split; [eapply gd_perm; [exact G7|intros g; cbn; lia|done]|]. do 3 (split; [done|]).
  rewrite !tfile_insert, decide_False, !decide_True by done. done.
Qed.
End refs.
