(* ===== verification/Syscall.v ===== *)
(** * System calls

    [kernel/sysproc.c], and the table and dispatcher of [kernel/syscall.c] with the numbers
    of [syscall.h].  What [sysproc.c] calls in [proc.c] is class [ProcOps]. *)

From Stdlib Require Import ZArith Lia.
From stdpp Require Import base numbers list gmap strings sets.
From S2P Require Import Prelude CString Riscv Spinlock Locks Fs Pipe File Args SysFile.

Class ProcOps (S : Type) := {
  mypid : S -> Z;                  (* myproc()->pid *)
  fork : M S Z;
  exit : Z -> M S unit;
  wait : Z -> M S Z;
  kill : Z -> M S Z;
  growproc : Z -> M S Z;
  killed : M S Z;                  (* killed(myproc()) *)
  ticks : S -> Z;
}.

Definition TICKS_LOCK : Z := 702.

Definition SYS_fork : Z := 1.
Definition SYS_exit : Z := 2.
Definition SYS_wait : Z := 3.
Definition SYS_pipe : Z := 4.
Definition SYS_read : Z := 5.
Definition SYS_kill : Z := 6.
Definition SYS_exec : Z := 7.
Definition SYS_fstat : Z := 8.
Definition SYS_chdir : Z := 9.
Definition SYS_dup : Z := 10.
Definition SYS_getpid : Z := 11.
Definition SYS_sbrk : Z := 12.
Definition SYS_sleep : Z := 13.
Definition SYS_uptime : Z := 14.
Definition SYS_open : Z := 15.
Definition SYS_write : Z := 16.
Definition SYS_mknod : Z := 17.
Definition SYS_unlink : Z := 18.
Definition SYS_link : Z := 19.
Definition SYS_mkdir : Z := 20.
Definition SYS_close : Z := 21.
Definition SYS_swapread : Z := 22.
Definition SYS_swapwrite : Z := 23.
Definition SYS_swapstat : Z := 24.

Section sysproc_c.
Context {S : Type} `{HasLocks S} `{ArgEnv S} `{ProcOps S}.

Definition sys_exit : M S Z := n ← argint 0; exit n;; mret 0.
Definition sys_getpid : M S Z := gets mypid.
Definition sys_fork : M S Z := fork.
Definition sys_wait : M S Z := p ← argaddr 0; wait p.

Definition sys_sbrk : M S Z :=
  n ← argint 0;
  addr ← gets psz;
  r ← growproc n;
  if r <? 0 then mret (-1) else mret addr.

(** The loop of [sys_sleep] up to its return ([inr]) or to [sleep] ([inl]); it is
    entered with [tickslock] held, as [sleep] returns. *)
Definition sys_sleep_turn (n ticks0 : Z) : M S (unit + Z) :=
  t ← gets ticks;
  if u32 (t - ticks0) <? n then
    k ← killed;
    if negb (k =? 0) then release TICKS_LOCK;; mret (inr (-1)) else
    release TICKS_LOCK;;
    mret (inl tt)
  else release TICKS_LOCK;; mret (inr 0).

Definition sys_sleep : M S Z :=
  n ← argint 0;
  let n := if n <? 0 then 0 else n in
  acquire TICKS_LOCK;;
  ticks0 ← gets ticks;
  r ← sys_sleep_turn n ticks0;
  match r with inl _ => block | inr v => mret v end.

Definition sys_kill : M S Z := i ← argint 0; kill i.

Definition sys_uptime : M S Z :=
  acquire TICKS_LOCK;;
  x ← gets ticks;
  release TICKS_LOCK;;
  mret x.
End sysproc_c.

Section syscall_c.
Context {S : Type} `{SysEnv S} `{ProcOps S}.
Context (path name new old de dot dotdot : Z).

(** [syscalls[num]] *)
Definition syscalls (num : Z) : option (M (sysst S) Z) :=
  nth (Z.to_nat num)
    [None; Some (onenv sys_fork); Some (onenv sys_exit); Some (onenv sys_wait); Some sys_pipe; Some sys_read;
     Some (onenv sys_kill); Some (sys_exec path); Some sys_fstat; Some (sys_chdir path); Some sys_dup;
     Some (onenv sys_getpid); Some (onenv sys_sbrk); Some (onenv sys_sleep); Some (onenv sys_uptime);
     Some (sys_open path name dot dotdot); Some sys_write; Some (sys_mknod path name dot dotdot);
     Some (sys_unlink path name de dot dotdot); Some (sys_link name new old); Some (sys_mkdir path name dot dotdot);
     Some sys_close; Some sys_swapread; Some sys_swapwrite; Some sys_swapstat] None.
Definition NELEM_syscalls : Z := 25.

(** [p->trapframe->a0 = v] *)
Definition set_a0 (v : Z) : M (sysst S) unit := onenv (modify (set_tf_a 0 (u64 v))).

Definition syscall : M (sysst S) unit :=
  a7 ← onenv (gets (fun e => tf_a e 7));
  let num := i32 a7 in
  match (if (0 <? num) && (num <? NELEM_syscalls) then syscalls num else None) with
  | Some f => r ← f; set_a0 r
  | None => set_a0 (-1)
  end.
End syscall_c.
