(* ===== verification/SysCalls.v ===== *)
(** * File system calls keep the references balanced

    A call of [sysfile.c] that returns has ended its transaction and left nothing locked,
    and the references to inodes are then exactly those of open files, of the current
    directory and of other processes; the reference count of a file is the number of
    descriptors for it. *)

From Stdlib Require Import ZArith Lia.
From stdpp Require Import base numbers list gmap strings sets.
From S2P Require Import Prelude CString Riscv Spinlock Locks Stops Fs Pipe File Args SysFile SysRefs Syscall.

#[local] Opaque file_refs.

Section calls.
Context {S : Type} {dot dotdot : Z} `{RO : RefOk S dot dotdot}.
Context (extf exti : Z -> Z) (Hextf : forall f, 0 <= extf f < 2 ^ 30) (Hexti : forall ip, 0 <= exti ip).
Implicit Types (V : rview) (T : gmap Z file) (O : list Z) (s : sysst S).

Record srep s V T O (C : Z) : Prop := {
  sp_file : frep (sfile s) V T;
  sp_of : ofile s = O;
  sp_cwd : p_cwd s = C;
}.

Lemma s_file {A} (m : M (filest S) A) s V T O C (Q : A -> sysst S -> Prop) : srep s V T O C ->
  goes m (fun a t => exists V' T', frep t V' T' /\ forall s', sfile s' = t -> srep s' V' T' O C -> Q a s') (sfile s) -> goes (onfile m) Q s.
Proof.
  intros [R1 R2 R3] Hm. apply goes_zoom. eapply goes_mono; [exact Hm|]. cbn beta. intros a t (V' & T' & R' & HQ).
  by apply HQ; [|split].
Qed.

Lemma s_env {A} (m : M S A) s V T O C (Q : A -> sysst S -> Prop) : srep s V T O C ->
  goes m (fun a e => exists V', rrep e V' /\ forall s', senv s' = e -> srep s' V' T O C -> Q a s') (senv s) -> goes (onenv m) Q s.
Proof.
  intros R Hm. apply (s_file _ s V T O C _ R). apply (fl_env _ _ V T); [apply R|]. eapply goes_mono; [exact Hm|]. cbn beta.
  intros a e (V' & R' & HQ). exists V'. split; [done|]. intros t' <- Ht. exists V', T. split; [done|]. intros s' <- Rs. by apply HQ.
Qed.

Lemma s_keep {A} (m : M S A) s V T O C (Q : A -> sysst S -> Prop) : srep s V T O C -> goes m (fun _ e => rrep e V) (senv s) ->
  (forall a s', srep s' V T O C -> Q a s') -> goes (onenv m) Q s.
Proof.
  intros R Hm HQ. apply (s_env m s V T O C Q R). eapply goes_mono; [exact Hm|]. cbn beta. intros a e R'. exists V. eauto.
Qed.

Lemma sp_env s V T O C : srep s V T O C -> rrep (senv s) V.
Proof. intros R. apply (sp_file _ _ _ _ _ R). Qed.
#[local] Hint Resolve sp_env : core.

Lemma s_refs s V T O C ip : srep s V T O C -> 0 <= refs V ip.
Proof. intros R. by eapply r_refs, sp_env. Qed.

Lemma s_args {A} (f : S -> A) s V T O C (Q : A -> sysst S -> Prop) : srep s V T O C ->
  (forall s', srep s' V T O C -> Q (f (senv s)) s') -> goes (onenv (gets f)) Q s.
Proof.
  intros R HQ. eapply s_env; [exact R|]. apply goes_gets. exists V. split; [eauto|]. intros s' E Rs. by apply HQ.
Qed.

Lemma s_argraw n s V T O C (Q : Z -> sysst S -> Prop) : 0 <= n <= 5 -> srep s V T O C ->
  (forall a s', srep s' V T O C -> Q a s') -> goes (onenv (argraw n)) Q s.
Proof.
  intros Hn R HQ. unfold argraw. rewrite (proj2 (Z.leb_le _ _)), (proj2 (Z.leb_le _ _)) by lia. cbn [andb].
  eapply s_args; [exact R|]. intros s' Rs. by apply HQ.
Qed.

Lemma s_argint n s V T O C (Q : Z -> sysst S -> Prop) : 0 <= n <= 5 -> srep s V T O C ->
  (forall a s', srep s' V T O C -> Q a s') -> goes (onenv (argint n)) Q s.
Proof.
  intros Hn R HQ. unfold argint, argraw. rewrite (proj2 (Z.leb_le _ _)), (proj2 (Z.leb_le _ _)) by lia. cbn [andb].
  eapply s_env; [exact R|]. apply goes_bind, goes_gets, goes_ret. exists V. eauto.
Qed.

Lemma s_argstr n b max s V T O C (Q : Z -> sysst S -> Prop) : 0 <= n <= 5 -> 0 <= max -> srep s V T O C -> rlk V = ∅ ->
  (forall a s', srep s' V T O C -> Q a s') -> goes (onenv (argstr n b max)) Q s.
Proof.
  intros Hn Hm R Hl HQ. unfold argstr, argaddr, argraw. rewrite (proj2 (Z.leb_le _ _)), (proj2 (Z.leb_le _ _)) by lia. cbn [andb].
  eapply s_env; [exact R|]. apply goes_bind, goes_gets. unfold fetchstr. apply goes_bind.
  eapply goes_mono; [by eapply r_copyinstr; [eauto|..]|]. cbn beta. intros r e [Re Hlen].
  destruct (Z.ltb_spec r 0); [apply goes_ret; exists V; eauto|]. destruct Hlen as [k Hk]; [lia|].
  apply goes_bind, goes_gets. rewrite Hk. apply goes_ret. exists V. eauto.
Qed.

(** ** Rules for the calls into the layers below *)

Lemma w_begin s V T O C (Q : unit -> sysst S -> Prop) : srep s V T O C -> inop V = false -> rlk V = ∅ -> lkd V = ∅ ->
  (forall s', srep s' (v_op true V) T O C -> Q tt s') -> goes (onenv begin_op) Q s.
Proof.
  intros R Ho Hl Hk HQ. eapply s_env; [exact R|]. eapply goes_mono; [eapply r_begin_op; eauto|]. cbn beta. intros [] e Re. eauto.
Qed.

Lemma w_end s V T O C (Q : unit -> sysst S -> Prop) : srep s V T O C -> busy V -> lkd V = ∅ ->
  (forall s', srep s' (v_op false V) T O C -> Q tt s') -> goes (onenv end_op) Q s.
Proof.
  intros R Hb Hk HQ. eapply s_env; [exact R|]. eapply goes_mono; [eapply r_end_op; eauto|]. cbn beta. intros [] e Re. eauto.
Qed.

Lemma w_namei p s V T O C (Q : Z -> sysst S -> Prop) : srep s V T O C -> busy V -> lkd V = ∅ ->
  (forall s', srep s' V T O C -> Q 0 s') -> (forall ip s', ip <> 0 -> srep s' (v_ref ip V) T O C -> Q ip s') -> goes (onenv (namei p)) Q s.
Proof.
  intros R Hb Hk H0 H1. eapply s_env; [exact R|]. eapply goes_mono; [eapply r_namei; eauto|]. cbn beta.
  intros ip e [[-> Re]|[Hn Re]]; eauto.
Qed.

Lemma w_nameiparent p n s V T O C (Q : Z -> sysst S -> Prop) : srep s V T O C -> busy V -> lkd V = ∅ ->
  (forall s', srep s' V T O C -> Q 0 s') ->
  (forall ip s', ip <> 0 -> srep s' (v_dir ip (v_ref ip V)) T O C -> Q ip s') -> goes (onenv (nameiparent p n)) Q s.
Proof.
  intros R Hb Hk H0 H1. eapply s_env; [exact R|]. eapply goes_mono; [eapply r_nameiparent; eauto|]. cbn beta.
  intros ip e [[-> Re]|[Hn Re]]; eauto.
Qed.

Lemma w_dirlookup dp n s V T O C (Q : option (Z * Z) -> sysst S -> Prop) : srep s V T O C -> busy V -> dp ∈ lkd V -> dp ∈ dirs V ->
  (forall s', srep s' V T O C -> Q None s') ->
  (forall ip off s', ip <> 0 -> (ip ∈ lkd V -> namecmp (kmem (senv s)) n dot = 0 \/ namecmp (kmem (senv s)) n dotdot = 0) ->
    srep s' (v_ent dp off ip (v_ref ip V)) T O C -> Q (Some (ip, off)) s') -> goes (onenv (dirlookup dp n)) Q s.
Proof.
  intros R Hb Hk Hd H0 H1. eapply s_env; [exact R|]. eapply goes_mono; [eapply r_dirlookup; eauto|]. cbn beta.
  intros [[ip off]|] e Re; [destruct Re as (Hn & Re & Hl)|]; eauto.
Qed.

Lemma w_dirlink dp n i s V T O C (Q : Z -> sysst S -> Prop) : srep s V T O C -> busy V -> dp ∈ lkd V -> dp ∈ dirs V ->
  (forall r s', srep s' V T O C -> Q r s') -> goes (onenv (dirlink dp n i)) Q s.
Proof. intros R Hb Hk Hd HQ. eapply s_keep; [exact R|eapply r_dirlink; eauto|done]. Qed.

Lemma w_ialloc dv ty s V T O C (Q : Z -> sysst S -> Prop) : srep s V T O C -> busy V ->
  (forall s', srep s' V T O C -> Q 0 s') ->
  (forall ip s', ip <> 0 -> ip ∉ lkd V -> srep s' ((if ty =? T_DIR then v_dir ip else id) (v_ref ip V)) T O C -> Q ip s') ->
  goes (onenv (ialloc dv ty)) Q s.
Proof.
  intros R Hb H0 H1. eapply s_env; [exact R|]. eapply goes_mono; [eapply r_ialloc; eauto|]. cbn beta.
  intros ip e [[-> Re]|(Hn & Hk & Re)]; eauto.
Qed.

Lemma w_ilock ip s V T O C (Q : unit -> sysst S -> Prop) : srep s V T O C -> rlk V = ∅ -> 1 <= refs V ip -> ip ∉ lkd V ->
  (forall s', srep s' (v_lock ip V) T O C -> (ip ∈ linked V -> 1 <= i_nlink (ino s' ip)) -> Q tt s') -> goes (onenv (ilock ip)) Q s.
Proof.
  intros R Hl Hr Hk HQ. eapply s_env; [exact R|]. eapply goes_mono; [eapply r_ilock; eauto|]. cbn beta.
  intros [] e [Re Hn]. exists (v_lock ip V). split; [done|]. intros s' <- Rs. by apply HQ.
Qed.

Lemma w_iunlock ip s V T O C (Q : unit -> sysst S -> Prop) : srep s V T O C -> rlk V = ∅ -> 1 <= refs V ip -> ip ∈ lkd V ->
  (forall s', srep s' (v_unlock ip V) T O C -> Q tt s') -> goes (onenv (iunlock ip)) Q s.
Proof.
  intros R Hl Hr Hk HQ. eapply s_env; [exact R|]. eapply goes_mono; [eapply r_iunlock; eauto|]. cbn beta. intros [] e Re. eauto.
Qed.

Lemma w_iput ip s V T O C (Q : unit -> sysst S -> Prop) : srep s V T O C -> busy V -> 1 <= refs V ip -> ip ∉ lkd V ->
  (forall s', srep s' (v_put ip V) T O C -> Q tt s') -> goes (onenv (iput ip)) Q s.
Proof.
  intros R Hl Hr Hk HQ. eapply s_env; [exact R|]. eapply goes_mono; [eapply r_iput; eauto|]. cbn beta. intros [] e Re. eauto.
Qed.

Lemma w_iunlockput ip s V T O C (Q : unit -> sysst S -> Prop) : srep s V T O C -> busy V -> 1 <= refs V ip -> ip ∈ lkd V ->
  (forall s', srep s' (v_put ip (v_unlock ip V)) T O C -> Q tt s') -> goes (iunlockput ip) Q s.
Proof.
  intros R [Hb Hl] Hr Hk HQ. apply goes_bind. eapply w_iunlock; [exact R|done..|]. intros s1 R1.
  eapply w_iput; [exact R1|done|done|cbn; set_solver|done].
Qed.

Lemma w_iupdate ip s V T O C (Q : unit -> sysst S -> Prop) : srep s V T O C -> busy V -> ip ∈ lkd V ->
  (forall s', srep s' V T O C -> Q tt s') -> goes (onenv (iupdate ip)) Q s.
Proof. intros R Hb Hk HQ. eapply s_keep; [exact R|eapply r_iupdate; eauto|by intros []]. Qed.

Lemma w_itrunc ip s V T O C (Q : unit -> sysst S -> Prop) : srep s V T O C -> busy V -> ip ∈ lkd V ->
  (forall s', srep s' (v_trunc V) T O C -> Q tt s') -> goes (onenv (itrunc ip)) Q s.
Proof.
  intros R Hb Hk HQ. eapply s_env; [exact R|]. eapply goes_mono; [eapply r_itrunc; eauto|]. cbn beta. intros [] e Re. eauto.
Qed.

Lemma w_upd ip f s V T O C (Q : unit -> sysst S -> Prop) : srep s V T O C -> ip ∈ lkd V ->
  (forall i, i_type (f i) = i_type i /\ i_size (f i) = i_size i) ->
  (forall s', srep s' V T O C -> Q tt s') -> goes (upd_ino ip f) Q s.
Proof.
  intros R Hk Hf HQ. eapply s_keep; [exact R| |by intros []]. apply goes_modify.
  destruct (Hf (inode_at (senv s) ip)). apply r_set_inode; eauto.
Qed.

Lemma w_get {A} ip (f : inode -> A) s (Q : A -> sysst S -> Prop) : Q (f (ino s ip)) s -> goes (iget_ ip f) Q s.
Proof. intros HQ. by apply goes_gets. Qed.

(** ** The invariant between system calls *)

Definition own (C x : Z) : Z := exti x + Z.b2z (x =? C).

Definition idle V : Prop := inop V = false /\ rlk V = ∅ /\ lkd V = ∅.

Record sysinv s : Prop := {
  si_ex : exists V T, srep s V T (ofile s) (p_cwd s) /\ idle V /\ unlocked V /\ gd extf (ofile s) [] [] (own (p_cwd s)) V T;
}.

Lemma sysinv_intro s V T O C : srep s V T O C -> idle V -> gd extf O [] [] (own C) V T -> sysinv s.
Proof.
  intros [[R1 R1'] <- <-] Hi G. split. exists (v_forget V), T. split; [split; [split; [by apply r_forget|done]|done|done]|]. split; [done|].
  split; [by split; [apply Hi|split]|]. destruct G as [G1 G2 G3 G4 G5 G6 G7]. by split.
Qed.

Lemma gd_eq O P U B V V' T : gd extf O P U B V T -> (forall ip, refs V' ip = refs V ip) -> gd extf O P U B V' T.
Proof. intros [G1 G2 G3 G4 G5 G6 G7] HV. split; try done. intros ip. by rewrite HV. Qed.

Lemma own_nonneg C x : 0 <= own C x.
Proof. unfold own. pose proof (Hexti x). destruct (x =? C); cbn; lia. Qed.

(** Side conditions on the locks, references and knowledge of a view built from [V] with
    [lkd V = ∅], [rlk V = ∅] and [refs V] not negative. *)
Tactic Notation "vcbn" := cbn [refs lkd inop rlk dirs linked ents v_refs v_ref v_lock v_unlock v_op v_dir v_ent v_put v_trunc id].
Tactic Notation "vcbn" "in" hyp(H) := cbn [refs lkd inop rlk dirs linked ents v_refs v_ref v_lock v_unlock v_op v_dir v_ent v_put v_trunc id] in H.
Ltac memb := first [by apply elem_of_singleton | apply elem_of_union_l; memb | apply elem_of_union_r; memb].
Ltac vs :=
  lazymatch goal with
  | |- busy _ => split; vcbn; vs
  | |- idle _ => split; [|split]; vcbn; vs
  | |- _ <= refs _ ?ip => vcbn; repeat match goal with HE : forall x, refs ?V x = _ |- context [refs ?V ?y] => rewrite (HE y) end;
      repeat match goal with HR : forall ip, 0 <= refs ?V ip |- context [refs ?V ?x] => pose proof (HR x); clear HR end;
      repeat match goal with |- context [?a =? ?b] => destruct (Z.eqb_spec a b) end; cbn [Z.b2z]; lia
  | |- forall x, refs _ x = _ => intros ?; vcbn; repeat match goal with HE : forall x, refs ?V x = _ |- context [refs ?V ?y] => rewrite (HE y) end; lia
  | |- forall i, _ /\ _ => done
  | |- _ => vcbn; repeat match goal with HK : lkd ?V = _ |- context [lkd ?V] => rewrite HK end; first [done | congruence | memb | set_solver]
  end.

Ltac srule lem R :=
  eapply lem; [exact R|vs..].
Ltac sstep :=
  lazymatch goal with
  | |- goes (mbind _ _) _ _ => apply goes_bind
  | |- goes (mret _) _ _ => apply goes_ret
  | |- goes (iget_ _ _) _ _ => apply w_get; cbn beta
  | |- goes (mwhen _ _) _ _ => apply goes_when; intros ?
  | |- goes (if ?b then _ else _) _ _ => let E := fresh "E" in destruct b eqn:E; to_prop; try congruence
  | R : srep ?s _ _ _ _ |- goes (onenv begin_op) _ ?s => eapply w_begin; [exact R|vs|vs|vs|clear R; intros ? ?]
  | R : srep ?s _ _ _ _ |- goes (onenv end_op) _ ?s => eapply w_end; [exact R|vs|vs|clear R; intros ? ?]
  | R : srep ?s _ _ _ _ |- goes (onenv (namei _)) _ ?s => eapply w_namei; [exact R|vs|vs|clear R; intros ? ?|clear R; intros ? ? ? ?]
  | R : srep ?s _ _ _ _ |- goes (onenv (nameiparent _ _)) _ ?s =>
      eapply w_nameiparent; [exact R|vs|vs|clear R; intros ? ?|clear R; intros ? ? ? ?]
  | R : srep ?s _ _ _ _ |- goes (onenv (dirlookup _ _)) _ ?s =>
      eapply w_dirlookup; [exact R|vs|vs|vs|clear R; intros ? ?|clear R; intros ? ? ? ? ? ?]
  | R : srep ?s _ _ _ _ |- goes (onenv (dirlink _ _ _)) _ ?s => eapply w_dirlink; [exact R|vs|vs|vs|clear R; intros ? ? ?]
  | R : srep ?s _ _ _ _ |- goes (onenv (ialloc _ _)) _ ?s => eapply w_ialloc; [exact R|vs|clear R; intros ? ?|clear R; intros ? ? ? ?Hfresh ?; vcbn in Hfresh; repeat match goal with HK : lkd ?V = _ |- _ => rewrite HK in Hfresh end]
  | R : srep ?s _ _ _ _ |- goes (onenv (ilock _)) _ ?s => eapply w_ilock; [exact R|vs|vs|vs|clear R; intros ? ? ?]
  | R : srep ?s _ _ _ _ |- goes (onenv (iunlock _)) _ ?s => eapply w_iunlock; [exact R|vs|vs|vs|clear R; intros ? ?]
  | R : srep ?s _ _ _ _ |- goes (onenv (iput _)) _ ?s => eapply w_iput; [exact R|vs|vs|vs|clear R; intros ? ?]
  | R : srep ?s _ _ _ _ |- goes (iunlockput _) _ ?s => eapply w_iunlockput; [exact R|vs|vs|vs|clear R; intros ? ?]
  | R : srep ?s _ _ _ _ |- goes (onenv (iupdate _)) _ ?s => eapply w_iupdate; [exact R|vs|vs|clear R; intros ? ?]
  | R : srep ?s _ _ _ _ |- goes (onenv (itrunc _)) _ ?s => eapply w_itrunc; [exact R|vs|vs|clear R; intros ? ?]
  | R : srep ?s _ _ _ _ |- goes (upd_ino _ _) _ ?s => eapply w_upd; [exact R|vs|vs|clear R; intros ? ?]
  | R : srep ?s _ _ _ _ |- goes (onenv (argstr _ _ _)) _ ?s => eapply s_argstr; [done|done|exact R|vs|clear R; intros ? ? ?]
  | R : srep ?s _ _ _ _ |- goes (onenv (argint _)) _ ?s => eapply s_argint; [done|exact R|clear R; intros ? ? ?]
  | R : srep ?s _ _ _ _ |- goes (onenv (argaddr _)) _ ?s => eapply s_argraw; [done|exact R|clear R; intros ? ? ?]
  end.
(** The end of a call that changed no file. *)
Ltac sdone G :=
  lazymatch goal with
  | R : srep ?s _ _ _ _ |- sysinv ?s => eapply sysinv_intro; [exact R|vs|eapply gd_eq; [exact G|vs]]
  end.

Section fixed.
Context (path name new old de : Z).

Lemma sys_link_ok s : sysinv s -> goes (sys_link name new old) (fun _ => sysinv) s.
Proof.
  intros [(V & T & R & (Ho & Hl & Hk) & Hun & G)]. assert (forall ip, 0 <= refs V ip) as HR by (intros ip; by eapply s_refs).
  unfold sys_link, sys_link_bad. repeat (sstep; cbn [Z.eqb negb]; try (sdone G)).
Qed.

Definition created s T O C V r : Prop :=
  exists V', srep s V' T O C /\ busy V' /\
    ((r = 0 /\ lkd V' = ∅ /\ forall x, refs V' x = refs V x) \/
     (r <> 0 /\ lkd V' = {[r]} /\ forall x, refs V' x = refs V x + Z.b2z (x =? r))).

Lemma create_ok pth ty ma mi s V T O C : srep s V T O C -> busy V -> lkd V = ∅ ->
  goes (create name dot dotdot pth ty ma mi) (fun r s' => created s' T O C V r) s.
Proof.
  intros R [Ho Hl] Hk. assert (forall ip, 0 <= refs V ip) as HR by (intros ip; by eapply s_refs).
  assert (forall s' V' r, srep s' V' T O C -> busy V' ->
    (r = 0 /\ lkd V' = ∅ /\ forall x, refs V' x = refs V x) \/
     (r <> 0 /\ lkd V' = {[r]} /\ forall x, refs V' x = refs V x + Z.b2z (x =? r)) -> created s' T O C V r) as Hend.
  { intros. eexists. eauto. }
  unfold create, create_fail. destruct (ty =? T_DIR) eqn:Ety.
  all: repeat (sstep; cbn [Z.eqb negb]; 
    try match goal with R : srep _ ((if ?b then _ else _) _) _ _ _ |- _ => destruct b eqn:?; to_prop; try congruence; unfold id in R end).
  all: try lazymatch goal with
    | R : srep ?s _ _ _ _ |- created ?s _ _ _ _ 0 => eapply Hend; [exact R|vs|left; split; [done|split; vs]]
    | R : srep ?s _ _ _ _ |- created ?s _ _ _ _ _ => eapply Hend; [exact R|vs|right; split; [done|split; vs]]
    end.
Qed.

Ltac start :=
  match goal with |- sysinv ?s -> _ => intros [(V & T & R & (Ho & Hl & Hk) & Hun & G)] end;
  match goal with R : srep _ ?V _ _ _ |- _ => assert (forall ip, 0 <= refs V ip) by (intros ip; by eapply s_refs) end.
(** After [create]. *)
Ltac screate :=
  lazymatch goal with
  | R : srep ?s _ _ _ _ |- goes (create _ _ _ _ _ _ _) _ ?s =>
      eapply goes_mono; [eapply create_ok; [exact R|vs|vs]|]; clear R; cbn beta;
      intros ?r ? (?V' & ?R & [?Ho ?Hl] & [(-> & ?Hk & ?HE)|(?Hne & ?Hk & ?HE)]); vcbn in HE
  end.

Lemma sys_mkdir_ok s : sysinv s -> goes (sys_mkdir path name dot dotdot) (fun _ => sysinv) s.
Proof. start. unfold sys_mkdir. repeat (first [sstep|screate]; cbn [Z.eqb negb]; try (sdone G)). Qed.

Lemma sys_mknod_ok s : sysinv s -> goes (sys_mknod path name dot dotdot) (fun _ => sysinv) s.
Proof. start. unfold sys_mknod. repeat (first [sstep|screate]; cbn [Z.eqb negb]; try (sdone G)). Qed.

(** [isdirempty] of a locked directory reads whole entries. *)
Lemma isdirempty_ok dp s V T O C : srep s V T O C -> rlk V = ∅ -> dp ∈ lkd V -> i_type (ino s dp) = T_DIR ->
  goes (isdirempty de dp) (fun _ s' => srep s' V T O C) s.
Proof.
  intros R Hl Hk Hty. destruct (r_dirsize (senv s) V dp) as [Hm Hs]; [by eapply sp_env|done|done|]. fold (ino s dp) in Hm, Hs.
  unfold sizeof_dirent in Hm. unfold isdirempty. apply goes_bind, w_get. set (i0 := ino s dp) in *.
  apply (goes_loop _ (fun off s1 => srep s1 V T O C /\ ino s1 dp = i0 /\ 32 <= off /\ off mod 16 = 0)
    (fun off _ => Z.to_nat (i_size i0 / 16 + 1 - off / 16))).
  2:{ done. }
  2:{ unfold sizeof_dirent. change (2 * 16 / 16) with 2. assert (0 <= i_size i0 / 16) by (apply Z.div_pos; lia). lia. }
  intros off s1 (R1 & Ei & Hoff & Hmod). apply goes_bind, w_get. rewrite Ei.
  destruct (Z.ltb_spec off (i_size i0)) as [Hlt|]; cbn [negb]; [|by apply goes_ret].
  assert (off + 16 <= i_size i0) as Hle by dlia. apply goes_bind.
  eapply s_env; [exact R1|]. eapply goes_mono; [eapply r_readi; [by eapply sp_env|done..]|]. cbn beta.
  fold (ino s1 dp). intros r e (_ & Re & Hi & Hr). rewrite Ei in Hr. exists V. split; [done|]. intros s2 <- R2.
  rewrite Hr by (unfold sizeof_dirent; done || lia). rewrite Z.eqb_refl. cbn [negb].
  apply goes_bind, goes_gets. destruct (negb _); [by apply goes_ret|]. apply goes_ret.
  split; [|unfold sizeof_dirent; dlia]. split; [done|]. split; [unfold ino in *; congruence|]. unfold sizeof_dirent. dlia.
Qed.

Lemma w_writei_ent ip a off s V T O C (Q : Z -> sysst S -> Prop) : srep s V T O C -> busy V -> ip ∈ lkd V -> (ip, off) ∈ ents V ->
  (forall s', srep s' V T O C -> Q sizeof_dirent s') -> goes (onenv (writei ip false a off sizeof_dirent)) Q s.
Proof.
  intros R Hb Hk He HQ. eapply s_env; [exact R|]. eapply goes_mono; [eapply r_writei; [by eapply sp_env|done|done|done]|].
  cbn beta. intros r e (_ & Re & Hr). rewrite (Hr eq_refl He eq_refl). exists V. eauto.
Qed.

Lemma sys_unlink_ok s : sysinv s -> goes (sys_unlink path name de dot dotdot) (fun _ => sysinv) s.
Proof.
  start. unfold sys_unlink, sys_unlink_bad. do 4 (sstep; try (sdone G)). repeat (sstep; cbn [Z.eqb]; try (sdone G)).
  apply goes_gets. destruct (_ || _) eqn:Edots; [repeat (sstep; try (sdone G))|]. apply orb_false_iff in Edots as [Ed1 Ed2].
  match goal with Hd : ?ip <> 0, R : srep ?s _ _ _ _ |- _ => rename ip into dp, s into s1, R into R1 end.
  apply goes_bind. eapply w_dirlookup; [exact R1|vs..| |]; clear R1; [intros s2 R2; repeat (sstep; try (sdone G))|].
  intros ip off s2 Hip Hdot R2. vcbn in Hdot. rewrite Hk in Hdot.
  assert (ip <> dp) as Hne by (intros ->; destruct Hdot; [set_solver|to_prop; congruence..]).
  apply goes_bind. eapply w_ilock; [exact R2|vs..|]. clear R2. intros s3 R3 Hnl. specialize (Hnl ltac:(vs)).
  apply goes_bind, w_get. destruct (Z.ltb_spec (i_nlink (ino s3 ip)) 1); [lia|].
  apply goes_bind, w_get, goes_bind.
  match type of R3 with srep _ ?V3 _ _ _ => set (V' := V3) in * end.
  assert (goes (if i_type (ino s3 ip) =? T_DIR then e ← isdirempty de ip; mret (negb e) else mret false)
    (fun _ s4 => srep s4 V' T (ofile s) (p_cwd s)) s3) as Hempty.
  { destruct (Z.eqb_spec (i_type (ino s3 ip)) T_DIR); [|by apply goes_ret]. apply goes_bind.
    eapply goes_mono; [apply (isdirempty_ok ip s3 V'); [exact R3|unfold V'; vs..|done]|]. cbn beta. intros b s4 R4. by apply goes_ret. }
  eapply goes_mono; [exact Hempty|]. cbn beta. clear R3 Hempty. intros full s4 R4. unfold V' in R4. clear V'.
  destruct full; [repeat (sstep; try (sdone G))|].
  apply goes_bind. eapply s_keep; [exact R4|apply goes_modify, r_set_kmem; by eapply sp_env|]. clear R4. intros _ s5 R5.
  apply goes_bind. eapply w_writei_ent; [exact R5|vs..|]. clear R5. intros s6 R6. rewrite Z.eqb_refl. cbn [negb].
  repeat (sstep; try (sdone G)).
Qed.

(** ** Calls on open files *)

Lemma gd_rebal O P U B B' V V' T : gd extf O P U B V T -> (forall x, refs V' x - B' x = refs V x - B x) ->
  (forall x, 0 <= B' x) -> gd extf O P U B' V' T.
Proof. intros [G1 G2 G3 G4 G5 G6 G7] HV HB. split; try done. intros x. specialize (HV x). specialize (G6 x). lia. Qed.

Lemma find_fd_spec l i : 0 <= i ->
  find_fd l i = -1 \/ (i <= find_fd l i < i + Z.of_nat (length l) /\ l !! Z.to_nat (find_fd l i - i) = Some 0).
Proof.
  revert i. induction l as [|x l IH]; intros i Hi; cbn [find_fd length]; [by left|].
  destruct (Z.eqb_spec x 0) as [->|].
  - right. split; [lia|]. by rewrite Z.sub_diag.
  - destruct (IH (i + 1) ltac:(lia)) as [?|[H1 H2]]; [by left|right]. split; [lia|].
    rewrite <- H2. replace (Z.to_nat (find_fd l (i + 1) - i)) with (Datatypes.S (Z.to_nat (find_fd l (i + 1) - (i + 1)))) by lia. done.
Qed.

Lemma fdalloc_ok f s V T O C : srep s V T O C -> length O = Z.to_nat NOFILE ->
  goes (fdalloc f) (fun fd s' => (fd = -1 /\ srep s' V T O C) \/
    (0 <= fd /\ O !! Z.to_nat fd = Some 0 /\ srep s' V T (<[Z.to_nat fd := f]> O) C)) s.
Proof.
  intros [R1 R2 R3] Hlen. unfold fdalloc. apply goes_bind, goes_gets. rewrite R2, take_ge by lia.
  destruct (find_fd_spec O 0 ltac:(done)) as [E|[H1 H2]].
  - rewrite E. apply goes_ret. left. done.
  - rewrite Z.sub_0_r in H2. destruct (Z.ltb_spec (find_fd O 0) 0); [lia|]. apply goes_bind, goes_modify, goes_ret.
    right. split; [lia|]. split; [done|]. split; cbn; [done|by rewrite R2|done].
Qed.

Lemma argfd_ok n s V T O C : 0 <= n <= 5 -> srep s V T O C -> length O = Z.to_nat NOFILE ->
  goes (argfd n) (fun a s' => srep s' V T O C /\
    match a with None => True | Some (fd, f) => O !! Z.to_nat fd = Some f /\ f <> 0 end) s.
Proof.
  intros Hn R Hlen. unfold argfd. apply goes_bind. eapply s_argint; [done|exact R|]. clear R. intros fd s1 R.
  destruct ((fd <? 0) || (NOFILE <=? fd)) eqn:E; [by apply goes_ret|]. apply orb_false_iff in E as [E1 E2]. to_prop.
  apply goes_bind, goes_gets. rewrite (sp_of _ _ _ _ _ R).
  destruct (lookup_lt_is_Some_2 O (Z.to_nat fd)) as [f Hf]; [rewrite Hlen; unfold NOFILE in *; lia|].
  rewrite nth_lookup, Hf. cbn [default from_option id]. destruct (Z.eqb_spec f 0); apply goes_ret; done.
Qed.

Lemma sys_dup_ok s : sysinv s -> goes sys_dup (fun _ => sysinv) s.
Proof.
  start. unfold sys_dup. pose proof (fo_len _ _ _ _ _ _ _ G) as Hlen. apply goes_bind.
  eapply goes_mono; [by apply (argfd_ok 0 s V T)|]. cbn beta. intros [[fd0 f]|] s1 [R1 Hf]; [|apply goes_ret; by eapply sysinv_intro].
  destruct Hf as [Hfd0 Hf0]. destruct (gd_open _ Hextf _ _ _ _ _ _ G Hfd0 Hf0) as (Hf & Href & Hty).
  apply goes_bind. eapply goes_mono; [by apply (fdalloc_ok f s1 V T)|]. cbn beta.
  intros fd s2 [[-> R2]|(Hfd & Hz & R2)]; [apply goes_ret; by eapply sysinv_intro|].
  destruct (Z.ltb_spec fd 0); [lia|]. apply goes_bind. eapply s_file; [exact R2|].
  eapply goes_mono; [by apply (filedup_ok _ V T); [apply R2|..]|]. cbn beta. intros r t [-> Rt]. eexists V, _. split; [exact Rt|].
  intros s3 <- R3. apply goes_ret. eapply sysinv_intro; [exact R3|done|].
  apply gd_fd; [by apply gd_dup; [..|lia|]|done|done].
Qed.

Lemma sys_close_ok s : sysinv s -> goes sys_close (fun _ => sysinv) s.
Proof.
  start. unfold sys_close. pose proof (fo_len _ _ _ _ _ _ _ G) as Hlen. apply goes_bind.
  eapply goes_mono; [by apply (argfd_ok 0 s V T)|]. cbn beta. intros [[fd f]|] s1 [R1 Hf]; [|apply goes_ret; by eapply sysinv_intro].
  destruct Hf as [Hfd Hf0]. destruct (gd_open _ Hextf _ _ _ _ _ _ G Hfd Hf0) as (Hf & Href & Hty).
  apply goes_bind, goes_modify. cbn beta.
  match goal with |- goes _ _ ?s2 => assert (srep s2 V T (<[Z.to_nat fd := 0]> (ofile s)) (p_cwd s)) as R2 end.
  { destruct R1 as [R1a R1b R1c]. split; cbn; [done|by rewrite R1b|done]. }
  apply goes_bind. eapply s_file; [exact R2|].
  eapply goes_mono; [eapply (fileclose_gd _ Hextf _ V T _ [] [] []); [apply R2|done|by apply gd_unfd|done|by destruct (f_type _)|done]|].
  cbn beta. intros _ t (V' & T' & Rt & (L1 & L2 & L3) & Gt & _). exists V', T'. split; [done|]. intros s3 <- R3. apply goes_ret.
  eapply sysinv_intro; [exact R3|split; [congruence|split; congruence]|done].
Qed.

(** Reading and writing move file offsets only. *)
Lemma gd_moved O P U B V T T' : gd extf O P U B V T -> moved T T' -> gd extf O P U B V T'.
Proof.
  intros [G1 G2 G3 G4 G5 G6 G7] Hm. split; try done; [intros f Hf; destruct (moved_ref _ _ f Hm) as (E1 & E2 & _); unfold untyped; rewrite ?E1, ?E2..|].
  - by apply G3.
  - by apply G4.
  - by apply G5.
  - intros ip. by rewrite (moved_refs _ _ ip Hm).
Qed.

Lemma sys_read_ok s : sysinv s -> goes sys_read (fun _ => sysinv) s.
Proof.
  start. unfold sys_read. pose proof (fo_len _ _ _ _ _ _ _ G) as Hlen. do 4 sstep. apply goes_bind.
  eapply goes_mono; [eapply (argfd_ok 0); done|]. cbn beta. intros [[fd f]|] s1 [R1 Hf]; [|apply goes_ret; by eapply sysinv_intro].
  destruct Hf as [Hfd Hf0]. destruct (gd_open _ Hextf _ _ _ _ _ _ G Hfd Hf0) as (Hf & Href & Hty).
  eapply s_file; [exact R1|]. eapply goes_mono; [eapply (fileread_ok _ V T); [apply R1|done|exact Hun|by eapply gd_covered|done|lia|done]|].
  cbn beta. intros _ t (T' & Rt & Hm). exists V, T'. split; [done|]. intros s2 <- R2. eapply sysinv_intro; [exact R2|done|by eapply gd_moved].
Qed.

Lemma sys_write_ok s : sysinv s -> goes sys_write (fun _ => sysinv) s.
Proof.
  start. unfold sys_write. pose proof (fo_len _ _ _ _ _ _ _ G) as Hlen. do 4 sstep. apply goes_bind.
  eapply goes_mono; [eapply (argfd_ok 0); done|]. cbn beta. intros [[fd f]|] s1 [R1 Hf]; [|apply goes_ret; by eapply sysinv_intro].
  destruct Hf as [Hfd Hf0]. destruct (gd_open _ Hextf _ _ _ _ _ _ G Hfd Hf0) as (Hf & Href & Hty).
  eapply s_file; [exact R1|]. eapply goes_mono; [eapply (filewrite_ok _ V T); [apply R1|done|exact Hun|done|by eapply gd_covered|done|lia|done]|].
  cbn beta. intros _ t (T' & Rt & Hm). exists V, T'. split; [done|]. intros s2 <- R2. eapply sysinv_intro; [exact R2|done|by eapply gd_moved].
Qed.

Lemma sys_fstat_ok s : sysinv s -> goes sys_fstat (fun _ => sysinv) s.
Proof.
  start. unfold sys_fstat. pose proof (fo_len _ _ _ _ _ _ _ G) as Hlen. do 2 sstep. apply goes_bind.
  eapply goes_mono; [eapply (argfd_ok 0); done|]. cbn beta. intros [[fd f]|] s1 [R1 Hf]; [|apply goes_ret; by eapply sysinv_intro].
  destruct Hf as [Hfd Hf0]. destruct (gd_open _ Hextf _ _ _ _ _ _ G Hfd Hf0) as (Hf & Href & Hty).
  eapply s_file; [exact R1|]. eapply goes_mono; [eapply (filestat_ok _ V T); [apply R1|done|exact Hun|by eapply gd_covered|done|lia]|].
  cbn beta. intros _ t Rt. exists V, T. split; [done|]. intros s2 <- R2. by eapply sysinv_intro.
Qed.

Lemma sys_chdir_ok s : sysinv s -> goes (sys_chdir path) (fun _ => sysinv) s.
Proof.
  start. unfold sys_chdir. assert (1 <= refs V (p_cwd s)) as HC.
  { rewrite (fo_bal _ _ _ _ _ _ _ G). unfold own. rewrite Z.eqb_refl. pose proof (file_refs_nonneg T (p_cwd s)).
    pose proof (Hexti (p_cwd s)). cbn [Z.b2z]. lia. }
  repeat (sstep; cbn [Z.eqb negb]; try (sdone G)). apply goes_gets. cbn beta.
  match goal with R : srep ?s1 _ _ _ _ |- _ => pose proof (sp_cwd _ _ _ _ _ R) as ->; rename R into R1 end.
  apply goes_bind. eapply w_iput; [exact R1|vs|vcbn; destruct (_ =? _); cbn; lia|vs|]. clear R1. intros s1 R1.
  repeat sstep. apply goes_modify, goes_ret.
  match goal with R : srep ?s2 ?V2 _ _ _ |- sysinv ?s3 => assert (srep s3 V2 T (ofile s) ip) as R3 by (destruct R as [Ra Rb Rc]; by split) end.
  eapply sysinv_intro; [exact R3|vs|]. eapply gd_rebal; [exact G| |apply own_nonneg]. intros x. unfold own. vcbn. lia.
Qed.

(** [sys_open] once the inode is locked: the file takes over the reference. *)
Lemma sys_open_with_ok ip omode s V T O C : srep s V T O C -> busy V -> lkd V = {[ip]} ->
  gd extf O [] [] (fun x => own C x + Z.b2z (x =? ip)) V T -> goes (sys_open_with ip omode) (fun _ => sysinv) s.
Proof.
  intros R [Ho Hl] Hk G. assert (1 <= refs V ip) as Hip.
  { rewrite (fo_bal _ _ _ _ _ _ _ G). rewrite Z.eqb_refl. pose proof (file_refs_nonneg T ip). pose proof (own_nonneg C ip). cbn [Z.b2z]. lia. }
  assert (forall s1 V1 T1, srep s1 V1 T1 O C -> busy V1 -> lkd V1 = {[ip]} -> gd extf O [] [] (fun x => own C x + Z.b2z (x =? ip)) V1 T1 ->
    1 <= refs V1 ip -> goes (iunlockput ip;; onenv end_op;; mret (-1)) (fun _ => sysinv) s1) as Hfail.
  { intros s1 V1 T1 R1 [Ho1 Hl1] Hk1 G1 Hip1. apply goes_bind. eapply w_iunlockput; [exact R1|vs|done|vs|]. clear R1. intros s2 R2.
    repeat sstep. match goal with R : srep ?s _ _ _ _ |- sysinv ?s => eapply sysinv_intro; [exact R|vs|] end.
    eapply gd_rebal; [exact G1| |apply own_nonneg]. intros x. vcbn. lia. }
  unfold sys_open_with. apply goes_bind, w_get. set (i := ino s ip).
  destruct ((i_type i =? T_DEVICE) && ((i_major i <? 0) || (NDEV <=? i_major i))); [by eapply Hfail|].
  apply goes_bind. eapply s_file; [exact R|]. eapply goes_mono; [eapply (filealloc_gd _ Hextf); [apply R|done|exact G]|].
  cbn beta. intros f t [[-> Rt]|(Hf & T1 & Rt & G1 & N1 & Hz & _ & _ & _)].
  { exists V, T. split; [done|]. intros s1 <- R1. cbn [Z.eqb]. apply goes_bind, goes_ret. cbn [Z.ltb Z.compare negb mwhen].
    apply goes_bind, goes_ret. by eapply Hfail. }
  exists V, T1. split; [done|]. intros s1 <- R1. destruct (Z.eqb_spec f 0); [lia|]. apply goes_bind.
  eapply goes_mono; [eapply (fdalloc_ok f); [exact R1|apply (fo_len _ _ _ _ _ _ _ G)]|]. cbn beta.
  intros fd s2 [[-> R2]|(Hfd & Hfree & R2)].
  { cbn [Z.ltb Z.compare negb mwhen]. apply goes_bind. eapply s_file; [exact R2|].
    eapply goes_mono; [eapply (close_new _ Hextf); [apply R2|done|exact G1|done|done]|].
    cbn beta. intros _ t2 (V2 & T2 & Rt2 & (L1 & L2 & L3) & G2 & _). exists V2, T2. split; [done|]. intros s3 <- R3.
    eapply (Hfail _ V2 T2 R3); [split; congruence|congruence|done|].
    rewrite (fo_bal _ _ _ _ _ _ _ G2). rewrite Z.eqb_refl. pose proof (file_refs_nonneg T2 ip). pose proof (own_nonneg C ip). cbn [Z.b2z]. lia. }
  destruct (Z.ltb_spec fd 0); [lia|]. eapply (gd_fd extf _ _ _ _ _ _ f) in G1; [|done|done].
  apply goes_bind. eapply s_file; [exact R2|]. eapply (fl_upd _ V); [apply R2|]. intros t3 Rt3. eexists V, _. split; [exact Rt3|]. intros s3 <- R3.
  apply goes_bind. eapply s_file; [exact R3|]. eapply (fl_upd _ V); [apply R3|]. intros t4 Rt4. eexists V, _. split; [exact Rt4|]. intros s4 <- R4.
  apply goes_bind. eapply s_file; [exact R4|]. eapply (fl_upd _ V); [apply R4|]. intros t5 Rt5. eexists V, _. split; [exact Rt5|]. intros s5 <- R5.
  clear Rt Rt3 Rt4 Rt5 R3 R4. rewrite !tfile_insert, !decide_True, !insert_insert_eq in R5 by done.
  match type of R5 with srep _ _ (<[f := ?x]> T1) _ _ => assert (gd extf (<[Z.to_nat fd := f]> O) [] [] (own C) V (<[f := x]> T1)) as G5 end.
  { eapply (gd_typed extf _ _ [f] [] _ _ V V); [exact G1|done|done|by rewrite occ_self|done|intros g Hg; by rewrite occ_other| | |done| |apply own_nonneg].
    - destruct (i_type i =? T_DEVICE); done.
    - by destruct (i_type i =? T_DEVICE).
    - intros x. assert (1 <= f_ref (tfile T1 f)) as Hr.
      { pose proof (fo_ref _ _ _ _ _ _ _ G1 f Hf) as E. pose proof (Hextf f). rewrite (occ_insert _ _ _ 0) in E by done.
        rewrite Hz, Z.eqb_refl, (proj2 (Z.eqb_neq f 0)) in E by lia. cbn in E. lia. }
      unfold holds. destruct (i_type i =? T_DEVICE); cbn [f_ref f_type f_ip set_f_rw set_f_ip set_f_major set_f_off set_f_type has_ip];
        rewrite (proj2 (Z.ltb_lt _ _)), (Z.eqb_sym ip) by lia; cbn [andb]; lia. }
  repeat (sstep; cbn beta); match goal with R : srep ?s _ _ _ _ |- sysinv ?s => eapply sysinv_intro; [exact R|vs|] end;
    (eapply gd_eq; [exact G5|vs]).
Qed.

Lemma sys_open_ok s : sysinv s -> goes (sys_open path name dot dotdot) (fun _ => sysinv) s.
Proof.
  start. unfold sys_open.
  repeat (first [screate | sstep]; cbn [Z.eqb negb]; try (sdone G));
    match goal with R : srep ?s _ _ _ _ |- goes (sys_open_with _ _) _ ?s => eapply sys_open_with_ok; [exact R|vs|vs|] end;
    (eapply gd_rebal; [exact G| |]; intros x; vcbn;
     [try match goal with HE : forall x, refs ?V x = _ |- _ => rewrite HE end; lia
     |pose proof (own_nonneg (p_cwd s) x); destruct (x =? _); cbn; lia]).
Qed.

(** [ofile[fd] = 0] of a file just entered. *)
Lemma s_clear fd f s V T O P U B C (Q : unit -> sysst S -> Prop) : srep s V T O C -> gd extf O P U B V T -> 1 <= f <= NFILE ->
  O !! Z.to_nat fd = Some f ->
  (forall s', srep s' V T (<[Z.to_nat fd := 0]> O) C -> gd extf (<[Z.to_nat fd := 0]> O) (f :: P) U B V T -> Q tt s') -> goes (set_ofile fd 0) Q s.
Proof.
  intros [R1 R2 R3] G Hf Hfd HQ. apply goes_modify, HQ; [split; cbn; [done|by rewrite R2|done]|by apply gd_unfd].
Qed.

Lemma close2_ok f0 f1 s V T O C : srep s V T O C -> idle V -> gd extf O [f0; f1] [] (own C) V T -> 1 <= f0 <= NFILE -> 1 <= f1 <= NFILE ->
  f1 <> f0 -> f_type (tfile T f0) = FD_PIPE -> f_type (tfile T f1) = FD_PIPE ->
  goes (onfile (fileclose f0);; onfile (fileclose f1);; mret (-1)) (fun _ => sysinv) s.
Proof.
  intros R (Ho & Hl & Hk) G H0 H1 Hne T0 T1. apply goes_bind. eapply s_file; [exact R|].
  eapply goes_mono; [eapply (fileclose_gd _ Hextf _ _ _ _ _ _ []); [apply R|done|exact G|done|by rewrite T0|done]|].
  cbn beta. intros _ t (V' & T' & Rt & (L1 & L2 & L3) & Gt & Hot). exists V', T'. split; [done|]. intros s1 <- R1.
  rewrite <- (Hot f1) in T1 by done. apply goes_bind. eapply s_file; [exact R1|].
  eapply goes_mono; [eapply (fileclose_gd _ Hextf _ _ _ _ _ _ []); [apply R1|congruence|exact Gt|done|by rewrite T1|intros _; split; congruence]|].
  cbn beta. intros _ t2 (V2 & T2 & Rt2 & (L4 & L5 & L6) & Gt2 & _). exists V2, T2. split; [done|]. intros s2 <- R2.
  apply goes_ret. eapply sysinv_intro; [exact R2|split; [congruence|split; congruence]|done].
Qed.

Lemma sys_pipe_ok s : sysinv s -> goes sys_pipe (fun _ => sysinv) s.
Proof.
  start. unfold sys_pipe. do 2 sstep. apply goes_bind.
  match goal with R : srep ?s1 _ _ _ _ |- _ => rename s1 into s1, R into R1 end.
  eapply s_file; [exact R1|]. eapply goes_mono; [eapply (pipealloc_gd _ Hextf); [apply R1|done|exact G]|]. cbn beta.
  intros o t (V1 & T1 & Rt & (L1 & L2 & L3) & Go). exists V1, T1. split; [done|]. intros s2 <- R2.
  assert (idle V1) as Hi1 by (split; [congruence|split; congruence]).
  destruct o as [[f0 f1]|]; [|apply goes_ret; by eapply sysinv_intro]. destruct Go as (G1 & Hf0 & Hf1 & Hne & Ht0 & Ht1).
  pose proof (fo_len _ _ _ _ _ _ _ G) as Hlen.
  apply goes_bind. eapply goes_mono; [by eapply (fdalloc_ok f0)|]. cbn beta. intros fd0 s3 [[-> R3]|(Hfd0 & Hz0 & R3)].
  { cbn [Z.ltb Z.compare orb]. apply goes_bind, goes_ret. cbn [Z.leb Z.compare mwhen orb]. apply goes_bind, goes_ret. by eapply close2_ok. }
  pose proof (gd_fd extf _ _ _ _ _ _ _ _ G1 Hf0 Hz0) as G2. destruct (Z.ltb_spec fd0 0); [lia|].
  apply goes_bind. eapply goes_mono; [eapply (fdalloc_ok f1); [exact R3|by rewrite length_insert]|]. cbn beta. cbn [orb].
  assert (forall s4 O4, O4 !! Z.to_nat fd0 = Some f0 -> srep s4 V1 T1 O4 (p_cwd s) -> gd extf O4 [f1] [] (own (p_cwd s)) V1 T1 ->
    goes (set_ofile fd0 0;; onfile (fileclose f0);; onfile (fileclose f1);; mret (-1)) (fun _ => sysinv) s4) as Hbad.
  { intros s4 O4 Hl4 R4 G4. apply goes_bind. eapply s_clear; [exact R4|exact G4|exact Hf0|exact Hl4|]. intros s5 R5 G5. by eapply close2_ok. }
  assert ((Z.to_nat fd0 < length (ofile s))%nat) as Hlt by by eapply lookup_lt_Some.
  intros fd1 s4 [[-> R4]|(Hfd1 & Hz1 & R4)].
  { cbn [Z.ltb Z.compare]. rewrite (proj2 (Z.leb_le 0 fd0)) by lia. cbn [mwhen]. eapply Hbad; [|done..]. by rewrite list_lookup_insert_eq. }
  pose proof (gd_fd extf _ _ _ _ _ _ _ _ G2 Hf1 Hz1) as G3. destruct (Z.ltb_spec fd1 0); [lia|].
  assert (fd0 <> fd1) as Hfd by (intros ->; rewrite list_lookup_insert_eq in Hz1; simplify_eq; lia).
  apply goes_bind. eapply s_keep; [exact R4|apply r_copyout_int; [by eapply sp_env|apply Hi1]|]. clear R4. intros r s5 R5.
  assert (forall s6, srep s6 V1 T1 (<[Z.to_nat fd1 := f1]> (<[Z.to_nat fd0 := f0]> (ofile s))) (p_cwd s) ->
    goes (set_ofile fd0 0;; set_ofile fd1 0;; onfile (fileclose f0);; onfile (fileclose f1);; mret (-1)) (fun _ => sysinv) s6) as Hbad2.
  { intros s6 R6. assert ((Z.to_nat fd1 < length (ofile s))%nat) by (eapply lookup_lt_Some in Hz1; by rewrite length_insert in Hz1).
    apply goes_bind. eapply s_clear; [exact R6|exact G3|exact Hf0| |].
    { rewrite list_lookup_insert_ne, list_lookup_insert_eq by lia. done. }
    intros s7 R7 G7. apply goes_bind. eapply s_clear; [exact R7|exact G7|exact Hf1| |].
    { rewrite list_lookup_insert_ne, list_lookup_insert_eq by (rewrite ?length_insert; lia). done. }
    intros s8 R8 G8. eapply close2_ok; try done. eapply gd_perm; [exact G8|intros g; cbn; lia|done]. }
  apply goes_bind. destruct (r <? 0) eqn:Er.
  { apply goes_ret. rewrite Er. by apply Hbad2. }
  eapply s_keep; [exact R5|apply r_copyout_int; [by eapply sp_env|apply Hi1]|]. clear R5. intros r2 s6 R6.
  destruct (r2 <? 0); [by apply Hbad2|]. apply goes_ret. by eapply sysinv_intro.
Qed.

Lemma fetch_args_ok uargv s V T O C : srep s V T O C -> rlk V = ∅ ->
  goes (fetch_args uargv) (fun a s' => srep s' V T O C /\ Forall (fun p => p <> 0) (fst a)) s.
Proof.
  intros R Hl. unfold fetch_args.
  apply (goes_loop _ (fun argv s1 => srep s1 V T O C /\ Forall (fun p => p <> 0) argv /\ Z.of_nat (length argv) <= MAXARG)
    (fun argv _ => (Z.to_nat MAXARG - length argv)%nat)); [|done|cbn; lia].
  intros argv s1 (R1 & Hnz & Hlen). destruct (Z.leb_spec MAXARG (Z.of_nat (length argv))); [by apply goes_ret|].
  apply goes_bind. unfold fetchaddr. eapply (s_keep _ _ _ _ _ _ _ R1).
  { apply goes_bind, goes_gets. destruct (_ || _); [apply goes_ret; by eapply sp_env|]. apply r_copyin8; [by eapply sp_env|done]. }
  clear R1. intros [uarg|] s2 R2; [|by apply goes_ret]. destruct (uarg =? 0); [by apply goes_ret|].
  apply goes_bind. eapply s_keep; [exact R2|apply r_kalloc; [by eapply sp_env|done]|]. clear R2. intros a s3 R3.
  destruct (Z.eqb_spec a 0); [by apply goes_ret|]. apply goes_bind. unfold fetchstr.
  assert (Forall (fun p => p <> 0) (argv ++ [a])) as Hnz' by (apply Forall_app; split; [done|by constructor]).
  eapply (s_keep _ _ _ _ _ _ _ R3).
  { apply goes_bind. eapply goes_mono; [apply r_copyinstr; [by eapply sp_env|done|done]|]. cbn beta. intros r e [Re Hs].
    destruct (Z.ltb_spec r 0); [by apply goes_ret|]. destruct Hs as [k Hk]; [lia|]. apply goes_bind, goes_gets. rewrite Hk. by apply goes_ret. }
  clear R3. intros r s4 R4. destruct (r <? 0); apply goes_ret; [done|].
  rewrite length_app. cbn [length]. split; [|unfold MAXARG in *; lia]. split; [done|]. split; [done|]. lia.
Qed.

Lemma kfree_all_ok argv s V T O C : srep s V T O C -> rlk V = ∅ -> Forall (fun p => p <> 0) argv ->
  goes (kfree_all argv) (fun _ s' => srep s' V T O C) s.
Proof.
  revert s. induction argv as [|a argv IH]; intros s R Hl Hnz; cbn [kfree_all]; [by apply goes_ret|].
  apply Forall_cons in Hnz as [Ha Hnz]. apply goes_bind.
  eapply s_keep; [exact R|apply r_kfree; [by eapply sp_env|done|done]|]. intros _ s1 R1. by apply IH.
Qed.

Lemma sys_exec_ok s : sysinv s -> goes (sys_exec path) (fun _ => sysinv) s.
Proof.
  start. unfold sys_exec. do 4 sstep. sstep; [sstep; sdone G|]. apply goes_bind.
  match goal with R : srep ?s1 _ _ _ _ |- _ => rename s1 into s1, R into R1 end.
  eapply goes_mono; [by eapply fetch_args_ok|]. cbn beta. intros [argv ok] s2 [R2 Hnz]. cbn [fst] in Hnz. destruct ok.
  - apply goes_bind. eapply s_keep; [exact R2|by eapply r_exec; [eapply sp_env|..]|]. intros ret s3 R3.
    apply goes_bind. eapply goes_mono; [by eapply kfree_all_ok|]. cbn beta. intros _ s4 R4. apply goes_ret. by eapply sysinv_intro.
  - apply goes_bind. eapply goes_mono; [by eapply kfree_all_ok|]. cbn beta. intros _ s4 R4. apply goes_ret. by eapply sysinv_intro.
Qed.

Lemma sys_swapstat_ok s : sysinv s -> goes sys_swapstat (fun _ => sysinv) s.
Proof.
  start. unfold sys_swapstat. do 4 sstep. apply goes_bind, goes_gets, goes_bind.
  match goal with R : srep ?s1 _ _ _ _ |- _ => rename s1 into s1, R into R1 end.
  eapply s_keep; [exact R1|apply r_copyout_int; [by eapply sp_env|done]|]. intros r s2 R2.
  destruct (r <? 0); [apply goes_ret; by eapply sysinv_intro|]. apply goes_bind, goes_gets, goes_bind.
  eapply s_keep; [exact R2|apply r_copyout_int; [by eapply sp_env|done]|]. intros r2 s3 R3. apply goes_ret. by eapply sysinv_intro.
Qed.

(** ** The dispatcher *)
Context `{PO : ProcOps S}.

(** The calls of [sysfile.c] but for [swapread] and [swapwrite], and numbers that are no
    call. *)
Definition file_call (num : Z) : bool :=
  negb (existsb (Z.eqb num) [SYS_fork; SYS_exit; SYS_wait; SYS_kill; SYS_getpid; SYS_sbrk; SYS_sleep; SYS_uptime; SYS_swapread; SYS_swapwrite]).

Lemma set_a0_ok v s : sysinv s -> goes (set_a0 v) (fun _ => sysinv) s.
Proof.
  start. eapply s_keep; [exact R|apply goes_modify, r_set_tf; by eapply sp_env|]. intros _ s1 R1. by eapply sysinv_intro.
Qed.

Lemma syscalls_ok num s : 0 < num < NELEM_syscalls -> file_call num = true -> sysinv s ->
  exists m, syscalls path name new old de dot dotdot num = Some m /\ goes m (fun _ => sysinv) s.
Proof.
  intros Hnum Hc I. unfold NELEM_syscalls in Hnum.
  assert (num = 1 \/ num = 2 \/ num = 3 \/ num = 4 \/ num = 5 \/ num = 6 \/ num = 7 \/ num = 8 \/ num = 9 \/ num = 10 \/ num = 11 \/ num = 12 \/
    num = 13 \/ num = 14 \/ num = 15 \/ num = 16 \/ num = 17 \/ num = 18 \/ num = 19 \/ num = 20 \/ num = 21 \/ num = 22 \/ num = 23 \/ num = 24) as Hin by lia.
  repeat (destruct Hin as [->|Hin]; [try discriminate Hc; eexists; (split; [reflexivity|])|]); [..|subst num; eexists; (split; [reflexivity|])].
  - by apply sys_pipe_ok.
  - by apply sys_read_ok.
  - by apply sys_exec_ok.
  - by apply sys_fstat_ok.
  - by apply sys_chdir_ok.
  - by apply sys_dup_ok.
  - by apply sys_open_ok.
  - by apply sys_write_ok.
  - by apply sys_mknod_ok.
  - by apply sys_unlink_ok.
  - by apply sys_link_ok.
  - by apply sys_mkdir_ok.
  - by apply sys_close_ok.
  - by apply sys_swapstat_ok.
Qed.

End fixed.
End calls.
