(* ===== verification/SysToy.v ===== *)
(** * A small file system below the system calls

    An instance of what [sysfile.c] uses: inode 1 is a directory, inode 2 a file that the
    directory names, inode 3 can be allocated; a path is one byte.  A bad address panics in
    [walk] and a read from a pipe sleeps.  It shows that class [RefOk] can hold, and runs a call
    of [SysCalls.v]. *)

From Stdlib Require Import ZArith Lia.
From stdpp Require Import base numbers list gmap strings sets.
From S2P Require Import Prelude CString Riscv Spinlock Locks Stops Fs Pipe File Args SysFile SysRefs Syscall SysCalls.

Record toy := Toy {
  y_refs : Z -> Z; y_lkd : gset Z; y_op : bool; y_locks : gset Z; y_mem : memory; y_regs : Z -> Z;
  y_ino : Z -> inode; y_pipes : Z -> pipe }.

Definition y_set_refs x s := Toy x (y_lkd s) (y_op s) (y_locks s) (y_mem s) (y_regs s) (y_ino s) (y_pipes s).
Definition y_set_lkd x s := Toy (y_refs s) x (y_op s) (y_locks s) (y_mem s) (y_regs s) (y_ino s) (y_pipes s).
Definition y_set_op x s := Toy (y_refs s) (y_lkd s) x (y_locks s) (y_mem s) (y_regs s) (y_ino s) (y_pipes s).
Definition y_set_locks x s := Toy (y_refs s) (y_lkd s) (y_op s) x (y_mem s) (y_regs s) (y_ino s) (y_pipes s).
Definition y_set_mem x s := Toy (y_refs s) (y_lkd s) (y_op s) (y_locks s) x (y_regs s) (y_ino s) (y_pipes s).
Definition y_set_regs x s := Toy (y_refs s) (y_lkd s) (y_op s) (y_locks s) (y_mem s) x (y_ino s) (y_pipes s).
Definition y_set_ino x s := Toy (y_refs s) (y_lkd s) (y_op s) (y_locks s) (y_mem s) (y_regs s) x (y_pipes s).
Definition y_set_pipes x s := Toy (y_refs s) (y_lkd s) (y_op s) (y_locks s) (y_mem s) (y_regs s) (y_ino s) x.

Definition fupd {A} (f : Z -> A) (k : Z) (v : A) : Z -> A := fun x => if x =? k then v else f x.
Definition y_ref (d ip : Z) (s : toy) : toy := y_set_refs (fun x => y_refs s x + d * Z.b2z (x =? ip)) s.

#[export] #[refine] Instance toy_locks : HasLocks toy := { held := y_locks; set_held := y_set_locks; curpid := fun _ => 1 }.
Proof. all: by intros; try destruct s. Defined.

#[export] Instance toy_args : ArgEnv toy := {
  tf_a := y_regs; set_tf_a := fun i v s => y_set_regs (fupd (y_regs s) i v) s; psz := fun _ => 4096;
  kmem := y_mem; set_kmem := y_set_mem;
  copyin8 := fun _ => mret None;
  copyinstr := fun b a max => if MAXVA <=? a then panic "walk" else if max <? 1 then mret (-1) else
    modify (fun s => y_set_mem (wr8 (wr8 (y_mem s) b 97) (b + 1) 0) s);; mret 0;
}.

#[export] Instance toy_file : FileEnv toy := {
  fe_locks := toy_locks;
  begin_op := modify (y_set_op true);
  end_op := modify (y_set_op false);
  ilock := fun ip => modify (fun s => y_set_lkd ({[ip]} ∪ y_lkd s) s);
  iunlock := fun ip => modify (fun s => y_set_lkd (y_lkd s ∖ {[ip]}) s);
  iput := fun ip => modify (y_ref (-1) ip);
  stati := fun ip => mret (mkStat 1 ip 0 0 0);
  readi := fun _ _ _ _ n => mret n;
  writei := fun _ _ _ _ n => mret n;
  copyout_stat := fun _ _ => mret 0;
  devread := fun _ => None;
  devwrite := fun _ => None;
  pipeclose := fun _ _ => mret tt;
  piperead := fun _ _ _ => block;
  pipewrite := fun _ _ n => mret n;
  pipe_at := y_pipes;
  set_pipe_at := fun a p s => y_set_pipes (fupd (y_pipes s) a p) s;
  kalloc := mret 4096;
  kfree := fun _ => mret tt;
}.

#[export] Instance toy_sys : SysEnv toy := {
  namei := fun p => c ← gets (fun s => rd8 (y_mem s) p); if c =? 0 then mret 0 else modify (y_ref 1 2);; mret 2;
  nameiparent := fun p n => c ← gets (fun s => rd8 (y_mem s) p); if c =? 0 then mret 0 else
    modify (fun s => y_set_mem (wr8 (wr8 (y_mem s) n c) (n + 1) 0) s);; modify (y_ref 1 1);; mret 1;
  dirlookup := fun _ n =>
    ok ← gets (fun s => bool_decide (2 ∉ y_lkd s) && (1 <=? i_nlink (y_ino s 2)));
    if (ok : bool) then modify (y_ref 1 2);; mret (Some (2, 32)) else mret None;
  dirlink := fun _ _ _ => mret 0;
  ialloc := fun _ ty =>
    ok ← gets (fun s => bool_decide (3 ∉ y_lkd s));
    if (ok : bool) then
      modify (fun s => y_set_ino (fupd (y_ino s) 3 (set_i_d (set_di_nlink 1 (set_di_type ty (i_d inode0))) inode0)) s);;
      modify (y_ref 1 3);; mret 3
    else mret 0;
  iupdate := fun _ => mret tt;
  itrunc := fun ip => modify (fun s => y_set_ino (fupd (y_ino s) ip (set_i_d (set_di_size 0 (i_d (y_ino s ip))) (y_ino s ip))) s);
  inode_at := y_ino;
  set_inode_at := fun ip i s => y_set_ino (fupd (y_ino s) ip i) s;
  copyout_int := fun _ _ => mret 0;
  exec := fun _ _ => mret (-1);
  swapread := fun _ _ => mret tt;
  swapwrite := fun _ _ => mret tt;
  nr_sectors_read := fun _ => 0;
  nr_sectors_write := fun _ => 0;
}.

Definition dir_ok (i : inode) : Prop := i_type i = T_DIR -> i_size i mod sizeof_dirent = 0 /\ 0 <= i_size i.

Record toy_rep (s : toy) (V : rview) : Prop := {
  ty_refs : forall ip, refs V ip = y_refs s ip;
  ty_pos : forall ip, 0 <= y_refs s ip;
  ty_lkd : lkd V = y_lkd s;
  ty_op : inop V = y_op s;
  ty_lk : rlk V = y_locks s;
  ty_link : forall ip, ip ∈ linked V -> ip ∉ y_lkd s -> 1 <= i_nlink (y_ino s ip);
  ty_dir : forall ip, dir_ok (y_ino s ip);
}.

Lemma fupd_dir s ip i : dir_ok i -> (forall x, dir_ok (y_ino s x)) -> forall x, dir_ok (fupd (y_ino s) ip i x).
Proof. intros Hi Hs x. unfold fupd. by destruct (x =? ip). Qed.

Ltac toy_split := match goal with R : toy_rep _ _ |- _ => destruct R as [T1 T2 T3 T4 T5 T6 T7]; split; cbn in *; try done end.

Lemma toy_ref s V ip : toy_rep s V -> toy_rep (y_ref 1 ip s) (v_ref ip V).
Proof.
  intros R. toy_split.
  - intros x. rewrite T1. lia.
  - intros x. specialize (T2 x). destruct (x =? ip); cbn; lia.
Qed.

Lemma toy_mem s V m : toy_rep s V -> toy_rep (y_set_mem m s) V.
Proof. intros R. toy_split. Qed.

Lemma strlen_ab (m : memory) b max : 1 <= max -> exists n, strlen (Z.to_nat max + 1) (wr8 (wr8 m b 97) (b + 1) 0) b = Some n.
Proof.
  intros Hm. replace (Z.to_nat max + 1)%nat with (Datatypes.S (Datatypes.S (Z.to_nat (max - 1)))) by lia.
  exists 1. unfold strlen. cbn [strlen_loop]. rewrite Z.add_0_r.
  rewrite rd8_wr8_ne, rd8_wr8_eq by lia. cbn [u8]. change (u8 97 =? 0) with false. cbn iota.
  rewrite Z.add_0_l, rd8_wr8_eq. done.
Qed.

(** How calls into it may end besides returning. *)
#[export] Instance toy_stops : Stops := {| panic_ok := fun msg => msg = "walk"%string; sleep_ok := True; stuck_ok := False |}.

#[export] #[refine] Instance toy_refok : RefOk toy 8 9 := { rrep := toy_rep }.
Proof.
  - intros s V R. by rewrite (ty_lk _ _ R).
  - intros s V x R. toy_split.
  - intros s V ip R. rewrite (ty_refs _ _ R). apply (ty_pos _ _ R).
  - intros s V R. toy_split.
  - intros s V m R. by apply toy_mem.
  - intros s V a p R. toy_split.
  - intros s ip i. cbn. unfold fupd. by rewrite Z.eqb_refl.
  - intros s V ip i R Hip Ht Hsz. pose proof (ty_dir _ _ R ip) as Hd. pose proof (ty_lkd _ _ R) as El. rewrite El in Hip. toy_split.
    + intros x Hx Hn. unfold fupd. destruct (Z.eqb_spec x ip) as [->|]; [done|by apply T6].
    + apply fupd_dir; [|done]. intros Hi. rewrite Hsz. apply Hd. congruence.
  - intros s V R _ _ _. apply goes_modify. toy_split.
  - intros s V R _ _. apply goes_modify. toy_split.
  - intros s V p R _ _. cbn. apply goes_bind, goes_gets. destruct (_ =? 0); [apply goes_ret; by left|].
    apply goes_bind, goes_modify, goes_ret. right. split; [done|]. by apply toy_ref.
  - intros s V p n R _ _. cbn. apply goes_bind, goes_gets. destruct (_ =? 0); [apply goes_ret; by left|].
    apply goes_bind, goes_modify, goes_bind, goes_modify, goes_ret. right. split; [done|].
    assert (toy_rep (y_ref 1 1 (y_set_mem (wr8 (wr8 (y_mem s) n (rd8 (y_mem s) p)) (n + 1) 0) s)) (v_ref 1 V)) as R' by by apply toy_ref, toy_mem.
    clear R. by destruct R'; split.
  - intros s V dp n R _ Hdp _. cbn. apply goes_bind, goes_gets. destruct (bool_decide_reflect (2 ∉ y_lkd s)) as [Hn|Hn]; cbn [andb]; [|by apply goes_ret].
    destruct (Z.leb_spec 1 (i_nlink (y_ino s 2))); [|by apply goes_ret].
    apply goes_bind, goes_modify, goes_ret. split; [done|]. split.
    + apply (toy_ref _ _ 2) in R. toy_split. intros ip Hip. apply elem_of_union in Hip as [Hip|Hip]; [|by apply T6].
      apply elem_of_singleton in Hip as ->. done.
    + rewrite (ty_lkd _ _ R). done.
  - intros s V dp n i R _ _ _. by apply goes_ret.
  - intros s V dv ty R _. cbn. apply goes_bind, goes_gets. destruct (bool_decide_reflect (3 ∉ y_lkd s)) as [Hn|Hn]; [|apply goes_ret; by left].
    apply goes_bind, goes_modify, goes_bind, goes_modify, goes_ret. right. split; [done|]. rewrite (ty_lkd _ _ R). split; [done|].
    set (s1 := y_set_ino _ s). assert (toy_rep (y_ref 1 3 s1) (v_ref 3 V)) as R1.
    { apply toy_ref. unfold s1. toy_split.
      - intros x Hx Hnx. unfold fupd. destruct (x =? 3); [done|by apply T6].
      - apply fupd_dir; [|done]. intros _. cbn. done. }
    destruct (ty =? T_DIR); [|done]. clear R. by destruct R1; split.
  - intros s V ip R _ _ Hip. apply goes_modify. rewrite (ty_lkd _ _ R) in Hip. split; [|intros Hl; by apply (ty_link _ _ R)].
    toy_split; [by rewrite T3|]. intros x Hx Hn. apply T6; set_solver.
  - intros s V ip R _ _ Hip. apply goes_modify. rewrite (ty_lkd _ _ R) in Hip. toy_split; [by rewrite T3|].
    intros x Hx Hn. apply T6; set_solver.
  - intros s V ip R _ Hr _. apply goes_modify. rewrite (ty_refs _ _ R) in Hr. toy_split.
    + intros x. rewrite T1. lia.
    + intros x. specialize (T2 x). destruct (Z.eqb_spec x ip) as [->|]; cbn; lia.
    + intros x Hx. apply T6. set_solver.
  - intros s V ip R _ _. by apply goes_ret.
  - intros s V ip R _ Hip. apply goes_modify. pose proof (ty_dir _ _ R ip) as Hd. toy_split.
    + intros x Hx Hn. unfold fupd. destruct (Z.eqb_spec x ip) as [->|]; [|by apply T6]. cbn. by apply T6.
    + apply fupd_dir; [|done]. done.
  - intros s V ip R _ _. by apply goes_ret.
  - intros s V ip u a off n R _ _. apply goes_ret. done.
  - intros s V ip u a off n R _ _ _. apply goes_ret. done.
  - intros s V ip R _ Hty. by apply (ty_dir _ _ R ip).
  - intros s V a w R _. by apply goes_ret.
  - done.
  - intros s V p a n R _. by apply goes_ret.
  - done.
  - done.
  - intros s V R _. by apply goes_ret.
  - intros s V a R _ _. by apply goes_ret.
  - intros s V a x R _. by apply goes_ret.
  - intros s V a x R _. by apply goes_ret.
  - intros s V b a max R _ Hm. cbn. destruct (MAXVA <=? a); [done|]. destruct (Z.ltb_spec max 1); [apply goes_ret; split; [done|lia]|].
    apply goes_bind, goes_modify, goes_ret. split; [by apply toy_mem|]. intros _. by apply strlen_ab.
  - intros s V a R _. by apply goes_ret.
  - intros s V p av R _ _ _. by apply goes_ret.
  - intros s V i x R. toy_split.
Defined.

#[export] Instance toy_proc : ProcOps toy := {
  mypid := fun _ => 1; fork := mret (-1); exit := fun _ => mret tt; wait := fun _ => mret (-1); kill := fun _ => mret (-1);
  growproc := fun _ => mret (-1); killed := mret 0; ticks := fun _ => 0;
}.

(** [unlink] from a process whose current directory is inode 1. *)
Definition toy0 : toy :=
  Toy (fun x => Z.b2z (x =? 1)) ∅ false ∅ ∅ (fupd (fun _ => 0) 7 SYS_unlink)
    (fun _ => set_i_d (set_di_nlink 1 (set_di_type T_FILE (i_d inode0))) inode0) (fun _ => mkPipe [] 0 0 0 0).
Definition toy_start : sysst toy := mkSys (mkFl toy0 ∅) (replicate 16 0) 1.

Lemma toy_start_inv : sysinv (fun _ => 0) (fun _ => 0) toy_start.
Proof.
  split. exists (RV (fun x => Z.b2z (x =? 1)) ∅ false ∅ ∅ ∅ ∅), ∅. split; [|split; [done|split; [done|]]].
  - split; [|done|done]. split; [|done]. split; cbn; try done. intros ip. by destruct (ip =? 1).
  - assert (forall f, 1 <= f -> occ f (ofile toy_start) = 0) as Hocc.
    { intros f Hf. cbn. by rewrite !(proj2 (Z.eqb_neq f 0)) by lia. }
    split; try done.
    + intros i f Hi. apply lookup_replicate in Hi as [-> _]. unfold NFILE. lia.
    + intros f Hf. unfold tfile. rewrite lookup_empty, Hocc by lia. done.
    + intros ip. unfold own. by destruct (ip =? _).
Qed.

