(* ===== verification/Exec.v ===== *)
(** * Loading a program

    [kernel/exec.c] with the formats of [elf.h].  Local structures ([elf], [ph]) and
    [p->name] are kernel addresses; [argv] is the list of the pointers before the null.  What
    the code calls in [fs.c], [log.c], [vm.c] and [proc.c], and the fields of the process
    it changes, are class [ExecEnv]. *)

From Stdlib Require Import ZArith Lia.
From stdpp Require Import base numbers list gmap strings sets.
From S2P Require Import Prelude CString Riscv.

Definition ELF_MAGIC : Z := 0x464C457F.
Definition ELF_PROG_LOAD : Z := 1.

(** [struct elfhdr] and [struct proghdr] in memory. *)
Definition sizeof_elfhdr : Z := 64.
Definition elf_magic (m : memory) (a : Z) : Z := rdn m a 4.
Definition elf_entry (m : memory) (a : Z) : Z := rdn m (a + 24) 8.
Definition elf_phoff (m : memory) (a : Z) : Z := rdn m (a + 32) 8.
Definition elf_phnum (m : memory) (a : Z) : Z := rdn m (a + 56) 2.
Definition sizeof_proghdr : Z := 56.
Definition ph_type (m : memory) (a : Z) : Z := rdn m a 4.
Definition ph_flags (m : memory) (a : Z) : Z := rdn m (a + 4) 4.
Definition ph_off (m : memory) (a : Z) : Z := rdn m (a + 8) 8.
Definition ph_vaddr (m : memory) (a : Z) : Z := rdn m (a + 16) 8.
Definition ph_filesz (m : memory) (a : Z) : Z := rdn m (a + 32) 8.
Definition ph_memsz (m : memory) (a : Z) : Z := rdn m (a + 40) 8.

Class ExecEnv (S : Type) := {
  kmem : S -> memory;
  set_kmem : memory -> S -> S;
  begin_op : M S unit;
  end_op : M S unit;
  namei : Z -> M S Z;
  ilock : Z -> M S unit;
  iunlockput : Z -> M S unit;
  readi : Z -> Z -> Z -> Z -> M S Z;             (* readi(ip, 0, dst, off, n) *)
  proc_pagetable : M S Z;                        (* proc_pagetable(myproc()) *)
  proc_freepagetable : Z -> Z -> M S unit;
  uvmalloc : Z -> Z -> Z -> Z -> M S Z;
  uvmclear : Z -> Z -> M S unit;
  walkaddr : Z -> Z -> M S Z;
  copyout : Z -> Z -> Z -> Z -> M S Z;           (* from kernel memory *)
  copyout_words : Z -> Z -> list Z -> M S Z;     (* from the array ustack *)
  p_pagetable : S -> Z;
  p_sz : S -> Z;
  set_image : Z -> Z -> S -> S;                  (* p->pagetable and p->sz *)
  set_tf_a1 : Z -> S -> S;
  set_tf_epc : Z -> S -> S;
  set_tf_sp : Z -> S -> S;
}.

Definition flags2perm (flags : Z) : Z :=
  let perm := if tst flags 0x1 then PTE_X else 0 in
  if tst flags 0x2 then Z.lor perm PTE_W else perm.

(** The component after the last slash. *)
Fixpoint last_elem (fuel : nat) (m : memory) (last s : Z) : option Z :=
  match fuel with
  | O => None
  | Datatypes.S f =>
      if rd8 m s =? 0 then Some last
      else last_elem f m (if rd8 m s =? 47 then s + 1 else last) (s + 1)
  end.

Section exec_c.
Context {S : Type} `{ExecEnv S} (elf ph p_name : Z) (fuel : nat).

(** [offset] and [sz] are [uint] parameters. *)
Definition loadseg (pagetable va ip offset sz : Z) : M S Z :=
  let offset := u32 offset in
  let sz := u32 sz in
  loop (Z.to_nat (sz / PGSIZE) + 2) (fun i =>
    if negb (i <? sz) then mret (inr 0) else
    pa ← walkaddr pagetable (u64 (va + i));
    if pa =? 0 then panic "loadseg: address should exist" else
    let n := if sz - i <? PGSIZE then sz - i else PGSIZE in
    r ← readi ip pa (u32 (offset + i)) n;
    if negb (r =? n) then mret (inr (-1)) else
    mret (inl (u32 (i + PGSIZE)))) 0.

(** The label [bad]; [ip] is null after the program has been read. *)
Definition exec_bad (pagetable sz ip : Z) : M S Z :=
  mwhen (negb (pagetable =? 0)) (proc_freepagetable pagetable sz);;
  mwhen (negb (ip =? 0)) (iunlockput ip;; end_op);;
  mret (-1).

(** The loop over the program headers: the size of the image, and whether it was
    loaded. *)
Definition load_program (pagetable ip : Z) : M S (Z * bool) :=
  m ← gets kmem;
  loop (Z.to_nat (elf_phnum m elf) + 1) (fun '(i, off, sz) =>
    if negb (i <? elf_phnum m elf) then mret (inr (sz, true)) else
    r ← readi ip ph (u32 off) sizeof_proghdr;
    if negb (r =? sizeof_proghdr) then mret (inr (sz, false)) else
    h ← gets kmem;
    if negb (ph_type h ph =? ELF_PROG_LOAD) then mret (inl (i + 1, i32 (off + sizeof_proghdr), sz)) else
    if ph_memsz h ph <? ph_filesz h ph then mret (inr (sz, false)) else
    if u64 (ph_vaddr h ph + ph_memsz h ph) <? ph_vaddr h ph then mret (inr (sz, false)) else
    if negb (ph_vaddr h ph mod PGSIZE =? 0) then mret (inr (sz, false)) else
    sz1 ← uvmalloc pagetable sz (u64 (ph_vaddr h ph + ph_memsz h ph)) (flags2perm (ph_flags h ph));
    if sz1 =? 0 then mret (inr (sz, false)) else
    r ← loadseg pagetable (ph_vaddr h ph) ip (ph_off h ph) (ph_filesz h ph);
    if r <? 0 then mret (inr (sz1, false)) else
    mret (inl (i + 1, i32 (off + sizeof_proghdr), sz1))) (0, i32 (elf_phoff m elf), 0).

(** The argument strings: the stack pointer and [ustack], or [None] for [bad]. *)
Fixpoint push_args (pagetable stackbase : Z) (argv : list Z) (sp : Z) (ustack : list Z) : M S (option (Z * list Z)) :=
  match argv with
  | [] => mret (Some (sp, ustack))
  | a :: rest =>
      if MAXARG <=? Z.of_nat (length ustack) then mret None else
      o ← gets (fun s => strlen fuel (kmem s) a);
      match o with
      | None => nofuel
      | Some len =>
          let sp := u64 (sp - (len + 1)) in
          let sp := sp - sp mod 16 in
          if sp <? stackbase then mret None else
          r ← copyout pagetable sp a (len + 1);
          if r <? 0 then mret None else
          push_args pagetable stackbase rest sp (ustack ++ [sp])
      end
  end.

(** [exec] from the stack on, with the program loaded and the transaction ended. *)
Definition exec_image (path : Z) (argv : list Z) (pagetable sz : Z) : M S Z :=
  oldsz ← gets p_sz;
  let sz := PGROUNDUP sz in
  sz1 ← uvmalloc pagetable sz (u64 (sz + (USERSTACK + 1) * PGSIZE)) PTE_W;
  if sz1 =? 0 then exec_bad pagetable sz 0 else
  let sz := sz1 in
  uvmclear pagetable (u64 (sz - (USERSTACK + 1) * PGSIZE));;
  let stackbase := u64 (sz - USERSTACK * PGSIZE) in
  o ← push_args pagetable stackbase argv sz [];
  match o with
  | None => exec_bad pagetable sz 0
  | Some (sp, ustack) =>
      let argc := Z.of_nat (length ustack) in
      if MAXARG <=? argc then undef else
      let sp := u64 (sp - (argc + 1) * 8) in
      let sp := sp - sp mod 16 in
      if sp <? stackbase then exec_bad pagetable sz 0 else
      r ← copyout_words pagetable sp (ustack ++ [0]);
      if r <? 0 then exec_bad pagetable sz 0 else
      modify (set_tf_a1 sp);;
      l ← gets (fun s => last_elem fuel (kmem s) path path);
      match l with
      | None => nofuel
      | Some last =>
          modify (fun s => set_kmem (safestrcpy (kmem s) p_name last 16) s);;
          oldpagetable ← gets p_pagetable;
          entry ← gets (fun s => elf_entry (kmem s) elf);
          modify (set_image pagetable sz);;
          modify (set_tf_epc entry);;
          modify (set_tf_sp sp);;
          proc_freepagetable oldpagetable oldsz;;
          mret argc
      end
  end.

Definition exec (path : Z) (argv : list Z) : M S Z :=
  begin_op;;
  ip ← namei path;
  if ip =? 0 then end_op;; mret (-1) else
  ilock ip;;
  r ← readi ip elf 0 sizeof_elfhdr;
  if negb (r =? sizeof_elfhdr) then exec_bad 0 0 ip else
  m ← gets kmem;
  if negb (elf_magic m elf =? ELF_MAGIC) then exec_bad 0 0 ip else
  pagetable ← proc_pagetable;
  if pagetable =? 0 then exec_bad 0 0 ip else
  l ← load_program pagetable ip;
  let '(sz, ok) := (l : Z * bool) in
  if negb ok then exec_bad pagetable sz ip else
  iunlockput ip;;
  end_op;;
  exec_image path argv pagetable sz.
End exec_c.
