(* ===== verification/ExecSpec.v ===== *)
(** * What [exec] does to the process

    Class [ExecOk] says what the calls of [exec] do to the transaction, to the inode of the
    program and to page tables (each with the size mapped in it) when they return; they may also
    panic or sleep as the [Stops] at hand admit.  [readi] may write only where it is given room:
    the ELF header, a program header, or a page that [walkaddr] found in the new page table.
    [exec] then either fails and leaves the process and the page tables as they were, or replaces
    the process's page table by a new one and frees the old. *)

From Stdlib Require Import ZArith Lia.
From stdpp Require Import base numbers list gmap strings sets.
From S2P Require Import Prelude CString Riscv Spinlock Locks Stops Exec.

(** In a transaction; the inode referenced; whether it is locked; the page tables; the
    process's page table and size; the addresses of terminated strings. *)
Record xview := XV {
  xop : bool; xip : option Z; xlk : bool; xpts : gmap Z Z; xpt : Z; xsz : Z; xstr : gset Z }.

Definition x_op b X := XV b (xip X) (xlk X) (xpts X) (xpt X) (xsz X) (xstr X).
Definition x_ip i l X := XV (xop X) i l (xpts X) (xpt X) (xsz X) (xstr X).
Definition x_pts p X := XV (xop X) (xip X) (xlk X) p (xpt X) (xsz X) (xstr X).
Definition x_img p z X := XV (xop X) (xip X) (xlk X) (xpts X) p z (xstr X).

Class ExecOk (S : Type) `{ExecEnv S} {SP : Stops} (elf ph p_name : Z) (fuel : nat) := {
  erep : S -> xview -> Prop;
  (* [upage s pt pa]: [pa] is the address of a page of the page table [pt] *)
  upage : S -> Z -> Z -> Prop;
  e_img : forall s X, erep s X -> p_pagetable s = xpt X /\ p_sz s = xsz X;
  e_str : forall s X a, erep s X -> a ∈ xstr X -> exists n, strlen fuel (kmem s) a = Some n;
  e_name : forall s X l, erep s X -> erep (set_kmem (safestrcpy (kmem s) p_name l 16) s) X;
  e_set_image : forall s X p z, erep s X -> erep (set_image p z s) (x_img p z X);
  e_tf_a1 : forall s X v, erep s X -> erep (set_tf_a1 v s) X;
  e_tf_epc : forall s X v, erep s X -> erep (set_tf_epc v s) X;
  e_tf_sp : forall s X v, erep s X -> erep (set_tf_sp v s) X;
  e_begin_op : forall s X, erep s X -> xop X = false -> goes begin_op (fun _ s' => erep s' (x_op true X)) s;
  e_end_op : forall s X, erep s X -> xop X = true -> xip X = None -> goes end_op (fun _ s' => erep s' (x_op false X)) s;
  e_namei : forall s X p, erep s X -> xop X = true -> xip X = None ->
    goes (namei p) (fun r s' => (r = 0 /\ erep s' X) \/ (r <> 0 /\ erep s' (x_ip (Some r) false X))) s;
  e_ilock : forall s X ip, erep s X -> xip X = Some ip -> xlk X = false -> goes (ilock ip) (fun _ s' => erep s' (x_ip (Some ip) true X)) s;
  e_iunlockput : forall s X ip, erep s X -> xop X = true -> xip X = Some ip -> xlk X = true ->
    goes (iunlockput ip) (fun _ s' => erep s' (x_ip None false X)) s;
  (* into the header, a program header, or a page of another image than the running one *)
  e_readi : forall s X ip dst off n, erep s X -> xip X = Some ip -> xlk X = true ->
    dst = elf /\ n = sizeof_elfhdr \/ dst = ph /\ n = sizeof_proghdr \/
    (exists pt z, upage s pt dst /\ xpts X !! pt = Some z /\ pt <> xpt X /\ 0 <= n <= PGSIZE) ->
    goes (readi ip dst off n) (fun _ s' => erep s' X) s;
  e_proc_pagetable : forall s X, erep s X ->
    goes proc_pagetable (fun r s' => (r = 0 /\ erep s' X) \/ (r <> 0 /\ xpts X !! r = None /\ erep s' (x_pts (<[r := 0]> (xpts X)) X))) s;
  e_free : forall s X pt sz z, erep s X -> xpts X !! pt = Some z -> PGROUNDUP sz = PGROUNDUP z ->
    goes (proc_freepagetable pt sz) (fun _ s' => erep s' (x_pts (delete pt (xpts X)) X)) s;
  (* the new size is bounded by the memory there is *)
  e_uvmalloc : forall s X pt old new perm z, erep s X -> xpts X !! pt = Some z -> PGROUNDUP old = PGROUNDUP z ->
    goes (uvmalloc pt old new perm) (fun r s' => (r = 0 /\ erep s' X) \/
      (r <> 0 /\ r = Z.max old new /\ r < 2 ^ 31 /\ erep s' (x_pts (<[pt := r]> (xpts X)) X))) s;
  e_uvmclear : forall s X pt va z, erep s X -> xpts X !! pt = Some z -> 0 <= va < z -> goes (uvmclear pt va) (fun _ s' => erep s' X) s;
  e_walkaddr : forall s X pt va z, erep s X -> xpts X !! pt = Some z -> 0 <= va < z ->
    goes (walkaddr pt va) (fun r s' => r <> 0 /\ erep s' X /\ upage s' pt r) s;
  e_copyout : forall s X pt va a n z, erep s X -> xpts X !! pt = Some z -> goes (copyout pt va a n) (fun _ s' => erep s' X) s;
  e_copyout_words : forall s X pt va l z, erep s X -> xpts X !! pt = Some z -> goes (copyout_words pt va l) (fun _ s' => erep s' X) s;
}.

Section exec_spec.
Context {S : Type} {elf ph p_name : Z} {fuel : nat} `{EO : ExecOk S elf ph p_name fuel}.
Implicit Types (s : S) (X : xview).

Lemma e_keep {A} (m : M S A) s X (Q : A -> S -> Prop) : goes m (fun _ s' => erep s' X) s -> (forall a s', erep s' X -> Q a s') -> goes m Q s.
Proof. intros Hm HQ. eapply goes_mono; [exact Hm|]. cbn beta. auto. Qed.

(** The image with page table [pt] of size [z]. *)
Definition x_new (pt z : Z) X : xview := x_pts (<[pt := z]> (xpts X)) X.

Lemma x_new_at pt z X : xpts (x_new pt z X) !! pt = Some z.
Proof. unfold x_new. cbn. by rewrite lookup_insert_eq. Qed.
Lemma x_new_new pt z z' X : x_pts (<[pt := z']> (xpts (x_new pt z X))) (x_new pt z X) = x_new pt z' X.
Proof. unfold x_new, x_pts. cbn. by rewrite insert_insert_eq. Qed.

Lemma loadseg_ok s X pt z va ip off sz : erep s X -> xip X = Some ip -> xlk X = true -> xpts X !! pt = Some z -> pt <> xpt X -> z < 2 ^ 31 ->
  0 <= va -> 0 <= sz -> va + sz <= z -> goes (loadseg pt va ip off sz) (fun _ s' => erep s' X) s.
Proof.
  intros R Hi Hl Hpt Hne Hz Hva Hsz Hle. unfold loadseg. assert (u32 sz = sz) as -> by (unfold u32; rewrite Z.mod_small; lia).
  apply (goes_loop _ (fun i s1 => erep s1 X /\ exists k, i = k * 4096 /\ 0 <= k /\ i < sz + 4096)
    (fun i _ => Z.to_nat ((sz + 4096 - i) / 4096))).
  - intros i s1 (R1 & k & -> & Hk & Hlt). destruct (Z.ltb_spec (k * 4096) sz) as [Hks|]; cbn [negb]; [|by apply goes_ret].
    apply goes_bind. assert (u64 (va + k * 4096) = va + k * 4096) as -> by (unfold u64; rewrite Z.mod_small; lia).
    eapply goes_mono; [eapply e_walkaddr; [exact R1|exact Hpt|lia]|]. cbn beta. intros pa s2 (Hpa & R2 & Hup).
    rewrite (proj2 (Z.eqb_neq pa 0) Hpa). apply goes_bind. cbn zeta. eapply e_keep.
    { eapply e_readi; [done..|]. right. right. exists pt, z. repeat (split; [done|]). unfold PGSIZE. destruct (Z.ltb_spec (sz - k * 4096) 4096); lia. }
    intros r s3 R3. destruct (negb _); [by apply goes_ret|]. apply goes_ret. unfold PGSIZE.
    assert (u32 (k * 4096 + 4096) = (k + 1) * 4096) as -> by (unfold u32; rewrite Z.mod_small; lia).
    split; [|dlia]. split; [done|]. exists (k + 1). lia.
  - split; [done|]. exists 0. lia.
  - unfold PGSIZE. assert (0 <= sz / 4096) by (apply Z.div_pos; lia). replace ((sz + 4096 - 0) / 4096) with (sz / 4096 + 1) by dlia. lia.
Qed.

Lemma load_program_ok s X pt ip : erep s (x_new pt 0 X) -> xip X = Some ip -> xlk X = true -> pt <> xpt X ->
  goes (load_program elf ph pt ip) (fun r s' => 0 <= fst r < 2 ^ 31 /\ erep s' (x_new pt (fst r) X)) s.
Proof.
  intros R Hi Hl Hne. unfold load_program. apply goes_bind, goes_gets. set (m := kmem s).
  apply (goes_loop _ (fun '(i, off, sz) s1 => 0 <= sz < 2 ^ 31 /\ erep s1 (x_new pt sz X)) (fun '(i, off, sz) _ => Z.to_nat (elf_phnum m elf - i))).
  2:{ done. }
  2:{ lia. }
  intros [[i off] sz] s1 [Hsz R1]. destruct (Z.ltb_spec i (elf_phnum m elf)); cbn [negb]; [|by apply goes_ret].
  apply goes_bind. eapply e_keep; [eapply e_readi; [done..|by right; left]|]. intros r s2 R2. destruct (negb _); [by apply goes_ret|].
  apply goes_bind, goes_gets. set (h := kmem s2). destruct (negb _); [apply goes_ret; split; [done|lia]|].
  pose proof (rdn_range h (ph + 16) 8) as Hv. pose proof (rdn_range h (ph + 40) 8) as Hm. pose proof (rdn_range h (ph + 32) 8) as Hfz.
  fold (ph_vaddr h ph) in Hv. fold (ph_memsz h ph) in Hm. fold (ph_filesz h ph) in Hfz.
  destruct (Z.ltb_spec (ph_memsz h ph) (ph_filesz h ph)); [by apply goes_ret|].
  destruct (Z.ltb_spec (u64 (ph_vaddr h ph + ph_memsz h ph)) (ph_vaddr h ph)) as [|Hov]; [by apply goes_ret|].
  destruct (negb _); [by apply goes_ret|]. apply goes_bind.
  eapply goes_mono; [eapply e_uvmalloc; [exact R2|apply x_new_at|done]|]. cbn beta.
  intros sz1 s3 [[-> R3]|(Hn & Hmax & Hb & R3)]; [by apply goes_ret|]. rewrite (proj2 (Z.eqb_neq sz1 0) Hn). rewrite x_new_new in R3.
  assert (u64 (ph_vaddr h ph + ph_memsz h ph) = ph_vaddr h ph + ph_memsz h ph) as Eu.
  { unfold u64 in *. revert Hov. change (8 * Z.of_nat 8) with 64 in *. generalize (ph_vaddr h ph) (ph_memsz h ph) Hv Hm. intros v k ? ?.
    destruct (Z.lt_ge_cases (v + k) (2 ^ 64)); [rewrite Z.mod_small; lia|].
    replace (v + k) with ((v + k - 2 ^ 64) + 1 * 2 ^ 64) at 1 by lia. rewrite Z.mod_add, Z.mod_small by lia. lia. }
  apply goes_bind. eapply e_keep; [eapply (loadseg_ok _ (x_new pt sz1 X)); [exact R3|done|done|apply x_new_at|exact Hne|lia..]|].
  intros r2 s4 R4. destruct (r2 <? 0); apply goes_ret; [cbn; split; [lia|done]|]. split; [split; [lia|done]|lia].
Qed.

(** The label [bad] gives the page tables back. *)
Lemma exec_bad_ok s X pt z sz ip : erep s (x_new pt z X) -> pt <> 0 -> xpts X !! pt = None -> PGROUNDUP sz = PGROUNDUP z ->
  (ip = 0 /\ xop X = false /\ xip X = None /\ xlk X = false \/ ip <> 0 /\ xop X = true /\ xip X = Some ip /\ xlk X = true) ->
  goes (exec_bad pt sz ip) (fun r s' => r = -1 /\ erep s' (x_op false (x_ip None false X))) s.
Proof.
  intros R Hpt Hnone Hr Hip. unfold exec_bad. rewrite (proj2 (Z.eqb_neq pt 0) Hpt). cbn [negb mwhen]. apply goes_bind.
  eapply goes_mono; [eapply e_free; [exact R|apply x_new_at|done]|]. cbn beta. intros _ s1 R1.
  assert (x_pts (delete pt (xpts (x_new pt z X))) (x_new pt z X) = X) as E.
  { unfold x_new, x_pts. cbn. rewrite delete_insert_id by done. by destruct X. }
  rewrite E in R1. clear R E. destruct Hip as [(-> & Ho & Hi & Hl)|(Hn & Ho & Hi & Hl)].
  - cbn. apply goes_bind, goes_ret, goes_ret. split; [done|]. destruct X. cbn in *. by subst.
  - rewrite (proj2 (Z.eqb_neq ip 0) Hn). cbn [negb mwhen]. apply goes_bind, goes_bind.
    eapply goes_mono; [by eapply e_iunlockput|]. cbn beta. intros _ s2 R2.
    eapply goes_mono; [by eapply e_end_op|]. cbn beta. intros _ s3 R3. apply goes_ret. done.
Qed.

(** Before there is a page table. *)
Lemma exec_bad0_ok s X ip : erep s X -> ip <> 0 -> xop X = true -> xip X = Some ip -> xlk X = true ->
  goes (exec_bad 0 0 ip) (fun r s' => r = -1 /\ erep s' (x_op false (x_ip None false X))) s.
Proof.
  intros R Hn Ho Hi Hl. unfold exec_bad. cbn [Z.eqb negb mwhen]. apply goes_bind, goes_ret.
  rewrite (proj2 (Z.eqb_neq ip 0) Hn). cbn [negb mwhen]. apply goes_bind, goes_bind.
  eapply goes_mono; [by eapply e_iunlockput|]. cbn beta. intros _ s2 R2.
  eapply goes_mono; [by eapply e_end_op|]. cbn beta. intros _ s3 R3. by apply goes_ret.
Qed.

Lemma push_args_ok pt base argv sp us s X z : erep s X -> xpts X !! pt = Some z -> (forall a, a ∈ argv -> a ∈ xstr X) ->
  goes (push_args fuel pt base argv sp us) (fun o s' => erep s' X /\
    match o with None => True | Some (_, us') => length us' = (length us + length argv)%nat end) s.
Proof.
  revert sp us s. induction argv as [|a argv IH]; intros sp us s R Hpt Hstr; cbn [push_args].
  { apply goes_ret. split; [done|]. cbn. lia. }
  destruct (_ <=? _); [by apply goes_ret|]. apply goes_bind, goes_gets.
  destruct (e_str s X a R) as [len ->]; [apply Hstr; by left|]. destruct (_ <? _); [by apply goes_ret|].
  apply goes_bind. eapply e_keep; [by eapply e_copyout|]. intros r s1 R1. destruct (r <? 0); [by apply goes_ret|].
  eapply goes_mono; [apply IH; [done|done|]|].
  - intros b Hb. apply Hstr. by right.
  - cbn beta. intros [[sp' us']|] s2 [R2 Hlen]; [|done]. split; [done|]. rewrite Hlen, length_app. cbn. lia.
Qed.

Lemma last_elem_total (m : memory) (l p : Z) n k : strlen_loop n m p k <> None -> last_elem n m l (p + k) <> None.
Proof.
  revert l k. induction n as [|n IH]; intros l k Hs; cbn [last_elem strlen_loop] in *; [done|].
  destruct (rd8 m (p + k) =? 0); [done|]. rewrite <- Z.add_assoc. by apply IH.
Qed.

(** The process after a successful [exec]. *)
Definition execd X (pt z : Z) : xview := x_img pt z (x_pts (delete (xpt X) (<[pt := z]> (xpts X))) X).

Lemma exec_image_ok s X path argv pt sz : erep s (x_new pt sz X) -> pt <> 0 -> xpts X !! pt = None -> 0 <= sz < 2 ^ 31 ->
  xop X = false -> xip X = None -> xlk X = false -> xpts X !! xpt X = Some (xsz X) ->
  (forall a, a ∈ path :: argv -> a ∈ xstr X) -> Z.of_nat (length argv) < MAXARG ->
  goes (exec_image elf p_name fuel path argv pt sz) (fun r s' => (r = -1 /\ erep s' X) \/
    (r = Z.of_nat (length argv) /\ exists z, erep s' (execd X pt z))) s.
Proof.
  intros R Hpt Hnone Hsz Ho Hi Hl Hold Hstr Hargs. unfold exec_image. apply goes_bind, goes_gets.
  destruct (e_img _ _ R) as [_ Esz]. cbn in Esz. rewrite Esz.
  assert (forall s1 z1 r1, erep s1 (x_new pt z1 X) -> PGROUNDUP r1 = PGROUNDUP z1 ->
    goes (exec_bad pt r1 0) (fun r s' => (r = -1 /\ erep s' X) \/ (r = Z.of_nat (length argv) /\ exists z, erep s' (execd X pt z))) s1) as Hbad.
  { intros s1 z1 r1 R1 Hr1. eapply goes_mono; [eapply exec_bad_ok; [exact R1|done|done|done|left; done]|]. cbn beta. intros r s2 [-> R2].
    left. split; [done|]. destruct X. cbn in *. by subst. }
  assert (PGROUNDUP (PGROUNDUP sz) = PGROUNDUP sz) as Epp.
  { rewrite (PGROUNDUP_spec sz) by lia. rewrite PGROUNDUP_spec by dlia. dlia. }
  assert (0 <= PGROUNDUP sz < 2 ^ 31 + 4096) as Hpg by (rewrite PGROUNDUP_spec by lia; dlia).
  apply goes_bind. eapply goes_mono; [eapply e_uvmalloc; [exact R|apply x_new_at|done]|]. cbn beta.
  intros sz1 s1 [[-> R1]|(Hn & Hmax & Hb & R1)]; [by eapply Hbad|]. rewrite (proj2 (Z.eqb_neq sz1 0) Hn). rewrite x_new_new in R1.
  change ((USERSTACK + 1) * PGSIZE) with 8192 in *. change (USERSTACK * PGSIZE) with 4096.
  assert (u64 (PGROUNDUP sz + 8192) = PGROUNDUP sz + 8192) as Eu by (unfold u64; rewrite Z.mod_small; lia). rewrite Eu in Hmax.
  apply goes_bind. eapply e_keep.
  { eapply e_uvmclear; [exact R1|apply x_new_at|]. unfold u64. rewrite Z.mod_small by lia. lia. }
  intros _ s2 R2. apply goes_bind. eapply goes_mono; [eapply push_args_ok; [exact R2|apply x_new_at|]|].
  { intros a Ha. apply Hstr. by right. }
  cbn beta. intros [[sp us]|] s3 [R3 Hus]; [|by eapply Hbad]. cbn [length Nat.add] in Hus. rewrite Hus.
  rewrite (proj2 (Z.leb_gt MAXARG (Z.of_nat (length argv)))) by done. destruct (_ <? _); [by eapply Hbad|].
  apply goes_bind. eapply e_keep; [eapply e_copyout_words; [exact R3|apply x_new_at]|]. intros r s4 R4.
  destruct (r <? 0); [by eapply Hbad|]. apply goes_bind, goes_modify. cbn beta.
  match goal with |- goes _ _ (set_tf_a1 ?v s4) => apply (e_tf_a1 _ _ v) in R4; revert R4; generalize (set_tf_a1 v s4) end. intros s5 R5.
  apply goes_bind, goes_gets. destruct (last_elem fuel (kmem s5) path path) as [last|] eqn:El.
  2:{ exfalso. destruct (e_str s5 _ path R5) as [k Hk]; [apply Hstr; by left|].
      apply (last_elem_total (kmem s5) path path fuel 0); [unfold strlen in Hk; by rewrite Hk|by rewrite Z.add_0_r]. }
  apply goes_bind, goes_modify. cbn beta. apply (e_name _ _ last) in R5. revert R5. generalize (set_kmem (safestrcpy (kmem s5) p_name last 16) s5).
  intros s6 R6. apply goes_bind, goes_gets, goes_bind, goes_gets. destruct (e_img _ _ R6) as [-> _]. cbn [xpt x_new x_pts].
  generalize (elf_entry (kmem s6) elf). intros entry. do 3 (apply goes_bind, goes_modify; cbn beta).
  apply (e_set_image _ _ pt sz1), (e_tf_epc _ _ entry) in R6.
  match goal with |- goes _ _ (set_tf_sp ?v ?t) => apply (e_tf_sp t _ v) in R6; revert R6; generalize (set_tf_sp v t) end. intros s7 R7.
  assert (xpt X <> pt) as Hne by (intros E; rewrite E in Hold; congruence).
  apply goes_bind. eapply goes_mono; [eapply (e_free _ _ _ _ (xsz X)); [exact R7| |done]|].
  { cbn. by rewrite lookup_insert_ne. }
  cbn beta. intros _ s8 R8. apply goes_ret. right. split; [done|]. exists sz1. exact R8.
Qed.

(** C5: [exec] returns, unless a routine of the layers below panics or sleeps as the [Stops] at
    hand admit, with the transaction ended and the program's inode released.  Either it fails
    with -1, and the page tables and the process's page table and size are as before; or it
    returns the number of arguments, and the process has a new page table, of which there was
    none before, the old one having been freed.  [exec.c] adds no panic of its own ("loadseg:
    address should exist" cannot happen), no undefined behaviour and no endless loop, and reads
    the file only into its two headers and into pages of the new page table. *)
Theorem exec_spec s X path argv : erep s X -> xop X = false -> xip X = None -> xlk X = false -> xpts X !! xpt X = Some (xsz X) ->
  (forall a, a ∈ path :: argv -> a ∈ xstr X) -> Z.of_nat (length argv) < MAXARG ->
  goes (exec elf ph p_name fuel path argv) (fun r s' => (r = -1 /\ erep s' X) \/
    (r = Z.of_nat (length argv) /\ exists pt z, xpts X !! pt = None /\ erep s' (execd X pt z))) s.
Proof.
  intros R Ho Hi Hl Hold Hstr Hargs. unfold exec. apply goes_bind. eapply goes_mono; [by eapply e_begin_op|]. cbn beta. intros _ s1 R1.
  assert (forall Y s', erep s' (x_op false (x_ip None false Y)) -> x_op false (x_ip None false Y) = X ->
    (-1 = -1 /\ erep s' X) \/ (-1 = Z.of_nat (length argv) /\ exists pt z, xpts X !! pt = None /\ erep s' (execd X pt z))) as Hfail.
  { intros Y s' R' <-. left. done. }
  assert (x_op false (x_op true X) = X) as E0 by (destruct X; cbn in *; by subst).
  apply goes_bind. eapply goes_mono; [by eapply e_namei|]. cbn beta. intros ip s2 [[-> R2]|(Hip & R2)].
  { cbn [Z.eqb]. apply goes_bind. eapply goes_mono; [by eapply e_end_op|]. cbn beta. intros _ s3 R3. apply goes_ret. rewrite E0 in R3. by left. }
  rewrite (proj2 (Z.eqb_neq ip 0) Hip). apply goes_bind. eapply goes_mono; [by eapply e_ilock|]. cbn beta. intros _ s3 R3.
  set (Y := x_ip (Some ip) true (x_ip (Some ip) false (x_op true X))) in *.
  assert (x_op false (x_ip None false Y) = X) as EY by (unfold Y; destruct X; cbn in *; by subst).
  apply goes_bind. eapply e_keep; [eapply e_readi; [done..|by left]|]. intros r s4 R4.
  assert (forall s5, erep s5 Y -> goes (exec_bad 0 0 ip) (fun r s' => (r = -1 /\ erep s' X) \/
    (r = Z.of_nat (length argv) /\ exists pt z, xpts X !! pt = None /\ erep s' (execd X pt z))) s5) as Hbad0.
  { intros s5 R5. eapply goes_mono; [by eapply (exec_bad0_ok _ Y)|]. cbn beta. intros ? ? [-> R6]. by eapply Hfail. }
  destruct (negb _); [by apply Hbad0|]. apply goes_bind, goes_gets. destruct (negb _); [by apply Hbad0|].
  apply goes_bind. eapply goes_mono; [by eapply e_proc_pagetable|]. cbn beta. intros pt s5 [[-> R5]|(Hpt & Hnone & R5)]; [by apply Hbad0|].
  rewrite (proj2 (Z.eqb_neq pt 0) Hpt). apply goes_bind. eapply goes_mono; [eapply (load_program_ok _ Y); [exact R5|done|done|cbn; intros ->; cbn in Hnone; congruence]|].
  cbn beta. intros [sz ok] s6 [Hsz R6]. cbn [fst] in *. destruct ok; cbn [negb].
  2:{ eapply goes_mono; [eapply (exec_bad_ok _ Y); [exact R6|done|done|done|right; done]|]. cbn beta. intros ? ? [-> R7]. by eapply Hfail. }
  apply goes_bind. eapply goes_mono; [by eapply e_iunlockput|]. cbn beta. intros _ s7 R7.
  apply goes_bind. eapply goes_mono; [by eapply e_end_op|]. cbn beta. intros _ s8 R8.
  assert (x_op false (x_ip None false (x_new pt sz Y)) = x_new pt sz X) as E8 by (unfold Y, x_new; destruct X; cbn in *; by subst).
  rewrite E8 in R8. eapply goes_mono; [by eapply exec_image_ok|]. cbn beta.
  intros r2 s9 [[-> R9]|(-> & z & R9)]; [by left|right]. split; [done|]. exists pt, z. done.
Qed.
End exec_spec.

(** ** An instance

    A machine with one string at 1000 and one page for images at 8192; [readi] finds a program
    without segments; when memory is used up, allocating panics. *)

Record xtoy := XT { t_v : xview; t_m : memory }.
Definition t_upd (f : xview -> xview) (s : xtoy) : xtoy := XT (f (t_v s)) (t_m s).

#[export] Instance xtoy_env : ExecEnv xtoy := {
  kmem := t_m;
  set_kmem := fun m s => XT (t_v s) m;
  begin_op := modify (t_upd (x_op true));
  end_op := modify (t_upd (x_op false));
  namei := fun p => c ← gets (fun s => rd8 (t_m s) p); if c =? 0 then mret 0 else modify (t_upd (x_ip (Some 2) false));; mret 2;
  ilock := fun ip => modify (t_upd (x_ip (Some ip) true));
  iunlockput := fun _ => modify (t_upd (x_ip None false));
  readi := fun _ dst _ n => modify (fun s => XT (t_v s) (wrn (t_m s) dst ELF_MAGIC 4));; mret n;
  proc_pagetable := o ← gets (fun s => xpts (t_v s) !! 7);
    match o with Some _ => mret 0 | None => modify (t_upd (fun X => x_pts (<[7 := 0]> (xpts X)) X));; mret 7 end;
  proc_freepagetable := fun pt _ => modify (t_upd (fun X => x_pts (delete pt (xpts X)) X));
  uvmalloc := fun pt old new _ => if 2 ^ 31 <=? Z.max old new then panic "swapwrite: either_copyin failed" else
    if Z.max old new =? 0 then mret 0 else
    modify (t_upd (fun X => x_pts (<[pt := Z.max old new]> (xpts X)) X));; mret (Z.max old new);
  uvmclear := fun _ _ => mret tt;
  walkaddr := fun _ _ => mret 8192;
  copyout := fun _ _ _ _ => mret 0;
  copyout_words := fun _ _ _ => mret 0;
  p_pagetable := fun s => xpt (t_v s);
  p_sz := fun s => xsz (t_v s);
  set_image := fun p z => t_upd (x_img p z);
  set_tf_a1 := fun _ s => s;
  set_tf_epc := fun _ s => s;
  set_tf_sp := fun _ s => s;
}.

Definition xtoy_rep (s : xtoy) (X : xview) : Prop := t_v s = X /\ rd8 (t_m s) 1001 = 0 /\ forall a, a ∈ xstr X -> a = 1000.

Lemma xtoy_upd f s X : xtoy_rep s X -> xstr (f X) = xstr X -> xtoy_rep (t_upd f s) (f X).
Proof. intros (<- & H1 & H2) Hf. split; [done|]. split; [done|]. by rewrite Hf. Qed.

(** How calls into it may end besides returning. *)
#[export] Instance xtoy_stops : Stops :=
  {| panic_ok := fun msg => msg = "swapwrite: either_copyin failed"%string; sleep_ok := True; stuck_ok := False |}.

#[export] #[refine] Instance xtoy_ok : ExecOk xtoy 5000 5100 6000 2 := { erep := xtoy_rep; upage := fun _ _ pa => pa = 8192 }.
Proof.
  - by intros s X (<- & _).
  - intros s X a (_ & H1 & H2) Ha. rewrite (H2 a Ha). unfold strlen. cbn [strlen_loop kmem xtoy_env].
    change (1000 + (0 + 1)) with 1001. rewrite H1. destruct (_ =? 0); eauto.
  - intros s X l (E & H1 & H2). split; [done|]. split; [|done]. change (rd8 (safestrcpy_loop (t_m s) 6000 l 15) 1001 = 0).
    by rewrite safestrcpy_loop_frame by lia.
  - intros s X p z R. by apply (xtoy_upd (x_img p z)).
  - done.
  - done.
  - done.
  - intros s X R _. apply goes_modify. by apply (xtoy_upd (x_op true)).
  - intros s X R _ _. apply goes_modify. by apply (xtoy_upd (x_op false)).
  - intros s X p R _ _. cbn. apply goes_bind, goes_gets. destruct (_ =? 0); [apply goes_ret; by left|]. apply goes_bind, goes_modify, goes_ret.
    right. split; [done|]. by apply (xtoy_upd (x_ip (Some 2) false)).
  - intros s X ip R _ _. apply goes_modify. by apply (xtoy_upd (x_ip (Some ip) true)).
  - intros s X ip R _ _ _. apply goes_modify. by apply (xtoy_upd (x_ip None false)).
  - intros s X ip dst off n (E & H1 & H2) _ _ Hd. cbn. apply goes_bind, goes_modify, goes_ret. split; [done|]. split; [|done].
    assert (1001 < dst) as Hlt by (destruct Hd as [[-> _]|[[-> _]|(pt & z & -> & _)]]; lia).
    cbn [t_m]. transitivity (rd8 (t_m s) 1001); [|done]. cbn. by rewrite !lookup_insert_ne by lia.
  - intros s X R. cbn. apply goes_bind, goes_gets. destruct R as (E & H1). rewrite E. destruct (xpts X !! 7) eqn:E7; [apply goes_ret; by left|].
    apply goes_bind, goes_modify, goes_ret. right. split; [done|]. split; [done|]. by apply (xtoy_upd (fun X => x_pts (<[7 := 0]> (xpts X)) X)).
  - intros s X pt sz z R _ _. apply goes_modify. by apply (xtoy_upd (fun X => x_pts (delete pt (xpts X)) X)).
  - intros s X pt old new perm z R _ _. cbn. destruct (Z.leb_spec (2 ^ 31) (Z.max old new)); [done|].
    destruct (Z.eqb_spec (Z.max old new) 0); [apply goes_ret; by left|]. apply goes_bind, goes_modify, goes_ret.
    right. split; [done|]. split; [done|]. split; [done|]. by apply (xtoy_upd (fun X => x_pts (<[pt := Z.max old new]> (xpts X)) X)).
  - intros s X pt va z R _ _. by apply goes_ret.
  - intros s X pt va z R _ _. by apply goes_ret.
  - intros s X pt va a n z R _. by apply goes_ret.
  - intros s X pt va l z R _. by apply goes_ret.
Defined.

Definition xtoy0 : xtoy := XT (XV false None false {[3 := 4096]} 3 4096 {[1000]}) (wr8 ∅ 1000 97).

(** The program named by the string "a" gets one argument. *)
Lemma exec_spec_witness :
  goes (exec 5000 5100 6000 2 1000 [1000]) (fun r s' => (r = -1 /\ erep s' (t_v xtoy0)) \/
    (r = 1 /\ exists pt z, xpts (t_v xtoy0) !! pt = None /\ erep s' (execd (t_v xtoy0) pt z))) xtoy0 /\
  exists s', exec 5000 5100 6000 2 1000 [1000] xtoy0 = Ret 1 s'.
Proof.
  split.
  - apply (exec_spec xtoy0 (t_v xtoy0) 1000 [1000]); try reflexivity.
    + split; [reflexivity|]. split; [reflexivity|]. intros a Ha. change (a ∈ ({[1000]} : gset Z)) in Ha. by apply elem_of_singleton in Ha.
    + intros a Ha. change (a ∈ ({[1000]} : gset Z)). apply elem_of_singleton. apply elem_of_cons in Ha as [->|Ha]; [done|]. by apply list_elem_of_singleton in Ha.
  - eexists. vm_compute. reflexivity.
Defined.
